(** * Credential pools and the request mutation chain of the proxy

    A shallow embedding of
      - src/shared/key-management/groq/provider.ts      (Module Groq)
      - src/shared/key-management/groq/checker.ts       (Groq.handleAxiosError,
                                                          Module GroqChecker)
      - src/shared/key-management/openrouter/provider.ts (Module OpenRouter)
      - src/shared/key-management/openrouter/checker.ts  (OpenRouter.handleAxiosError,
                                                          Module OpenRouterChecker)
      - src/proxy/groq.ts, src/proxy/openrouter.ts       (Module Mutation)

    Conventions.
      - A provider object is a [Store]: its [keys] array, plus the number of
        [Date.now()] readings taken so far.  [Date.now()] is the next value
        of a clock [nat -> Z]; nothing is assumed about the clock unless a
        lemma says so.
      - Methods are computations in a state-and-exception monad [M].  A JS
        exception keeps the writes made before it was thrown.
      - Pool objects are shared: [filter] and [sort] hand out references.  A
        reference is the index of the object in [keys], paired with the
        object as it is while no write happens.
      - JS numbers that hold timestamps and the prompt counter are [Z],
        and [n++] rounds to the nearest double; the token counters are
        doubles and are added as such; balances are [Q] (every finite
        double is a rational), [null] is [None]. *)

From Stdlib Require Import ZArith QArith Lia Lqa.
From Stdlib Require Import PrimFloat.
From stdpp Require Import base option list strings pretty gmap.

Local Open Scope Z_scope.

(* ===================================================================== *)
(** ** The runtime: exceptions, the clock, arrays *)
(* ===================================================================== *)

Module JS.

(** The two exceptions these sources can raise: [PaymentRequiredError]
    (thrown by [get]) and the [TypeError] of the engine when a property
    of [undefined] is read or written. *)
Inductive Error : Type :=
| PaymentRequiredError (message : string)
| TypeError.

(** The provider object: [this.keys], the readings of [Date.now()] taken
    so far, and the checker (created by [init()] when key checking is on;
    of the checker only the number of [scheduleNextCheck()] calls it has
    received is kept). *)
Record Store (K : Type) : Type := mkStore {
  keys : list K;
  ticks : nat;
  checker : option nat
}.
Arguments mkStore {K} _ _ _.
Arguments keys {K} _.
Arguments ticks {K} _.
Arguments checker {K} _.

Inductive Res (S A : Type) : Type :=
| Ok (a : A) (s : S)
| Throw (e : Error) (s : S).
Arguments Ok {S A} _ _.
Arguments Throw {S A} _ _.

Definition M (S A : Type) : Type := S -> Res S A.

Definition ret {S A} (a : A) : M S A := fun s => Ok a s.

Definition bind {S A B} (m : M S A) (f : A -> M S B) : M S B :=
  fun s => match m s with
           | Ok a s' => f a s'
           | Throw e s' => Throw e s'
           end.

Definition throw {S A} (e : Error) : M S A := fun s => Throw e s.

Definition final_store {S A} (r : Res S A) : S :=
  match r with Ok _ s => s | Throw _ s => s end.

Section Clock.
Variable clock : nat -> Z.
Context {K : Type}.

(** [Date.now()] *)
Definition Date_now : M (Store K) Z :=
  fun s => Ok (clock (ticks s)) (mkStore (keys s) (S (ticks s)) (checker s)).

Definition get_keys : M (Store K) (list K) := fun s => Ok (keys s) s.

Definition put_keys (l : list K) : M (Store K) unit :=
  fun s => Ok tt (mkStore l (ticks s) (checker s)).

(** [this.checker?.scheduleNextCheck()] *)
Definition scheduleNextCheck : M (Store K) unit :=
  fun s => Ok tt (mkStore (keys s) (ticks s) (S <$> checker s)).
End Clock.

Definition monotone (clock : nat -> Z) : Prop :=
  forall m n : nat, (m <= n)%nat -> clock m <= clock n.

(** References into an array: every object with its index. *)
Fixpoint refs_from {A} (i : nat) (l : list A) : list (nat * A) :=
  match l with
  | [] => []
  | x :: l' => (i, x) :: refs_from (S i) l'
  end.

Definition refs {A} (l : list A) : list (nat * A) := refs_from 0 l.

(** [Array.prototype.filter] with a callback that may read the clock. *)
Fixpoint filterM {S A} (p : A -> M S bool) (l : list A) : M S (list A) :=
  match l with
  | [] => ret []
  | x :: l' =>
      bind (p x) (fun b =>
      bind (filterM p l') (fun r =>
      ret (if b then x :: r else r)))
  end.

(** [Array.prototype.forEach] *)
Fixpoint forEach {S A} (f : A -> M S unit) (l : list A) : M S unit :=
  match l with
  | [] => ret tt
  | x :: l' => bind (f x) (fun _ => forEach f l')
  end.

(** [Array.prototype.sort(cmp)].  The comparator answers with the sign of
    its number: [Lt] puts [a] first, [Gt] puts [b] first, [Eq] keeps the
    order.  The engine's sort is stable (ES2019), and a stable sort by a
    consistent comparator has one possible result, so insertion from the
    right describes it. *)
Fixpoint sort_insert {A} (cmp : A -> A -> comparison) (x : A) (l : list A)
  : list A :=
  match l with
  | [] => [x]
  | y :: l' =>
      match cmp x y with
      | Gt => y :: sort_insert cmp x l'
      | _ => x :: y :: l'
      end
  end.

Fixpoint sort {A} (cmp : A -> A -> comparison) (l : list A) : list A :=
  match l with
  | [] => []
  | x :: l' => sort_insert cmp x (sort cmp l')
  end.

(** Under the comparator [cmp], [a] may stand before [b]. *)
Definition before {A} (cmp : A -> A -> comparison) (a b : A) : Prop :=
  cmp a b <> Gt.

(** [l.find(k => k.hash === h)], with the index of the hit. *)
Definition find_by {A} (hash_of : A -> string) (h : string) (l : list A)
  : option (nat * A) :=
  list_find (fun k => hash_of k = h) l.

(** The property names every plain object inherits from
    [Object.prototype].  Reading one of them on an object that has no own
    property of that name gives a truthy value: a function, or the
    prototype itself for [__proto__]. *)
Definition Object_prototype : list string :=
  ["constructor"; "__defineGetter__"; "__defineSetter__"; "hasOwnProperty";
   "__lookupGetter__"; "__lookupSetter__"; "isPrototypeOf";
   "propertyIsEnumerable"; "toString"; "valueOf"; "__proto__";
   "toLocaleString"].

(** The double nearest to an integer below 2^1024 in magnitude, ties to
    the even mantissa.  The integers up to 2^53 in magnitude are doubles;
    from there on the doubles are the multiples of the power of two that
    leaves a mantissa of 53 bits. *)
Definition to_double (x : Z) : Z :=
  let a := Z.abs x in
  if a <? 2 ^ 53 then x
  else
    let u := 2 ^ (Z.log2 a - 52) in
    let q := a / u in
    let r := a mod u in
    let up := if 2 * r <? u then false
              else if u <? 2 * r then true
              else Z.odd q in
    Z.sgn x * ((if up then q + 1 else q) * u).

(** [n++] on a number that holds an integer. *)
Definition increment (n : Z) : Z := to_double (n + 1).

End JS.

Import JS.

Declare Scope js_scope.
Delimit Scope js_scope with js.
Notation "x <- m ;; k" := (bind m (fun x => k))
  (at level 100, m at next level, right associativity) : js_scope.
Notation "m ;;; k" := (bind m (fun _ => k))
  (at level 100, right associativity) : js_scope.

Local Open Scope js_scope.

(* ===================================================================== *)
(** ** groq/provider.ts and groq/checker.ts *)
(* ===================================================================== *)

Module Groq.

Inductive GroqKeyStatus : Type :=
| ACTIVE | RATE_LIMITED | INVALID | DEAD | UNKNOWN.

#[global] Instance GroqKeyStatus_eq_dec : EqDecision GroqKeyStatus.
Proof. solve_decision. Defined.

Record RateLimitInfo : Type := mkRateLimitInfo {
  rpm : Z; tpm : Z; rpd : option Z; tpd : option Z
}.

(** [{ input: number; output: number }]: the token counters are doubles. *)
Record Usage : Type := mkUsage {
  input : PrimFloat.float;
  output : PrimFloat.float
}.

(** [GroqKey].  [key] is [None] only in the redacted copies made by
    [list()]; [tokenUsage] and [rateLimitInfo] may be [undefined]. *)
Record GroqKey : Type := mkKey {
  key : option string;
  service : string;
  modelFamilies : list string;
  isDisabled : bool;
  isRevoked : bool;
  isOverQuota : bool;
  promptCount : Z;
  lastUsed : Z;
  rateLimitedAt : Z;
  rateLimitedUntil : Z;
  hash : string;
  lastChecked : Z;
  tokenUsage : option (gmap string Usage);
  status : GroqKeyStatus;
  info : string;
  rateLimitInfo : option RateLimitInfo
}.

(** One own property of a [Partial<GroqKey>] object. *)
Inductive Field : Type :=
| F_key (v : option string)
| F_service (v : string)
| F_modelFamilies (v : list string)
| F_isDisabled (v : bool)
| F_isRevoked (v : bool)
| F_isOverQuota (v : bool)
| F_promptCount (v : Z)
| F_lastUsed (v : Z)
| F_rateLimitedAt (v : Z)
| F_rateLimitedUntil (v : Z)
| F_hash (v : string)
| F_lastChecked (v : Z)
| F_tokenUsage (v : option (gmap string Usage))
| F_status (v : GroqKeyStatus)
| F_info (v : string)
| F_rateLimitInfo (v : option RateLimitInfo).

(** A [Partial<GroqKey>]: its own properties, in insertion order.  An
    assignment [u.p = v] appends; reads and [Object.assign] take the last
    value of a property. *)
Definition Partial : Type := list Field.

(** [k.p = v] for the property held by [f]. *)
Definition set_field (k : GroqKey) (f : Field) : GroqKey :=
  match f with
  | F_key v => mkKey v (service k) (modelFamilies k) (isDisabled k) (isRevoked k) (isOverQuota k) (promptCount k) (lastUsed k) (rateLimitedAt k) (rateLimitedUntil k) (hash k) (lastChecked k) (tokenUsage k) (status k) (info k) (rateLimitInfo k)
  | F_service v => mkKey (key k) v (modelFamilies k) (isDisabled k) (isRevoked k) (isOverQuota k) (promptCount k) (lastUsed k) (rateLimitedAt k) (rateLimitedUntil k) (hash k) (lastChecked k) (tokenUsage k) (status k) (info k) (rateLimitInfo k)
  | F_modelFamilies v => mkKey (key k) (service k) v (isDisabled k) (isRevoked k) (isOverQuota k) (promptCount k) (lastUsed k) (rateLimitedAt k) (rateLimitedUntil k) (hash k) (lastChecked k) (tokenUsage k) (status k) (info k) (rateLimitInfo k)
  | F_isDisabled v => mkKey (key k) (service k) (modelFamilies k) v (isRevoked k) (isOverQuota k) (promptCount k) (lastUsed k) (rateLimitedAt k) (rateLimitedUntil k) (hash k) (lastChecked k) (tokenUsage k) (status k) (info k) (rateLimitInfo k)
  | F_isRevoked v => mkKey (key k) (service k) (modelFamilies k) (isDisabled k) v (isOverQuota k) (promptCount k) (lastUsed k) (rateLimitedAt k) (rateLimitedUntil k) (hash k) (lastChecked k) (tokenUsage k) (status k) (info k) (rateLimitInfo k)
  | F_isOverQuota v => mkKey (key k) (service k) (modelFamilies k) (isDisabled k) (isRevoked k) v (promptCount k) (lastUsed k) (rateLimitedAt k) (rateLimitedUntil k) (hash k) (lastChecked k) (tokenUsage k) (status k) (info k) (rateLimitInfo k)
  | F_promptCount v => mkKey (key k) (service k) (modelFamilies k) (isDisabled k) (isRevoked k) (isOverQuota k) v (lastUsed k) (rateLimitedAt k) (rateLimitedUntil k) (hash k) (lastChecked k) (tokenUsage k) (status k) (info k) (rateLimitInfo k)
  | F_lastUsed v => mkKey (key k) (service k) (modelFamilies k) (isDisabled k) (isRevoked k) (isOverQuota k) (promptCount k) v (rateLimitedAt k) (rateLimitedUntil k) (hash k) (lastChecked k) (tokenUsage k) (status k) (info k) (rateLimitInfo k)
  | F_rateLimitedAt v => mkKey (key k) (service k) (modelFamilies k) (isDisabled k) (isRevoked k) (isOverQuota k) (promptCount k) (lastUsed k) v (rateLimitedUntil k) (hash k) (lastChecked k) (tokenUsage k) (status k) (info k) (rateLimitInfo k)
  | F_rateLimitedUntil v => mkKey (key k) (service k) (modelFamilies k) (isDisabled k) (isRevoked k) (isOverQuota k) (promptCount k) (lastUsed k) (rateLimitedAt k) v (hash k) (lastChecked k) (tokenUsage k) (status k) (info k) (rateLimitInfo k)
  | F_hash v => mkKey (key k) (service k) (modelFamilies k) (isDisabled k) (isRevoked k) (isOverQuota k) (promptCount k) (lastUsed k) (rateLimitedAt k) (rateLimitedUntil k) v (lastChecked k) (tokenUsage k) (status k) (info k) (rateLimitInfo k)
  | F_lastChecked v => mkKey (key k) (service k) (modelFamilies k) (isDisabled k) (isRevoked k) (isOverQuota k) (promptCount k) (lastUsed k) (rateLimitedAt k) (rateLimitedUntil k) (hash k) v (tokenUsage k) (status k) (info k) (rateLimitInfo k)
  | F_tokenUsage v => mkKey (key k) (service k) (modelFamilies k) (isDisabled k) (isRevoked k) (isOverQuota k) (promptCount k) (lastUsed k) (rateLimitedAt k) (rateLimitedUntil k) (hash k) (lastChecked k) v (status k) (info k) (rateLimitInfo k)
  | F_status v => mkKey (key k) (service k) (modelFamilies k) (isDisabled k) (isRevoked k) (isOverQuota k) (promptCount k) (lastUsed k) (rateLimitedAt k) (rateLimitedUntil k) (hash k) (lastChecked k) (tokenUsage k) v (info k) (rateLimitInfo k)
  | F_info v => mkKey (key k) (service k) (modelFamilies k) (isDisabled k) (isRevoked k) (isOverQuota k) (promptCount k) (lastUsed k) (rateLimitedAt k) (rateLimitedUntil k) (hash k) (lastChecked k) (tokenUsage k) (status k) v (rateLimitInfo k)
  | F_rateLimitInfo v => mkKey (key k) (service k) (modelFamilies k) (isDisabled k) (isRevoked k) (isOverQuota k) (promptCount k) (lastUsed k) (rateLimitedAt k) (rateLimitedUntil k) (hash k) (lastChecked k) (tokenUsage k) (status k) (info k) v
  end.

(** [Object.assign(k, u)] *)
Definition Object_assign (k : GroqKey) (u : Partial) : GroqKey :=
  fold_left set_field u k.

(** [u.status], [undefined] when the property is absent. *)
Definition get_status (u : Partial) : option GroqKeyStatus :=
  fold_left (fun acc f => match f with F_status v => Some v | _ => acc end)
            u None.

(** The update object as [update] has extended it when it reaches
    [Object.assign], for a pool record whose status was [prev]. *)
Definition extended (prev : GroqKeyStatus) (u : Partial) : Partial :=
  match get_status u with
  | Some st =>
      let u := u ++ [F_isOverQuota (bool_decide (st = RATE_LIMITED)
                                    || bool_decide (st = INVALID))] in
      if bool_decide (st = DEAD) || bool_decide (st = INVALID) then
        u ++ [F_isDisabled true; F_isRevoked (bool_decide (st = DEAD))]
      else if bool_decide (prev = DEAD) || bool_decide (prev = INVALID) then
        u ++ [F_isDisabled false; F_isRevoked false]
      else u
  | None => u
  end.

Definition STATUS_PRIORITY (s : GroqKeyStatus) : Z :=
  match s with
  | ACTIVE => 5
  | RATE_LIMITED => 2
  | UNKNOWN => 1
  | INVALID => 0
  | DEAD => 0
  end.

Definition RATE_LIMIT_LOCKOUT : Z := 60000.

(** The update object [recheck] passes to [update] for every record. *)
Definition recheck_update : Partial :=
  [F_status UNKNOWN; F_info "Recheck scheduled"; F_isOverQuota false;
   F_isDisabled false; F_isRevoked false; F_lastChecked 0;
   F_rateLimitInfo None].

(** A record as the [update] of [recheck] leaves it. *)
Definition after_recheck (k : GroqKey) : GroqKey :=
  Object_assign k (F_lastChecked 0 :: extended (status k) recheck_update).

(** A record with the two stamps [markRateLimited] writes at time [t]. *)
Definition locked (t : Z) (k : GroqKey) : GroqKey :=
  set_field (set_field k (F_rateLimitedAt t))
            (F_rateLimitedUntil (t + RATE_LIMIT_LOCKOUT)).

(** checker.ts *)
Definition MIN_CHECK_INTERVAL : Z := 3 * 1000.
Definition KEY_CHECK_PERIOD : Z := 1000 * 60 * 60 * 2.

(** The record the constructor pushes for one configured secret;
    [digest] is the first 8 hex digits of the SHA-256 of the secret. *)
Definition newKey (digest : string -> string) (secret : string) : GroqKey :=
  {| key := Some secret;
     service := "groq";
     modelFamilies :=
       ["groq-llama-8b"; "groq-llama-70b"; "groq-llama-4-17b";
        "groq-gpt-oss-120b"; "groq-gpt-oss-20b"; "groq-kimi";
        "groq-qwen-32b"];
     isDisabled := false;
     isRevoked := false;
     isOverQuota := false;
     promptCount := 0;
     lastUsed := 0;
     rateLimitedAt := 0;
     rateLimitedUntil := 0;
     hash := "groq-" +:+ digest secret;
     lastChecked := 0;
     tokenUsage := Some ∅;
     status := UNKNOWN;
     info := "Key not yet checked";
     rateLimitInfo := None |}.

(** The constructor, from the de-duplicated secrets [bareKeys]. *)
Definition load (digest : string -> string) (bareKeys : list string)
  : Store GroqKey :=
  mkStore (newKey digest <$> bareKeys) 0 None.

Section Provider.
Variable clock : nat -> Z.
(** [getGroqModelFamily] of shared/models, which is not among these
    sources. *)
Variable getGroqModelFamily : string -> string.

Abbreviation St := (Store GroqKey).
Abbreviation now := (Date_now (K := GroqKey) clock).

(** [init()], given [config.checkKeys]. *)
Definition init (checkKeys : bool) : M St unit :=
  fun s => Ok tt (if checkKeys then mkStore (keys s) (ticks s) (Some 0%nat)
                  else s).

(** [list()] *)
Definition list_keys : M St (list GroqKey) :=
  ks <- get_keys ;;
  ret ((fun k => set_field k (F_key None)) <$> ks).

(** The callback of the [filter] in [get]. *)
Definition selectable (requiredFamily : string) (r : nat * GroqKey)
  : M St bool :=
  let k := r.2 in
  if isDisabled k then ret false
  else if STATUS_PRIORITY (status k) =? 0 then ret false
  else if isOverQuota k then ret false
  else
    t <- now ;;
    let isRateLimited := t <? rateLimitedUntil k in
    if isRateLimited then ret false
    else ret (bool_decide (requiredFamily ∈ modelFamilies k)).

(** The checks of that callback which do not read the clock. *)
Definition healthy (requiredFamily : string) (k : GroqKey) : Prop :=
  isDisabled k = false /\ STATUS_PRIORITY (status k) <> 0
  /\ isOverQuota k = false /\ requiredFamily ∈ modelFamilies k.

(** The comparator of the [sort] in [get]. *)
Definition by_priority (a b : nat * GroqKey) : comparison :=
  let aPriority := STATUS_PRIORITY (status a.2) in
  let bPriority := STATUS_PRIORITY (status b.2) in
  if negb (aPriority =? bPriority) then (bPriority - aPriority) ?= 0
  else (lastUsed a.2 - lastUsed b.2) ?= 0.

(** [get(rawModel, streaming)] *)
Definition get (rawModel : string) (streaming : bool) : M St GroqKey :=
  let requiredFamily := getGroqModelFamily rawModel in
  ks <- get_keys ;;
  availableKeys <- filterM (selectable requiredFamily) (refs ks) ;;
  if bool_decide (length availableKeys = 0%nat) then
    throw (PaymentRequiredError "No active Groq keys available.")
  else
    let keysByPriority := sort by_priority availableKeys in
    match keysByPriority with
    | [] => throw TypeError
    | (i, selectedKey) :: _ =>
        t <- now ;;
        put_keys (alter (fun k => set_field k (F_lastUsed t)) i ks) ;;;
        ret (set_field selectedKey (F_lastUsed t))
    end.

(** [disable(key)] *)
Definition disable (k : GroqKey) : M St unit :=
  ks <- get_keys ;;
  match find_by hash (hash k) ks with
  | None => ret tt
  | Some (i, keyFromPool) =>
      if isDisabled keyFromPool then ret tt
      else put_keys (<[i := set_field keyFromPool (F_isDisabled true)]> ks)
  end.

(** [update(hash, update)] *)
Definition update (h : string) (u : Partial) : M St unit :=
  ks <- get_keys ;;
  let keyFromPool := find_by hash h ks in
  u <- match get_status u with
       | Some st =>
           let isOverQuota :=
             bool_decide (st = RATE_LIMITED) || bool_decide (st = INVALID) in
           let u := u ++ [F_isOverQuota isOverQuota] in
           if bool_decide (st = DEAD) || bool_decide (st = INVALID) then
             ret (u ++ [F_isDisabled true;
                        F_isRevoked (bool_decide (st = DEAD))])
           else
             match keyFromPool with
             | None => throw TypeError
             | Some (_, k) =>
                 if bool_decide (status k = DEAD)
                    || bool_decide (status k = INVALID)
                 then ret (u ++ [F_isDisabled false; F_isRevoked false])
                 else ret u
             end
       | None => ret u
       end ;;
  t <- now ;;
  match keyFromPool with
  | None => throw TypeError
  | Some (i, k) =>
      put_keys (<[i := Object_assign k (F_lastChecked t :: u)]> ks)
  end.

(** [available()] *)
Definition available : M St Z :=
  ks <- get_keys ;;
  ret (Z.of_nat (length (filter (fun k => isDisabled k = false) ks))).

(** [incrementUsage(keyHash, modelFamily, usage)].  [tokenUsage] is a
    plain object: for a family name it inherits from [Object.prototype]
    and does not own, [key.tokenUsage[modelFamily]] is truthy, no entry is
    created, and the sums are written to the inherited value, not to the
    record. *)
Definition incrementUsage (keyHash modelFamily : string) (usage : Usage)
  : M St unit :=
  ks <- get_keys ;;
  match find_by hash keyHash ks with
  | None => ret tt
  | Some (i, k) =>
      let k := set_field k (F_promptCount (increment (promptCount k))) in
      let tu := default ∅ (tokenUsage k) in
      let tu := match tu !! modelFamily with
                | Some _ => tu
                | None =>
                    if bool_decide (modelFamily ∈ Object_prototype) then tu
                    else <[modelFamily := mkUsage PrimFloat.zero
                                                  PrimFloat.zero]> tu
                end in
      let tu := alter (fun c =>
                         mkUsage (PrimFloat.add (input c) (input usage))
                                 (PrimFloat.add (output c) (output usage)))
                      modelFamily tu in
      put_keys (<[i := set_field k (F_tokenUsage (Some tu))]> ks)
  end.

(** [markRateLimited(keyHash)] *)
Definition markRateLimited (keyHash : string) : M St unit :=
  ks <- get_keys ;;
  let k := find_by hash keyHash ks in
  t <- now ;;
  match k with
  | None => throw TypeError
  | Some (i, k) =>
      put_keys (<[i := set_field (set_field k (F_rateLimitedAt t))
                                 (F_rateLimitedUntil (t + RATE_LIMIT_LOCKOUT))]> ks)
  end ;;;
  update keyHash [F_status RATE_LIMITED; F_info "Rate limited by proxy"].

(** [recheck()] *)
Definition recheck : M St unit :=
  ks <- get_keys ;;
  forEach (fun k => update (hash k) recheck_update) ks ;;;
  scheduleNextCheck.

(** [GroqKeyChecker.handleAxiosError(key, error)]; [http] is
    [error.response?.status]. *)
Definition handleAxiosError (k : GroqKey) (http : option Z) : M St unit :=
  if bool_decide (http = Some 429) then
    update (hash k)
      [F_status RATE_LIMITED; F_info "Rate limit exceeded during check."]
  else if bool_decide (http = Some 401) then
    update (hash k)
      [F_status INVALID; F_info "Invalid API key."; F_isDisabled true;
       F_isRevoked true]
  else
    let oneHour := 60 * 60 * 1000 in
    t <- now ;;
    let next := t - (KEY_CHECK_PERIOD - oneHour) in
    update (hash k) [F_lastChecked next].

End Provider.

(** [GroqKeyUpdate]: a [Partial<GroqKey>] without the properties [key],
    [hash], [lastUsed], [promptCount], [rateLimitedAt] and
    [rateLimitedUntil]. *)
Definition GroqKeyUpdate (u : Partial) : Prop :=
  Forall (fun f => match f with
                   | F_key _ | F_hash _ | F_lastUsed _ | F_promptCount _
                   | F_rateLimitedAt _ | F_rateLimitedUntil _ => False
                   | _ => True
                   end) u.

(** The properties a [GroqKeyUpdate] cannot name. *)
Definition bookkeeping (k : GroqKey)
  : option string * string * Z * Z * Z * Z :=
  (key k, hash k, lastUsed k, promptCount k, rateLimitedAt k,
   rateLimitedUntil k).

End Groq.

(* ===================================================================== *)
(** ** openrouter/provider.ts and openrouter/checker.ts *)
(* ===================================================================== *)

Module OpenRouter.

Inductive OpenRouterKeyStatus : Type :=
| PAID_Balance          (* 'PAID (Balance)' *)
| PAID_No_Credits       (* 'PAID (No Credits)' *)
| PAID_Limit_Reached    (* 'PAID (Limit Reached)' *)
| FREE_Active           (* 'FREE (Active)' *)
| FREE_Exhausted        (* 'FREE (Exhausted)' *)
| DEAD                  (* 'DEAD' *)
| UNKNOWN_Rate_Limited. (* 'UNKNOWN (Rate Limited)' *)

#[global] Instance OpenRouterKeyStatus_eq_dec : EqDecision OpenRouterKeyStatus.
Proof. solve_decision. Defined.

(** The string a status is at run time. *)
Definition text (s : OpenRouterKeyStatus) : string :=
  match s with
  | PAID_Balance => "PAID (Balance)"
  | PAID_No_Credits => "PAID (No Credits)"
  | PAID_Limit_Reached => "PAID (Limit Reached)"
  | FREE_Active => "FREE (Active)"
  | FREE_Exhausted => "FREE (Exhausted)"
  | DEAD => "DEAD"
  | UNKNOWN_Rate_Limited => "UNKNOWN (Rate Limited)"
  end.

(** [s.startsWith(p)] and [s.includes(p)] *)
Definition startsWith (s p : string) : bool := String.prefix p s.
Definition includes (s p : string) : bool :=
  bool_decide (is_Some (String.index 0 p s)).

(** [{ input: number; output: number }]: the token counters are doubles. *)
Record Usage : Type := mkUsage {
  input : PrimFloat.float;
  output : PrimFloat.float
}.

(** [OpenRouterKey].  [key] is [None] only in the redacted copies made by
    [list()]; [remainingBalance] is [None] for [null]. *)
Record OpenRouterKey : Type := mkKey {
  key : option string;
  service : string;
  modelFamilies : list string;
  isDisabled : bool;
  isRevoked : bool;
  isOverQuota : bool;
  promptCount : Z;
  lastUsed : Z;
  rateLimitedAt : Z;
  rateLimitedUntil : Z;
  hash : string;
  lastChecked : Z;
  tokenUsage : option (gmap string Usage);
  status : OpenRouterKeyStatus;
  info : string;
  isPaid : bool;
  remainingBalance : option Q;
  isFreeTier : bool
}.

(** One own property of a [Partial<OpenRouterKey>] object. *)
Inductive Field : Type :=
| F_key (v : option string)
| F_service (v : string)
| F_modelFamilies (v : list string)
| F_isDisabled (v : bool)
| F_isRevoked (v : bool)
| F_isOverQuota (v : bool)
| F_promptCount (v : Z)
| F_lastUsed (v : Z)
| F_rateLimitedAt (v : Z)
| F_rateLimitedUntil (v : Z)
| F_hash (v : string)
| F_lastChecked (v : Z)
| F_tokenUsage (v : option (gmap string Usage))
| F_status (v : OpenRouterKeyStatus)
| F_info (v : string)
| F_isPaid (v : bool)
| F_remainingBalance (v : option Q)
| F_isFreeTier (v : bool).

(** A [Partial<OpenRouterKey>]: its own properties, in insertion order.
    An assignment [u.p = v] appends; reads and [Object.assign] take the
    last value of a property. *)
Definition Partial : Type := list Field.

(** [k.p = v] for the property held by [f]. *)
Definition set_field (k : OpenRouterKey) (f : Field) : OpenRouterKey :=
  match f with
  | F_key v => mkKey v (service k) (modelFamilies k) (isDisabled k) (isRevoked k) (isOverQuota k) (promptCount k) (lastUsed k) (rateLimitedAt k) (rateLimitedUntil k) (hash k) (lastChecked k) (tokenUsage k) (status k) (info k) (isPaid k) (remainingBalance k) (isFreeTier k)
  | F_service v => mkKey (key k) v (modelFamilies k) (isDisabled k) (isRevoked k) (isOverQuota k) (promptCount k) (lastUsed k) (rateLimitedAt k) (rateLimitedUntil k) (hash k) (lastChecked k) (tokenUsage k) (status k) (info k) (isPaid k) (remainingBalance k) (isFreeTier k)
  | F_modelFamilies v => mkKey (key k) (service k) v (isDisabled k) (isRevoked k) (isOverQuota k) (promptCount k) (lastUsed k) (rateLimitedAt k) (rateLimitedUntil k) (hash k) (lastChecked k) (tokenUsage k) (status k) (info k) (isPaid k) (remainingBalance k) (isFreeTier k)
  | F_isDisabled v => mkKey (key k) (service k) (modelFamilies k) v (isRevoked k) (isOverQuota k) (promptCount k) (lastUsed k) (rateLimitedAt k) (rateLimitedUntil k) (hash k) (lastChecked k) (tokenUsage k) (status k) (info k) (isPaid k) (remainingBalance k) (isFreeTier k)
  | F_isRevoked v => mkKey (key k) (service k) (modelFamilies k) (isDisabled k) v (isOverQuota k) (promptCount k) (lastUsed k) (rateLimitedAt k) (rateLimitedUntil k) (hash k) (lastChecked k) (tokenUsage k) (status k) (info k) (isPaid k) (remainingBalance k) (isFreeTier k)
  | F_isOverQuota v => mkKey (key k) (service k) (modelFamilies k) (isDisabled k) (isRevoked k) v (promptCount k) (lastUsed k) (rateLimitedAt k) (rateLimitedUntil k) (hash k) (lastChecked k) (tokenUsage k) (status k) (info k) (isPaid k) (remainingBalance k) (isFreeTier k)
  | F_promptCount v => mkKey (key k) (service k) (modelFamilies k) (isDisabled k) (isRevoked k) (isOverQuota k) v (lastUsed k) (rateLimitedAt k) (rateLimitedUntil k) (hash k) (lastChecked k) (tokenUsage k) (status k) (info k) (isPaid k) (remainingBalance k) (isFreeTier k)
  | F_lastUsed v => mkKey (key k) (service k) (modelFamilies k) (isDisabled k) (isRevoked k) (isOverQuota k) (promptCount k) v (rateLimitedAt k) (rateLimitedUntil k) (hash k) (lastChecked k) (tokenUsage k) (status k) (info k) (isPaid k) (remainingBalance k) (isFreeTier k)
  | F_rateLimitedAt v => mkKey (key k) (service k) (modelFamilies k) (isDisabled k) (isRevoked k) (isOverQuota k) (promptCount k) (lastUsed k) v (rateLimitedUntil k) (hash k) (lastChecked k) (tokenUsage k) (status k) (info k) (isPaid k) (remainingBalance k) (isFreeTier k)
  | F_rateLimitedUntil v => mkKey (key k) (service k) (modelFamilies k) (isDisabled k) (isRevoked k) (isOverQuota k) (promptCount k) (lastUsed k) (rateLimitedAt k) v (hash k) (lastChecked k) (tokenUsage k) (status k) (info k) (isPaid k) (remainingBalance k) (isFreeTier k)
  | F_hash v => mkKey (key k) (service k) (modelFamilies k) (isDisabled k) (isRevoked k) (isOverQuota k) (promptCount k) (lastUsed k) (rateLimitedAt k) (rateLimitedUntil k) v (lastChecked k) (tokenUsage k) (status k) (info k) (isPaid k) (remainingBalance k) (isFreeTier k)
  | F_lastChecked v => mkKey (key k) (service k) (modelFamilies k) (isDisabled k) (isRevoked k) (isOverQuota k) (promptCount k) (lastUsed k) (rateLimitedAt k) (rateLimitedUntil k) (hash k) v (tokenUsage k) (status k) (info k) (isPaid k) (remainingBalance k) (isFreeTier k)
  | F_tokenUsage v => mkKey (key k) (service k) (modelFamilies k) (isDisabled k) (isRevoked k) (isOverQuota k) (promptCount k) (lastUsed k) (rateLimitedAt k) (rateLimitedUntil k) (hash k) (lastChecked k) v (status k) (info k) (isPaid k) (remainingBalance k) (isFreeTier k)
  | F_status v => mkKey (key k) (service k) (modelFamilies k) (isDisabled k) (isRevoked k) (isOverQuota k) (promptCount k) (lastUsed k) (rateLimitedAt k) (rateLimitedUntil k) (hash k) (lastChecked k) (tokenUsage k) v (info k) (isPaid k) (remainingBalance k) (isFreeTier k)
  | F_info v => mkKey (key k) (service k) (modelFamilies k) (isDisabled k) (isRevoked k) (isOverQuota k) (promptCount k) (lastUsed k) (rateLimitedAt k) (rateLimitedUntil k) (hash k) (lastChecked k) (tokenUsage k) (status k) v (isPaid k) (remainingBalance k) (isFreeTier k)
  | F_isPaid v => mkKey (key k) (service k) (modelFamilies k) (isDisabled k) (isRevoked k) (isOverQuota k) (promptCount k) (lastUsed k) (rateLimitedAt k) (rateLimitedUntil k) (hash k) (lastChecked k) (tokenUsage k) (status k) (info k) v (remainingBalance k) (isFreeTier k)
  | F_remainingBalance v => mkKey (key k) (service k) (modelFamilies k) (isDisabled k) (isRevoked k) (isOverQuota k) (promptCount k) (lastUsed k) (rateLimitedAt k) (rateLimitedUntil k) (hash k) (lastChecked k) (tokenUsage k) (status k) (info k) (isPaid k) v (isFreeTier k)
  | F_isFreeTier v => mkKey (key k) (service k) (modelFamilies k) (isDisabled k) (isRevoked k) (isOverQuota k) (promptCount k) (lastUsed k) (rateLimitedAt k) (rateLimitedUntil k) (hash k) (lastChecked k) (tokenUsage k) (status k) (info k) (isPaid k) (remainingBalance k) v
  end.

(** [Object.assign(k, u)] *)
Definition Object_assign (k : OpenRouterKey) (u : Partial) : OpenRouterKey :=
  fold_left set_field u k.

(** [u.status], [undefined] when the property is absent. *)
Definition get_status (u : Partial) : option OpenRouterKeyStatus :=
  fold_left (fun acc f => match f with F_status v => Some v | _ => acc end)
            u None.

(** The update object as [update] has extended it when it reaches
    [Object.assign], for a pool record whose status was [prev]. *)
Definition extended (prev : OpenRouterKeyStatus) (u : Partial) : Partial :=
  match get_status u with
  | Some st =>
      let u := u ++ [F_isPaid (startsWith (text st) "PAID");
                     F_isOverQuota (includes (text st) "No Credits"
                                    || includes (text st) "Exhausted"
                                    || includes (text st) "Limit Reached");
                     F_isFreeTier (startsWith (text st) "FREE")] in
      if bool_decide (st = DEAD) || bool_decide (st = UNKNOWN_Rate_Limited)
      then u ++ [F_isDisabled true; F_isRevoked (bool_decide (st = DEAD))]
      else if bool_decide (prev = DEAD)
              || bool_decide (prev = UNKNOWN_Rate_Limited)
      then u ++ [F_isDisabled false; F_isRevoked false]
      else u
  | None => u
  end.

Definition STATUS_PRIORITY (s : OpenRouterKeyStatus) : Z :=
  match s with
  | PAID_Balance => 5
  | FREE_Active => 3
  | PAID_No_Credits => 1
  | PAID_Limit_Reached => 1
  | FREE_Exhausted => 1
  | DEAD => 0
  | UNKNOWN_Rate_Limited => 0
  end.

Definition RATE_LIMIT_LOCKOUT : Z := 15000.

(** The update object [recheck] passes to [update] for every record. *)
Definition recheck_update : Partial :=
  [F_status UNKNOWN_Rate_Limited; F_info "Recheck scheduled";
   F_isPaid false; F_isOverQuota false; F_isDisabled false;
   F_isRevoked false; F_lastChecked 0; F_remainingBalance None;
   F_isFreeTier false].

(** A record as the [update] of [recheck] leaves it. *)
Definition after_recheck (k : OpenRouterKey) : OpenRouterKey :=
  Object_assign k (F_lastChecked 0 :: extended (status k) recheck_update).

(** A record with the two stamps [markRateLimited] writes at time [t]. *)
Definition locked (t : Z) (k : OpenRouterKey) : OpenRouterKey :=
  set_field (set_field k (F_rateLimitedAt t))
            (F_rateLimitedUntil (t + RATE_LIMIT_LOCKOUT)).

(** checker.ts *)
Definition MIN_CHECK_INTERVAL : Z := 3 * 1000.
Definition KEY_CHECK_PERIOD : Z := 1000 * 60 * 60 * 24.

Definition paid_message : string :=
  "No active OpenRouter Paid keys available (Balance depleted or key limit reached).".
Definition free_message : string :=
  "No active OpenRouter Free keys available (Free tier exhausted).".

(** The record the constructor pushes for one configured secret;
    [digest] is the first 8 hex digits of the SHA-256 of the secret. *)
Definition newKey (digest : string -> string) (secret : string)
  : OpenRouterKey :=
  {| key := Some secret;
     service := "openrouter";
     modelFamilies := ["openrouter-paid"; "openrouter-free"];
     isDisabled := false;
     isRevoked := false;
     isOverQuota := false;
     promptCount := 0;
     lastUsed := 0;
     rateLimitedAt := 0;
     rateLimitedUntil := 0;
     hash := "or-" +:+ digest secret;
     lastChecked := 0;
     tokenUsage := Some ∅;
     status := UNKNOWN_Rate_Limited;
     info := "Key not yet checked";
     isPaid := false;
     remainingBalance := None;
     isFreeTier := false |}.

(** The constructor, from the de-duplicated secrets [bareKeys]. *)
Definition load (digest : string -> string) (bareKeys : list string)
  : Store OpenRouterKey :=
  mkStore (newKey digest <$> bareKeys) 0 None.

Section Provider.
Variable clock : nat -> Z.
(** [getOpenRouterModuleFamily] of shared/models, which is not among
    these sources. *)
Variable getOpenRouterModuleFamily : string -> string.

Abbreviation St := (Store OpenRouterKey).
Abbreviation now := (Date_now (K := OpenRouterKey) clock).

(** [init()], given [config.checkKeys]. *)
Definition init (checkKeys : bool) : M St unit :=
  fun s => Ok tt (if checkKeys then mkStore (keys s) (ticks s) (Some 0%nat)
                  else s).

(** [list()] *)
Definition list_keys : M St (list OpenRouterKey) :=
  ks <- get_keys ;;
  ret ((fun k => set_field k (F_key None)) <$> ks).

(** The callback of the [filter] in [get]. *)
Definition selectable (requiredFamily : string) (r : nat * OpenRouterKey)
  : M St bool :=
  let k := r.2 in
  if isDisabled k then ret false
  else if STATUS_PRIORITY (status k) =? 0 then ret false
  else if bool_decide (requiredFamily = "openrouter-paid")
          && (negb (isPaid k)
              || match remainingBalance k with
                 | Some b => Qle_bool b 0
                 | None => false
                 end)
  then ret false
  else if bool_decide (requiredFamily = "openrouter-free")
          && (isFreeTier k && bool_decide (status k = FREE_Exhausted))
  then ret false
  else
    t <- now ;;
    let isRateLimited := t <? rateLimitedUntil k in
    if isRateLimited then ret false
    else ret (bool_decide (requiredFamily ∈ modelFamilies k)).

(** The checks of that callback which do not read the clock. *)
Definition healthy (requiredFamily : string) (k : OpenRouterKey) : Prop :=
  isDisabled k = false /\ STATUS_PRIORITY (status k) <> 0
  /\ (requiredFamily = "openrouter-paid" ->
        isPaid k = true
        /\ match remainingBalance k with
           | Some b => (0 < b)%Q
           | None => True
           end)
  /\ (requiredFamily = "openrouter-free" ->
        ~ (isFreeTier k = true /\ status k = FREE_Exhausted))
  /\ requiredFamily ∈ modelFamilies k.

(** [k.remainingBalance || 0] *)
Definition balance_or_0 (k : OpenRouterKey) : Q :=
  default 0%Q (remainingBalance k).

(** The comparator of the [sort] in [get]. *)
Definition by_priority (a b : nat * OpenRouterKey) : comparison :=
  let aPriority := STATUS_PRIORITY (status a.2) in
  let bPriority := STATUS_PRIORITY (status b.2) in
  if negb (aPriority =? bPriority) then (bPriority - aPriority) ?= 0
  else
    let aBalance := balance_or_0 a.2 in
    let bBalance := balance_or_0 b.2 in
    if negb (Qeq_bool aBalance bBalance)
    then Qcompare (bBalance - aBalance) 0
    else (lastUsed a.2 - lastUsed b.2) ?= 0.

(** [get(rawModel, streaming)] *)
Definition get (rawModel : string) (streaming : bool)
  : M St OpenRouterKey :=
  let requiredFamily := getOpenRouterModuleFamily rawModel in
  ks <- get_keys ;;
  availableKeys <- filterM (selectable requiredFamily) (refs ks) ;;
  if bool_decide (length availableKeys = 0%nat) then
    let message :=
      if bool_decide (requiredFamily = "openrouter-paid")
      then paid_message else free_message in
    throw (PaymentRequiredError message)
  else
    let keysByPriority := sort by_priority availableKeys in
    match keysByPriority with
    | [] => throw TypeError
    | (i, selectedKey) :: _ =>
        t <- now ;;
        put_keys (alter (fun k => set_field k (F_lastUsed t)) i ks) ;;;
        ret (set_field selectedKey (F_lastUsed t))
    end.

(** [disable(key)] *)
Definition disable (k : OpenRouterKey) : M St unit :=
  ks <- get_keys ;;
  match find_by hash (hash k) ks with
  | None => ret tt
  | Some (i, keyFromPool) =>
      if isDisabled keyFromPool then ret tt
      else put_keys (<[i := set_field keyFromPool (F_isDisabled true)]> ks)
  end.

(** [update(hash, update)] *)
Definition update (h : string) (u : Partial) : M St unit :=
  ks <- get_keys ;;
  let keyFromPool := find_by hash h ks in
  u <- match get_status u with
       | Some st =>
           let isPaid := startsWith (text st) "PAID" in
           let isOverQuota :=
             includes (text st) "No Credits"
             || includes (text st) "Exhausted"
             || includes (text st) "Limit Reached" in
           let u := u ++ [F_isPaid isPaid; F_isOverQuota isOverQuota;
                          F_isFreeTier (startsWith (text st) "FREE")] in
           if bool_decide (st = DEAD)
              || bool_decide (st = UNKNOWN_Rate_Limited) then
             ret (u ++ [F_isDisabled true;
                        F_isRevoked (bool_decide (st = DEAD))])
           else
             match keyFromPool with
             | None => throw TypeError
             | Some (_, k) =>
                 if bool_decide (status k = DEAD)
                    || bool_decide (status k = UNKNOWN_Rate_Limited)
                 then ret (u ++ [F_isDisabled false; F_isRevoked false])
                 else ret u
             end
       | None => ret u
       end ;;
  t <- now ;;
  match keyFromPool with
  | None => throw TypeError
  | Some (i, k) =>
      put_keys (<[i := Object_assign k (F_lastChecked t :: u)]> ks)
  end.

(** [available()] *)
Definition available : M St Z :=
  ks <- get_keys ;;
  ret (Z.of_nat (length (filter (fun k => isDisabled k = false) ks))).

(** [incrementUsage(keyHash, modelFamily, usage)].  [tokenUsage] is a
    plain object: for a family name it inherits from [Object.prototype]
    and does not own, [key.tokenUsage[modelFamily]] is truthy, no entry is
    created, and the sums are written to the inherited value, not to the
    record. *)
Definition incrementUsage (keyHash modelFamily : string) (usage : Usage)
  : M St unit :=
  ks <- get_keys ;;
  match find_by hash keyHash ks with
  | None => ret tt
  | Some (i, k) =>
      let k := set_field k (F_promptCount (increment (promptCount k))) in
      let tu := default ∅ (tokenUsage k) in
      let tu := match tu !! modelFamily with
                | Some _ => tu
                | None =>
                    if bool_decide (modelFamily ∈ Object_prototype) then tu
                    else <[modelFamily := mkUsage PrimFloat.zero
                                                  PrimFloat.zero]> tu
                end in
      let tu := alter (fun c =>
                         mkUsage (PrimFloat.add (input c) (input usage))
                                 (PrimFloat.add (output c) (output usage)))
                      modelFamily tu in
      put_keys (<[i := set_field k (F_tokenUsage (Some tu))]> ks)
  end.

(** [markRateLimited(keyHash)] *)
Definition markRateLimited (keyHash : string) : M St unit :=
  ks <- get_keys ;;
  let k := find_by hash keyHash ks in
  t <- now ;;
  match k with
  | None => throw TypeError
  | Some (i, k) =>
      put_keys (<[i := set_field (set_field k (F_rateLimitedAt t))
                                 (F_rateLimitedUntil (t + RATE_LIMIT_LOCKOUT))]> ks)
  end.

(** [recheck()] *)
Definition recheck : M St unit :=
  ks <- get_keys ;;
  forEach (fun k => update (hash k) recheck_update) ks ;;;
  scheduleNextCheck.

(** [OpenRouterKeyChecker.handleAxiosError(key, error)]; [http] is
    [error.response?.status]. *)
Definition handleAxiosError (k : OpenRouterKey) (http : option Z)
  : M St unit :=
  if bool_decide (http = Some 429) then
    update (hash k)
      [F_status UNKNOWN_Rate_Limited;
       F_info "Rate limit exceeded during check.";
       F_remainingBalance None]
  else
    let oneHour := 60 * 60 * 1000 in
    t <- now ;;
    let next := t - (KEY_CHECK_PERIOD - oneHour) in
    update (hash k) [F_lastChecked next; F_remainingBalance None].

End Provider.

(** [OpenRouterKeyUpdate]: a [Partial<OpenRouterKey>] without the
    properties [key], [hash], [lastUsed], [promptCount], [rateLimitedAt]
    and [rateLimitedUntil]. *)
Definition OpenRouterKeyUpdate (u : Partial) : Prop :=
  Forall (fun f => match f with
                   | F_key _ | F_hash _ | F_lastUsed _ | F_promptCount _
                   | F_rateLimitedAt _ | F_rateLimitedUntil _ => False
                   | _ => True
                   end) u.

(** The properties an [OpenRouterKeyUpdate] cannot name. *)
Definition bookkeeping (k : OpenRouterKey)
  : option string * string * Z * Z * Z * Z :=
  (key k, hash k, lastUsed k, promptCount k, rateLimitedAt k,
   rateLimitedUntil k).

End OpenRouter.

(* ===================================================================== *)
(** ** proxy/groq.ts, proxy/openrouter.ts: the mutator chains *)
(* ===================================================================== *)

Module Mutation.

(** The outbound request as the mutators see it: [req.url], the headers,
    [req.body.model], the payload [req.body], and the serialized body once
    it has been finalized. *)
Record Request : Type := mkRequest {
  url : string;
  headers : gmap string string;
  model : string;
  payload : string;
  body : option string
}.

(** Modelled from the spec: the changes a [ProxyReqManager] makes on
    behalf of a mutator (middleware/request/proxy-req-manager.ts is not
    among these sources): to the path, to a header, to the body, and the
    credential it remembers for the later steps.  [K] is the type of the
    credentials of the provider's pool. *)
Inductive Change (K : Type) : Type :=
| SetPath (newPath : string)
| SetHeader (name value : string)
| SetBody (newBody : string)
| SetKey (k : K).

Arguments SetPath {K} newPath.
Arguments SetHeader {K} name value.
Arguments SetBody {K} newBody.
Arguments SetKey {K} k.

(** Modelled from the spec: the [ProxyReqManager] of one dispatch attempt
    (proxy-req-manager.ts is missing): "the original request snapshot,
    the list of applied changes (for reversal), and the current mutable
    view handed to each mutator". *)
Record ProxyReqManager (K : Type) : Type := mkManager {
  original : Request;
  changes : list (Change K);
  request : Request;
  key : option K
}.

Arguments mkManager {K} original changes request key.
Arguments original {K} p.
Arguments changes {K} p.
Arguments request {K} p.
Arguments key {K} p.

(** Modelled from the spec: the manager is created around the outbound
    request and captures it as the pristine original
    (proxy-req-manager.ts is missing). *)
Definition create {K : Type} (r : Request) : ProxyReqManager K :=
  mkManager r [] r None.

(** Modelled from the spec: one recorded change applied to the current
    view (proxy-req-manager.ts is missing). *)
Definition apply_change {K : Type} (c : Change K) (m : ProxyReqManager K)
  : ProxyReqManager K :=
  let r := request m in
  match c with
  | SetPath p =>
      mkManager (original m) (changes m ++ [c])
        (mkRequest p (headers r) (model r) (payload r) (body r)) (key m)
  | SetHeader n v =>
      mkManager (original m) (changes m ++ [c])
        (mkRequest (url r) (<[n := v]> (headers r)) (model r) (payload r)
                   (body r)) (key m)
  | SetBody b =>
      mkManager (original m) (changes m ++ [c])
        (mkRequest (url r) (headers r) (model r) (payload r) (Some b))
        (key m)
  | SetKey k =>
      mkManager (original m) (changes m ++ [c]) r (Some k)
  end.

Definition setPath {K : Type} (p : string) :=
  apply_change (K := K) (SetPath p).
Definition setHeader {K : Type} (n v : string) :=
  apply_change (K := K) (SetHeader n v).
Definition setBody {K : Type} (b : string) :=
  apply_change (K := K) (SetBody b).
Definition setKey {K : Type} (k : K) := apply_change (SetKey k).

(** Modelled from the spec: before the chain is re-run the manager
    restores the pristine request it captured and forgets the recorded
    changes (proxy-req-manager.ts is missing). *)
Definition revert {K : Type} (m : ProxyReqManager K) : ProxyReqManager K :=
  mkManager (original m) [] (original m) None.

(** What goes on the wire: path, headers and body. *)
Definition outbound {K : Type} (m : ProxyReqManager K)
  : string * gmap string string * option string :=
  (url (request m), headers (request m), body (request m)).

(** [s.split("?")[0]] *)
Fixpoint before_query (s : string) : string :=
  match s with
  | EmptyString => EmptyString
  | String c s' =>
      if Ascii.eqb c (Ascii.ascii_of_nat 63) then EmptyString else String c (before_query s')
  end.

(** [s.substring(n)] *)
Fixpoint substring (n : nat) (s : string) : string :=
  match n, s with
  | O, _ => s
  | S n', String _ s' => substring n' s'
  | S _, EmptyString => EmptyString
  end.

(** [selectUpstreamPath(manager)] *)
Definition selectUpstreamPath {K : Type} (manager : ProxyReqManager K)
  : ProxyReqManager K :=
  let req := request manager in
  let pathname := before_query (url req) in
  let newPathname :=
    if OpenRouter.startsWith pathname "/v1/" then substring 3 pathname
    else if OpenRouter.startsWith pathname "/v1" then substring 2 pathname
    else pathname in
  setPath (newPathname +:+ substring (String.length pathname) (url req))
          manager.

(** The path [selectUpstreamPath] sets, as a function of [req.url]. *)
Definition upstream_path (u : string) : string :=
  let pathname := before_query u in
  (if OpenRouter.startsWith pathname "/v1/" then substring 3 pathname
   else if OpenRouter.startsWith pathname "/v1" then substring 2 pathname
   else pathname) +:+ substring (String.length pathname) u.

Section Chain.
(** The pool of the provider the route serves: its credentials, its
    [get(model, streaming)], and the secret of a credential ([key.key],
    which [list()] leaves undefined). *)
Context {K : Type}.
Variable get : string -> bool -> M (Store K) K.
Variable secret : K -> option string.
(** The serializer of the payload used by [finalizeBody]. *)
Variable serialize : string -> string.

(** A [ProxyReqMutator]: it receives the manager and may throw. *)
Definition ProxyReqMutator : Type :=
  ProxyReqManager K -> M (Store K) (ProxyReqManager K).

(** Modelled from the spec: [addKey] (mutators/add-key.ts is missing),
    "credential injection (reads a credential from the Credential
    Pool's get, sets the auth header)"; the credential is recorded in
    the manager for the steps that need it later. *)
Definition addKey : ProxyReqMutator := fun m =>
  k <- get (model (request m)) false ;;
  ret (setHeader "authorization"
         ("Bearer " +:+ default "undefined" (secret k))
         (setKey k m)).

(** Modelled from the spec: [finalizeBody] (mutators/finalize-body.ts
    is missing), "body finalization (serializes/normalizes the outbound
    payload, e.g. recomputing Content-Length)". *)
Definition finalizeBody : ProxyReqMutator := fun m =>
  let text := serialize (payload (request m)) in
  ret (setHeader "content-length" (pretty (String.length text))
         (setBody text m)).

(** The manager runs the mutators in order; a throw aborts the chain. *)
Fixpoint run (chain : list ProxyReqMutator) (m : ProxyReqManager K)
  : M (Store K) (ProxyReqManager K) :=
  match chain with
  | [] => ret m
  | f :: rest => m' <- f m ;; run rest m'
  end.

(** The changes [addKey] and [finalizeBody] record, in a manager whose
    view is [r], when [get] hands out the credential [k]. *)
Definition key_and_body (r : Request) (k : K) : list (Change K) :=
  [SetKey k;
   SetHeader "authorization" ("Bearer " +:+ default "undefined" (secret k));
   SetBody (serialize (payload r));
   SetHeader "content-length"
     (pretty (String.length (serialize (payload r))))].

(** The view those two steps leave. *)
Definition sent (r : Request) (k : K) : Request :=
  mkRequest (url r)
    (<["content-length" := pretty (String.length (serialize (payload r)))]>
       (<["authorization" := "Bearer " +:+ default "undefined" (secret k)]>
          (headers r)))
    (model r) (payload r) (Some (serialize (payload r))).

End Chain.

(** [mutations: [addKey, finalizeBody]] of proxy/groq.ts. *)
Definition groq_mutations (clock : nat -> Z)
           (getGroqModelFamily : string -> string)
           (serialize : string -> string)
  : list (ProxyReqMutator (K := Groq.GroqKey)) :=
  [addKey (Groq.get clock getGroqModelFamily) Groq.key;
   finalizeBody serialize].

(** [mutations: [selectUpstreamPath, addKey, finalizeBody]] of
    proxy/openrouter.ts. *)
Definition openrouter_mutations (clock : nat -> Z)
           (getOpenRouterModuleFamily : string -> string)
           (serialize : string -> string)
  : list (ProxyReqMutator (K := OpenRouter.OpenRouterKey)) :=
  [fun m => ret (selectUpstreamPath m);
   addKey (OpenRouter.get clock getOpenRouterModuleFamily) OpenRouter.key;
   finalizeBody serialize].

End Mutation.

(* ===================================================================== *)
(** ** groq/checker.ts: the probe *)
(* ===================================================================== *)

Module GroqChecker.
Import Groq.

(** One element of [data.data] in the answer to [GET /models], with the
    fields the checker reads: [None] is a property that is missing. *)
Record ModelItem : Type := mkItem {
  id : option string;
  object : option string;
  created : option Z;
  owned_by : option string
}.

(** [data.error], when it is truthy: its [message] and [type], [None] for
    [undefined]. *)
Record ErrorBody : Type := mkErrorBody {
  message : option string;
  type : option string
}.

(** A response body as the checker looks at it: a falsy value ([null],
    [undefined], an empty string), or a value with its [data] property
    when that is an array (an element may be [null]) and its [error]
    property when that is truthy. *)
Inductive Data : Type :=
| Falsy
| Body (data : option (list (option ModelItem))) (error : option ErrorBody).

(** What [axios.get] does: it resolves with a response, or it rejects with
    an error that has a [message] and may carry the response. *)
Inductive AxiosOutcome : Type :=
| Resolved (status : Z) (data : Data)
| Rejected (response : option (Z * Data)) (message : string).

(** Truthiness of a string that may be [undefined]. *)
Definition truthy (v : option string) : bool :=
  match v with
  | Some s => negb (bool_decide (s = EmptyString))
  | None => false
  end.

(** [`${v}`] for a string that may be [undefined]. *)
Definition show (v : option string) : string := default "undefined" v.

(** [makeRequest(key, endpoint)]: the status and body [testKey] goes on
    with. *)
Definition makeRequest (o : AxiosOutcome) : Z * Data :=
  match o with
  | Resolved status data => (status, data)
  | Rejected response msg =>
      let fallback :=
        Body None (Some (mkErrorBody (Some msg) (Some "network_error"))) in
      match response with
      | Some (status, data) =>
          (if bool_decide (status = 0) then 500 else status,
           match data with Falsy => fallback | _ => data end)
      | None => (500, fallback)
      end
  end.

(** The callback of [every] in [isModelsResponse]; reading a property of
    a [null] element throws. *)
Definition item_ok (item : option ModelItem) : Error + bool :=
  match item with
  | None => inl TypeError
  | Some it =>
      inr (truthy (id it) && truthy (object it)
           && bool_decide (created it <> None))
  end.

(** [Array.prototype.every] with that callback: it stops at the first
    element that fails or throws. *)
Fixpoint every_item_ok (items : list (option ModelItem)) : Error + bool :=
  match items with
  | [] => inr true
  | item :: rest =>
      match item_ok item with
      | inl e => inl e
      | inr false => inr false
      | inr true => every_item_ok rest
      end
  end.

(** [isModelsResponse(data)], as a condition. *)
Definition isModelsResponse (d : Data) : Error + bool :=
  match d with
  | Falsy => inr false
  | Body None _ => inr false
  | Body (Some items) _ => every_item_ok items
  end.

(** [isErrorResponse(data)], as a condition. *)
Definition isErrorResponse (d : Data) : bool :=
  match d with
  | Falsy => false
  | Body _ None => false
  | Body _ (Some e) => truthy (message e)
  end.

(** [testKey(key)], from what [axios.get] did: the status and the info it
    returns ([rateLimitInfo] is [undefined] in every case), or the
    exception that escapes from [isModelsResponse]. *)
Definition testKey (o : AxiosOutcome) : Error + (GroqKeyStatus * string) :=
  let (status, d) := makeRequest o in
  let classify_error :=
    match d with
    | Body _ (Some e) =>
        if truthy (message e) then
          let errorMsg := show (message e) in
          let errorType := show (type e) in
          if bool_decide (status = 401) then
            (INVALID, "Invalid key: " +:+ errorMsg)
          else if bool_decide (status = 429) then
            (RATE_LIMITED, "Rate limited: " +:+ errorMsg)
          else
            (UNKNOWN, "Error (" +:+ errorType +:+ "): " +:+ errorMsg)
        else (UNKNOWN, "Unexpected response status: " +:+ pretty status)
    | _ => (UNKNOWN, "Unexpected response status: " +:+ pretty status)
    end in
  if bool_decide (status = 200) then
    match isModelsResponse d with
    | inl e => inl e
    | inr true =>
        let modelCount :=
          match d with
          | Body (Some items) _ => length items
          | _ => 0%nat
          end in
        inr (ACTIVE,
             "Valid key with access to " +:+ pretty modelCount +:+ " models")
    | inr false => inr classify_error
    end
  else inr classify_error.

Section Checker.
Variable clock : nat -> Z.

(** [testKeyOrFail(key)], from what [axios.get] did. *)
Definition testKeyOrFail (k : GroqKey) (o : AxiosOutcome)
  : M (Store GroqKey) unit :=
  match testKey o with
  | inl e => throw e
  | inr (st, inf) =>
      update clock (hash k) [F_status st; F_info inf; F_rateLimitInfo None]
  end.

End Checker.

End GroqChecker.

(* ===================================================================== *)
(** ** openrouter/checker.ts: the probe of one credential *)
(* ===================================================================== *)

Module OpenRouterChecker.
Import OpenRouter.

(** A response body as the first part of [testKey] looks at it: [null] or
    [undefined], whose properties cannot be read; another falsy value (an
    empty string, 0, false); or any other value, with whether its [data]
    property is truthy and with [error?.message] ([None] when that is
    undefined). *)
Inductive KeyResult : Type :=
| Nullish
| FalsyValue
| Value (data : bool) (error_message : option string).

(** What the axios call does: it resolves with a response, or it rejects
    with an error that has a [message] and may carry the response. *)
Inductive AxiosOutcome : Type :=
| Resolved (status : Z) (data : KeyResult)
| Rejected (response : option (Z * KeyResult)) (message : string).

(** [makeRequest(key, 'key')]: the status and body [testKey] goes on
    with. *)
Definition makeRequest (o : AxiosOutcome) : Z * KeyResult :=
  match o with
  | Resolved status data => (status, data)
  | Rejected response msg =>
      let fallback := Value false (Some msg) in
      match response with
      | Some (status, data) =>
          (if bool_decide (status = 0) then 500 else status,
           match data with
           | Nullish | FalsyValue => fallback
           | _ => data
           end)
      | None => (500, fallback)
      end
  end.

(** What [testKey] resolves with: status, info and remaining balance. *)
Definition TestResult : Type := OpenRouterKeyStatus * string * option Q.

(** [testKey(key)] up to its second [return], from what the request to
    the key endpoint did: the exception of reading [data] of [null], or
    the result of one of the two early returns, or [None] when the
    endpoint answered 200 with data and [testKey] goes on to the tier and
    balance logic. *)
Definition testKey_early (o : AxiosOutcome) : Error + option TestResult :=
  let (keyStatus, keyResult) := makeRequest o in
  if bool_decide (keyStatus = 429) then
    inr (Some (UNKNOWN_Rate_Limited, "Could not verify due to rate limits",
               None))
  else
    match keyResult with
    | Nullish => inl TypeError
    | FalsyValue => inr (Some (DEAD, "Invalid response", None))
    | Value keyData msg =>
        if negb (bool_decide (keyStatus = 200)) || negb keyData then
          let errorMsg :=
            if GroqChecker.truthy msg then default "Invalid response" msg
            else "Invalid response" in
          inr (Some (DEAD, errorMsg, None))
        else inr None
    end.

Section Checker.
Variable clock : nat -> Z.

(** [testKeyOrFail(key)], from what [testKey] resolved with. *)
Definition testKeyOrFail (k : OpenRouterKey) (result : TestResult)
  : M (Store OpenRouterKey) unit :=
  let '(status, info, remainingBalance) := result in
  update clock (hash k)
    [F_status status; F_info info; F_remainingBalance remainingBalance].

End Checker.

End OpenRouterChecker.

(* ===================================================================== *)
(** ** Facts about the runtime *)
(* ===================================================================== *)

Module JSFacts.

Lemma elem_of_refs_from {A} (l : list A) (i j : nat) (x : A) :
  (j, x) ∈ refs_from i l <-> exists n : nat, j = (i + n)%nat /\ l !! n = Some x.
Proof.
  revert i. induction l as [|y l IH]; intros i; simpl.
  - split; [intros H; inversion H | intros (n & _ & H); discriminate].
  - rewrite elem_of_cons, IH. split.
    + intros [E | (n & -> & Hn)].
      * inversion E; subst. exists 0%nat. split; [lia | reflexivity].
      * exists (S n). split; [lia | exact Hn].
    + intros ([|n] & -> & Hn); simpl in Hn.
      * left. inversion Hn; subst. f_equal. lia.
      * right. exists n. split; [lia | exact Hn].
Qed.

Lemma elem_of_refs {A} (l : list A) (j : nat) (x : A) :
  (j, x) ∈ refs l <-> l !! j = Some x.
Proof.
  unfold refs. rewrite elem_of_refs_from. split.
  - intros (n & -> & H). exact H.
  - intros H. exists j. split; [reflexivity | exact H].
Qed.

Section Sort.
Context {A : Type} (cmp : A -> A -> comparison).

Lemma elem_of_sort_insert (x y : A) (l : list A) :
  y ∈ sort_insert cmp x l <-> y = x \/ y ∈ l.
Proof.
  induction l as [|z l IH]; simpl.
  - rewrite list_elem_of_singleton. split; [tauto | intros [H|H]; [exact H | inversion H]].
  - destruct (cmp x z); rewrite ?elem_of_cons, ?IH; tauto.
Qed.

Lemma elem_of_sort (y : A) (l : list A) : y ∈ sort cmp l <-> y ∈ l.
Proof.
  induction l as [|x l IH]; simpl; [tauto|].
  rewrite elem_of_sort_insert, IH, elem_of_cons. tauto.
Qed.

Lemma sort_nil_inv (l : list A) : sort cmp l = [] -> l = [].
Proof.
  destruct l as [|x l]; [reflexivity|]. intros H.
  assert (Hx : x ∈ sort cmp (x :: l)) by (apply elem_of_sort; left).
  rewrite H in Hx. inversion Hx.
Qed.

Abbreviation before := (JS.before cmp).

Hypothesis before_trans :
  forall a b c, before a b -> before b c -> before a c.
Hypothesis before_total : forall a b, cmp a b = Gt -> before b a.

Lemma sort_insert_head (x h : A) (l t : list A) :
  sort_insert cmp x l = h :: t ->
  (forall y, y ∈ l -> match l with [] => True | h' :: _ => before h' y end) ->
  forall y, y ∈ x :: l -> before h y.
Proof.
  destruct l as [|z l]; simpl; intros E Hmin y Hy.
  - inversion E; subst. apply list_elem_of_singleton in Hy. subst.
    unfold JS.before. intros Hgt.
    specialize (before_total _ _ Hgt). contradiction.
  - destruct (cmp x z) eqn:Hc; inversion E; subst; clear E.
    + apply elem_of_cons in Hy as [-> | Hy].
      * unfold JS.before. intros Hgt. apply (before_total _ _ Hgt). exact Hgt.
      * apply (before_trans _ z); [unfold JS.before; congruence | auto].
    + apply elem_of_cons in Hy as [-> | Hy].
      * unfold JS.before. intros Hgt. apply (before_total _ _ Hgt). exact Hgt.
      * apply (before_trans _ z); [unfold JS.before; congruence | auto].
    + apply elem_of_cons in Hy as [-> | Hy].
      * apply before_total. exact Hc.
      * auto.
Qed.

(** The first element of the sorted array may stand before every
    element of the array. *)
Lemma sort_head_min (l : list A) (h : A) (t : list A) :
  sort cmp l = h :: t -> forall y, y ∈ l -> before h y.
Proof.
  revert h t. induction l as [|x l IH]; intros h t E y Hy.
  - inversion Hy.
  - simpl in E.
    assert (Hmin : forall z, z ∈ sort cmp l ->
              match sort cmp l with [] => True | h' :: _ => before h' z end).
    { intros z Hz. destruct (sort cmp l) as [|h' t'] eqn:Hs; [exact I|].
      apply (IH h' t' eq_refl). apply elem_of_sort. rewrite Hs. exact Hz. }
    apply (sort_insert_head x h (sort cmp l) t E Hmin).
    apply elem_of_cons in Hy as [-> | Hy]; [left|].
    right. apply elem_of_sort. exact Hy.
Qed.
End Sort.

Lemma find_by_None {A} (hash_of : A -> string) (h : string) (l : list A) :
  find_by hash_of h l = None <-> forall k, k ∈ l -> hash_of k <> h.
Proof.
  unfold find_by. rewrite list_find_None, Forall_forall. reflexivity.
Qed.

(** A hit stays where it is when the object there is overwritten by one
    with the same hash. *)
Lemma find_by_insert {A} (hash_of : A -> string) (h : string) (l : list A)
      (i : nat) (k k' : A) :
  find_by hash_of h l = Some (i, k) -> hash_of k' = h ->
  find_by hash_of h (<[i := k']> l) = Some (i, k').
Proof.
  unfold find_by. intros Hf Hk'.
  apply list_find_Some in Hf as (Hi & _ & Hlt).
  apply list_find_Some. split; [|split].
  - apply list_lookup_insert_eq. eapply lookup_lt_Some. exact Hi.
  - exact Hk'.
  - intros j y Hj Hji. rewrite list_lookup_insert_ne in Hj by lia.
    exact (Hlt j y Hj Hji).
Qed.

Lemma find_by_lookup {A} (hash_of : A -> string) (h : string) (l : list A)
      (i : nat) (k : A) :
  find_by hash_of h l = Some (i, k) -> l !! i = Some k /\ hash_of k = h.
Proof.
  unfold find_by. intros Hf.
  apply list_find_Some in Hf as (Hi & Hh & _). auto.
Qed.

Section Filter.
Context {K : Type} (clock : nat -> Z).
Context (p : nat * K -> M (Store K) bool).
Context (healthy : K -> Prop) (rateLimitedUntil : K -> Z).

(** The callback reads the clock at most once, writes nothing, and
    accepts a reference when its object is healthy and its lockout is
    over at that reading. *)
Hypothesis p_spec : forall (r : nat * K) (s : Store K),
  exists (b : bool) (t' : nat),
    p r s = Ok b (mkStore (keys s) t' (checker s))
    /\ (ticks s <= t' <= S (ticks s))%nat
    /\ (b = true -> healthy r.2)
    /\ (healthy r.2 ->
        t' = S (ticks s)
        /\ (b = true <-> rateLimitedUntil r.2 <= clock (ticks s))).

(** The [filter] with such a callback always returns, leaves the pool
    as it is, and keeps the references that pass the checks. *)
Lemma filterM_spec (l : list (nat * K)) (s : Store K) :
  exists (r : list (nat * K)) (t' : nat),
    filterM p l s = Ok r (mkStore (keys s) t' (checker s))
    /\ (ticks s <= t')%nat
    /\ (forall x, x ∈ r ->
          x ∈ l /\ healthy x.2
          /\ exists n : nat, (ticks s <= n < t')%nat
                             /\ rateLimitedUntil x.2 <= clock n)
    /\ (forall x, x ∈ l -> healthy x.2 ->
          (forall n : nat, (ticks s <= n < t')%nat ->
                           rateLimitedUntil x.2 <= clock n) ->
          x ∈ r).
Proof.
  revert s. induction l as [|x l IH]; intros s.
  - exists [], (ticks s). destruct s; simpl. unfold ret.
    split; [reflexivity|]. split; [lia|].
    split; intros y Hy; inversion Hy.
  - destruct (p_spec x s) as (b & t1 & Hsel & Ht1 & Hb & Hh).
    destruct (IH (mkStore (keys s) t1 (checker s)))
      as (r & t' & Hf & Ht' & Hin & Hout).
    simpl in *.
    exists (if b then x :: r else r), t'.
    unfold bind at 1. rewrite Hsel.
    unfold bind at 1. rewrite Hf. unfold ret.
    split; [reflexivity|]. split; [lia|]. split.
    + intros y Hy.
      assert (Hcase : (b = true /\ y = x) \/ y ∈ r).
      { destruct b; [apply elem_of_cons in Hy as [->|Hy]|]; auto. }
      destruct Hcase as [[-> ->] | Hy'].
      * split; [left|]. split; [auto|].
        destruct (Hh (Hb eq_refl)) as [-> Hiff].
        exists (ticks s). split; [lia|]. apply Hiff. reflexivity.
      * destruct (Hin y Hy') as (Hl & Hhy & n & Hn & Hrl).
        split; [right; exact Hl|]. split; [exact Hhy|].
        exists n. split; [lia | exact Hrl].
    + intros y Hy Hhy Hall.
      apply elem_of_cons in Hy as [-> | Hy].
      * destruct (Hh Hhy) as [-> Hiff].
        assert (b = true) as -> by (apply Hiff, Hall; lia).
        left.
      * assert (y ∈ r).
        { apply Hout; [exact Hy | exact Hhy |].
          intros n Hn. apply Hall. lia. }
        destruct b; [right|]; assumption.
Qed.
End Filter.

Section ForEach.
Context {K : Type} (hash_of : K -> string).
Context (f : K -> M (Store K) unit) (reset : K -> K).

Hypothesis reset_hash : forall k, hash_of (reset k) = hash_of k.

(** The callback rewrites the first record that has the hash of its
    argument, and nothing else. *)
Hypothesis f_spec : forall (k : K) (s : Store K) (i : nat) (k0 : K),
  find_by hash_of (hash_of k) (keys s) = Some (i, k0) ->
  f k s = Ok tt (mkStore (<[i := reset k0]> (keys s)) (S (ticks s))
                         (checker s)).

Lemma find_by_middle (done todo : list K) (k : K) :
  NoDup (hash_of <$> (done ++ k :: todo)) ->
  find_by hash_of (hash_of k) ((reset <$> done) ++ k :: todo)
  = Some (length done, k).
Proof.
  intros Hnd. unfold find_by. apply list_find_Some. split; [|split].
  - apply list_lookup_middle. rewrite length_fmap. reflexivity.
  - reflexivity.
  - intros j y Hj Hlt Hy.
    rewrite lookup_app_l in Hj by (rewrite length_fmap; exact Hlt).
    apply list_lookup_fmap_Some in Hj as (x & -> & Hx).
    rewrite reset_hash in Hy.
    rewrite fmap_app in Hnd. apply NoDup_app in Hnd as (_ & Hdisj & _).
    apply (Hdisj (hash_of x)).
    + apply list_elem_of_fmap. exists x. split; [reflexivity|].
      apply list_elem_of_lookup. exists j. exact Hx.
    + rewrite Hy. simpl. left.
Qed.

(** With distinct hashes in the pool, a [forEach] over the pool with such
    a callback rewrites every record, each one once. *)
Lemma forEach_by_hash (todo done : list K) (s : Store K) :
  keys s = (reset <$> done) ++ todo ->
  NoDup (hash_of <$> (done ++ todo)) ->
  forEach f todo s
  = Ok tt (mkStore (reset <$> (done ++ todo))
                   (ticks s + length todo) (checker s)).
Proof.
  revert done s. induction todo as [|k todo IH]; intros done s Hks Hnd.
  - simpl. unfold ret. rewrite app_nil_r in *. rewrite <- Hks.
    destruct s; simpl. f_equal. f_equal. lia.
  - simpl. unfold bind.
    rewrite (f_spec k s (length done) k)
      by (rewrite Hks; apply find_by_middle; exact Hnd).
    rewrite (IH (done ++ [k])).
    + simpl. rewrite <- app_assoc. simpl. f_equal. f_equal. lia.
    + simpl. rewrite Hks.
      replace (length done) with (length (reset <$> done) + 0)%nat
        by (rewrite length_fmap; lia).
      rewrite insert_app_r. simpl. rewrite fmap_app, <- app_assoc.
      reflexivity.
    + rewrite <- app_assoc. exact Hnd.
Qed.
End ForEach.

End JSFacts.

(* ===================================================================== *)
(** ** Facts about the Groq pool *)
(* ===================================================================== *)

Ltac step :=
  unfold bind, ret, throw, get_keys, put_keys, Date_now, scheduleNextCheck;
  simpl.

Module GroqFacts.
Import Groq JSFacts.

Section Facts.
Variable clock : nat -> Z.
Variable getGroqModelFamily : string -> string.

Abbreviation St := (Store GroqKey).

Lemma groq_selectable_spec (fam : string) (r : nat * GroqKey) (s : St) :
  exists (b : bool) (t' : nat),
    selectable clock fam r s = Ok b (mkStore (keys s) t' (checker s))
    /\ (ticks s <= t' <= S (ticks s))%nat
    /\ (b = true -> healthy fam r.2)
    /\ (healthy fam r.2 ->
        t' = S (ticks s)
        /\ (b = true <-> rateLimitedUntil r.2 <= clock (ticks s))).
Proof.
  destruct r as [i k]. unfold selectable, healthy. simpl.
  destruct s as [ks t c]. simpl.
  destruct (isDisabled k).
  { exists false, t. step. repeat split; try lia; try discriminate;
      intros; intuition discriminate. }
  destruct (STATUS_PRIORITY (status k) =? 0) eqn:Hp.
  { apply Z.eqb_eq in Hp. exists false, t. step.
    repeat split; try lia; try discriminate; intros; intuition. }
  apply Z.eqb_neq in Hp.
  destruct (isOverQuota k).
  { exists false, t. step. repeat split; try lia; try discriminate;
      intros; intuition discriminate. }
  step. destruct (clock t <? rateLimitedUntil k) eqn:Ht.
  { apply Z.ltb_lt in Ht. exists false, (S t).
    repeat split; try lia; try discriminate. }
  apply Z.ltb_ge in Ht. simpl.
  exists (bool_decide (fam ∈ modelFamilies k)), (S t).
  split; [reflexivity|]. split; [lia|]. split.
  - intros Hb. apply bool_decide_eq_true in Hb. auto.
  - intros (_ & _ & _ & Hf). split; [reflexivity|].
    rewrite bool_decide_eq_true. tauto.
Qed.

(** The [filter] of [get]: it always returns, leaves the pool as it is,
    and keeps the references that pass the checks. *)
Lemma groq_filter_selectable (fam : string) (l : list (nat * GroqKey)) (s : St) :
  exists (r : list (nat * GroqKey)) (t' : nat),
    filterM (selectable clock fam) l s
      = Ok r (mkStore (keys s) t' (checker s))
    /\ (ticks s <= t')%nat
    /\ (forall x, x ∈ r ->
          x ∈ l /\ healthy fam x.2
          /\ exists n : nat, (ticks s <= n < t')%nat
                             /\ rateLimitedUntil x.2 <= clock n)
    /\ (forall x, x ∈ l -> healthy fam x.2 ->
          (forall n : nat, (ticks s <= n < t')%nat ->
                           rateLimitedUntil x.2 <= clock n) ->
          x ∈ r).
Proof. apply filterM_spec, groq_selectable_spec. Qed.

Lemma groq_before_by_priority (a b : nat * GroqKey) :
  before by_priority a b <->
  STATUS_PRIORITY (status b.2) < STATUS_PRIORITY (status a.2)
  \/ (STATUS_PRIORITY (status a.2) = STATUS_PRIORITY (status b.2)
      /\ lastUsed a.2 <= lastUsed b.2).
Proof.
  unfold before, by_priority.
  destruct (Z.eqb_spec (STATUS_PRIORITY (status a.2))
                       (STATUS_PRIORITY (status b.2))) as [E|E]; simpl.
  - rewrite Z.compare_gt_iff. lia.
  - rewrite Z.compare_gt_iff. lia.
Qed.

Lemma groq_by_priority_trans (a b c : nat * GroqKey) :
  before by_priority a b -> before by_priority b c ->
  before by_priority a c.
Proof. rewrite !groq_before_by_priority. lia. Qed.

Lemma groq_by_priority_total (a b : nat * GroqKey) :
  by_priority a b = Gt -> before by_priority b a.
Proof.
  intros H. rewrite groq_before_by_priority.
  destruct (decide (before by_priority a b)) as [Hab|Hab].
  - contradiction.
  - rewrite groq_before_by_priority in Hab. lia.
Qed.

(** What [get] does, case by case: the filter keeps [r]; with no
    candidate it throws, otherwise it stamps and returns a copy of a
    candidate that may stand before every other one. *)
Lemma groq_get_cases (rawModel : string) (streaming : bool) (s : St) :
  let fam := getGroqModelFamily rawModel in
  exists (r : list (nat * GroqKey)) (t1 : nat),
    filterM (selectable clock fam) (refs (keys s)) s
      = Ok r (mkStore (keys s) t1 (checker s))
    /\ (ticks s <= t1)%nat
    /\ (forall x, x ∈ r ->
          keys s !! x.1 = Some x.2 /\ healthy fam x.2
          /\ exists n : nat, (ticks s <= n < t1)%nat
                             /\ rateLimitedUntil x.2 <= clock n)
    /\ (forall x, keys s !! x.1 = Some x.2 -> healthy fam x.2 ->
          (forall n : nat, (ticks s <= n < t1)%nat ->
                           rateLimitedUntil x.2 <= clock n) ->
          x ∈ r)
    /\ ((r = []
         /\ get clock getGroqModelFamily rawModel streaming s
            = Throw (PaymentRequiredError "No active Groq keys available.")
                    (mkStore (keys s) t1 (checker s)))
        \/ (exists (i : nat) (k0 : GroqKey),
              (i, k0) ∈ r
              /\ (forall y, y ∈ r -> before by_priority (i, k0) y)
              /\ get clock getGroqModelFamily rawModel streaming s
                 = Ok (set_field k0 (F_lastUsed (clock t1)))
                      (mkStore
                         (alter (fun k => set_field k (F_lastUsed (clock t1)))
                                i (keys s))
                         (S t1) (checker s)))).
Proof.
  intros fam.
  destruct (groq_filter_selectable fam (refs (keys s)) s)
    as (r & t1 & Hf & Ht & Hin & Hout).
  exists r, t1. split; [exact Hf|]. split; [exact Ht|].
  split; [|split].
  - intros [i k] Hx. destruct (Hin _ Hx) as (Hl & Hh & Hn).
    apply elem_of_refs in Hl. auto.
  - intros [i k] Hl Hh Hall. apply Hout; [|exact Hh|exact Hall].
    apply elem_of_refs. exact Hl.
  - assert (Hget : get clock getGroqModelFamily rawModel streaming s
             = (if bool_decide (length r = 0%nat)
                then throw (PaymentRequiredError
                              "No active Groq keys available.")
                else
                  match sort by_priority r with
                  | [] => throw TypeError
                  | (i, selectedKey) :: _ =>
                      t <- Date_now clock ;;
                      put_keys (alter (fun k => set_field k (F_lastUsed t))
                                      i (keys s)) ;;;
                      ret (set_field selectedKey (F_lastUsed t))
                  end) (mkStore (keys s) t1 (checker s))).
    { unfold get. fold fam. unfold bind at 1. unfold get_keys at 1.
      unfold bind at 1. rewrite Hf. reflexivity. }
    rewrite Hget. clear Hget.
    destruct r as [|x r'].
    + left. split; reflexivity.
    + right. rewrite bool_decide_eq_false_2 by discriminate.
      destruct (sort by_priority (x :: r')) as [|[i k0] tl] eqn:Hs.
      { apply sort_nil_inv in Hs. discriminate. }
      exists i, k0. split; [|split].
      * apply (elem_of_sort by_priority). rewrite Hs. left.
      * intros y Hy.
        exact (sort_head_min by_priority groq_by_priority_trans
                 groq_by_priority_total _ _ _ Hs y Hy).
      * reflexivity.
Qed.

(** A credential [get] returns passed the checks of the filter, at a
    reading of the clock taken during the call. *)
Lemma groq_get_returns_selectable (rawModel : string) (streaming : bool)
      (s s' : St) (k : GroqKey) :
  get clock getGroqModelFamily rawModel streaming s = Ok k s' ->
  isDisabled k = false
  /\ STATUS_PRIORITY (status k) <> 0
  /\ (exists n : nat, (ticks s <= n < ticks s')%nat
                      /\ ~ (clock n < rateLimitedUntil k))
  /\ (monotone clock -> ~ (lastUsed k < rateLimitedUntil k)).
Proof.
  intros Hget.
  destruct (groq_get_cases rawModel streaming s)
    as (r & t1 & _ & Ht & Hin & _ & [[_ Hthrow] | (i & k0 & Hi & _ & Hok)]).
  { rewrite Hthrow in Hget. discriminate. }
  rewrite Hok in Hget. inversion Hget; subst; clear Hget. simpl.
  destruct (Hin _ Hi) as (_ & (Hd & Hp & _) & n & Hn & Hrl). simpl in *.
  repeat split; try assumption.
  - exists n. split; [lia | lia].
  - intros Hmono. specialize (Hmono n t1 ltac:(lia)). lia.
Qed.

(** [update] on a hash that is in the pool: the first record with that
    hash receives the extended update object, after a fresh [lastChecked]. *)
Lemma groq_update_found (h : string) (u : Partial) (s : St)
      (i : nat) (k : GroqKey) :
  find_by hash h (keys s) = Some (i, k) ->
  update clock h u s
  = Ok tt (mkStore
             (<[i := Object_assign k (F_lastChecked (clock (ticks s))
                                        :: extended (status k) u)]> (keys s))
             (S (ticks s)) (checker s)).
Proof.
  intros Hf. unfold update, extended. step. rewrite Hf.
  destruct (get_status u) as [st|]; [|reflexivity].
  destruct (bool_decide (st = DEAD) || bool_decide (st = INVALID));
    [reflexivity|].
  destruct (bool_decide (status k = DEAD) || bool_decide (status k = INVALID));
    reflexivity.
Qed.

(** [update] on a hash that is not in the pool throws, whatever the update
    object, and writes nothing to the pool. *)
Lemma groq_update_unknown (h : string) (u : Partial) (s : St) :
  find_by hash h (keys s) = None ->
  exists t' : nat,
    update clock h u s = Throw TypeError (mkStore (keys s) t' (checker s)).
Proof.
  intros Hf. unfold update. step. rewrite Hf.
  destruct (get_status u) as [st|].
  - destruct (bool_decide (st = DEAD) || bool_decide (st = INVALID)).
    + exists (S (ticks s)). reflexivity.
    + exists (ticks s). destruct s; reflexivity.
  - exists (S (ticks s)). reflexivity.
Qed.

Lemma groq_incrementUsage_unknown (h f : string) (usage : Usage) (s : St) :
  find_by hash h (keys s) = None ->
  incrementUsage h f usage s = Ok tt s.
Proof. intros Hf. unfold incrementUsage. step. rewrite Hf. reflexivity. Qed.

Lemma groq_markRateLimited_unknown (h : string) (s : St) :
  find_by hash h (keys s) = None ->
  markRateLimited clock h s
  = Throw TypeError (mkStore (keys s) (S (ticks s)) (checker s)).
Proof. intros Hf. unfold markRateLimited. step. rewrite Hf. reflexivity. Qed.

(** [markRateLimited] on a hash that is in the pool: the two stamps, then
    the [update] with the rate-limited status, on the same record. *)
Lemma groq_markRateLimited_found (h : string) (s : St) (i : nat) (k : GroqKey) :
  find_by hash h (keys s) = Some (i, k) ->
  let t := clock (ticks s) in
  let u := [F_status RATE_LIMITED; F_info "Rate limited by proxy"] in
  markRateLimited clock h s
  = update clock h u
      (mkStore (<[i := locked t k]> (keys s)) (S (ticks s)) (checker s))
  /\ markRateLimited clock h s
     = Ok tt (mkStore
                (<[i := Object_assign (locked t k)
                          (F_lastChecked (clock (S (ticks s)))
                             :: extended (status k) u)]> (keys s))
                (S (S (ticks s))) (checker s)).
Proof.
  intros Hf t u.
  assert (E : markRateLimited clock h s
              = update clock h u
                  (mkStore (<[i := locked t k]> (keys s)) (S (ticks s))
                           (checker s))).
  { unfold markRateLimited. step. rewrite Hf. reflexivity. }
  split; [exact E|]. rewrite E.
  destruct (find_by_lookup _ _ _ _ _ Hf) as [_ Hh].
  rewrite (groq_update_found h u _ i (locked t k)).
  - simpl. rewrite list_insert_insert_eq. reflexivity.
  - simpl. apply (find_by_insert _ _ _ _ k); [exact Hf | exact Hh].
Qed.

(** [handleAxiosError] for an error that is neither a 429 nor a 401: only
    [lastChecked] of the record is written. *)
Lemma groq_handleAxiosError_network (key0 : GroqKey) (http : option Z)
      (s : St) (i : nat) (k : GroqKey) :
  http <> Some 429 -> http <> Some 401 ->
  find_by hash (hash key0) (keys s) = Some (i, k) ->
  handleAxiosError clock key0 http s
  = Ok tt (mkStore
             (<[i := set_field k
                       (F_lastChecked
                          (clock (ticks s)
                           - (KEY_CHECK_PERIOD - 60 * 60 * 1000)))]> (keys s))
             (S (S (ticks s))) (checker s)).
Proof.
  intros H429 H401 Hf. unfold handleAxiosError.
  rewrite (bool_decide_eq_false_2 _ H429), (bool_decide_eq_false_2 _ H401).
  unfold bind at 1. unfold Date_now at 1.
  rewrite (groq_update_found _ _ _ i k) by exact Hf.
  reflexivity.
Qed.

(** A credential whose lockout is not over at any reading of the call is
    not the one [get] returns, and [get] does not stamp it. *)
Lemma groq_get_excludes_locked (rawModel : string) (streaming : bool)
      (s s' : St) (i : nat) (ki k : GroqKey) :
  keys s !! i = Some ki ->
  get clock getGroqModelFamily rawModel streaming s = Ok k s' ->
  (forall n : nat, (ticks s <= n < ticks s')%nat ->
                   clock n < rateLimitedUntil ki) ->
  exists (j : nat) (kj : GroqKey),
    j <> i /\ keys s !! j = Some kj
    /\ k = set_field kj (F_lastUsed (lastUsed k))
    /\ keys s' !! i = Some ki.
Proof.
  intros Hi Hget Hlocked.
  destruct (groq_get_cases rawModel streaming s)
    as (r & t1 & _ & Ht & Hin & _ & [[_ Hthrow] | (j & kj & Hj & _ & Hok)]).
  { rewrite Hthrow in Hget. discriminate. }
  rewrite Hok in Hget. inversion Hget; subst; clear Hget.
  destruct (Hin _ Hj) as (Hlj & _ & n & Hn & Hrl). simpl in *.
  assert (Hne : j <> i).
  { intros ->. rewrite Hi in Hlj. inversion Hlj; subst kj.
    specialize (Hlocked n ltac:(lia)). lia. }
  exists j, kj. split; [exact Hne|]. split; [exact Hlj|].
  split; [reflexivity|].
  rewrite list_lookup_alter_ne by exact Hne. exact Hi.
Qed.

(** A healthy credential whose lockout is over passes the filter, so [get]
    succeeds, with a credential that may stand before it. *)
Lemma groq_get_accepts_unlocked (rawModel : string) (streaming : bool)
      (s : St) (i : nat) (ki : GroqKey) :
  keys s !! i = Some ki ->
  healthy (getGroqModelFamily rawModel) ki ->
  (forall n : nat, (ticks s <= n)%nat -> rateLimitedUntil ki <= clock n) ->
  (exists (r : list (nat * GroqKey)) (s1 : St),
      filterM (selectable clock (getGroqModelFamily rawModel))
              (refs (keys s)) s = Ok r s1
      /\ (i, ki) ∈ r)
  /\ exists (k : GroqKey) (s' : St) (j : nat) (kj : GroqKey),
      get clock getGroqModelFamily rawModel streaming s = Ok k s'
      /\ keys s !! j = Some kj
      /\ k = set_field kj (F_lastUsed (lastUsed k))
      /\ before by_priority (j, kj) (i, ki).
Proof.
  intros Hi Hh Hfree.
  destruct (groq_get_cases rawModel streaming s)
    as (r & t1 & Hf & Ht & Hin & Hout & Hcases).
  assert (Hmem : (i, ki) ∈ r).
  { apply Hout; [exact Hi | exact Hh |]. intros n Hn. apply Hfree. lia. }
  split.
  - exists r, (mkStore (keys s) t1 (checker s)). split; [exact Hf | exact Hmem].
  - destruct Hcases as [[-> _] | (j & kj & Hj & Hmin & Hok)].
    { inversion Hmem. }
    destruct (Hin _ Hj) as (Hlj & _).
    eexists _, _, j, kj. split; [exact Hok|]. split; [exact Hlj|].
    split; [reflexivity|]. apply Hmin. exact Hmem.
Qed.

(** The credential [get] returns: a copy of a pool record, stamped in the
    pool with the last reading of the call, of the highest priority among
    the eligible records and least recently used among those. *)
Lemma groq_get_selects (rawModel : string) (streaming : bool)
      (s s' : St) (k : GroqKey) :
  get clock getGroqModelFamily rawModel streaming s = Ok k s' ->
  exists (i : nat) (k0 : GroqKey) (t : nat),
    keys s !! i = Some k0
    /\ k = set_field k0 (F_lastUsed (clock t))
    /\ ticks s' = S t
    /\ keys s' !! i = Some k
    /\ forall (j : nat) (kj : GroqKey),
        keys s !! j = Some kj ->
        healthy (getGroqModelFamily rawModel) kj ->
        (forall n : nat, (ticks s <= n < ticks s')%nat ->
                         rateLimitedUntil kj <= clock n) ->
        STATUS_PRIORITY (status kj) <= STATUS_PRIORITY (status k0)
        /\ (STATUS_PRIORITY (status kj) = STATUS_PRIORITY (status k0) ->
            lastUsed k0 <= lastUsed kj).
Proof.
  intros Hget.
  destruct (groq_get_cases rawModel streaming s)
    as (r & t1 & _ & Ht & Hin & Hout & [[_ Hthrow] | (i & k0 & Hi & Hmin & Hok)]).
  { rewrite Hthrow in Hget. discriminate. }
  rewrite Hok in Hget. inversion Hget; subst; clear Hget.
  destruct (Hin _ Hi) as (Hli & _). simpl in Hli.
  exists i, k0, t1. split; [exact Hli|]. split; [reflexivity|].
  split; [reflexivity|]. split.
  - cbn [keys]. rewrite list_lookup_alter_eq, Hli. reflexivity.
  - intros j kj Hlj Hh Hfree.
    assert (Hmem : (j, kj) ∈ r).
    { apply Hout; [exact Hlj | exact Hh |].
      intros n Hn. apply Hfree. simpl. lia. }
    specialize (Hmin _ Hmem). apply groq_before_by_priority in Hmin.
    simpl in Hmin. lia.
Qed.

(** With distinct hashes, [recheck] resets every record: status
    [UNKNOWN], no flag set, [lastChecked] 0; and it asks the checker, if
    there is one, to schedule the next check. *)
Lemma groq_recheck_resets (s : St) :
  NoDup (hash <$> keys s) ->
  recheck clock s
  = Ok tt (mkStore (after_recheck <$> keys s)
                   (ticks s + length (keys s)) (S <$> checker s))
  /\ forall k : GroqKey,
      status (after_recheck k) = UNKNOWN
      /\ isDisabled (after_recheck k) = false
      /\ isRevoked (after_recheck k) = false
      /\ isOverQuota (after_recheck k) = false
      /\ lastChecked (after_recheck k) = 0.
Proof.
  intros Hnd. split.
  - unfold recheck. unfold bind at 1. unfold get_keys at 1.
    unfold bind at 1.
    rewrite (forEach_by_hash hash
               (fun k => update clock (hash k) recheck_update)
               after_recheck) with (done := []).
    + reflexivity.
    + intros [? ? ? ? ? ? ? ? ? ? ? ? ? st ? ?]. destruct st; reflexivity.
    + intros k s0 i k0 Hf. rewrite (groq_update_found _ _ _ i k0 Hf).
      assert (E : Object_assign k0 (F_lastChecked (clock (ticks s0))
                                      :: extended (status k0) recheck_update)
                  = after_recheck k0).
      { destruct k0 as [? ? ? ? ? ? ? ? ? ? ? ? ? st ? ?].
        destruct st; reflexivity. }
      rewrite E. reflexivity.
    + reflexivity.
    + exact Hnd.
  - intros [? ? ? ? ? ? ? ? ? ? ? ? ? st ? ?].
    destruct st; repeat split; reflexivity.
Qed.

(** A probe that ends in HTTP 401: the record is left [INVALID] and
    disabled, and not revoked. *)
Lemma groq_handleAxiosError_401 (key0 : GroqKey) (s : St) (i : nat)
      (k : GroqKey) :
  find_by hash (hash key0) (keys s) = Some (i, k) ->
  exists k' : GroqKey,
    handleAxiosError clock key0 (Some 401) s
    = Ok tt (mkStore (<[i := k']> (keys s)) (S (ticks s)) (checker s))
    /\ status k' = INVALID
    /\ isDisabled k' = true
    /\ isRevoked k' = false
    /\ isOverQuota k' = true.
Proof.
  intros Hf. unfold handleAxiosError.
  rewrite bool_decide_eq_false_2 by discriminate.
  rewrite bool_decide_eq_true_2 by reflexivity.
  rewrite (groq_update_found _ _ _ i k Hf).
  eexists. split; [reflexivity|].
  destruct k as [? ? ? ? ? ? ? ? ? ? ? ? ? st ? ?].
  destruct st; repeat split; reflexivity.
Qed.

(** With no healthy record in the pool, [get] throws the exhaustion
    error. *)
Lemma groq_get_exhausted (rawModel : string) (streaming : bool) (s : St) :
  (forall (i : nat) (ki : GroqKey),
      keys s !! i = Some ki ->
      ~ healthy (getGroqModelFamily rawModel) ki) ->
  exists s' : St,
    get clock getGroqModelFamily rawModel streaming s
    = Throw (PaymentRequiredError "No active Groq keys available.") s'
    /\ keys s' = keys s.
Proof.
  intros Hnone.
  destruct (groq_get_cases rawModel streaming s)
    as (r & t1 & _ & _ & Hin & _ & [[_ Hthrow] | (i & k0 & Hi & _ & _)]).
  - eexists. split; [exact Hthrow | reflexivity].
  - destruct (Hin _ Hi) as (Hl & Hh & _). exfalso.
    exact (Hnone _ _ Hl Hh).
Qed.

End Facts.
End GroqFacts.

(* ===================================================================== *)
(** ** Facts about the OpenRouter pool *)
(* ===================================================================== *)

Module OpenRouterFacts.
Import OpenRouter JSFacts.

Section Facts.
Variable clock : nat -> Z.
Variable getOpenRouterModuleFamily : string -> string.

Abbreviation St := (Store OpenRouterKey).

Lemma tier_checks (fam : string) (k : OpenRouterKey) :
  bool_decide (fam = "openrouter-paid")
    && (negb (isPaid k)
        || match remainingBalance k with
           | Some b => Qle_bool b 0
           | None => false
           end) = false
  <-> (fam = "openrouter-paid" ->
       isPaid k = true
       /\ match remainingBalance k with
          | Some b => (0 < b)%Q
          | None => True
          end).
Proof.
  destruct (decide (fam = "openrouter-paid")) as [E|E].
  - rewrite bool_decide_eq_true_2 by exact E. simpl.
    destruct (isPaid k); simpl.
    + destruct (remainingBalance k) as [q|].
      * destruct (Qle_bool q 0) eqn:Hq.
        -- apply Qle_bool_iff in Hq. split; [discriminate|].
           intros H. destruct (H E) as [_ Hlt]. lra.
        -- split; [|reflexivity]. intros _ _. split; [reflexivity|].
           apply Qnot_le_lt. intros Hle. apply Qle_bool_iff in Hle.
           congruence.
      * tauto.
    + split; [discriminate|]. intros H. destruct (H E). discriminate.
  - rewrite bool_decide_eq_false_2 by exact E. simpl. tauto.
Qed.

Lemma free_checks (fam : string) (k : OpenRouterKey) :
  bool_decide (fam = "openrouter-free")
    && (isFreeTier k && bool_decide (status k = FREE_Exhausted)) = false
  <-> (fam = "openrouter-free" ->
       ~ (isFreeTier k = true /\ status k = FREE_Exhausted)).
Proof.
  destruct (decide (fam = "openrouter-free")) as [E|E].
  - rewrite bool_decide_eq_true_2 by exact E. simpl.
    destruct (isFreeTier k); simpl.
    + destruct (decide (status k = FREE_Exhausted)) as [E'|E'].
      * rewrite bool_decide_eq_true_2 by exact E'.
        split; [discriminate|]. intros H. exfalso. apply (H E). auto.
      * rewrite bool_decide_eq_false_2 by exact E'. tauto.
    + split; [|reflexivity]. intros _ _ [H _]. discriminate.
  - rewrite bool_decide_eq_false_2 by exact E. simpl. tauto.
Qed.

Lemma or_selectable_spec (fam : string) (r : nat * OpenRouterKey) (s : St) :
  exists (b : bool) (t' : nat),
    selectable clock fam r s = Ok b (mkStore (keys s) t' (checker s))
    /\ (ticks s <= t' <= S (ticks s))%nat
    /\ (b = true -> healthy fam r.2)
    /\ (healthy fam r.2 ->
        t' = S (ticks s)
        /\ (b = true <-> rateLimitedUntil r.2 <= clock (ticks s))).
Proof.
  destruct r as [i k]. unfold selectable, healthy. simpl.
  destruct s as [ks t c]. simpl.
  destruct (isDisabled k).
  { exists false, t. step. repeat split; try lia; try discriminate;
      intros; intuition discriminate. }
  destruct (STATUS_PRIORITY (status k) =? 0) eqn:Hp.
  { apply Z.eqb_eq in Hp. exists false, t. step.
    repeat split; try lia; try discriminate; intros; intuition. }
  apply Z.eqb_neq in Hp.
  pose proof (tier_checks fam k) as Hpaid.
  destruct (bool_decide (fam = "openrouter-paid") && _).
  { exists false, t. step.
    split; [reflexivity|]. split; [lia|]. split; [discriminate|].
    intros (_ & _ & H & _). apply Hpaid in H. discriminate. }
  pose proof (free_checks fam k) as Hfree.
  destruct (bool_decide (fam = "openrouter-free") && _).
  { exists false, t. step.
    split; [reflexivity|]. split; [lia|]. split; [discriminate|].
    intros (_ & _ & _ & H & _). apply Hfree in H. discriminate. }
  step. destruct (clock t <? rateLimitedUntil k) eqn:Ht.
  { apply Z.ltb_lt in Ht. exists false, (S t).
    split; [reflexivity|]. split; [lia|]. split; [discriminate|].
    intros _. split; [reflexivity|]. split; [discriminate | lia]. }
  apply Z.ltb_ge in Ht. simpl.
  exists (bool_decide (fam ∈ modelFamilies k)), (S t).
  split; [reflexivity|]. split; [lia|]. split.
  - intros Hb. apply bool_decide_eq_true in Hb.
    split; [reflexivity|]. split; [exact Hp|].
    split; [apply Hpaid; reflexivity|].
    split; [apply Hfree; reflexivity | exact Hb].
  - intros (_ & _ & _ & _ & Hf). split; [reflexivity|].
    rewrite bool_decide_eq_true. tauto.
Qed.

(** The [filter] of [get]: it always returns, leaves the pool as it is,
    and keeps the references that pass the checks. *)
Lemma or_filter_selectable (fam : string) (l : list (nat * OpenRouterKey))
      (s : St) :
  exists (r : list (nat * OpenRouterKey)) (t' : nat),
    filterM (selectable clock fam) l s
      = Ok r (mkStore (keys s) t' (checker s))
    /\ (ticks s <= t')%nat
    /\ (forall x, x ∈ r ->
          x ∈ l /\ healthy fam x.2
          /\ exists n : nat, (ticks s <= n < t')%nat
                             /\ rateLimitedUntil x.2 <= clock n)
    /\ (forall x, x ∈ l -> healthy fam x.2 ->
          (forall n : nat, (ticks s <= n < t')%nat ->
                           rateLimitedUntil x.2 <= clock n) ->
          x ∈ r).
Proof. apply filterM_spec, or_selectable_spec. Qed.

Lemma or_before_by_priority (a b : nat * OpenRouterKey) :
  before by_priority a b <->
  STATUS_PRIORITY (status b.2) < STATUS_PRIORITY (status a.2)
  \/ (STATUS_PRIORITY (status a.2) = STATUS_PRIORITY (status b.2)
      /\ ((balance_or_0 b.2 < balance_or_0 a.2)%Q
          \/ ((balance_or_0 a.2 == balance_or_0 b.2)%Q
              /\ lastUsed a.2 <= lastUsed b.2))).
Proof.
  unfold before, by_priority.
  destruct (Z.eqb_spec (STATUS_PRIORITY (status a.2))
                       (STATUS_PRIORITY (status b.2))) as [E|E]; simpl.
  - destruct (Qeq_bool (balance_or_0 a.2) (balance_or_0 b.2)) eqn:Hq; simpl.
    + apply Qeq_bool_iff in Hq. rewrite Z.compare_gt_iff.
      split.
      * intros H. right. split; [exact E|]. right. split; [exact Hq | lia].
      * intros [H | (_ & [H | [_ H]])]; [lia | lra | lia].
    + apply Qeq_bool_neq in Hq. rewrite <- Qgt_alt.
      split.
      * intros H. right. split; [exact E|]. left. lra.
      * intros [H | (_ & [H | [H _]])]; [lia | lra | contradiction].
  - rewrite Z.compare_gt_iff. lia.
Qed.

Lemma or_by_priority_trans (a b c : nat * OpenRouterKey) :
  before by_priority a b -> before by_priority b c ->
  before by_priority a c.
Proof.
  rewrite !or_before_by_priority.
  intros [H1 | (E1 & [B1 | [B1 L1]])] [H2 | (E2 & [B2 | [B2 L2]])];
    try (left; lia);
    right; (split; [lia|]);
    try (left; lra); right; split; [lra | lia].
Qed.

Lemma or_by_priority_total (a b : nat * OpenRouterKey) :
  by_priority a b = Gt -> before by_priority b a.
Proof.
  intros H.
  assert (Hab : ~ before by_priority a b) by (intros Hn; exact (Hn H)).
  rewrite or_before_by_priority in Hab. rewrite or_before_by_priority.
  destruct (Z.lt_total (STATUS_PRIORITY (status a.2))
                       (STATUS_PRIORITY (status b.2))) as [Hp | [Hp | Hp]].
  - left. exact Hp.
  - right. split; [lia|].
    destruct (Q_dec (balance_or_0 a.2) (balance_or_0 b.2))
      as [[Hb | Hb] | Hb].
    + left. exact Hb.
    + exfalso. apply Hab. right. split; [exact Hp|]. left. exact Hb.
    + right. split; [lra|].
      destruct (Z.le_gt_cases (lastUsed b.2) (lastUsed a.2)) as [Hl|Hl];
        [exact Hl|].
      exfalso. apply Hab. right. split; [exact Hp|]. right.
      split; [exact Hb | lia].
  - exfalso. apply Hab. left. exact Hp.
Qed.

(** What [get] does, case by case: the filter keeps [r]; with no
    candidate it throws, otherwise it stamps and returns a copy of a
    candidate that may stand before every other one. *)
Lemma or_get_cases (rawModel : string) (streaming : bool) (s : St) :
  let fam := getOpenRouterModuleFamily rawModel in
  exists (r : list (nat * OpenRouterKey)) (t1 : nat),
    filterM (selectable clock fam) (refs (keys s)) s
      = Ok r (mkStore (keys s) t1 (checker s))
    /\ (ticks s <= t1)%nat
    /\ (forall x, x ∈ r ->
          keys s !! x.1 = Some x.2 /\ healthy fam x.2
          /\ exists n : nat, (ticks s <= n < t1)%nat
                             /\ rateLimitedUntil x.2 <= clock n)
    /\ (forall x, keys s !! x.1 = Some x.2 -> healthy fam x.2 ->
          (forall n : nat, (ticks s <= n < t1)%nat ->
                           rateLimitedUntil x.2 <= clock n) ->
          x ∈ r)
    /\ ((r = []
         /\ get clock getOpenRouterModuleFamily rawModel streaming s
            = Throw (PaymentRequiredError
                       (if bool_decide (fam = "openrouter-paid")
                        then paid_message else free_message))
                    (mkStore (keys s) t1 (checker s)))
        \/ (exists (i : nat) (k0 : OpenRouterKey),
              (i, k0) ∈ r
              /\ (forall y, y ∈ r -> before by_priority (i, k0) y)
              /\ get clock getOpenRouterModuleFamily rawModel streaming s
                 = Ok (set_field k0 (F_lastUsed (clock t1)))
                      (mkStore
                         (alter (fun k => set_field k (F_lastUsed (clock t1)))
                                i (keys s))
                         (S t1) (checker s)))).
Proof.
  intros fam.
  destruct (or_filter_selectable fam (refs (keys s)) s)
    as (r & t1 & Hf & Ht & Hin & Hout).
  exists r, t1. split; [exact Hf|]. split; [exact Ht|].
  split; [|split].
  - intros [i k] Hx. destruct (Hin _ Hx) as (Hl & Hh & Hn).
    apply elem_of_refs in Hl. auto.
  - intros [i k] Hl Hh Hall. apply Hout; [|exact Hh|exact Hall].
    apply elem_of_refs. exact Hl.
  - assert (Hget : get clock getOpenRouterModuleFamily rawModel streaming s
             = (if bool_decide (length r = 0%nat)
                then throw (PaymentRequiredError
                              (if bool_decide (fam = "openrouter-paid")
                               then paid_message else free_message))
                else
                  match sort by_priority r with
                  | [] => throw TypeError
                  | (i, selectedKey) :: _ =>
                      t <- Date_now clock ;;
                      put_keys (alter (fun k => set_field k (F_lastUsed t))
                                      i (keys s)) ;;;
                      ret (set_field selectedKey (F_lastUsed t))
                  end) (mkStore (keys s) t1 (checker s))).
    { unfold get. fold fam. unfold bind at 1. unfold get_keys at 1.
      unfold bind at 1. rewrite Hf. reflexivity. }
    rewrite Hget. clear Hget.
    destruct r as [|x r'].
    + left. split; reflexivity.
    + right. rewrite bool_decide_eq_false_2 by discriminate.
      destruct (sort by_priority (x :: r')) as [|[i k0] tl] eqn:Hs.
      { apply sort_nil_inv in Hs. discriminate. }
      exists i, k0. split; [|split].
      * apply (elem_of_sort by_priority). rewrite Hs. left.
      * intros y Hy.
        exact (sort_head_min by_priority or_by_priority_trans
                 or_by_priority_total _ _ _ Hs y Hy).
      * reflexivity.
Qed.

(** A credential [get] returns passed the checks of the filter, at a
    reading of the clock taken during the call. *)
Lemma or_get_returns_selectable (rawModel : string) (streaming : bool)
      (s s' : St) (k : OpenRouterKey) :
  get clock getOpenRouterModuleFamily rawModel streaming s = Ok k s' ->
  isDisabled k = false
  /\ STATUS_PRIORITY (status k) <> 0
  /\ (exists n : nat, (ticks s <= n < ticks s')%nat
                      /\ ~ (clock n < rateLimitedUntil k))
  /\ (monotone clock -> ~ (lastUsed k < rateLimitedUntil k)).
Proof.
  intros Hget.
  destruct (or_get_cases rawModel streaming s)
    as (r & t1 & _ & Ht & Hin & _ & [[_ Hthrow] | (i & k0 & Hi & _ & Hok)]).
  { rewrite Hthrow in Hget. discriminate. }
  rewrite Hok in Hget. inversion Hget; subst; clear Hget. simpl.
  destruct (Hin _ Hi) as (_ & (Hd & Hp & _) & n & Hn & Hrl). simpl in *.
  repeat split; try assumption.
  - exists n. split; [lia | lia].
  - intros Hmono. specialize (Hmono n t1 ltac:(lia)). lia.
Qed.

(** [update] on a hash that is in the pool: the first record with that
    hash receives the extended update object, after a fresh [lastChecked]. *)
Lemma or_update_found (h : string) (u : Partial) (s : St)
      (i : nat) (k : OpenRouterKey) :
  find_by hash h (keys s) = Some (i, k) ->
  update clock h u s
  = Ok tt (mkStore
             (<[i := Object_assign k (F_lastChecked (clock (ticks s))
                                        :: extended (status k) u)]> (keys s))
             (S (ticks s)) (checker s)).
Proof.
  intros Hf. unfold update, extended. step. rewrite Hf.
  destruct (get_status u) as [st|]; [|reflexivity].
  destruct (bool_decide (st = DEAD)
            || bool_decide (st = UNKNOWN_Rate_Limited)); [reflexivity|].
  destruct (bool_decide (status k = DEAD)
            || bool_decide (status k = UNKNOWN_Rate_Limited)); reflexivity.
Qed.

(** [update] on a hash that is not in the pool throws, whatever the update
    object, and writes nothing to the pool. *)
Lemma or_update_unknown (h : string) (u : Partial) (s : St) :
  find_by hash h (keys s) = None ->
  exists t' : nat,
    update clock h u s = Throw TypeError (mkStore (keys s) t' (checker s)).
Proof.
  intros Hf. unfold update. step. rewrite Hf.
  destruct (get_status u) as [st|].
  - destruct (bool_decide (st = DEAD)
              || bool_decide (st = UNKNOWN_Rate_Limited)).
    + exists (S (ticks s)). reflexivity.
    + exists (ticks s). destruct s; reflexivity.
  - exists (S (ticks s)). reflexivity.
Qed.

Lemma or_incrementUsage_unknown (h f : string) (usage : Usage) (s : St) :
  find_by hash h (keys s) = None ->
  incrementUsage h f usage s = Ok tt s.
Proof. intros Hf. unfold incrementUsage. step. rewrite Hf. reflexivity. Qed.

Lemma or_markRateLimited_unknown (h : string) (s : St) :
  find_by hash h (keys s) = None ->
  markRateLimited clock h s
  = Throw TypeError (mkStore (keys s) (S (ticks s)) (checker s)).
Proof. intros Hf. unfold markRateLimited. step. rewrite Hf. reflexivity. Qed.

(** [markRateLimited] on a hash that is in the pool: the two stamps and
    nothing else. *)
Lemma or_markRateLimited_found (h : string) (s : St) (i : nat)
      (k : OpenRouterKey) :
  find_by hash h (keys s) = Some (i, k) ->
  markRateLimited clock h s
  = Ok tt (mkStore (<[i := locked (clock (ticks s)) k]> (keys s))
                   (S (ticks s)) (checker s)).
Proof. intros Hf. unfold markRateLimited. step. rewrite Hf. reflexivity. Qed.

Lemma or_get_status_from (u : Partial) (o : option OpenRouterKeyStatus) :
  fold_left (fun acc f => match f with F_status v => Some v | _ => acc end) u o
  = match get_status u with Some v => Some v | None => o end.
Proof.
  unfold get_status. revert o. induction u as [|f u IH]; intros o; simpl.
  - reflexivity.
  - rewrite IH. rewrite (IH (match f with F_status v => Some v | _ => None end)).
    destruct (fold_left _ u None); [reflexivity|]. destruct f; reflexivity.
Qed.

(** After [Object.assign(k, u)] the status is the one [u] carries, if it
    carries one. *)
Lemma or_status_Object_assign (u : Partial) (k : OpenRouterKey) :
  status (Object_assign k u) = default (status k) (get_status u).
Proof.
  unfold Object_assign. revert k. induction u as [|f u IH]; intros k; simpl.
  - reflexivity.
  - rewrite IH. unfold get_status at 2. simpl. rewrite or_get_status_from.
    destruct (get_status u); [reflexivity|]. destruct f; reflexivity.
Qed.

Lemma or_get_status_app (u v : Partial) :
  get_status (u ++ v)
  = match get_status v with Some x => Some x | None => get_status u end.
Proof.
  unfold get_status at 1. rewrite fold_left_app. apply or_get_status_from.
Qed.

(** [update] hands to [Object.assign] the status it was called with. *)
Lemma or_get_status_extended (prev : OpenRouterKeyStatus) (u : Partial) (t : Z) :
  get_status (F_lastChecked t :: extended prev u) = get_status u.
Proof.
  change (F_lastChecked t :: extended prev u)
    with ([F_lastChecked t] ++ extended prev u).
  rewrite or_get_status_app. simpl.
  assert (E : get_status (extended prev u) = get_status u).
  { unfold extended. destruct (get_status u) as [st|] eqn:Hst; [|exact Hst].
    destruct (_ || _); [|destruct (_ || _)];
      rewrite ?or_get_status_app; simpl; rewrite ?or_get_status_app; simpl;
      exact Hst. }
  rewrite E. destruct (get_status u); reflexivity.
Qed.

(** An [update] that was given a status leaves that status on the record
    it found. *)
Lemma or_update_status (h : string) (u : Partial) (s s' : St)
      (st : OpenRouterKeyStatus) :
  update clock h u s = Ok tt s' -> get_status u = Some st ->
  exists (i : nat) (k' : OpenRouterKey),
    keys s' !! i = Some k' /\ status k' = st.
Proof.
  intros Hu Hst.
  destruct (find_by hash h (keys s)) as [[i k]|] eqn:Hf.
  - rewrite (or_update_found h u s i k Hf) in Hu. inversion Hu; subst.
    exists i, (Object_assign k (F_lastChecked (clock (ticks s))
                                  :: extended (status k) u)).
    split.
    + cbn [keys]. apply list_lookup_insert_eq.
      apply find_by_lookup in Hf as [Hf _].
      eapply lookup_lt_Some. exact Hf.
    + rewrite or_status_Object_assign, or_get_status_extended, Hst.
      reflexivity.
  - destruct (or_update_unknown h u s Hf) as [t' E]. rewrite E in Hu.
    discriminate.
Qed.

(** [handleAxiosError] for an error that is not a 429: [lastChecked] of
    the record is written, and [remainingBalance] is set to [null]. *)
Lemma or_handleAxiosError_network (key0 : OpenRouterKey) (http : option Z)
      (s : St) (i : nat) (k : OpenRouterKey) :
  http <> Some 429 ->
  find_by hash (hash key0) (keys s) = Some (i, k) ->
  handleAxiosError clock key0 http s
  = Ok tt (mkStore
             (<[i := set_field
                       (set_field k
                          (F_lastChecked
                             (clock (ticks s)
                              - (KEY_CHECK_PERIOD - 60 * 60 * 1000))))
                       (F_remainingBalance None)]> (keys s))
             (S (S (ticks s))) (checker s)).
Proof.
  intros H429 Hf. unfold handleAxiosError.
  rewrite (bool_decide_eq_false_2 _ H429).
  unfold bind at 1. unfold Date_now at 1.
  rewrite (or_update_found _ _ _ i k) by exact Hf.
  reflexivity.
Qed.

(** The credential [get] returns: a copy of a pool record, stamped in the
    pool with the last reading of the call, of the highest priority among
    the eligible records, of the largest balance among those, and least
    recently used among those. *)
Lemma or_get_selects (rawModel : string) (streaming : bool)
      (s s' : St) (k : OpenRouterKey) :
  get clock getOpenRouterModuleFamily rawModel streaming s = Ok k s' ->
  exists (i : nat) (k0 : OpenRouterKey) (t : nat),
    keys s !! i = Some k0
    /\ k = set_field k0 (F_lastUsed (clock t))
    /\ ticks s' = S t
    /\ keys s' !! i = Some k
    /\ forall (j : nat) (kj : OpenRouterKey),
        keys s !! j = Some kj ->
        healthy (getOpenRouterModuleFamily rawModel) kj ->
        (forall n : nat, (ticks s <= n < ticks s')%nat ->
                         rateLimitedUntil kj <= clock n) ->
        STATUS_PRIORITY (status kj) <= STATUS_PRIORITY (status k0)
        /\ (STATUS_PRIORITY (status kj) = STATUS_PRIORITY (status k0) ->
            (balance_or_0 kj <= balance_or_0 k0)%Q
            /\ ((balance_or_0 kj == balance_or_0 k0)%Q ->
                lastUsed k0 <= lastUsed kj)).
Proof.
  intros Hget.
  destruct (or_get_cases rawModel streaming s)
    as (r & t1 & _ & Ht & Hin & Hout & [[_ Hthrow] | (i & k0 & Hi & Hmin & Hok)]).
  { rewrite Hthrow in Hget. discriminate. }
  rewrite Hok in Hget. inversion Hget; subst; clear Hget.
  destruct (Hin _ Hi) as (Hli & _). simpl in Hli.
  exists i, k0, t1. split; [exact Hli|]. split; [reflexivity|].
  split; [reflexivity|]. split.
  - cbn [keys]. rewrite list_lookup_alter_eq, Hli. reflexivity.
  - intros j kj Hlj Hh Hfree.
    assert (Hmem : (j, kj) ∈ r).
    { apply Hout; [exact Hlj | exact Hh |].
      intros n Hn. apply Hfree. simpl. lia. }
    specialize (Hmin _ Hmem). apply or_before_by_priority in Hmin.
    simpl in Hmin.
    destruct Hmin as [Hp | (Hp & [Hb | [Hb Hl]])].
    + split; [lia|]. intros E. lia.
    + split; [lia|]. intros _. split; [lra|]. intros E. lra.
    + split; [lia|]. intros _. split; [lra|]. intros _. exact Hl.
Qed.

(** A healthy credential whose lockout is over passes the filter, so [get]
    succeeds, with a credential that may stand before it. *)
Lemma or_get_accepts_unlocked (rawModel : string) (streaming : bool)
      (s : St) (i : nat) (ki : OpenRouterKey) :
  keys s !! i = Some ki ->
  healthy (getOpenRouterModuleFamily rawModel) ki ->
  (forall n : nat, (ticks s <= n)%nat -> rateLimitedUntil ki <= clock n) ->
  (exists (r : list (nat * OpenRouterKey)) (s1 : St),
      filterM (selectable clock (getOpenRouterModuleFamily rawModel))
              (refs (keys s)) s = Ok r s1
      /\ (i, ki) ∈ r)
  /\ exists (k : OpenRouterKey) (s' : St) (j : nat) (kj : OpenRouterKey),
      get clock getOpenRouterModuleFamily rawModel streaming s = Ok k s'
      /\ keys s !! j = Some kj
      /\ k = set_field kj (F_lastUsed (lastUsed k))
      /\ before by_priority (j, kj) (i, ki).
Proof.
  intros Hi Hh Hfree.
  destruct (or_get_cases rawModel streaming s)
    as (r & t1 & Hf & Ht & Hin & Hout & Hcases).
  assert (Hmem : (i, ki) ∈ r).
  { apply Hout; [exact Hi | exact Hh |]. intros n Hn. apply Hfree. lia. }
  split.
  - exists r, (mkStore (keys s) t1 (checker s)). split; [exact Hf | exact Hmem].
  - destruct Hcases as [[-> _] | (j & kj & Hj & Hmin & Hok)].
    { inversion Hmem. }
    destruct (Hin _ Hj) as (Hlj & _).
    eexists _, _, j, kj. split; [exact Hok|]. split; [exact Hlj|].
    split; [reflexivity|]. apply Hmin. exact Hmem.
Qed.


(** With no healthy record in the pool, [get] throws the exhaustion error
    of the family that was asked for. *)
Lemma or_get_exhausted (rawModel : string) (streaming : bool) (s : St) :
  (forall (i : nat) (ki : OpenRouterKey),
      keys s !! i = Some ki ->
      ~ healthy (getOpenRouterModuleFamily rawModel) ki) ->
  exists s' : St,
    get clock getOpenRouterModuleFamily rawModel streaming s
    = Throw (PaymentRequiredError
               (if bool_decide (getOpenRouterModuleFamily rawModel
                                = "openrouter-paid")
                then paid_message else free_message)) s'
    /\ keys s' = keys s.
Proof.
  intros Hnone.
  destruct (or_get_cases rawModel streaming s)
    as (r & t1 & _ & _ & Hin & _ & [[_ Hthrow] | (i & k0 & Hi & _ & _)]).
  - eexists. split; [exact Hthrow | reflexivity].
  - destruct (Hin _ Hi) as (Hl & Hh & _). exfalso.
    exact (Hnone _ _ Hl Hh).
Qed.

(** With distinct hashes, [recheck] leaves every record with the status
    ['UNKNOWN (Rate Limited)'], [lastChecked] 0, not revoked, not over
    quota, and disabled: [update] sets [isDisabled] for that status after
    the [isDisabled: false] of the update object. *)
Lemma or_recheck_disables (s : St) :
  NoDup (hash <$> keys s) ->
  recheck clock s
  = Ok tt (mkStore (after_recheck <$> keys s)
                   (ticks s + length (keys s)) (S <$> checker s))
  /\ forall k : OpenRouterKey,
      status (after_recheck k) = UNKNOWN_Rate_Limited
      /\ isDisabled (after_recheck k) = true
      /\ isRevoked (after_recheck k) = false
      /\ isOverQuota (after_recheck k) = false
      /\ lastChecked (after_recheck k) = 0.
Proof.
  intros Hnd. split.
  - unfold recheck. unfold bind at 1. unfold get_keys at 1.
    unfold bind at 1.
    rewrite (forEach_by_hash hash
               (fun k => update clock (hash k) recheck_update)
               after_recheck) with (done := []).
    + reflexivity.
    + intros [? ? ? ? ? ? ? ? ? ? ? ? ? st ? ? ? ?]. destruct st; reflexivity.
    + intros k s0 i k0 Hf. rewrite (or_update_found _ _ _ i k0 Hf).
      assert (E : Object_assign k0 (F_lastChecked (clock (ticks s0))
                                      :: extended (status k0) recheck_update)
                  = after_recheck k0).
      { destruct k0 as [? ? ? ? ? ? ? ? ? ? ? ? ? st ? ? ? ?].
        destruct st; reflexivity. }
      rewrite E. reflexivity.
    + reflexivity.
    + exact Hnd.
  - intros [? ? ? ? ? ? ? ? ? ? ? ? ? st ? ? ? ?].
    destruct st; repeat split; reflexivity.
Qed.

Lemma or_get_length (rawModel : string) (streaming : bool)
      (s s' : St) (k : OpenRouterKey) :
  get clock getOpenRouterModuleFamily rawModel streaming s = Ok k s' ->
  length (keys s') = length (keys s).
Proof.
  intros Hget.
  destruct (or_get_cases rawModel streaming s)
    as (r & t1 & _ & _ & _ & _ & [[_ Hthrow] | (i & k0 & _ & _ & Hok)]).
  { rewrite Hthrow in Hget. discriminate. }
  rewrite Hok in Hget. inversion Hget; subst. cbn [keys].
  apply length_alter.
Qed.

End Facts.
End OpenRouterFacts.

(* ===================================================================== *)
(** ** Facts about the mutator chain *)
(* ===================================================================== *)

Module MutationFacts.
Import Mutation.

Section Facts.
Context {K : Type}.
Variable get : string -> bool -> M (Store K) K.
Variable secret : K -> option string.
Variable serialize : string -> string.

Lemma selectUpstreamPath_eq (m : ProxyReqManager K) :
  selectUpstreamPath m
  = mkManager (original m)
      (changes m ++ [SetPath (upstream_path (url (request m)))])
      (mkRequest (upstream_path (url (request m))) (headers (request m))
                 (model (request m)) (payload (request m))
                 (body (request m)))
      (key m).
Proof. reflexivity. Qed.

(** What [addKey] followed by [finalizeBody] does to a manager. *)
Lemma run_addKey_finalizeBody (m : ProxyReqManager K) (s : Store K) :
  run [addKey get secret; finalizeBody serialize] m s
  = match get (model (request m)) false s with
    | Ok k s' =>
        Ok (mkManager (original m)
              (changes m ++ key_and_body secret serialize (request m) k)
              (sent secret serialize (request m) k) (Some k)) s'
    | Throw e s' => Throw e s'
    end.
Proof.
  unfold run, addKey, finalizeBody, bind, ret.
  destruct (get (model (request m)) false s) as [k s'|e s']; [|reflexivity].
  unfold setHeader, setBody, setKey, apply_change, key_and_body, sent.
  cbn [request original changes key url headers model payload body].
  rewrite <- !app_assoc. reflexivity.
Qed.

(** The same after [selectUpstreamPath]. *)
Lemma run_selectUpstreamPath (m : ProxyReqManager K) (s : Store K) :
  run [(fun m => ret (selectUpstreamPath m)); addKey get secret;
       finalizeBody serialize] m s
  = run [addKey get secret; finalizeBody serialize] (selectUpstreamPath m) s.
Proof. reflexivity. Qed.

(** The chain, the reset, the chain again. *)
Lemma replay (chain : list (ProxyReqMutator (K := K))) (r : Request)
      (s s1 s2 : Store K) (m1 m2 : ProxyReqManager K) :
  chain = [addKey get secret; finalizeBody serialize]
  \/ chain = [(fun m => ret (selectUpstreamPath m)); addKey get secret;
              finalizeBody serialize] ->
  run chain (create r) s = Ok m1 s1 ->
  run chain (revert m1) s1 = Ok m2 s2 ->
  revert m1 = create r
  /\ exists (k1 k2 : K) (pre : list (Change K)) (v : Request),
      get (model r) false s = Ok k1 s1
      /\ get (model r) false s1 = Ok k2 s2
      /\ m1 = mkManager r (pre ++ key_and_body secret serialize v k1)
                (sent secret serialize v k1) (Some k1)
      /\ m2 = mkManager r (pre ++ key_and_body secret serialize v k2)
                (sent secret serialize v k2) (Some k2)
      /\ ((pre = [] /\ v = r)
          \/ (pre = [SetPath (upstream_path (url r))]
              /\ v = mkRequest (upstream_path (url r)) (headers r) (model r)
                               (payload r) (body r))).
Proof.
  intros [-> | ->] H1 H2.
  - rewrite run_addKey_finalizeBody in H1.
    cbn [create request original changes model] in H1.
    destruct (get (model r) false s) as [k1 t1|e t1] eqn:G1; [|discriminate].
    injection H1 as <- <-.
    split; [reflexivity|].
    match type of H2 with
    | context [revert ?m] => change (revert m) with (create (K := K) r) in H2
    end.
    rewrite run_addKey_finalizeBody in H2.
    cbn [create request original changes model] in H2.
    destruct (get (model r) false t1) as [k2 t2|e t2] eqn:G2; [|discriminate].
    injection H2 as <- <-.
    exists k1, k2, [], r. split; [reflexivity|]. split; [reflexivity|].
    split; [reflexivity|]. split; [reflexivity|]. left.
    split; reflexivity.
  - rewrite run_selectUpstreamPath, run_addKey_finalizeBody in H1.
    rewrite selectUpstreamPath_eq in H1.
    cbn [create request original changes model] in H1.
    destruct (get (model r) false s) as [k1 t1|e t1] eqn:G1; [|discriminate].
    injection H1 as <- <-.
    set (v := mkRequest (upstream_path (url r)) (headers r) (model r)
                        (payload r) (body r)) in *.
    split; [reflexivity|].
    match type of H2 with
    | context [revert ?m] => change (revert m) with (create (K := K) r) in H2
    end.
    rewrite run_selectUpstreamPath, run_addKey_finalizeBody in H2.
    rewrite selectUpstreamPath_eq in H2.
    cbn [create request original changes model] in H2. fold v in H2.
    destruct (get (model r) false t1) as [k2 t2|e t2] eqn:G2; [|discriminate].
    injection H2 as <- <-.
    exists k1, k2, [SetPath (upstream_path (url r))], v.
    split; [reflexivity|]. split; [reflexivity|].
    split; [reflexivity|]. split; [reflexivity|].
    right. split; reflexivity.
Qed.

End Facts.
End MutationFacts.

(* ===================================================================== *)
(** ** Concrete pools used as examples *)
(* ===================================================================== *)

Module Examples.

(** A clock that starts at 1000 ms and advances by one at each reading. *)
Definition clk (n : nat) : Z := 1000 + Z.of_nat n.

(** A family classifier that reads the model name as the family. *)
Definition fam (rawModel : string) : string := rawModel.

Definition digest (secret : string) : string := secret.

(** A clock that starts at 1000 ms and advances by 100 seconds at each
    reading. *)
Definition leap (n : nat) : Z := 1000 + 100000 * Z.of_nat n.

(** Three fresh Groq credentials. *)
Definition groq3 : Store Groq.GroqKey := Groq.load digest ["a"; "b"; "c"].

(** One Groq credential that has been disabled. *)
Definition groq_off : Store Groq.GroqKey :=
  mkStore [Groq.set_field (Groq.newKey digest "a") (Groq.F_isDisabled true)]
          0 None.

(** An OpenRouter credential in a given checked state. *)
Definition or_key (secret : string) (st : OpenRouter.OpenRouterKeyStatus)
           (paid free : bool) (balance : option Q) (used : Z)
  : OpenRouter.OpenRouterKey :=
  OpenRouter.mkKey (Some secret) "openrouter"
    ["openrouter-paid"; "openrouter-free"] false false false 0 used 0 0
    ("or-" +:+ secret) 0 (Some ∅) st "checked" paid balance free.

(** One free-tier credential that is active. *)
Definition or_free1 : Store OpenRouter.OpenRouterKey :=
  mkStore [or_key "a" OpenRouter.FREE_Active false true (Some 0.01%Q) 0]
          0 None.

(** One paid credential that has run out of credits: balance 0. *)
Definition or_paid_empty : Store OpenRouter.OpenRouterKey :=
  mkStore [or_key "p" OpenRouter.PAID_No_Credits true false (Some 0%Q) 0]
          0 None.

(** Two paid credentials with credit: the first with the larger balance,
    the second less recently used. *)
Definition or_two_paid : Store OpenRouter.OpenRouterKey :=
  mkStore [or_key "a" OpenRouter.PAID_Balance true false (Some 10%Q) 100;
           or_key "b" OpenRouter.PAID_Balance true false (Some 5%Q) 0]
          0 None.


(** Two free-tier credentials that are active, equal in everything the
    sort looks at. *)
Definition or_two_free : Store OpenRouter.OpenRouterKey :=
  mkStore [or_key "a" OpenRouter.FREE_Active false true (Some 0.01%Q) 0;
           or_key "b" OpenRouter.FREE_Active false true (Some 0.01%Q) 0]
          0 None.

(** A chat completion request of the free family, as it reaches the
    OpenRouter route. *)
Definition chat_request : Mutation.Request :=
  Mutation.mkRequest "/v1/chat/completions?x=1" ∅ "openrouter-free"
                     "{}" None.

(** A chat completion request as it reaches the Groq route. *)
Definition groq_chat_request : Mutation.Request :=
  Mutation.mkRequest "/v1/chat/completions" ∅ "groq-kimi" "{}" None.

(** One Groq credential that a check has found active. *)
Definition groq_active : Store Groq.GroqKey :=
  mkStore [Groq.set_field (Groq.newKey digest "a")
                          (Groq.F_status Groq.ACTIVE)]
          0 None.

End Examples.

(* ===================================================================== *)
(** ** The claims *)
(* ===================================================================== *)

(** C1.  [get()] never returns a credential whose status has selection
    priority zero, nor a disabled one, nor one whose [rateLimitedUntil] is
    strictly greater than the current time: whatever [get] returns, in
    either provider, passed the three checks at a reading of [Date.now()]
    taken during the call, and with a clock that does not run backwards its
    lockout is over at the time it is stamped with. *)
Theorem get_never_returns_unselectable
        (clock : nat -> Z) (family : string -> string)
        (rawModel : string) (streaming : bool) :
  (forall (s s' : Store Groq.GroqKey) (k : Groq.GroqKey),
      Groq.get clock family rawModel streaming s = Ok k s' ->
      Groq.isDisabled k = false
      /\ Groq.STATUS_PRIORITY (Groq.status k) <> 0
      /\ (exists n : nat, (ticks s <= n < ticks s')%nat
                          /\ ~ (clock n < Groq.rateLimitedUntil k))
      /\ (monotone clock -> ~ (Groq.lastUsed k < Groq.rateLimitedUntil k)))
  /\ (forall (s s' : Store OpenRouter.OpenRouterKey)
             (k : OpenRouter.OpenRouterKey),
      OpenRouter.get clock family rawModel streaming s = Ok k s' ->
      OpenRouter.isDisabled k = false
      /\ OpenRouter.STATUS_PRIORITY (OpenRouter.status k) <> 0
      /\ (exists n : nat, (ticks s <= n < ticks s')%nat
                          /\ ~ (clock n < OpenRouter.rateLimitedUntil k))
      /\ (monotone clock ->
          ~ (OpenRouter.lastUsed k < OpenRouter.rateLimitedUntil k))).
Proof.
  split; intros s s' k H.
  - exact (GroqFacts.groq_get_returns_selectable _ _ _ _ _ _ _ H).
  - exact (OpenRouterFacts.or_get_returns_selectable _ _ _ _ _ _ _ H).
Qed.

Lemma get_never_returns_unselectable_witness :
  (exists (k : Groq.GroqKey) (s' : Store Groq.GroqKey),
      Groq.get Examples.clk Examples.fam "groq-kimi" false Examples.groq3
        = Ok k s'
      /\ Groq.isDisabled k = false
      /\ Groq.STATUS_PRIORITY (Groq.status k) <> 0)
  /\ (exists (k : OpenRouter.OpenRouterKey)
             (s' : Store OpenRouter.OpenRouterKey),
      OpenRouter.get Examples.clk Examples.fam "openrouter-free" false
        Examples.or_free1
        = Ok k s'
      /\ OpenRouter.isDisabled k = false
      /\ OpenRouter.STATUS_PRIORITY (OpenRouter.status k) <> 0).
Proof.
  split.
  - eexists _, _. split; [vm_compute; reflexivity|].
    pose proof (proj1 (get_never_returns_unselectable
                         Examples.clk Examples.fam "groq-kimi" false)
                      Examples.groq3 _ _ eq_refl) as H.
    split; [exact (proj1 H) | exact (proj1 (proj2 H))].
  - eexists _, _. split; [vm_compute; reflexivity|].
    pose proof (proj2 (get_never_returns_unselectable
                         Examples.clk Examples.fam "openrouter-free" false)
                      Examples.or_free1 _ _ eq_refl) as H.
    split; [exact (proj1 H) | exact (proj1 (proj2 H))].
Defined.

(** C10.  For a hash that is not in the pool (the [find] by hash comes back
    empty), [incrementUsage] returns without touching the provider, while
    [update], whatever the update object, and [markRateLimited] throw the
    engine's [TypeError], with the pool's records as they were.  It holds in
    both providers. *)
Theorem unknown_hash_noop_or_throw
        (clock : nat -> Z) (h : string)
        (sg : Store Groq.GroqKey) (so : Store OpenRouter.OpenRouterKey) :
  find_by Groq.hash h (keys sg) = None ->
  find_by OpenRouter.hash h (keys so) = None ->
  ((forall (family : string) (usage : Groq.Usage),
       Groq.incrementUsage h family usage sg = Ok tt sg)
   /\ (forall u : Groq.Partial,
         exists s', Groq.update clock h u sg = Throw TypeError s'
                    /\ keys s' = keys sg)
   /\ (exists s', Groq.markRateLimited clock h sg = Throw TypeError s'
                  /\ keys s' = keys sg))
  /\ ((forall (family : string) (usage : OpenRouter.Usage),
         OpenRouter.incrementUsage h family usage so = Ok tt so)
      /\ (forall u : OpenRouter.Partial,
            exists s', OpenRouter.update clock h u so = Throw TypeError s'
                       /\ keys s' = keys so)
      /\ (exists s', OpenRouter.markRateLimited clock h so = Throw TypeError s'
                     /\ keys s' = keys so)).
Proof.
  intros Hg Ho. split; split.
  - intros f usage. apply GroqFacts.groq_incrementUsage_unknown, Hg.
  - split.
    + intros u.
      destruct (GroqFacts.groq_update_unknown clock h u sg Hg) as [t' E].
      eexists. split; [exact E | reflexivity].
    + eexists. split;
        [apply GroqFacts.groq_markRateLimited_unknown, Hg | reflexivity].
  - intros f usage. apply OpenRouterFacts.or_incrementUsage_unknown, Ho.
  - split.
    + intros u.
      destruct (OpenRouterFacts.or_update_unknown clock h u so Ho) as [t' E].
      eexists. split; [exact E | reflexivity].
    + eexists. split;
        [apply OpenRouterFacts.or_markRateLimited_unknown, Ho | reflexivity].
Qed.

Lemma unknown_hash_noop_or_throw_witness :
  (forall (family : string) (usage : Groq.Usage),
      Groq.incrementUsage "groq-zz" family usage Examples.groq3
      = Ok tt Examples.groq3)
  /\ (forall (family : string) (usage : OpenRouter.Usage),
         OpenRouter.incrementUsage "groq-zz" family usage Examples.or_free1
         = Ok tt Examples.or_free1).
Proof.
  pose proof (unknown_hash_noop_or_throw Examples.clk "groq-zz"
                Examples.groq3 Examples.or_free1 eq_refl eq_refl) as [Hg Ho].
  split; [exact (proj1 Hg) | exact (proj1 Ho)].
Defined.

(** C4, as stated, fails on the OpenRouter pool.  After
    [markRateLimited("or-a")] on a pool whose only credential is free and
    active, the two stamps are written, but the status is still
    ['FREE (Active)'] and [lastChecked] is still 0: no [update] with the
    rate-limited status can have produced this pool. *)
Lemma markRateLimited_openrouter_without_update :
  exists (s' : Store OpenRouter.OpenRouterKey) (k' : OpenRouter.OpenRouterKey),
    OpenRouter.markRateLimited Examples.clk "or-a" Examples.or_free1 = Ok tt s'
    /\ keys s' = [k']
    /\ OpenRouter.rateLimitedAt k' = 1000
    /\ OpenRouter.rateLimitedUntil k' = 16000
    /\ OpenRouter.status k' = OpenRouter.FREE_Active
    /\ OpenRouter.lastChecked k' = 0
    /\ (forall (u : OpenRouter.Partial) (s1 : Store OpenRouter.OpenRouterKey),
           OpenRouter.get_status u = Some OpenRouter.UNKNOWN_Rate_Limited ->
           OpenRouter.update Examples.clk "or-a" u s1 <> Ok tt s').
Proof.
  eexists _, _. split; [vm_compute; reflexivity|].
  split; [reflexivity|]. do 4 (split; [reflexivity|]).
  intros u s1 Hst Hu.
  destruct (OpenRouterFacts.or_update_status _ _ _ _ _ _ Hu Hst)
    as (i & k'' & Hl & Hs).
  destruct i as [|i]; simpl in Hl; [|discriminate].
  inversion Hl; subst k''. discriminate.
Qed.

(** C4, amended.  For a hash that is in the pool, [markRateLimited] stamps
    the first record with that hash: [rateLimitedAt] is the current time and
    [rateLimitedUntil] the current time plus the provider's lockout (60 s for
    Groq, 15 s for OpenRouter).  The Groq provider then calls [update] with
    the status [RATE_LIMITED], which leaves that status, [isOverQuota] true
    and a fresh [lastChecked]; the OpenRouter provider does not call
    [update]: nothing but the two stamps changes. *)
Theorem markRateLimited_stamps_lockout
        (clock : nat -> Z) (hg ho : string)
        (sg : Store Groq.GroqKey) (ig : nat) (kg : Groq.GroqKey)
        (so : Store OpenRouter.OpenRouterKey) (io : nat)
        (ko : OpenRouter.OpenRouterKey) :
  find_by Groq.hash hg (keys sg) = Some (ig, kg) ->
  find_by OpenRouter.hash ho (keys so) = Some (io, ko) ->
  (exists k' : Groq.GroqKey,
      Groq.markRateLimited clock hg sg
      = Ok tt (mkStore (<[ig := k']> (keys sg)) (S (S (ticks sg))) (checker sg))
      /\ Groq.markRateLimited clock hg sg
         = Groq.update clock hg
             [Groq.F_status Groq.RATE_LIMITED;
              Groq.F_info "Rate limited by proxy"]
             (mkStore (<[ig := Groq.locked (clock (ticks sg)) kg]> (keys sg))
                      (S (ticks sg)) (checker sg))
      /\ Groq.rateLimitedAt k' = clock (ticks sg)
      /\ Groq.rateLimitedUntil k' = clock (ticks sg) + Groq.RATE_LIMIT_LOCKOUT
      /\ Groq.status k' = Groq.RATE_LIMITED
      /\ Groq.isOverQuota k' = true
      /\ Groq.lastChecked k' = clock (S (ticks sg)))
  /\ OpenRouter.markRateLimited clock ho so
     = Ok tt (mkStore
                (<[io := OpenRouter.set_field
                           (OpenRouter.set_field ko
                              (OpenRouter.F_rateLimitedAt (clock (ticks so))))
                           (OpenRouter.F_rateLimitedUntil
                              (clock (ticks so)
                               + OpenRouter.RATE_LIMIT_LOCKOUT))]> (keys so))
                (S (ticks so)) (checker so)).
Proof.
  intros Hg Ho. split.
  - destruct (GroqFacts.groq_markRateLimited_found clock hg sg ig kg Hg)
      as [Hupd Hres].
    eexists. split; [exact Hres|]. split; [exact Hupd|].
    destruct kg as [? ? ? ? ? ? ? ? ? ? ? ? ? st ? ?].
    destruct st; repeat split; reflexivity.
  - exact (OpenRouterFacts.or_markRateLimited_found clock ho so io ko Ho).
Qed.

Lemma markRateLimited_stamps_lockout_witness :
  (exists k' : Groq.GroqKey,
      Groq.markRateLimited Examples.clk "groq-a" Examples.groq3
      = Ok tt (mkStore (<[0%nat := k']> (keys Examples.groq3)) 2 None)
      /\ Groq.rateLimitedAt k' = 1000
      /\ Groq.rateLimitedUntil k' = 61000
      /\ Groq.status k' = Groq.RATE_LIMITED)
  /\ exists k' : OpenRouter.OpenRouterKey,
      OpenRouter.markRateLimited Examples.clk "or-a" Examples.or_free1
      = Ok tt (mkStore [k'] 1 None)
      /\ OpenRouter.rateLimitedUntil k' = 16000
      /\ OpenRouter.status k' = OpenRouter.FREE_Active.
Proof.
  destruct (markRateLimited_stamps_lockout Examples.clk "groq-a" "or-a"
              Examples.groq3 0 (Groq.newKey Examples.digest "a")
              Examples.or_free1 0
              (Examples.or_key "a" OpenRouter.FREE_Active false true
                               (Some 0.01%Q) 0)
              eq_refl eq_refl) as [(k' & Hres & _ & Hat & Huntil & Hst & _) Ho].
  split.
  - exists k'. split; [exact Hres|]. split; [exact Hat|].
    split; [exact Huntil | exact Hst].
  - eexists. split; [exact Ho|]. split; reflexivity.
Defined.

(** C5.  In the Groq pool, [markRateLimited(h)] opens a lockout that ends
    at now + 60 s, and a [get()] all of whose clock readings lie before the
    end of a credential's lockout returns another credential and leaves
    that one unstamped; once the lockout is over at every later reading, a
    credential that is otherwise healthy (not disabled, status priority
    not zero, not over quota, entitled to the family) is among the
    candidates again, [get()] succeeds, and what it returns may stand
    before that credential in the order of the sort. *)
Theorem rate_limited_excluded_until_lockout_ends
        (clock : nat -> Z) (family : string -> string) :
  (forall (s : Store Groq.GroqKey) (h : string) (i : nat) (k0 : Groq.GroqKey),
      find_by Groq.hash h (keys s) = Some (i, k0) ->
      exists (s1 : Store Groq.GroqKey) (k1 : Groq.GroqKey),
        Groq.markRateLimited clock h s = Ok tt s1
        /\ keys s1 !! i = Some k1
        /\ Groq.rateLimitedUntil k1
           = clock (ticks s) + Groq.RATE_LIMIT_LOCKOUT)
  /\ (forall (s s' : Store Groq.GroqKey) (i : nat) (ki k : Groq.GroqKey)
             (rawModel : string) (streaming : bool),
      keys s !! i = Some ki ->
      Groq.get clock family rawModel streaming s = Ok k s' ->
      (forall n : nat, (ticks s <= n < ticks s')%nat ->
                       clock n < Groq.rateLimitedUntil ki) ->
      exists (j : nat) (kj : Groq.GroqKey),
        j <> i /\ keys s !! j = Some kj
        /\ k = Groq.set_field kj (Groq.F_lastUsed (Groq.lastUsed k))
        /\ keys s' !! i = Some ki)
  /\ (forall (s : Store Groq.GroqKey) (i : nat) (ki : Groq.GroqKey)
             (rawModel : string) (streaming : bool),
      keys s !! i = Some ki ->
      Groq.healthy (family rawModel) ki ->
      (forall n : nat, (ticks s <= n)%nat ->
                       Groq.rateLimitedUntil ki <= clock n) ->
      (exists (r : list (nat * Groq.GroqKey)) (s1 : Store Groq.GroqKey),
          filterM (Groq.selectable clock (family rawModel))
                  (refs (keys s)) s = Ok r s1
          /\ (i, ki) ∈ r)
      /\ exists (k : Groq.GroqKey) (s' : Store Groq.GroqKey)
                (j : nat) (kj : Groq.GroqKey),
          Groq.get clock family rawModel streaming s = Ok k s'
          /\ keys s !! j = Some kj
          /\ k = Groq.set_field kj (Groq.F_lastUsed (Groq.lastUsed k))
          /\ before Groq.by_priority (j, kj) (i, ki)).
Proof.
  split; [|split].
  - intros s h i k0 Hf.
    destruct (GroqFacts.groq_markRateLimited_found clock h s i k0 Hf)
      as [_ Hres].
    eexists _, _. split; [exact Hres|]. split.
    + cbn [keys]. apply list_lookup_insert_eq.
      apply JSFacts.find_by_lookup in Hf as [Hf _].
      eapply lookup_lt_Some. exact Hf.
    + destruct k0 as [? ? ? ? ? ? ? ? ? ? ? ? ? st ? ?].
      destruct st; reflexivity.
  - intros s s' i ki k rawModel streaming.
    apply GroqFacts.groq_get_excludes_locked.
  - intros s i ki rawModel streaming.
    apply GroqFacts.groq_get_accepts_unlocked.
Qed.

Lemma rate_limited_excluded_until_lockout_ends_witness :
  let s1 := final_store (Groq.markRateLimited Examples.clk "groq-a"
                           Examples.groq3) in
  exists (k : Groq.GroqKey) (s2 : Store Groq.GroqKey)
         (j : nat) (kj : Groq.GroqKey),
    Groq.get Examples.clk Examples.fam "groq-kimi" false s1 = Ok k s2
    /\ j <> 0%nat /\ keys s1 !! j = Some kj
    /\ k = Groq.set_field kj (Groq.F_lastUsed (Groq.lastUsed k)).
Proof.
  intros s1.
  destruct (proj1 (proj2 (rate_limited_excluded_until_lockout_ends
                            Examples.clk Examples.fam))
              s1
              (final_store (Groq.get Examples.clk Examples.fam "groq-kimi"
                              false s1))
              0%nat
              (Groq.Object_assign
                 (Groq.locked 1000 (Groq.newKey Examples.digest "a"))
                 (Groq.F_lastChecked 1001
                    :: Groq.extended Groq.UNKNOWN
                         [Groq.F_status Groq.RATE_LIMITED;
                          Groq.F_info "Rate limited by proxy"]))
              (Groq.set_field (Groq.newKey Examples.digest "b")
                              (Groq.F_lastUsed 1004))
              "groq-kimi" false eq_refl ltac:(vm_compute; reflexivity))
    as (j & kj & Hne & Hl & Hk & _).
  { intros n Hn. change (2 <= n < 5)%nat in Hn.
    change (Examples.clk n < 61000). unfold Examples.clk. lia. }
  eexists _, _, j, kj. split; [vm_compute; reflexivity|].
  split; [exact Hne|]. split; [exact Hl | exact Hk].
Defined.

(** C7, as stated, fails on the OpenRouter pool: of two eligible paid
    credentials with the same status, [get()] returns the one with the
    larger balance, although the other one has the smaller [lastUsed]. *)
Lemma get_openrouter_balance_before_lru :
  exists (k : OpenRouter.OpenRouterKey) (s' : Store OpenRouter.OpenRouterKey)
         (k1 k2 : OpenRouter.OpenRouterKey),
    OpenRouter.get Examples.clk Examples.fam "openrouter-paid" false
      Examples.or_two_paid = Ok k s'
    /\ keys Examples.or_two_paid = [k1; k2]
    /\ k = OpenRouter.set_field k1 (OpenRouter.F_lastUsed 1002)
    /\ OpenRouter.healthy "openrouter-paid" k2
    /\ OpenRouter.rateLimitedUntil k2 <= Examples.clk 0
    /\ OpenRouter.STATUS_PRIORITY (OpenRouter.status k2)
       = OpenRouter.STATUS_PRIORITY (OpenRouter.status k1)
    /\ OpenRouter.lastUsed k2 < OpenRouter.lastUsed k1.
Proof.
  eexists _, _, _, _.
  split; [vm_compute; reflexivity|]. split; [reflexivity|].
  split; [reflexivity|]. split.
  - unfold OpenRouter.healthy. simpl.
    split; [reflexivity|]. split; [discriminate|].
    split; [intros _; split; reflexivity|].
    split; [discriminate|]. left.
  - split; [vm_compute; discriminate|]. split; reflexivity.
Qed.

(** C7, amended.  Among the eligible credentials [get()] returns one of
    the highest status priority; among those of that priority the Groq
    provider returns one with the smallest [lastUsed], while the OpenRouter
    provider first prefers the larger remaining balance ([null] counting
    as 0) and takes the smallest [lastUsed] among equal balances.  Right
    after the selection, [lastUsed] of the selected credential in the pool
    is the time of the call, as in the copy that is returned. *)
Theorem get_selects_by_priority_then_lru
        (clock : nat -> Z) (family : string -> string)
        (rawModel : string) (streaming : bool) :
  (forall (s s' : Store Groq.GroqKey) (k : Groq.GroqKey),
      Groq.get clock family rawModel streaming s = Ok k s' ->
      exists (i : nat) (k0 : Groq.GroqKey) (t : nat),
        keys s !! i = Some k0
        /\ k = Groq.set_field k0 (Groq.F_lastUsed (clock t))
        /\ ticks s' = S t
        /\ keys s' !! i = Some k
        /\ forall (j : nat) (kj : Groq.GroqKey),
            keys s !! j = Some kj ->
            Groq.healthy (family rawModel) kj ->
            (forall n : nat, (ticks s <= n < ticks s')%nat ->
                             Groq.rateLimitedUntil kj <= clock n) ->
            Groq.STATUS_PRIORITY (Groq.status kj)
            <= Groq.STATUS_PRIORITY (Groq.status k0)
            /\ (Groq.STATUS_PRIORITY (Groq.status kj)
                = Groq.STATUS_PRIORITY (Groq.status k0) ->
                Groq.lastUsed k0 <= Groq.lastUsed kj))
  /\ (forall (s s' : Store OpenRouter.OpenRouterKey)
             (k : OpenRouter.OpenRouterKey),
      OpenRouter.get clock family rawModel streaming s = Ok k s' ->
      exists (i : nat) (k0 : OpenRouter.OpenRouterKey) (t : nat),
        keys s !! i = Some k0
        /\ k = OpenRouter.set_field k0 (OpenRouter.F_lastUsed (clock t))
        /\ ticks s' = S t
        /\ keys s' !! i = Some k
        /\ forall (j : nat) (kj : OpenRouter.OpenRouterKey),
            keys s !! j = Some kj ->
            OpenRouter.healthy (family rawModel) kj ->
            (forall n : nat, (ticks s <= n < ticks s')%nat ->
                             OpenRouter.rateLimitedUntil kj <= clock n) ->
            OpenRouter.STATUS_PRIORITY (OpenRouter.status kj)
            <= OpenRouter.STATUS_PRIORITY (OpenRouter.status k0)
            /\ (OpenRouter.STATUS_PRIORITY (OpenRouter.status kj)
                = OpenRouter.STATUS_PRIORITY (OpenRouter.status k0) ->
                (OpenRouter.balance_or_0 kj <= OpenRouter.balance_or_0 k0)%Q
                /\ ((OpenRouter.balance_or_0 kj
                     == OpenRouter.balance_or_0 k0)%Q ->
                    OpenRouter.lastUsed k0 <= OpenRouter.lastUsed kj))).
Proof.
  split; intros s s' k H.
  - exact (GroqFacts.groq_get_selects _ _ _ _ _ _ _ H).
  - exact (OpenRouterFacts.or_get_selects _ _ _ _ _ _ _ H).
Qed.

Lemma get_selects_by_priority_then_lru_witness :
  (exists (i : nat) (k0 : Groq.GroqKey) (t : nat),
      keys Examples.groq3 !! i = Some k0
      /\ ticks (final_store (Groq.get Examples.clk Examples.fam "groq-kimi"
                               false Examples.groq3)) = S t)
  /\ (exists (i : nat) (k0 : OpenRouter.OpenRouterKey) (t : nat),
      keys Examples.or_two_paid !! i = Some k0
      /\ ticks (final_store (OpenRouter.get Examples.clk Examples.fam
                               "openrouter-paid" false Examples.or_two_paid))
         = S t).
Proof.
  split.
  - destruct (proj1 (get_selects_by_priority_then_lru
                       Examples.clk Examples.fam "groq-kimi" false)
                Examples.groq3
                (final_store (Groq.get Examples.clk Examples.fam "groq-kimi"
                                false Examples.groq3))
                (Groq.set_field (Groq.newKey Examples.digest "a")
                                (Groq.F_lastUsed 1003))
                eq_refl) as (i & k0 & t & Hl & _ & Ht & _).
    exists i, k0, t. split; [exact Hl | exact Ht].
  - destruct (proj2 (get_selects_by_priority_then_lru
                       Examples.clk Examples.fam "openrouter-paid" false)
                Examples.or_two_paid
                (final_store (OpenRouter.get Examples.clk Examples.fam
                                "openrouter-paid" false Examples.or_two_paid))
                (OpenRouter.set_field
                   (Examples.or_key "a" OpenRouter.PAID_Balance true false
                                    (Some 10%Q) 100)
                   (OpenRouter.F_lastUsed 1002))
                eq_refl) as (i & k0 & t & Hl & _ & Ht & _).
    exists i, k0, t. split; [exact Hl | exact Ht].
Defined.



(** C2.  What the code does where the claim wants [isDisabled] false:
    after [recheck()] on an OpenRouter pool with distinct hashes, every
    credential has the unchecked status, [lastChecked] 0, is neither
    revoked nor over quota, but is disabled, because [update] sets
    [isDisabled] for the status ['UNKNOWN (Rate Limited)'] after the
    [isDisabled: false] that [recheck] passes.  The Groq provider, whose
    [recheck] is written the same way, leaves every credential enabled. *)
Theorem recheck_openrouter_leaves_disabled
        (clock : nat -> Z)
        (so : Store OpenRouter.OpenRouterKey) (sg : Store Groq.GroqKey) :
  NoDup (OpenRouter.hash <$> keys so) ->
  NoDup (Groq.hash <$> keys sg) ->
  (exists s' : Store OpenRouter.OpenRouterKey,
      OpenRouter.recheck clock so = Ok tt s'
      /\ length (keys s') = length (keys so)
      /\ forall k' : OpenRouter.OpenRouterKey,
          k' ∈ keys s' ->
          OpenRouter.status k' = OpenRouter.UNKNOWN_Rate_Limited
          /\ OpenRouter.isDisabled k' = true
          /\ OpenRouter.isRevoked k' = false
          /\ OpenRouter.isOverQuota k' = false
          /\ OpenRouter.lastChecked k' = 0)
  /\ (exists s' : Store Groq.GroqKey,
      Groq.recheck clock sg = Ok tt s'
      /\ length (keys s') = length (keys sg)
      /\ forall k' : Groq.GroqKey,
          k' ∈ keys s' ->
          Groq.status k' = Groq.UNKNOWN
          /\ Groq.isDisabled k' = false
          /\ Groq.isRevoked k' = false
          /\ Groq.isOverQuota k' = false
          /\ Groq.lastChecked k' = 0).
Proof.
  intros Ho Hg. split.
  - destruct (OpenRouterFacts.or_recheck_disables clock so Ho) as [Hr Hall].
    eexists. split; [exact Hr|]. cbn [keys]. split; [apply length_fmap|].
    intros k' Hk'. apply list_elem_of_fmap in Hk' as (k & -> & _).
    apply Hall.
  - destruct (GroqFacts.groq_recheck_resets clock sg Hg) as [Hr Hall].
    eexists. split; [exact Hr|]. cbn [keys]. split; [apply length_fmap|].
    intros k' Hk'. apply list_elem_of_fmap in Hk' as (k & -> & _).
    apply Hall.
Qed.

Lemma recheck_openrouter_leaves_disabled_witness :
  exists s' : Store OpenRouter.OpenRouterKey,
    OpenRouter.recheck Examples.clk
      (OpenRouter.load Examples.digest ["a"; "b"]) = Ok tt s'
    /\ forall k' : OpenRouter.OpenRouterKey,
        k' ∈ keys s' -> OpenRouter.isDisabled k' = true.
Proof.
  destruct (proj1 (recheck_openrouter_leaves_disabled Examples.clk
                     (OpenRouter.load Examples.digest ["a"; "b"])
                     Examples.groq3
                     ltac:(compute_done) ltac:(compute_done)))
    as (s' & Hr & _ & Hall).
  exists s'. split; [exact Hr|].
  intros k' Hk'. exact (proj1 (proj2 (Hall k' Hk'))).
Defined.

(** C3.  What the code does where the claim wants [isRevoked] true: when
    the probe of a Groq credential ends in HTTP 401, the handler asks for
    [isDisabled: true, isRevoked: true], but [update] recomputes
    [isRevoked] as [status === 'DEAD'], so the credential is left
    [INVALID], disabled and not revoked.  If it is the only credential,
    [get()] then throws the exhaustion error for every model, and [list()]
    shows it disabled and not revoked. *)
Theorem probe_401_groq_disabled_not_revoked
        (clock : nat -> Z) (family : string -> string)
        (s : Store Groq.GroqKey) (key0 : Groq.GroqKey)
        (i : nat) (k : Groq.GroqKey) :
  find_by Groq.hash (Groq.hash key0) (keys s) = Some (i, k) ->
  exists (k' : Groq.GroqKey) (s' : Store Groq.GroqKey),
    Groq.handleAxiosError clock key0 (Some 401) s = Ok tt s'
    /\ keys s' = <[i := k']> (keys s)
    /\ Groq.status k' = Groq.INVALID
    /\ Groq.isDisabled k' = true
    /\ Groq.isRevoked k' = false
    /\ (length (keys s) = 1%nat ->
        forall (rawModel : string) (streaming : bool),
        exists s2 : Store Groq.GroqKey,
          Groq.get clock family rawModel streaming s'
          = Throw (PaymentRequiredError "No active Groq keys available.") s2)
    /\ exists (l : list Groq.GroqKey) (e : Groq.GroqKey),
        Groq.list_keys s' = Ok l s'
        /\ l !! i = Some e
        /\ Groq.key e = None
        /\ Groq.isDisabled e = true
        /\ Groq.isRevoked e = false.
Proof.
  intros Hf.
  destruct (GroqFacts.groq_handleAxiosError_401 clock key0 s i k Hf)
    as (k' & Hres & Hst & Hd & Hr & _).
  assert (Hi : (i < length (keys s))%nat).
  { apply JSFacts.find_by_lookup in Hf as [Hl _].
    eapply lookup_lt_Some. exact Hl. }
  eexists k', _. split; [exact Hres|]. cbn [keys].
  split; [reflexivity|]. split; [exact Hst|]. split; [exact Hd|].
  split; [exact Hr|]. split.
  - intros Hlen rawModel streaming.
    destruct (GroqFacts.groq_get_exhausted clock family rawModel streaming
                (mkStore (<[i := k']> (keys s)) (S (ticks s)) (checker s)))
      as (s2 & Hthrow & _).
    + cbn [keys]. intros j kj Hj (Hdis & _).
      assert (j = i) as -> by
          (apply lookup_lt_Some in Hj; rewrite length_insert in Hj; lia).
      rewrite list_lookup_insert_eq in Hj by exact Hi.
      inversion Hj; subst kj. congruence.
    + exists s2. exact Hthrow.
  - eexists _, (Groq.set_field k' (Groq.F_key None)).
    split; [reflexivity|]. split.
    + rewrite list_lookup_fmap. cbn [keys].
      rewrite list_lookup_insert_eq by exact Hi. reflexivity.
    + split; [reflexivity|]. split; [exact Hd | exact Hr].
Qed.

Lemma probe_401_groq_disabled_not_revoked_witness :
  exists (k' : Groq.GroqKey) (s' : Store Groq.GroqKey),
    Groq.handleAxiosError Examples.clk (Groq.newKey Examples.digest "a")
      (Some 401) (Groq.load Examples.digest ["a"]) = Ok tt s'
    /\ keys s' = [k']
    /\ Groq.isDisabled k' = true
    /\ Groq.isRevoked k' = false.
Proof.
  destruct (probe_401_groq_disabled_not_revoked Examples.clk Examples.fam
              (Groq.load Examples.digest ["a"])
              (Groq.newKey Examples.digest "a") 0
              (Groq.newKey Examples.digest "a") eq_refl)
    as (k' & s' & Hres & Hks & _ & Hd & Hr & _).
  exists k', s'. split; [exact Hres|]. split; [exact Hks|].
  split; [exact Hd | exact Hr].
Defined.

(* ===================================================================== *)
(** ** Further facts about [update] *)
(* ===================================================================== *)

Module UpdateFacts.

Section Groq.
Import Groq.
Variable clock : nat -> Z.

Lemma groq_get_status_from (u : Partial) (o : option GroqKeyStatus) :
  fold_left (fun acc f => match f with F_status v => Some v | _ => acc end) u o
  = match get_status u with Some v => Some v | None => o end.
Proof.
  unfold get_status. revert o. induction u as [|f u IH]; intros o; simpl.
  - reflexivity.
  - rewrite IH. rewrite (IH (match f with F_status v => Some v | _ => None end)).
    destruct (fold_left _ u None); [reflexivity|]. destruct f; reflexivity.
Qed.

Lemma groq_status_Object_assign (u : Partial) (k : GroqKey) :
  status (Object_assign k u) = default (status k) (get_status u).
Proof.
  unfold Object_assign. revert k. induction u as [|f u IH]; intros k; simpl.
  - reflexivity.
  - rewrite IH. unfold get_status at 2. simpl. rewrite groq_get_status_from.
    destruct (get_status u); [reflexivity|]. destruct f; reflexivity.
Qed.

Lemma groq_Object_assign_app (k : GroqKey) (u v : Partial) :
  Object_assign k (u ++ v) = Object_assign (Object_assign k u) v.
Proof. unfold Object_assign. apply fold_left_app. Qed.

(** The record [update] writes when the update object carries a status:
    the status is the one of the object, and the derived flags depend on
    the new and the previous status only, whatever flags the object
    carried. *)
Lemma groq_update_derives_flags (h : string) (u : Partial)
      (s : Store GroqKey) (i : nat) (k : GroqKey) (st : GroqKeyStatus) :
  find_by hash h (keys s) = Some (i, k) ->
  get_status u = Some st ->
  exists k' : GroqKey,
    update clock h u s
    = Ok tt (mkStore (<[i := k']> (keys s)) (S (ticks s)) (checker s))
    /\ status k' = st
    /\ isOverQuota k'
       = (bool_decide (st = RATE_LIMITED) || bool_decide (st = INVALID))
    /\ (st = DEAD \/ st = INVALID ->
        isDisabled k' = true /\ isRevoked k' = bool_decide (st = DEAD))
    /\ (st <> DEAD -> st <> INVALID ->
        status k = DEAD \/ status k = INVALID ->
        isDisabled k' = false /\ isRevoked k' = false).
Proof.
  intros Hf Hst.
  rewrite (GroqFacts.groq_update_found clock h u s i k Hf).
  eexists. split; [reflexivity|].
  set (base := F_lastChecked (clock (ticks s)) :: u).
  assert (Hbase : status (Object_assign k base) = st).
  { rewrite groq_status_Object_assign. unfold base.
    change (F_lastChecked (clock (ticks s)) :: u)
      with ([F_lastChecked (clock (ticks s))] ++ u).
    unfold get_status. rewrite fold_left_app. simpl.
    fold (get_status u). rewrite Hst. reflexivity. }
  unfold extended. rewrite Hst.
  destruct st; simpl bool_decide; simpl orb; cbv iota;
    destruct (status k) eqn:Hk; simpl bool_decide; simpl orb; cbv iota;
    rewrite ?app_comm_cons; fold base;
    rewrite ?groq_Object_assign_app; simpl;
    (split; [exact Hbase|]); (split; [reflexivity|]);
    (split; [intros [?|?]; try discriminate; split; reflexivity|]);
    intros ? ? [?|?]; try discriminate; try congruence; split; reflexivity.
Qed.

Lemma groq_assign_keeps_bookkeeping (u : Partial) (k : GroqKey) :
  GroqKeyUpdate u ->
  bookkeeping (Object_assign k u) = bookkeeping k.
Proof.
  unfold Object_assign. revert k. induction u as [|f u IH]; intros k Hu.
  - reflexivity.
  - apply Forall_cons in Hu as [Hf Hu]. simpl. rewrite (IH _ Hu).
    destruct f; try contradiction; reflexivity.
Qed.

Lemma groq_extended_is_update (prev : GroqKeyStatus) (u : Partial) :
  GroqKeyUpdate u -> GroqKeyUpdate (extended prev u).
Proof.
  intros Hu. unfold extended, GroqKeyUpdate in *.
  destruct (get_status u) as [st|]; [|exact Hu].
  destruct (_ || _); [|destruct (_ || _)];
    rewrite ?Forall_app; repeat split; try exact Hu;
    repeat constructor.
Qed.

Lemma groq_assign_keeps_lastChecked (u : Partial) (k : GroqKey) :
  (forall v, F_lastChecked v ∉ u) ->
  lastChecked (Object_assign k u) = lastChecked k.
Proof.
  unfold Object_assign. revert k. induction u as [|f u IH]; intros k Hu.
  - reflexivity.
  - simpl. rewrite IH.
    + destruct f; try reflexivity. exfalso. apply (Hu v). left.
    + intros v Hv. apply (Hu v). right. exact Hv.
Qed.

Lemma groq_extended_lastChecked (prev : GroqKeyStatus) (u : Partial) :
  (forall v, F_lastChecked v ∉ u) ->
  forall v, F_lastChecked v ∉ extended prev u.
Proof.
  intros Hu v. unfold extended.
  destruct (get_status u) as [st|]; [|apply Hu].
  destruct (_ || _); [|destruct (_ || _)];
    rewrite ?elem_of_app, ?elem_of_cons, ?elem_of_nil;
    intros H; decompose [or] H; try discriminate; try contradiction;
    eapply Hu; eassumption.
Qed.

(** [update] with a [GroqKeyUpdate], on a hash that is in the pool:
    the record keeps its secret, its hash and its usage and lockout
    bookkeeping, every other record stays as it is, and [lastChecked] is
    the time of the call unless the update object names it. *)
Lemma groq_update_frame (h : string) (u : Partial)
      (s : Store GroqKey) (i : nat) (k : GroqKey) :
  find_by hash h (keys s) = Some (i, k) ->
  GroqKeyUpdate u ->
  exists k' : GroqKey,
    update clock h u s
    = Ok tt (mkStore (<[i := k']> (keys s)) (S (ticks s)) (checker s))
    /\ bookkeeping k' = bookkeeping k
    /\ ((forall v, F_lastChecked v ∉ u) ->
        lastChecked k' = clock (ticks s))
    /\ length (<[i := k']> (keys s)) = length (keys s)
    /\ (forall j : nat, j <> i -> <[i := k']> (keys s) !! j = keys s !! j)
    /\ find_by hash h (<[i := k']> (keys s)) = Some (i, k').
Proof.
  intros Hf Hu.
  rewrite (GroqFacts.groq_update_found clock h u s i k Hf).
  eexists. split; [reflexivity|].
  assert (Hb : bookkeeping
                 (Object_assign k (F_lastChecked (clock (ticks s))
                                     :: extended (status k) u))
               = bookkeeping k).
  { apply groq_assign_keeps_bookkeeping. apply Forall_cons. split; [exact I|].
    apply groq_extended_is_update, Hu. }
  split; [exact Hb|]. split; [|split; [|split]].
  - intros Hno.
    change (Object_assign k (F_lastChecked (clock (ticks s))
                               :: extended (status k) u))
      with (Object_assign (set_field k (F_lastChecked (clock (ticks s))))
                          (extended (status k) u)).
    rewrite groq_assign_keeps_lastChecked; [reflexivity|].
    apply groq_extended_lastChecked, Hno.
  - apply length_insert.
  - intros j Hj. apply list_lookup_insert_ne. congruence.
  - apply (JSFacts.find_by_insert _ _ _ _ k); [exact Hf|].
    destruct (JSFacts.find_by_lookup _ _ _ _ _ Hf) as [_ Hh].
    apply (f_equal (fun b => b.1.1.1.1.2)) in Hb.
    unfold bookkeeping in Hb. cbn [fst snd] in Hb. congruence.
Qed.

End Groq.

Section OpenRouter.
Import OpenRouter.
Variable clock : nat -> Z.

Lemma or_Object_assign_app (k : OpenRouterKey) (u v : Partial) :
  Object_assign k (u ++ v) = Object_assign (Object_assign k u) v.
Proof. unfold Object_assign. apply fold_left_app. Qed.

(** The record [update] writes when the update object carries a status:
    the status is the one of the object, and [isPaid], [isFreeTier],
    [isOverQuota], [isDisabled] and [isRevoked] depend on the new and the
    previous status only, whatever flags the object carried. *)
Lemma or_update_derives_flags (h : string) (u : Partial)
      (s : Store OpenRouterKey) (i : nat) (k : OpenRouterKey)
      (st : OpenRouterKeyStatus) :
  find_by hash h (keys s) = Some (i, k) ->
  get_status u = Some st ->
  exists k' : OpenRouterKey,
    update clock h u s
    = Ok tt (mkStore (<[i := k']> (keys s)) (S (ticks s)) (checker s))
    /\ status k' = st
    /\ isPaid k'
       = (bool_decide (st = PAID_Balance) || bool_decide (st = PAID_No_Credits)
          || bool_decide (st = PAID_Limit_Reached))
    /\ isFreeTier k'
       = (bool_decide (st = FREE_Active) || bool_decide (st = FREE_Exhausted))
    /\ isOverQuota k'
       = (bool_decide (st = PAID_No_Credits)
          || bool_decide (st = PAID_Limit_Reached)
          || bool_decide (st = FREE_Exhausted))
    /\ (st = DEAD \/ st = UNKNOWN_Rate_Limited ->
        isDisabled k' = true /\ isRevoked k' = bool_decide (st = DEAD))
    /\ (st <> DEAD -> st <> UNKNOWN_Rate_Limited ->
        status k = DEAD \/ status k = UNKNOWN_Rate_Limited ->
        isDisabled k' = false /\ isRevoked k' = false).
Proof.
  intros Hf Hst.
  rewrite (OpenRouterFacts.or_update_found clock h u s i k Hf).
  eexists. split; [reflexivity|].
  set (base := F_lastChecked (clock (ticks s)) :: u).
  assert (Hbase : status (Object_assign k base) = st).
  { rewrite OpenRouterFacts.or_status_Object_assign. unfold base.
    change (F_lastChecked (clock (ticks s)) :: u)
      with ([F_lastChecked (clock (ticks s))] ++ u).
    rewrite OpenRouterFacts.or_get_status_app, Hst. reflexivity. }
  unfold extended. rewrite Hst.
  destruct st; simpl bool_decide; simpl orb; cbv iota;
    destruct (status k) eqn:Hk; simpl bool_decide; simpl orb; cbv iota;
    rewrite ?app_comm_cons; fold base;
    rewrite ?or_Object_assign_app; simpl;
    (split; [exact Hbase|]); (split; [reflexivity|]);
    (split; [reflexivity|]); (split; [reflexivity|]);
    (split; [intros [?|?]; try discriminate; split; reflexivity|]);
    intros ? ? [?|?]; try discriminate; try congruence; split; reflexivity.
Qed.

Lemma or_assign_keeps_bookkeeping (u : Partial) (k : OpenRouterKey) :
  OpenRouterKeyUpdate u ->
  bookkeeping (Object_assign k u) = bookkeeping k.
Proof.
  unfold Object_assign. revert k. induction u as [|f u IH]; intros k Hu.
  - reflexivity.
  - apply Forall_cons in Hu as [Hf Hu]. simpl. rewrite (IH _ Hu).
    destruct f; try contradiction; reflexivity.
Qed.

Lemma or_extended_is_update (prev : OpenRouterKeyStatus) (u : Partial) :
  OpenRouterKeyUpdate u -> OpenRouterKeyUpdate (extended prev u).
Proof.
  intros Hu. unfold extended, OpenRouterKeyUpdate in *.
  destruct (get_status u) as [st|]; [|exact Hu].
  destruct (_ || _); [|destruct (_ || _)];
    rewrite ?Forall_app; repeat split; try exact Hu;
    repeat constructor.
Qed.

Lemma or_assign_keeps_lastChecked (u : Partial) (k : OpenRouterKey) :
  (forall v, F_lastChecked v ∉ u) ->
  lastChecked (Object_assign k u) = lastChecked k.
Proof.
  unfold Object_assign. revert k. induction u as [|f u IH]; intros k Hu.
  - reflexivity.
  - simpl. rewrite IH.
    + destruct f; try reflexivity. exfalso. apply (Hu v). left.
    + intros v Hv. apply (Hu v). right. exact Hv.
Qed.

Lemma or_extended_lastChecked (prev : OpenRouterKeyStatus) (u : Partial) :
  (forall v, F_lastChecked v ∉ u) ->
  forall v, F_lastChecked v ∉ extended prev u.
Proof.
  intros Hu v. unfold extended.
  destruct (get_status u) as [st|]; [|apply Hu].
  destruct (_ || _); [|destruct (_ || _)];
    rewrite ?elem_of_app, ?elem_of_cons, ?elem_of_nil;
    intros H; decompose [or] H; try discriminate; try contradiction;
    eapply Hu; eassumption.
Qed.

(** [update] with a [OpenRouterKeyUpdate], on a hash that is in the pool:
    the record keeps its secret, its hash and its usage and lockout
    bookkeeping, every other record stays as it is, and [lastChecked] is
    the time of the call unless the update object names it. *)
Lemma or_update_frame (h : string) (u : Partial)
      (s : Store OpenRouterKey) (i : nat) (k : OpenRouterKey) :
  find_by hash h (keys s) = Some (i, k) ->
  OpenRouterKeyUpdate u ->
  exists k' : OpenRouterKey,
    update clock h u s
    = Ok tt (mkStore (<[i := k']> (keys s)) (S (ticks s)) (checker s))
    /\ bookkeeping k' = bookkeeping k
    /\ ((forall v, F_lastChecked v ∉ u) ->
        lastChecked k' = clock (ticks s))
    /\ length (<[i := k']> (keys s)) = length (keys s)
    /\ (forall j : nat, j <> i -> <[i := k']> (keys s) !! j = keys s !! j)
    /\ find_by hash h (<[i := k']> (keys s)) = Some (i, k').
Proof.
  intros Hf Hu.
  rewrite (OpenRouterFacts.or_update_found clock h u s i k Hf).
  eexists. split; [reflexivity|].
  assert (Hb : bookkeeping
                 (Object_assign k (F_lastChecked (clock (ticks s))
                                     :: extended (status k) u))
               = bookkeeping k).
  { apply or_assign_keeps_bookkeeping. apply Forall_cons. split; [exact I|].
    apply or_extended_is_update, Hu. }
  split; [exact Hb|]. split; [|split; [|split]].
  - intros Hno.
    change (Object_assign k (F_lastChecked (clock (ticks s))
                               :: extended (status k) u))
      with (Object_assign (set_field k (F_lastChecked (clock (ticks s))))
                          (extended (status k) u)).
    rewrite or_assign_keeps_lastChecked; [reflexivity|].
    apply or_extended_lastChecked, Hno.
  - apply length_insert.
  - intros j Hj. apply list_lookup_insert_ne. congruence.
  - apply (JSFacts.find_by_insert _ _ _ _ k); [exact Hf|].
    destruct (JSFacts.find_by_lookup _ _ _ _ _ Hf) as [_ Hh].
    apply (f_equal (fun b => b.1.1.1.1.2)) in Hb.
    unfold bookkeeping in Hb. cbn [fst snd] in Hb. congruence.
Qed.

End OpenRouter.

End UpdateFacts.

(* ===================================================================== *)
(** ** Further facts about selection, [disable] and the counters *)
(* ===================================================================== *)

Module PoolFacts.

(** Overwriting one element that satisfies [P] by one that does not makes
    the [filter] one shorter. *)
Lemma length_filter_insert {A} (P : A -> Prop) `{forall x, Decision (P x)}
      (l : list A) (i : nat) (x y : A) :
  l !! i = Some x -> P x -> ~ P y ->
  length (filter P l) = S (length (filter P (<[i := y]> l))).
Proof.
  revert i. induction l as [|z l IH]; intros i Hi Hx Hy; [discriminate|].
  destruct i as [|i]; simpl in *.
  - inversion Hi; subst z.
    rewrite (filter_cons_True P x l Hx), (filter_cons_False P y l Hy).
    reflexivity.
  - rewrite !filter_cons. destruct (decide (P z)); simpl;
      rewrite (IH i Hi Hx Hy); reflexivity.
Qed.


Section Groq.
Import Groq.
Variable clock : nat -> Z.
Variable getGroqModelFamily : string -> string.

(** [get] either throws the exhaustion error and leaves every record as
    it is, or returns the stamped copy of one healthy record and writes
    that stamp, and nothing else, to the pool. *)
Lemma groq_get_frame (rawModel : string) (streaming : bool)
      (s : Store GroqKey) :
  (exists s' : Store GroqKey,
      get clock getGroqModelFamily rawModel streaming s
      = Throw (PaymentRequiredError "No active Groq keys available.") s'
      /\ keys s' = keys s /\ checker s' = checker s)
  \/ (exists (j : nat) (kj : GroqKey) (t : nat),
         keys s !! j = Some kj
         /\ healthy (getGroqModelFamily rawModel) kj
         /\ (ticks s <= t)%nat
         /\ get clock getGroqModelFamily rawModel streaming s
            = Ok (set_field kj (F_lastUsed (clock t)))
                 (mkStore (<[j := set_field kj (F_lastUsed (clock t))]>
                             (keys s))
                          (S t) (checker s))).
Proof.
  destruct (GroqFacts.groq_get_cases clock getGroqModelFamily rawModel
              streaming s)
    as (r & t1 & _ & Ht & Hin & _ & [[_ Hthrow] | (i & k0 & Hi & _ & Hok)]).
  - left. eexists. split; [exact Hthrow|]. split; reflexivity.
  - right. destruct (Hin _ Hi) as (Hl & Hh & _). simpl in Hl, Hh.
    exists i, k0, t1. split; [exact Hl|]. split; [exact Hh|].
    split; [exact Ht|]. rewrite Hok. f_equal. f_equal.
    apply list_eq. intros n. destruct (decide (n = i)) as [->|Hn].
    + rewrite list_lookup_alter_eq, Hl. simpl.
      rewrite list_lookup_insert_eq; [reflexivity|].
      eapply lookup_lt_Some. exact Hl.
    + rewrite list_lookup_alter_ne, list_lookup_insert_ne by congruence.
      reflexivity.
Qed.

(** [disable] on a record that is in the pool and enabled. *)
Lemma groq_disable_found (k : GroqKey) (s : Store GroqKey)
      (i : nat) (k0 : GroqKey) :
  find_by hash (hash k) (keys s) = Some (i, k0) ->
  isDisabled k0 = false ->
  disable k s
  = Ok tt (mkStore (<[i := set_field k0 (F_isDisabled true)]> (keys s))
                   (ticks s) (checker s)).
Proof.
  intros Hf Hd. unfold disable. step. rewrite Hf, Hd. reflexivity.
Qed.

(** [disable] on a hash that is not in the pool, or on a record that is
    disabled already, does nothing. *)
Lemma groq_disable_noop (k : GroqKey) (s : Store GroqKey) :
  (find_by hash (hash k) (keys s) = None
   \/ exists (i : nat) (k0 : GroqKey),
       find_by hash (hash k) (keys s) = Some (i, k0)
       /\ isDisabled k0 = true) ->
  disable k s = Ok tt s.
Proof.
  intros [Hf | (i & k0 & Hf & Hd)]; unfold disable; step; rewrite Hf.
  - reflexivity.
  - rewrite Hd. reflexivity.
Qed.

(** After [disable], the record is out of [available()] and out of what
    [get] may return, and a second [disable] changes nothing. *)
Lemma groq_disable_effect (k : GroqKey) (s : Store GroqKey)
      (i : nat) (k0 : GroqKey) :
  find_by hash (hash k) (keys s) = Some (i, k0) ->
  isDisabled k0 = false ->
  exists s' : Store GroqKey,
    disable k s = Ok tt s'
    /\ keys s' = <[i := set_field k0 (F_isDisabled true)]> (keys s)
    /\ disable k s' = Ok tt s'
    /\ (exists a : Z, available s = Ok a s /\ available s' = Ok (a - 1) s')
    /\ forall (rawModel : string) (streaming : bool)
              (k2 : GroqKey) (s2 : Store GroqKey),
        get clock getGroqModelFamily rawModel streaming s' = Ok k2 s2 ->
        exists (j : nat) (kj : GroqKey),
          j <> i /\ keys s !! j = Some kj
          /\ k2 = set_field kj (F_lastUsed (lastUsed k2)).
Proof.
  intros Hf Hd.
  destruct (JSFacts.find_by_lookup _ _ _ _ _ Hf) as [Hl Hh].
  assert (Hi : (i < length (keys s))%nat) by (eapply lookup_lt_Some; exact Hl).
  eexists. split; [apply (groq_disable_found k s i k0 Hf Hd)|].
  cbn [keys]. split; [reflexivity|]. split; [|split].
  - apply groq_disable_noop. right.
    exists i, (set_field k0 (F_isDisabled true)). cbn [keys].
    split; [|reflexivity].
    apply (JSFacts.find_by_insert _ _ _ _ k0); [exact Hf | exact Hh].
  - exists (Z.of_nat (length (filter (fun k => isDisabled k = false) (keys s)))).
    split; [reflexivity|]. unfold available. step. f_equal.
    rewrite (length_filter_insert (fun k => isDisabled k = false) (keys s) i k0
               (set_field k0 (F_isDisabled true)) Hl Hd)
      by (simpl; discriminate).
    simpl. lia.
  - intros rawModel streaming k2 s2 Hget.
    destruct (groq_get_frame rawModel streaming
                (mkStore (<[i := set_field k0 (F_isDisabled true)]> (keys s))
                         (ticks s) (checker s)))
      as [(s' & Hthrow & _) | (j & kj & t & Hj & Hhealthy & _ & Hok)].
    { rewrite Hthrow in Hget. discriminate. }
    rewrite Hok in Hget. inversion Hget; subst; clear Hget.
    cbn [keys] in Hj.
    assert (Hne : j <> i).
    { intros ->. rewrite list_lookup_insert_eq in Hj by exact Hi.
      inversion Hj; subst kj. destruct Hhealthy as [Hdis _].
      simpl in Hdis. discriminate. }
    exists j, kj. split; [exact Hne|].
    rewrite list_lookup_insert_ne in Hj by congruence.
    split; [exact Hj | reflexivity].
Qed.

(** What a successful [get] returns and writes, and how the record it
    picked ranks among the records that were eligible. *)
Lemma groq_get_result (rawModel : string) (streaming : bool)
      (s s' : Store GroqKey) (k : GroqKey) :
  get clock getGroqModelFamily rawModel streaming s = Ok k s' ->
  exists (i : nat) (k0 : GroqKey) (t : nat),
    keys s !! i = Some k0
    /\ healthy (getGroqModelFamily rawModel) k0
    /\ k = set_field k0 (F_lastUsed (clock t))
    /\ s' = mkStore (<[i := k]> (keys s)) (S t) (checker s)
    /\ (ticks s <= t)%nat
    /\ forall (j : nat) (kj : GroqKey),
        keys s !! j = Some kj ->
        healthy (getGroqModelFamily rawModel) kj ->
        (forall n : nat, (ticks s <= n < t)%nat ->
                         rateLimitedUntil kj <= clock n) ->
        STATUS_PRIORITY (status kj) <= STATUS_PRIORITY (status k0)
        /\ (STATUS_PRIORITY (status kj) = STATUS_PRIORITY (status k0) ->
            lastUsed k0 <= lastUsed kj).
Proof.
  intros Hget.
  destruct (GroqFacts.groq_get_cases clock getGroqModelFamily rawModel
              streaming s)
    as (r & t1 & _ & Ht & Hin & Hout
        & [[_ Hthrow] | (i & k0 & Hi & Hmin & Hok)]).
  { rewrite Hthrow in Hget. discriminate. }
  rewrite Hok in Hget. inversion Hget; subst k s'; clear Hget.
  destruct (Hin _ Hi) as (Hl & Hh & _). simpl in Hl, Hh.
  exists i, k0, t1. split; [exact Hl|]. split; [exact Hh|].
  split; [reflexivity|]. split; [|split; [exact Ht|]].
  - f_equal. apply list_eq. intros n.
    destruct (decide (n = i)) as [->|Hn].
    + rewrite list_lookup_alter_eq, Hl. simpl.
      rewrite list_lookup_insert_eq; [reflexivity|].
      eapply lookup_lt_Some. exact Hl.
    + rewrite list_lookup_alter_ne, list_lookup_insert_ne by congruence.
      reflexivity.
  - intros j kj Hlj Hhj Hfree.
    assert (Hmem : (j, kj) ∈ r) by (apply Hout; assumption).
    specialize (Hmin _ Hmem).
    apply GroqFacts.groq_before_by_priority in Hmin. simpl in Hmin. lia.
Qed.

(** Two calls of [get] in a row: the second does not return the record
    the first one returned when another record is eligible for it, ranks
    at least as high, and was last used before the first call's stamp. *)
Lemma groq_get_rotates (rawModel : string) (streaming : bool)
      (s s1 s2 : Store GroqKey) (k1 k2 : GroqKey)
      (j : nat) (kj : GroqKey) :
  get clock getGroqModelFamily rawModel streaming s = Ok k1 s1 ->
  get clock getGroqModelFamily rawModel streaming s1 = Ok k2 s2 ->
  keys s1 !! j = Some kj ->
  healthy (getGroqModelFamily rawModel) kj ->
  (forall n : nat, (ticks s1 <= n < ticks s2)%nat ->
                   rateLimitedUntil kj <= clock n) ->
  STATUS_PRIORITY (status k1) <= STATUS_PRIORITY (status kj) ->
  lastUsed kj < lastUsed k1 ->
  exists (i i2 : nat) (k' : GroqKey),
    keys s1 !! i = Some k1
    /\ i2 <> i
    /\ keys s1 !! i2 = Some k'
    /\ k2 = set_field k' (F_lastUsed (lastUsed k2))
    /\ keys s2 !! i = Some k1.
Proof.
  intros H1 H2 Hj Hh Hfree Hprio Hlru.
  destruct (groq_get_result _ _ _ _ _ H1)
    as (i & a & t & Hi & _ & _ & -> & _).
  destruct (groq_get_result _ _ _ _ _ H2)
    as (i2 & b & u & Hi2 & _ & Hk2 & -> & _ & Hmin).
  cbn [keys ticks] in *.
  assert (Hilt : (i < length (keys s))%nat)
    by (eapply lookup_lt_Some; exact Hi).
  assert (Hi1 : <[i := k1]> (keys s) !! i = Some k1)
    by (apply list_lookup_insert_eq; exact Hilt).
  destruct (Hmin j kj Hj Hh) as [Hp Hl].
  { intros n Hn. apply Hfree. lia. }
  assert (Hne : i2 <> i).
  { intros ->. rewrite Hi1 in Hi2. inversion Hi2; subst b.
    assert (E : STATUS_PRIORITY (status kj) = STATUS_PRIORITY (status k1))
      by lia.
    specialize (Hl E). lia. }
  exists i, i2, b. split; [exact Hi1|]. split; [exact Hne|].
  split; [exact Hi2|]. split; [rewrite Hk2; reflexivity|].
  rewrite list_lookup_insert_ne by congruence. exact Hi1.
Qed.

End Groq.

Section OpenRouter.
Import OpenRouter.
Variable clock : nat -> Z.
Variable getOpenRouterModuleFamily : string -> string.

(** [get] either throws the exhaustion error and leaves every record as
    it is, or returns the stamped copy of one healthy record and writes
    that stamp, and nothing else, to the pool. *)
Lemma or_get_frame (rawModel : string) (streaming : bool)
      (s : Store OpenRouterKey) :
  (exists s' : Store OpenRouterKey,
      get clock getOpenRouterModuleFamily rawModel streaming s
      = Throw (PaymentRequiredError
                 (if bool_decide (getOpenRouterModuleFamily rawModel
                                  = "openrouter-paid")
                  then paid_message else free_message)) s'
      /\ keys s' = keys s /\ checker s' = checker s)
  \/ (exists (j : nat) (kj : OpenRouterKey) (t : nat),
         keys s !! j = Some kj
         /\ healthy (getOpenRouterModuleFamily rawModel) kj
         /\ (ticks s <= t)%nat
         /\ get clock getOpenRouterModuleFamily rawModel streaming s
            = Ok (set_field kj (F_lastUsed (clock t)))
                 (mkStore (<[j := set_field kj (F_lastUsed (clock t))]>
                             (keys s))
                          (S t) (checker s))).
Proof.
  destruct (OpenRouterFacts.or_get_cases clock getOpenRouterModuleFamily rawModel
              streaming s)
    as (r & t1 & _ & Ht & Hin & _ & [[_ Hthrow] | (i & k0 & Hi & _ & Hok)]).
  - left. eexists. split; [exact Hthrow|]. split; reflexivity.
  - right. destruct (Hin _ Hi) as (Hl & Hh & _). simpl in Hl, Hh.
    exists i, k0, t1. split; [exact Hl|]. split; [exact Hh|].
    split; [exact Ht|]. rewrite Hok. f_equal. f_equal.
    apply list_eq. intros n. destruct (decide (n = i)) as [->|Hn].
    + rewrite list_lookup_alter_eq, Hl. simpl.
      rewrite list_lookup_insert_eq; [reflexivity|].
      eapply lookup_lt_Some. exact Hl.
    + rewrite list_lookup_alter_ne, list_lookup_insert_ne by congruence.
      reflexivity.
Qed.

(** [disable] on a record that is in the pool and enabled. *)
Lemma or_disable_found (k : OpenRouterKey) (s : Store OpenRouterKey)
      (i : nat) (k0 : OpenRouterKey) :
  find_by hash (hash k) (keys s) = Some (i, k0) ->
  isDisabled k0 = false ->
  disable k s
  = Ok tt (mkStore (<[i := set_field k0 (F_isDisabled true)]> (keys s))
                   (ticks s) (checker s)).
Proof.
  intros Hf Hd. unfold disable. step. rewrite Hf, Hd. reflexivity.
Qed.

(** [disable] on a hash that is not in the pool, or on a record that is
    disabled already, does nothing. *)
Lemma or_disable_noop (k : OpenRouterKey) (s : Store OpenRouterKey) :
  (find_by hash (hash k) (keys s) = None
   \/ exists (i : nat) (k0 : OpenRouterKey),
       find_by hash (hash k) (keys s) = Some (i, k0)
       /\ isDisabled k0 = true) ->
  disable k s = Ok tt s.
Proof.
  intros [Hf | (i & k0 & Hf & Hd)]; unfold disable; step; rewrite Hf.
  - reflexivity.
  - rewrite Hd. reflexivity.
Qed.

(** After [disable], the record is out of [available()] and out of what
    [get] may return, and a second [disable] changes nothing. *)
Lemma or_disable_effect (k : OpenRouterKey) (s : Store OpenRouterKey)
      (i : nat) (k0 : OpenRouterKey) :
  find_by hash (hash k) (keys s) = Some (i, k0) ->
  isDisabled k0 = false ->
  exists s' : Store OpenRouterKey,
    disable k s = Ok tt s'
    /\ keys s' = <[i := set_field k0 (F_isDisabled true)]> (keys s)
    /\ disable k s' = Ok tt s'
    /\ (exists a : Z, available s = Ok a s /\ available s' = Ok (a - 1) s')
    /\ forall (rawModel : string) (streaming : bool)
              (k2 : OpenRouterKey) (s2 : Store OpenRouterKey),
        get clock getOpenRouterModuleFamily rawModel streaming s' = Ok k2 s2 ->
        exists (j : nat) (kj : OpenRouterKey),
          j <> i /\ keys s !! j = Some kj
          /\ k2 = set_field kj (F_lastUsed (lastUsed k2)).
Proof.
  intros Hf Hd.
  destruct (JSFacts.find_by_lookup _ _ _ _ _ Hf) as [Hl Hh].
  assert (Hi : (i < length (keys s))%nat) by (eapply lookup_lt_Some; exact Hl).
  eexists. split; [apply (or_disable_found k s i k0 Hf Hd)|].
  cbn [keys]. split; [reflexivity|]. split; [|split].
  - apply or_disable_noop. right.
    exists i, (set_field k0 (F_isDisabled true)). cbn [keys].
    split; [|reflexivity].
    apply (JSFacts.find_by_insert _ _ _ _ k0); [exact Hf | exact Hh].
  - exists (Z.of_nat (length (filter (fun k => isDisabled k = false) (keys s)))).
    split; [reflexivity|]. unfold available. step. f_equal.
    rewrite (length_filter_insert (fun k => isDisabled k = false) (keys s) i k0
               (set_field k0 (F_isDisabled true)) Hl Hd)
      by (simpl; discriminate).
    simpl. lia.
  - intros rawModel streaming k2 s2 Hget.
    destruct (or_get_frame rawModel streaming
                (mkStore (<[i := set_field k0 (F_isDisabled true)]> (keys s))
                         (ticks s) (checker s)))
      as [(s' & Hthrow & _) | (j & kj & t & Hj & Hhealthy & _ & Hok)].
    { rewrite Hthrow in Hget. discriminate. }
    rewrite Hok in Hget. inversion Hget; subst; clear Hget.
    cbn [keys] in Hj.
    assert (Hne : j <> i).
    { intros ->. rewrite list_lookup_insert_eq in Hj by exact Hi.
      inversion Hj; subst kj. destruct Hhealthy as [Hdis _].
      simpl in Hdis. discriminate. }
    exists j, kj. split; [exact Hne|].
    rewrite list_lookup_insert_ne in Hj by congruence.
    split; [exact Hj | reflexivity].
Qed.

(** What a successful [get] returns and writes, and how the record it
    picked ranks among the records that were eligible. *)
Lemma or_get_result (rawModel : string) (streaming : bool)
      (s s' : Store OpenRouterKey) (k : OpenRouterKey) :
  get clock getOpenRouterModuleFamily rawModel streaming s = Ok k s' ->
  exists (i : nat) (k0 : OpenRouterKey) (t : nat),
    keys s !! i = Some k0
    /\ healthy (getOpenRouterModuleFamily rawModel) k0
    /\ k = set_field k0 (F_lastUsed (clock t))
    /\ s' = mkStore (<[i := k]> (keys s)) (S t) (checker s)
    /\ (ticks s <= t)%nat
    /\ forall (j : nat) (kj : OpenRouterKey),
        keys s !! j = Some kj ->
        healthy (getOpenRouterModuleFamily rawModel) kj ->
        (forall n : nat, (ticks s <= n < t)%nat ->
                         rateLimitedUntil kj <= clock n) ->
        STATUS_PRIORITY (status kj) <= STATUS_PRIORITY (status k0)
        /\ (STATUS_PRIORITY (status kj) = STATUS_PRIORITY (status k0) ->
            (balance_or_0 kj <= balance_or_0 k0)%Q
            /\ ((balance_or_0 kj == balance_or_0 k0)%Q ->
                lastUsed k0 <= lastUsed kj)).
Proof.
  intros Hget.
  destruct (OpenRouterFacts.or_get_cases clock getOpenRouterModuleFamily rawModel
              streaming s)
    as (r & t1 & _ & Ht & Hin & Hout
        & [[_ Hthrow] | (i & k0 & Hi & Hmin & Hok)]).
  { rewrite Hthrow in Hget. discriminate. }
  rewrite Hok in Hget. inversion Hget; subst k s'; clear Hget.
  destruct (Hin _ Hi) as (Hl & Hh & _). simpl in Hl, Hh.
  exists i, k0, t1. split; [exact Hl|]. split; [exact Hh|].
  split; [reflexivity|]. split; [|split; [exact Ht|]].
  - f_equal. apply list_eq. intros n.
    destruct (decide (n = i)) as [->|Hn].
    + rewrite list_lookup_alter_eq, Hl. simpl.
      rewrite list_lookup_insert_eq; [reflexivity|].
      eapply lookup_lt_Some. exact Hl.
    + rewrite list_lookup_alter_ne, list_lookup_insert_ne by congruence.
      reflexivity.
  - intros j kj Hlj Hhj Hfree.
    assert (Hmem : (j, kj) ∈ r) by (apply Hout; assumption).
    specialize (Hmin _ Hmem).
    apply OpenRouterFacts.or_before_by_priority in Hmin. simpl in Hmin.
    destruct Hmin as [Hp | (Hp & [Hb | [Hb Hlu]])].
    + split; [lia|]. intros E. lia.
    + split; [lia|]. intros _. split; [lra|]. intros E. lra.
    + split; [lia|]. intros _. split; [lra|]. intros _. exact Hlu.
Qed.

(** Two calls of [get] in a row: the second does not return the record
    the first one returned when another record is eligible for it, ranks
    at least as high, has at least its balance, and was last used before
    the first call's stamp. *)
Lemma or_get_rotates (rawModel : string) (streaming : bool)
      (s s1 s2 : Store OpenRouterKey) (k1 k2 : OpenRouterKey)
      (j : nat) (kj : OpenRouterKey) :
  get clock getOpenRouterModuleFamily rawModel streaming s = Ok k1 s1 ->
  get clock getOpenRouterModuleFamily rawModel streaming s1 = Ok k2 s2 ->
  keys s1 !! j = Some kj ->
  healthy (getOpenRouterModuleFamily rawModel) kj ->
  (forall n : nat, (ticks s1 <= n < ticks s2)%nat ->
                   rateLimitedUntil kj <= clock n) ->
  STATUS_PRIORITY (status k1) <= STATUS_PRIORITY (status kj) ->
  (balance_or_0 k1 <= balance_or_0 kj)%Q ->
  lastUsed kj < lastUsed k1 ->
  exists (i i2 : nat) (k' : OpenRouterKey),
    keys s1 !! i = Some k1
    /\ i2 <> i
    /\ keys s1 !! i2 = Some k'
    /\ k2 = set_field k' (F_lastUsed (lastUsed k2))
    /\ keys s2 !! i = Some k1.
Proof.
  intros H1 H2 Hj Hh Hfree Hprio Hbal Hlru.
  destruct (or_get_result _ _ _ _ _ H1)
    as (i & a & t & Hi & _ & _ & -> & _).
  destruct (or_get_result _ _ _ _ _ H2)
    as (i2 & b & u & Hi2 & _ & Hk2 & -> & _ & Hmin).
  cbn [keys ticks] in *.
  assert (Hilt : (i < length (keys s))%nat)
    by (eapply lookup_lt_Some; exact Hi).
  assert (Hi1 : <[i := k1]> (keys s) !! i = Some k1)
    by (apply list_lookup_insert_eq; exact Hilt).
  destruct (Hmin j kj Hj Hh) as [Hp Hl].
  { intros n Hn. apply Hfree. lia. }
  assert (Hne : i2 <> i).
  { intros ->. rewrite Hi1 in Hi2. inversion Hi2; subst b.
    assert (E : STATUS_PRIORITY (status kj) = STATUS_PRIORITY (status k1))
      by lia.
    destruct (Hl E) as [Hle Hlu].
    assert (Eb : (balance_or_0 kj == balance_or_0 k1)%Q) by lra.
    specialize (Hlu Eb). lia. }
  exists i, i2, b. split; [exact Hi1|]. split; [exact Hne|].
  split; [exact Hi2|]. split; [rewrite Hk2; reflexivity|].
  rewrite list_lookup_insert_ne by congruence. exact Hi1.
Qed.

End OpenRouter.

End PoolFacts.

(* ===================================================================== *)
(** ** Further facts about the counters and about fresh pools *)
(* ===================================================================== *)

Module UsageFacts.

(** [n++] is exact on the safe integers, and from 2^53 on the counter
    stands still. *)
Lemma increment_exact (n : Z) :
  - 2 ^ 53 <= n < 2 ^ 53 -> increment n = n + 1.
Proof.
  intros Hn. unfold increment, to_double. cbv zeta.
  destruct (Z.ltb_spec (Z.abs (n + 1)) (2 ^ 53)) as [_|Hbig]; [reflexivity|].
  assert (E : n + 1 = 2 ^ 53) by lia. rewrite E. reflexivity.
Qed.

Lemma increment_stuck : increment (2 ^ 53) = 2 ^ 53.
Proof. reflexivity. Qed.

Section Groq.
Import Groq.
Variable clock : nat -> Z.
Variable getGroqModelFamily : string -> string.

(** [incrementUsage] on a hash that is in the pool: one more prompt, and
    the tokens added to the own entry of the family, which starts from
    zero when it is missing and not shadowed by an inherited property; the
    entries of the other families stay. *)
Lemma groq_incrementUsage_found (h f : string) (usage : Usage)
      (s : Store GroqKey) (i : nat) (k0 : GroqKey) :
  find_by hash h (keys s) = Some (i, k0) ->
  exists tu' : gmap string Usage,
    incrementUsage h f usage s
    = Ok tt (mkStore
               (<[i := set_field
                         (set_field k0
                            (F_promptCount (increment (promptCount k0))))
                         (F_tokenUsage (Some tu'))]> (keys s))
               (ticks s) (checker s))
    /\ (forall c : Usage,
          default ∅ (tokenUsage k0) !! f = Some c ->
          tu' !! f
          = Some (mkUsage (PrimFloat.add (input c) (input usage))
                          (PrimFloat.add (output c) (output usage))))
    /\ (default ∅ (tokenUsage k0) !! f = None ->
        f ∉ Object_prototype ->
        tu' !! f
        = Some (mkUsage (PrimFloat.add PrimFloat.zero (input usage))
                        (PrimFloat.add PrimFloat.zero (output usage))))
    /\ (default ∅ (tokenUsage k0) !! f = None ->
        f ∈ Object_prototype ->
        tu' = default ∅ (tokenUsage k0))
    /\ forall g : string,
        g <> f -> tu' !! g = default ∅ (tokenUsage k0) !! g.
Proof.
  intros Hf. unfold incrementUsage. step. rewrite Hf.
  eexists. split; [reflexivity|].
  destruct (default ∅ (tokenUsage k0) !! f) as [c|] eqn:Hc; simpl.
  - split; [|split; [discriminate|split; [discriminate|]]].
    + intros c' Hc'. inversion Hc'; subst c'.
      rewrite lookup_alter_eq, Hc. reflexivity.
    + intros g Hg. rewrite lookup_alter_ne by congruence. reflexivity.
  - split; [discriminate|].
    destruct (decide (f ∈ Object_prototype)) as [Hin|Hout].
    + rewrite bool_decide_eq_true_2 by exact Hin.
      split; [intros _ Hn; contradiction|]. split.
      * intros _ _. apply map_eq. intros g.
        destruct (decide (g = f)) as [->|Hg].
        -- rewrite lookup_alter_eq, Hc. reflexivity.
        -- rewrite lookup_alter_ne by congruence. reflexivity.
      * intros g Hg. rewrite lookup_alter_ne by congruence. reflexivity.
    + rewrite bool_decide_eq_false_2 by exact Hout.
      split; [|split; [intros _ Hi; contradiction|]].
      * intros _ _. rewrite lookup_alter_eq, lookup_insert_eq. reflexivity.
      * intros g Hg.
        rewrite lookup_alter_ne, lookup_insert_ne by congruence.
        reflexivity.
Qed.

(** A record that fails one of the checks that do not read the clock is
    not what [get] returns, at any time, and [get] does not write to
    it. *)
Lemma groq_get_excludes_unhealthy (rawModel : string) (streaming : bool)
      (s s' : Store GroqKey) (i : nat) (ki k : GroqKey) :
  keys s !! i = Some ki ->
  ~ healthy (getGroqModelFamily rawModel) ki ->
  get clock getGroqModelFamily rawModel streaming s = Ok k s' ->
  exists (j : nat) (kj : GroqKey),
    j <> i /\ keys s !! j = Some kj
    /\ k = set_field kj (F_lastUsed (lastUsed k))
    /\ keys s' !! i = Some ki.
Proof.
  intros Hi Hq Hget.
  destruct (PoolFacts.groq_get_result clock getGroqModelFamily _ _ _ _ _ Hget)
    as (j & kj & t & Hj & Hh & -> & -> & _).
  assert (Hne : j <> i).
  { intros ->. rewrite Hi in Hj. inversion Hj; subst kj. contradiction. }
  exists j, kj. split; [exact Hne|]. split; [exact Hj|].
  split; [reflexivity|]. cbn [keys].
  rewrite list_lookup_insert_ne by congruence. exact Hi.
Qed.

(** A pool loaded from at least one secret hands out one of the
    configured secrets for a family of the Groq list, when the clock does
    not read below zero. *)
Lemma groq_fresh_pool_serves (digest : string -> string)
      (bareKeys : list string) (rawModel : string) (streaming : bool) :
  bareKeys <> [] ->
  getGroqModelFamily rawModel ∈ modelFamilies (newKey digest EmptyString) ->
  (forall n : nat, 0 <= clock n) ->
  exists (k : GroqKey) (s' : Store GroqKey) (secret : string),
    get clock getGroqModelFamily rawModel streaming (load digest bareKeys)
    = Ok k s'
    /\ secret ∈ bareKeys
    /\ key k = Some secret
    /\ hash k = "groq-" +:+ digest secret
    /\ status k = UNKNOWN.
Proof.
  intros Hne Hfam Hclock.
  destruct bareKeys as [|b0 rest]; [contradiction|].
  assert (Hall : forall (j : nat) (kj : GroqKey),
             keys (load digest (b0 :: rest)) !! j = Some kj ->
             exists secret, secret ∈ b0 :: rest /\ kj = newKey digest secret).
  { intros j kj Hj. unfold load in Hj. cbn [keys] in Hj.
    apply list_lookup_fmap_Some in Hj as (secret & -> & Hs).
    exists secret. split; [|reflexivity].
    apply list_elem_of_lookup. exists j. exact Hs. }
  destruct (GroqFacts.groq_get_accepts_unlocked clock getGroqModelFamily
              rawModel streaming (load digest (b0 :: rest)) 0
              (newKey digest b0))
    as [_ (k & s' & j & kj & Hok & Hj & Hk & _)].
  - reflexivity.
  - split; [reflexivity|]. split; [discriminate|].
    split; [reflexivity | exact Hfam].
  - intros n _. simpl. apply Hclock.
  - destruct (Hall j kj Hj) as (secret & Hs & ->).
    exists k, s', secret. split; [exact Hok|]. split; [exact Hs|].
    rewrite Hk. split; [reflexivity|]. split; reflexivity.
Qed.

End Groq.

Section OpenRouter.
Import OpenRouter.
Variable clock : nat -> Z.
Variable getOpenRouterModuleFamily : string -> string.

(** [incrementUsage] on a hash that is in the pool: one more prompt, and
    the tokens added to the own entry of the family, which starts from
    zero when it is missing and not shadowed by an inherited property; the
    entries of the other families stay. *)
Lemma or_incrementUsage_found (h f : string) (usage : Usage)
      (s : Store OpenRouterKey) (i : nat) (k0 : OpenRouterKey) :
  find_by hash h (keys s) = Some (i, k0) ->
  exists tu' : gmap string Usage,
    incrementUsage h f usage s
    = Ok tt (mkStore
               (<[i := set_field
                         (set_field k0
                            (F_promptCount (increment (promptCount k0))))
                         (F_tokenUsage (Some tu'))]> (keys s))
               (ticks s) (checker s))
    /\ (forall c : Usage,
          default ∅ (tokenUsage k0) !! f = Some c ->
          tu' !! f
          = Some (mkUsage (PrimFloat.add (input c) (input usage))
                          (PrimFloat.add (output c) (output usage))))
    /\ (default ∅ (tokenUsage k0) !! f = None ->
        f ∉ Object_prototype ->
        tu' !! f
        = Some (mkUsage (PrimFloat.add PrimFloat.zero (input usage))
                        (PrimFloat.add PrimFloat.zero (output usage))))
    /\ (default ∅ (tokenUsage k0) !! f = None ->
        f ∈ Object_prototype ->
        tu' = default ∅ (tokenUsage k0))
    /\ forall g : string,
        g <> f -> tu' !! g = default ∅ (tokenUsage k0) !! g.
Proof.
  intros Hf. unfold incrementUsage. step. rewrite Hf.
  eexists. split; [reflexivity|].
  destruct (default ∅ (tokenUsage k0) !! f) as [c|] eqn:Hc; simpl.
  - split; [|split; [discriminate|split; [discriminate|]]].
    + intros c' Hc'. inversion Hc'; subst c'.
      rewrite lookup_alter_eq, Hc. reflexivity.
    + intros g Hg. rewrite lookup_alter_ne by congruence. reflexivity.
  - split; [discriminate|].
    destruct (decide (f ∈ Object_prototype)) as [Hin|Hout].
    + rewrite bool_decide_eq_true_2 by exact Hin.
      split; [intros _ Hn; contradiction|]. split.
      * intros _ _. apply map_eq. intros g.
        destruct (decide (g = f)) as [->|Hg].
        -- rewrite lookup_alter_eq, Hc. reflexivity.
        -- rewrite lookup_alter_ne by congruence. reflexivity.
      * intros g Hg. rewrite lookup_alter_ne by congruence. reflexivity.
    + rewrite bool_decide_eq_false_2 by exact Hout.
      split; [|split; [intros _ Hi; contradiction|]].
      * intros _ _. rewrite lookup_alter_eq, lookup_insert_eq. reflexivity.
      * intros g Hg.
        rewrite lookup_alter_ne, lookup_insert_ne by congruence.
        reflexivity.
Qed.

(** A record that fails one of the checks that do not read the clock is
    not what [get] returns, at any time, and [get] does not write to
    it. *)
Lemma or_get_excludes_unhealthy (rawModel : string) (streaming : bool)
      (s s' : Store OpenRouterKey) (i : nat) (ki k : OpenRouterKey) :
  keys s !! i = Some ki ->
  ~ healthy (getOpenRouterModuleFamily rawModel) ki ->
  get clock getOpenRouterModuleFamily rawModel streaming s = Ok k s' ->
  exists (j : nat) (kj : OpenRouterKey),
    j <> i /\ keys s !! j = Some kj
    /\ k = set_field kj (F_lastUsed (lastUsed k))
    /\ keys s' !! i = Some ki.
Proof.
  intros Hi Hq Hget.
  destruct (PoolFacts.or_get_result clock getOpenRouterModuleFamily _ _ _ _ _ Hget)
    as (j & kj & t & Hj & Hh & -> & -> & _).
  assert (Hne : j <> i).
  { intros ->. rewrite Hi in Hj. inversion Hj; subst kj. contradiction. }
  exists j, kj. split; [exact Hne|]. split; [exact Hj|].
  split; [reflexivity|]. cbn [keys].
  rewrite list_lookup_insert_ne by congruence. exact Hi.
Qed.

(** While every record has a status of priority zero, [get] throws the
    exhaustion error of the family that was asked for, whatever the
    model and the time. *)
Lemma or_unchecked_pool_exhausted (rawModel : string) (streaming : bool)
      (s : Store OpenRouterKey) :
  (forall k : OpenRouterKey,
      k ∈ keys s -> STATUS_PRIORITY (status k) = 0) ->
  exists s' : Store OpenRouterKey,
    get clock getOpenRouterModuleFamily rawModel streaming s
    = Throw (PaymentRequiredError
               (if bool_decide (getOpenRouterModuleFamily rawModel
                                = "openrouter-paid")
                then paid_message else free_message)) s'
    /\ keys s' = keys s.
Proof.
  intros Hzero. apply OpenRouterFacts.or_get_exhausted.
  intros i ki Hi (_ & Hp & _). apply Hp, Hzero.
  apply list_elem_of_lookup. exists i. exact Hi.
Qed.

End OpenRouter.

End UsageFacts.

(* ===================================================================== *)
(** ** Facts about the Groq probe *)
(* ===================================================================== *)

Module ProbeFacts.
Import Groq GroqChecker.

(** How [testKey] classifies what [axios.get] did, by the status and the
    body [makeRequest] hands over. *)
Lemma groq_testKey_table (o : AxiosOutcome) (st : GroqKeyStatus)
      (inf : string) :
  testKey o = inr (st, inf) ->
  (st = ACTIVE <->
   (makeRequest o).1 = 200 /\ isModelsResponse (makeRequest o).2 = inr true)
  /\ (st = INVALID <->
      (makeRequest o).1 = 401 /\ isErrorResponse (makeRequest o).2 = true)
  /\ (st = RATE_LIMITED <->
      (makeRequest o).1 = 429 /\ isErrorResponse (makeRequest o).2 = true)
  /\ st <> DEAD.
Proof.
  unfold testKey. destruct (makeRequest o) as [http d]. cbn [fst snd].
  intros H.
  assert (Herr : forall st' inf',
             (match d with
              | Body _ (Some e) =>
                  if truthy (message e) then
                    if bool_decide (http = 401) then
                      (INVALID, "Invalid key: " +:+ show (message e))
                    else if bool_decide (http = 429) then
                      (RATE_LIMITED, "Rate limited: " +:+ show (message e))
                    else
                      (UNKNOWN, "Error (" +:+ show (type e) +:+ "): "
                                +:+ show (message e))
                  else (UNKNOWN, "Unexpected response status: " +:+ pretty http)
              | _ => (UNKNOWN, "Unexpected response status: " +:+ pretty http)
              end) = (st', inf') ->
             st' <> ACTIVE /\ st' <> DEAD
             /\ (st' = INVALID <-> http = 401 /\ isErrorResponse d = true)
             /\ (st' = RATE_LIMITED <->
                 http = 429 /\ isErrorResponse d = true)).
  { intros st' inf' E. unfold isErrorResponse.
    destruct d as [|dd [e|]];
      try (inversion E; subst; repeat split; try discriminate;
           intros [_ ?]; discriminate).
    destruct (truthy (message e));
      [|inversion E; subst; repeat split; try discriminate;
        intros [_ ?]; discriminate].
    destruct (decide (http = 401)) as [E1|E1].
    - rewrite bool_decide_eq_true_2 in E by exact E1.
      inversion E; subst. repeat split; try discriminate.
      intros [? _]. discriminate.
    - rewrite bool_decide_eq_false_2 in E by exact E1.
      destruct (decide (http = 429)) as [E2|E2].
      + rewrite bool_decide_eq_true_2 in E by exact E2.
        inversion E; subst. repeat split; try discriminate.
        intros [? _]. discriminate.
      + rewrite bool_decide_eq_false_2 in E by exact E2.
        inversion E; subst. repeat split; try discriminate;
          intros [? _]; contradiction. }
  destruct (decide (http = 200)) as [E200|E200].
  - rewrite bool_decide_eq_true_2 in H by exact E200.
    destruct (isModelsResponse d) as [e|[|]] eqn:Hm; [discriminate| |].
    + inversion H; subst. repeat split; try discriminate; try reflexivity;
        intros [? _]; discriminate.
    + inversion H as [E]. destruct (Herr _ _ E) as (Ha & Hd & Hi & Hr).
      repeat split; try tauto; try (apply Hi); try (apply Hr).
      * intros [_ ?]. discriminate.
  - rewrite bool_decide_eq_false_2 in H by exact E200.
    inversion H as [E]. destruct (Herr _ _ E) as (Ha & Hd & Hi & Hr).
    repeat split; try tauto; try (apply Hi); try (apply Hr).
Qed.

(** [every] throws exactly when the array holds a [null] element and all
    the elements before it pass the check. *)
Lemma every_item_ok_throws (items : list (option ModelItem)) (e : Error) :
  every_item_ok items = inl e <->
  e = TypeError
  /\ exists pre post : list (option ModelItem),
      items = pre ++ None :: post
      /\ Forall (fun x => item_ok x = inr true) pre.
Proof.
  induction items as [|item rest IH].
  - split; [discriminate|].
    intros (_ & pre & post & H & _). destruct pre; discriminate.
  - destruct item as [it|].
    + cbn [every_item_ok]. destruct (item_ok (Some it)) as [e'|b] eqn:Hit.
      { discriminate. }
      destruct b.
      * rewrite IH. split.
        -- intros (-> & pre & post & -> & Hpre). split; [reflexivity|].
           exists (Some it :: pre), post. split; [reflexivity|].
           constructor; [exact Hit | exact Hpre].
        -- intros (-> & pre & post & H & Hpre). split; [reflexivity|].
           destruct pre as [|p0 pre]; [discriminate|].
           inversion H; subst. inversion Hpre; subst.
           exists pre, post. split; [reflexivity | assumption].
      * split; [discriminate|].
        intros (_ & pre & post & H & Hpre).
        destruct pre as [|p0 pre]; [discriminate|].
        inversion H; subst. inversion Hpre; subst. congruence.
    + cbn [every_item_ok item_ok]. split.
      * intros H. inversion H. split; [reflexivity|].
        exists [], rest. split; [reflexivity | constructor].
      * intros (-> & _). reflexivity.
Qed.

(** [testKey] lets an exception escape only for a 200 whose [data] array
    holds a [null] element before any element that fails the check. *)
Lemma groq_testKey_throws (o : AxiosOutcome) (e : Error) :
  testKey o = inl e <->
  (makeRequest o).1 = 200 /\ isModelsResponse (makeRequest o).2 = inl e.
Proof.
  unfold testKey. destruct (makeRequest o) as [http d]. cbn [fst snd].
  destruct (decide (http = 200)) as [E200|E200].
  - rewrite bool_decide_eq_true_2 by exact E200.
    destruct (isModelsResponse d) as [e'|[|]].
    + split; [intros H; inversion H; auto
             | intros [_ H]; inversion H; reflexivity].
    + split; [discriminate | intros [_ H]; discriminate].
    + split; [discriminate | intros [_ H]; discriminate].
  - rewrite bool_decide_eq_false_2 by exact E200.
    split; [discriminate | intros [? _]; contradiction].
Qed.

(** Whatever the request did, a status other than 200, 401 and 429 is
    classified [UNKNOWN], and [testKey] does not throw. *)
Lemma groq_testKey_unknown (o : AxiosOutcome) :
  (makeRequest o).1 <> 200 -> (makeRequest o).1 <> 401 ->
  (makeRequest o).1 <> 429 ->
  exists inf : string, testKey o = inr (UNKNOWN, inf).
Proof.
  intros H200 H401 H429.
  destruct (testKey o) as [e|[st inf]] eqn:Ht.
  - apply groq_testKey_throws in Ht as [E _]. contradiction.
  - destruct (groq_testKey_table o st inf Ht) as (Ha & Hi & Hr & Hd).
    destruct st; try (exists inf; reflexivity); exfalso.
    + destruct (proj1 Ha eq_refl) as [E _]. contradiction.
    + destruct (proj1 Hr eq_refl) as [E _]. contradiction.
    + destruct (proj1 Hi eq_refl) as [E _]. contradiction.
    + apply Hd. reflexivity.
Qed.

(** The status [makeRequest] reports for a request that was rejected:
    that of the response the error carries, and 500 without one. *)
Lemma groq_makeRequest_rejected_status (http : option Z) (d : Data)
      (msg : string) (c : Z) :
  c <> 500 -> http <> Some c ->
  (makeRequest (Rejected ((fun st => (st, d)) <$> http) msg)).1 <> c.
Proof.
  intros Hc Hh. destruct http as [st|]; cbn.
  - case_bool_decide; cbn; congruence.
  - congruence.
Qed.

(** A request that fails without a response is classified [UNKNOWN]. *)
Lemma groq_testKey_network (msg : string) :
  testKey (Rejected None msg)
  = inr (UNKNOWN,
         if bool_decide (msg = EmptyString)
         then "Unexpected response status: 500"
         else "Error (network_error): " +:+ msg).
Proof.
  unfold testKey, makeRequest.
  rewrite bool_decide_eq_false_2 by discriminate.
  unfold truthy. cbn [message].
  destruct (bool_decide (msg = EmptyString)); reflexivity.
Qed.

Section Pool.
Variable clock : nat -> Z.

(** [testKeyOrFail] on a credential of the pool: the record takes the
    status and the info of the classification, loses its [rateLimitInfo],
    is stamped with the time of the check, and keeps its secret, hash and
    bookkeeping. *)
Lemma groq_testKeyOrFail_found (key0 : GroqKey) (o : AxiosOutcome)
      (s : Store GroqKey) (i : nat) (k : GroqKey)
      (st : GroqKeyStatus) (inf : string) :
  find_by hash (hash key0) (keys s) = Some (i, k) ->
  testKey o = inr (st, inf) ->
  exists k' : GroqKey,
    testKeyOrFail clock key0 o s
    = Ok tt (mkStore (<[i := k']> (keys s)) (S (ticks s)) (checker s))
    /\ status k' = st
    /\ info k' = inf
    /\ rateLimitInfo k' = None
    /\ lastChecked k' = clock (ticks s)
    /\ isOverQuota k'
       = (bool_decide (st = RATE_LIMITED) || bool_decide (st = INVALID))
    /\ bookkeeping k' = bookkeeping k
    /\ modelFamilies k' = modelFamilies k
    /\ isDisabled k'
       = (if bool_decide (st = DEAD) || bool_decide (st = INVALID) then true
          else if bool_decide (status k = DEAD)
                  || bool_decide (status k = INVALID)
          then false else isDisabled k).
Proof.
  intros Hf Ht. unfold testKeyOrFail. rewrite Ht.
  rewrite (GroqFacts.groq_update_found clock _ _ s i k Hf).
  eexists. split; [reflexivity|].
  destruct k as [? ? ? ? ? ? ? ? ? ? ? ? ? prev ? ?].
  destruct st, prev; repeat split; reflexivity.
Qed.

(** When [testKey] throws, [testKeyOrFail] throws, before it has touched
    the provider. *)
Lemma groq_testKeyOrFail_throws (key0 : GroqKey) (o : AxiosOutcome)
      (s : Store GroqKey) (e : Error) :
  testKey o = inl e ->
  testKeyOrFail clock key0 o s = Throw e s.
Proof. intros Ht. unfold testKeyOrFail. rewrite Ht. reflexivity. Qed.

End Pool.

End ProbeFacts.

(* ===================================================================== *)
(** ** Facts about [selectUpstreamPath] *)
(* ===================================================================== *)

Module PathFacts.
Import Mutation.

Lemma prefix_empty (s : string) : String.prefix EmptyString s = true.
Proof. destruct s; reflexivity. Qed.

Lemma prefix_cons (a b : Ascii.ascii) (s1 s2 : string) :
  String.prefix (String a s1) (String b s2)
  = if Ascii.ascii_dec a b then String.prefix s1 s2 else false.
Proof. reflexivity. Qed.

Lemma prefix_append_l (a b p : string) :
  String.prefix (a +:+ b) (a +:+ p) = String.prefix b p.
Proof.
  induction a as [|c a IH]; [reflexivity|].
  change (String.prefix (String c (a +:+ b)) (String c (a +:+ p))
          = String.prefix b p).
  rewrite prefix_cons. destruct (Ascii.ascii_dec c c); [exact IH|].
  contradiction.
Qed.

Lemma prefix_append (a p : string) : String.prefix a (a +:+ p) = true.
Proof.
  induction a as [|c a IH]; [apply prefix_empty|].
  change (String.prefix (String c a) (String c (a +:+ p)) = true).
  rewrite prefix_cons. destruct (Ascii.ascii_dec c c); [exact IH|].
  contradiction.
Qed.

Lemma prefix_append_false (a b p : string) :
  String.prefix a p = false -> String.prefix (a +:+ b) p = false.
Proof.
  revert p. induction a as [|c a IH]; intros p.
  - rewrite prefix_empty. discriminate.
  - change (String c a +:+ b) with (String c (a +:+ b)).
    destruct p as [|d p]; [reflexivity|].
    rewrite !prefix_cons. destruct (Ascii.ascii_dec c d); [apply IH|].
    reflexivity.
Qed.

(** A string that starts with [a] is [a] followed by something. *)
Lemma prefix_split (a p : string) :
  String.prefix a p = true -> exists r : string, p = a +:+ r.
Proof.
  revert p. induction a as [|c a IH]; intros p.
  - intros _. exists p. reflexivity.
  - destruct p as [|d p]; [discriminate|].
    rewrite prefix_cons. destruct (Ascii.ascii_dec c d) as [->|]; [|discriminate].
    intros H. destruct (IH p H) as [r ->]. exists r. reflexivity.
Qed.

(** [url.split("?")[0]] followed by [url.substring(pathname.length)] is
    the URL again. *)
Lemma before_query_split (u : string) :
  before_query u +:+ substring (String.length (before_query u)) u = u.
Proof.
  induction u as [|c u IH]; [reflexivity|].
  cbn [before_query].
  destruct (Ascii.eqb c (Ascii.ascii_of_nat 63)); [reflexivity|].
  change (String c (before_query u
                    +:+ substring (String.length (before_query u)) u)
          = String c u).
  rewrite IH. reflexivity.
Qed.

(** What the part before the query starts with, the URL starts with. *)
Lemma prefix_before_query (a u : string) :
  String.prefix a (before_query u) = true -> String.prefix a u = true.
Proof.
  revert u. induction a as [|c a IH]; intros u.
  - intros _. apply prefix_empty.
  - destruct u as [|d u]; [discriminate|].
    cbn [before_query].
    destruct (Ascii.eqb d (Ascii.ascii_of_nat 63)); [discriminate|].
    rewrite !prefix_cons. destruct (Ascii.ascii_dec c d); [apply IH|].
    discriminate.
Qed.

(** Whether the part before the query starts with a slash. *)
Lemma prefix_slash_before_query (r : string) :
  String.prefix "/" (before_query r) = String.prefix "/" r.
Proof.
  destruct r as [|c r]; [reflexivity|].
  cbn [before_query].
  destruct (Ascii.eqb c (Ascii.ascii_of_nat 63)) eqn:E.
  - apply Ascii.eqb_eq in E. subst c. reflexivity.
  - rewrite !prefix_cons.
    destruct (Ascii.ascii_dec _ c); [rewrite !prefix_empty|]; reflexivity.
Qed.

(** [/v1/] goes, the slash after it stays, and so does the query. *)
Lemma upstream_path_v1_slash (r : string) :
  upstream_path ("/v1/" +:+ r) = "/" +:+ r.
Proof.
  unfold upstream_path, OpenRouter.startsWith. cbv zeta.
  change (before_query ("/v1/" +:+ r)) with ("/v1/" +:+ before_query r).
  rewrite prefix_append.
  change (String (Ascii.ascii_of_nat 47)
            (before_query r
             +:+ substring (String.length (before_query r)) r)
          = String (Ascii.ascii_of_nat 47) r).
  rewrite before_query_split. reflexivity.
Qed.

(** Without a slash after [/v1] two characters go, so the [1] stays. *)
Lemma upstream_path_v1_bare (r : string) :
  OpenRouter.startsWith r "/" = false ->
  upstream_path ("/v1" +:+ r) = "1" +:+ r.
Proof.
  unfold upstream_path, OpenRouter.startsWith. cbv zeta. intros Hr.
  change (before_query ("/v1" +:+ r)) with ("/v1" +:+ before_query r).
  change "/v1/" with ("/v1" +:+ "/").
  rewrite prefix_append_l, prefix_slash_before_query, Hr, prefix_append.
  change (String (Ascii.ascii_of_nat 49)
            (before_query r
             +:+ substring (String.length (before_query r)) r)
          = String (Ascii.ascii_of_nat 49) r).
  rewrite before_query_split. reflexivity.
Qed.

(** A URL that does not start with [/v1] is left as it is. *)
Lemma upstream_path_other (u : string) :
  OpenRouter.startsWith u "/v1" = false -> upstream_path u = u.
Proof.
  unfold upstream_path, OpenRouter.startsWith. cbv zeta. intros Hu.
  assert (H3 : String.prefix "/v1" (before_query u) = false).
  { destruct (String.prefix "/v1" (before_query u)) eqn:E; [|reflexivity].
    apply prefix_before_query in E. congruence. }
  change "/v1/" with ("/v1" +:+ "/").
  rewrite (prefix_append_false _ _ _ H3), H3.
  apply before_query_split.
Qed.

End PathFacts.

(* ===================================================================== *)
(** ** Facts about the lockout and the way back from it *)
(* ===================================================================== *)

Module LockoutFacts.
Import Groq GroqChecker.

Section Groq.
Variable clock : nat -> Z.
Variable getGroqModelFamily : string -> string.

(** The record [markRateLimited] leaves behind. *)
Lemma groq_markRateLimited_record (h : string) (s : Store GroqKey)
      (i : nat) (k0 : GroqKey) :
  find_by hash h (keys s) = Some (i, k0) ->
  exists k1 : GroqKey,
    markRateLimited clock h s
    = Ok tt (mkStore (<[i := k1]> (keys s)) (S (S (ticks s))) (checker s))
    /\ find_by hash h (<[i := k1]> (keys s)) = Some (i, k1)
    /\ <[i := k1]> (keys s) !! i = Some k1
    /\ status k1 = RATE_LIMITED
    /\ isOverQuota k1 = true
    /\ rateLimitedUntil k1 = clock (ticks s) + RATE_LIMIT_LOCKOUT
    /\ modelFamilies k1 = modelFamilies k0
    /\ isDisabled k1
       = (if bool_decide (status k0 = DEAD) || bool_decide (status k0 = INVALID)
          then false else isDisabled k0).
Proof.
  intros Hf.
  destruct (GroqFacts.groq_markRateLimited_found clock h s i k0 Hf)
    as [_ Hres].
  destruct (JSFacts.find_by_lookup _ _ _ _ _ Hf) as [Hl Hh].
  eexists. split; [exact Hres|]. split; [|split].
  - apply (JSFacts.find_by_insert _ _ _ _ k0); [exact Hf|].
    destruct k0 as [? ? ? ? ? ? ? ? ? ? ? ? ? st ? ?].
    destruct st; exact Hh.
  - apply list_lookup_insert_eq. eapply lookup_lt_Some. exact Hl.
  - destruct k0 as [? ? ? ? ? ? ? ? ? ? ? ? ? st ? ?].
    destruct st; repeat split; reflexivity.
Qed.

(** After [markRateLimited] the record is out of what [get] returns, at
    any time: the lockout may be over, the record is still over quota. *)
Lemma groq_markRateLimited_excludes (h : string) (s : Store GroqKey)
      (i : nat) (k0 : GroqKey) :
  find_by hash h (keys s) = Some (i, k0) ->
  exists (s1 : Store GroqKey) (k1 : GroqKey),
    markRateLimited clock h s = Ok tt s1
    /\ keys s1 !! i = Some k1
    /\ isOverQuota k1 = true
    /\ forall (rawModel : string) (streaming : bool)
              (k : GroqKey) (s2 : Store GroqKey),
        get clock getGroqModelFamily rawModel streaming s1 = Ok k s2 ->
        exists (j : nat) (kj : GroqKey),
          j <> i /\ keys s1 !! j = Some kj
          /\ k = set_field kj (F_lastUsed (lastUsed k))
          /\ keys s2 !! i = Some k1.
Proof.
  intros Hf.
  destruct (groq_markRateLimited_record h s i k0 Hf)
    as (k1 & Hres & _ & Hl & _ & Hq & _).
  eexists _, k1. split; [exact Hres|]. cbn [keys].
  split; [exact Hl|]. split; [exact Hq|].
  intros rawModel streaming k s2 Hget.
  refine (UsageFacts.groq_get_excludes_unhealthy clock getGroqModelFamily
            rawModel streaming _ s2 i k1 k _ _ Hget); [exact Hl|].
  intros (_ & _ & Hoq & _). congruence.
Qed.

(** A credential that was enabled, then rate limited by the proxy, then
    probed with success, is a candidate again once its lockout is over. *)
Lemma groq_marked_then_probed (key0 : GroqKey) (o : AxiosOutcome)
      (inf : string) (s : Store GroqKey) (i : nat) (k0 : GroqKey)
      (rawModel : string) (streaming : bool) :
  find_by hash (hash key0) (keys s) = Some (i, k0) ->
  isDisabled k0 = false ->
  testKey o = inr (ACTIVE, inf) ->
  getGroqModelFamily rawModel ∈ modelFamilies k0 ->
  (forall n : nat, (ticks s + 3 <= n)%nat ->
                   clock (ticks s) + RATE_LIMIT_LOCKOUT <= clock n) ->
  exists (s1 s2 : Store GroqKey) (k2 : GroqKey),
    markRateLimited clock (hash key0) s = Ok tt s1
    /\ testKeyOrFail clock key0 o s1 = Ok tt s2
    /\ keys s2 !! i = Some k2
    /\ status k2 = ACTIVE
    /\ rateLimitedUntil k2 = clock (ticks s) + RATE_LIMIT_LOCKOUT
    /\ healthy (getGroqModelFamily rawModel) k2
    /\ exists (k : GroqKey) (s3 : Store GroqKey),
        get clock getGroqModelFamily rawModel streaming s2 = Ok k s3.
Proof.
  intros Hf Hd Ht Hfam Hclock.
  destruct (groq_markRateLimited_record (hash key0) s i k0 Hf)
    as (k1 & Hres & Hf1 & Hl1 & Hst1 & Hq1 & Hrl1 & Hmf1 & Hd1).
  destruct (ProbeFacts.groq_testKeyOrFail_found clock key0 o
              (mkStore (<[i := k1]> (keys s)) (S (S (ticks s))) (checker s))
              i k1 ACTIVE inf Hf1 Ht)
    as (k2 & Hprobe & Hst2 & _ & _ & _ & Hq2 & Hb2 & Hmf2' & Hd2).
  cbn [keys ticks checker] in Hprobe.
  assert (Hi : (i < length (keys s))%nat).
  { apply JSFacts.find_by_lookup in Hf as [Hl _].
    eapply lookup_lt_Some. exact Hl. }
  assert (Hl2 : <[i := k2]> (<[i := k1]> (keys s)) !! i = Some k2).
  { apply list_lookup_insert_eq. rewrite length_insert. exact Hi. }
  assert (Hrl2 : rateLimitedUntil k2 = clock (ticks s) + RATE_LIMIT_LOCKOUT).
  { apply (f_equal (fun b => b.2)) in Hb2. unfold bookkeeping in Hb2.
    cbn [snd] in Hb2. congruence. }
  assert (Hmf2 : modelFamilies k2 = modelFamilies k0) by congruence.
  assert (Hh2 : healthy (getGroqModelFamily rawModel) k2).
  { split; [|split; [|split]].
    - rewrite Hd2, Hst1. simpl. rewrite Hd1.
      destruct (bool_decide (status k0 = DEAD) || bool_decide (status k0 = INVALID));
        [reflexivity | exact Hd].
    - rewrite Hst2. discriminate.
    - rewrite Hq2. reflexivity.
    - rewrite Hmf2. exact Hfam. }
  eexists _, _, k2. split; [exact Hres|]. split; [exact Hprobe|].
  cbn [keys]. split; [exact Hl2|]. split; [exact Hst2|].
  split; [exact Hrl2|]. split; [exact Hh2|].
  destruct (GroqFacts.groq_get_accepts_unlocked clock getGroqModelFamily
              rawModel streaming
              (mkStore (<[i := k2]> (<[i := k1]> (keys s)))
                       (S (S (S (ticks s)))) (checker s)) i k2 Hl2 Hh2)
    as [_ (k & s3 & _ & _ & Hok & _)].
  - intros n Hn. rewrite Hrl2. apply Hclock. cbn [ticks] in Hn. lia.
  - exists k, s3. exact Hok.
Qed.

End Groq.
End LockoutFacts.

(* ===================================================================== *)
(** ** Facts about the handlers of a failed probe *)
(* ===================================================================== *)

Module CheckerFacts.

Section Groq.
Import Groq.
Variable clock : nat -> Z.
Variable getGroqModelFamily : string -> string.

(** A 429 answer to the probe: the record becomes [RATE_LIMITED] and over
    quota, no lockout window is written, and a record that was [INVALID]
    or [DEAD] is enabled again. *)
Lemma groq_handleAxiosError_429 (k : GroqKey) (s : Store GroqKey)
      (i : nat) (k0 : GroqKey) :
  find_by hash (hash k) (keys s) = Some (i, k0) ->
  exists k1 : GroqKey,
    handleAxiosError clock k (Some 429) s
    = Ok tt (mkStore (<[i := k1]> (keys s)) (S (ticks s)) (checker s))
    /\ <[i := k1]> (keys s) !! i = Some k1
    /\ status k1 = RATE_LIMITED
    /\ isOverQuota k1 = true
    /\ lastChecked k1 = clock (ticks s)
    /\ bookkeeping k1 = bookkeeping k0
    /\ isDisabled k1
       = (if bool_decide (status k0 = DEAD) || bool_decide (status k0 = INVALID)
          then false else isDisabled k0)
    /\ isRevoked k1
       = (if bool_decide (status k0 = DEAD) || bool_decide (status k0 = INVALID)
          then false else isRevoked k0).
Proof.
  intros Hf. unfold handleAxiosError.
  change (bool_decide (Some 429 = Some 429)) with true. cbv iota.
  rewrite (GroqFacts.groq_update_found clock _ _ s i k0 Hf).
  eexists. split; [reflexivity|]. split.
  { apply list_lookup_insert_eq.
    apply JSFacts.find_by_lookup in Hf as [Hl _].
    eapply lookup_lt_Some. exact Hl. }
  destruct k0 as [? ? ? ? ? ? ? ? ? ? ? ? ? prev ? ?].
  destruct prev; repeat split; reflexivity.
Qed.

(** After a 429 answer to the probe no [get] returns the record, at any
    time. *)
Lemma groq_handleAxiosError_429_excludes (k : GroqKey) (s : Store GroqKey)
      (i : nat) (k0 : GroqKey) :
  find_by hash (hash k) (keys s) = Some (i, k0) ->
  exists (s1 : Store GroqKey) (k1 : GroqKey),
    handleAxiosError clock k (Some 429) s = Ok tt s1
    /\ keys s1 !! i = Some k1
    /\ status k1 = RATE_LIMITED
    /\ isOverQuota k1 = true
    /\ lastChecked k1 = clock (ticks s)
    /\ rateLimitedAt k1 = rateLimitedAt k0
    /\ rateLimitedUntil k1 = rateLimitedUntil k0
    /\ forall (rawModel : string) (streaming : bool)
              (k2 : GroqKey) (s2 : Store GroqKey),
        get clock getGroqModelFamily rawModel streaming s1 = Ok k2 s2 ->
        exists (j : nat) (kj : GroqKey),
          j <> i /\ keys s1 !! j = Some kj
          /\ k2 = set_field kj (F_lastUsed (lastUsed k2))
          /\ keys s2 !! i = Some k1.
Proof.
  intros Hf.
  destruct (groq_handleAxiosError_429 k s i k0 Hf)
    as (k1 & Hres & Hl & Hst & Hq & Hlc & Hb & _).
  eexists _, k1. split; [exact Hres|]. cbn [keys].
  split; [exact Hl|]. split; [exact Hst|]. split; [exact Hq|].
  split; [exact Hlc|].
  split; [apply (f_equal (fun b => b.1.2)) in Hb; exact Hb|].
  split; [apply (f_equal (fun b => b.2)) in Hb; exact Hb|].
  intros rawModel streaming k2 s2 Hget.
  refine (UsageFacts.groq_get_excludes_unhealthy clock getGroqModelFamily
            rawModel streaming _ s2 i k1 k2 _ _ Hget); [exact Hl|].
  intros (_ & _ & Hoq & _). congruence.
Qed.

End Groq.

Section OpenRouter.
Import OpenRouter.
Variable clock : nat -> Z.
Variable getOpenRouterModuleFamily : string -> string.

(** A 429 answer to the probe: the record becomes [UNKNOWN (Rate Limited)],
    is disabled, loses its tier flags and its balance; no lockout window
    is written. *)
Lemma or_handleAxiosError_429 (k : OpenRouterKey) (s : Store OpenRouterKey)
      (i : nat) (k0 : OpenRouterKey) :
  find_by hash (hash k) (keys s) = Some (i, k0) ->
  exists k1 : OpenRouterKey,
    handleAxiosError clock k (Some 429) s
    = Ok tt (mkStore (<[i := k1]> (keys s)) (S (ticks s)) (checker s))
    /\ <[i := k1]> (keys s) !! i = Some k1
    /\ status k1 = UNKNOWN_Rate_Limited
    /\ isDisabled k1 = true
    /\ isRevoked k1 = false
    /\ isPaid k1 = false
    /\ isFreeTier k1 = false
    /\ isOverQuota k1 = false
    /\ remainingBalance k1 = None
    /\ lastChecked k1 = clock (ticks s)
    /\ bookkeeping k1 = bookkeeping k0.
Proof.
  intros Hf. unfold handleAxiosError.
  change (bool_decide (Some 429 = Some 429)) with true. cbv iota.
  rewrite (OpenRouterFacts.or_update_found clock _ _ s i k0 Hf).
  eexists. split; [reflexivity|]. split.
  { apply list_lookup_insert_eq.
    apply JSFacts.find_by_lookup in Hf as [Hl _].
    eapply lookup_lt_Some. exact Hl. }
  destruct k0 as [? ? ? ? ? ? ? ? ? ? ? ? ? prev ? ? ? ?].
  destruct prev; repeat split; reflexivity.
Qed.

(** After a 429 answer to the probe no [get] returns the record, at any
    time. *)
Lemma or_handleAxiosError_429_excludes (k : OpenRouterKey)
      (s : Store OpenRouterKey) (i : nat) (k0 : OpenRouterKey) :
  find_by hash (hash k) (keys s) = Some (i, k0) ->
  exists (s1 : Store OpenRouterKey) (k1 : OpenRouterKey),
    handleAxiosError clock k (Some 429) s = Ok tt s1
    /\ keys s1 !! i = Some k1
    /\ status k1 = UNKNOWN_Rate_Limited
    /\ isDisabled k1 = true
    /\ isRevoked k1 = false
    /\ isPaid k1 = false
    /\ isFreeTier k1 = false
    /\ remainingBalance k1 = None
    /\ lastChecked k1 = clock (ticks s)
    /\ rateLimitedAt k1 = rateLimitedAt k0
    /\ rateLimitedUntil k1 = rateLimitedUntil k0
    /\ forall (rawModel : string) (streaming : bool)
              (k2 : OpenRouterKey) (s2 : Store OpenRouterKey),
        get clock getOpenRouterModuleFamily rawModel streaming s1 = Ok k2 s2 ->
        exists (j : nat) (kj : OpenRouterKey),
          j <> i /\ keys s1 !! j = Some kj
          /\ k2 = set_field kj (F_lastUsed (lastUsed k2))
          /\ keys s2 !! i = Some k1.
Proof.
  intros Hf.
  destruct (or_handleAxiosError_429 k s i k0 Hf)
    as (k1 & Hres & Hl & Hst & Hd & Hr & Hp & Hft & _ & Hrb & Hlc & Hb).
  eexists _, k1. split; [exact Hres|]. cbn [keys].
  split; [exact Hl|]. split; [exact Hst|]. split; [exact Hd|].
  split; [exact Hr|]. split; [exact Hp|]. split; [exact Hft|].
  split; [exact Hrb|]. split; [exact Hlc|].
  split; [apply (f_equal (fun b => b.1.2)) in Hb; exact Hb|].
  split; [apply (f_equal (fun b => b.2)) in Hb; exact Hb|].
  intros rawModel streaming k2 s2 Hget.
  refine (UsageFacts.or_get_excludes_unhealthy clock
            getOpenRouterModuleFamily rawModel streaming _ s2 i k1 k2 _ _
            Hget); [exact Hl|].
  intros (Hdis & _). congruence.
Qed.

End OpenRouter.
End CheckerFacts.

(* ===================================================================== *)
(** ** Facts about the order of the candidates *)
(* ===================================================================== *)

Module OrderFacts.

Section Sort.
Context {A : Type} (cmp : A -> A -> comparison).

(** The sort is stable: the first element of the sorted array is, in the
    array, behind those elements only that must come after it. *)
Lemma sort_head_first (l : list A) (h : A) (t : list A) :
  sort cmp l = h :: t ->
  exists pre post : list A,
    l = pre ++ h :: post /\ forall y : A, y ∈ pre -> cmp y h = Gt.
Proof.
  revert h t. induction l as [|x l IH]; intros h t E; [discriminate|].
  cbn [sort] in E.
  destruct (sort cmp l) as [|h' t'] eqn:Hs.
  - apply JSFacts.sort_nil_inv in Hs. subst l.
    cbn [sort_insert] in E. inversion E; subst.
    exists [], []. split; [reflexivity|]. intros y Hy. inversion Hy.
  - destruct (IH h' t' eq_refl) as (pre & post & -> & Hpre).
    cbn [sort_insert] in E.
    destruct (cmp x h') eqn:Hc; inversion E; subst.
    + exists [], (pre ++ h' :: post). split; [reflexivity|].
      intros y Hy. inversion Hy.
    + exists [], (pre ++ h' :: post). split; [reflexivity|].
      intros y Hy. inversion Hy.
    + exists (x :: pre), post. split; [reflexivity|].
      intros y Hy. apply elem_of_cons in Hy as [-> | Hy];
        [exact Hc | exact (Hpre y Hy)].
Qed.

End Sort.

(** The [filter] keeps the references in the order of the array: in its
    result every reference has a larger index than those before it. *)
Lemma filterM_refs_order {T A} (p : nat * A -> M T bool) (l : list A)
      (a : nat) (s s' : T) (r : list (nat * A)) :
  filterM p (refs_from a l) s = Ok r s' ->
  forall (pre : list (nat * A)) (x : nat * A) (post : list (nat * A)),
    r = pre ++ x :: post ->
    (a <= x.1)%nat /\ forall y : nat * A, y ∈ pre -> (y.1 < x.1)%nat.
Proof.
  revert a s s' r. induction l as [|v l IH]; intros a s s' r Hf pre x post Hr.
  - cbn in Hf. unfold ret in Hf. injection Hf as Hnil _.
    rewrite <- Hnil in Hr. destruct pre; discriminate.
  - cbn [refs_from filterM] in Hf. unfold bind at 1 in Hf.
    destruct (p (a, v) s) as [b s1|e s1]; [|discriminate].
    unfold bind at 1 in Hf.
    destruct (filterM p (refs_from (S a) l) s1) as [r' s2|e s2] eqn:Hf';
      [|discriminate].
    unfold ret in Hf. injection Hf as Hr' _. rewrite <- Hr' in Hr.
    pose proof (IH (S a) s1 s2 r' Hf') as Hrec.
    destruct b.
    + destruct pre as [|y0 pre].
      * injection Hr as Hx _. rewrite <- Hx. cbn [fst]. split; [lia|].
        intros y Hy. inversion Hy.
      * injection Hr as Hy0 Hr.
        destruct (Hrec pre x post Hr) as [Hx Hpre].
        split; [lia|]. intros y Hy.
        apply elem_of_cons in Hy as [-> | Hy];
          [rewrite <- Hy0; cbn [fst]; lia|].
        exact (Hpre y Hy).
    + destruct (Hrec pre x post Hr) as [Hx Hpre]. split; [lia | exact Hpre].
Qed.

(** In the result of the [filter], what stands behind a reference has a
    larger index. *)
Lemma filterM_refs_split {T A} (p : nat * A -> M T bool) (l : list A)
      (s s' : T) (pre post : list (nat * A)) (x y : nat * A) :
  filterM p (refs l) s = Ok (pre ++ x :: post) s' ->
  y ∈ pre ++ x :: post ->
  (y.1 < x.1)%nat \/ y = x \/ (x.1 < y.1)%nat.
Proof.
  intros Hf Hy. apply elem_of_app in Hy as [Hy | Hy].
  - left.
    exact (proj2 (filterM_refs_order p l 0 s s' _ Hf pre x post eq_refl) y Hy).
  - apply elem_of_cons in Hy as [-> | Hy]; [right; left; reflexivity|].
    right. right.
    apply list_elem_of_split in Hy as (post1 & post2 & ->).
    refine (proj2 (filterM_refs_order p l 0 s s' _ Hf
                     (pre ++ x :: post1) y post2 _) x _).
    + rewrite <- app_assoc. reflexivity.
    + apply elem_of_app. right. left.
Qed.

Section Groq.
Import Groq.
Variable clock : nat -> Z.
Variable getGroqModelFamily : string -> string.

(** What a successful [get] picked, and when: the record may stand
    before every eligible record, and an eligible record that may stand
    before it is not at a lower index. *)
Lemma groq_get_pick (rawModel : string) (streaming : bool)
      (s s' : Store GroqKey) (k : GroqKey) :
  get clock getGroqModelFamily rawModel streaming s = Ok k s' ->
  exists (j : nat) (kj : GroqKey) (t : nat),
    keys s !! j = Some kj
    /\ (ticks s <= t)%nat
    /\ k = set_field kj (F_lastUsed (clock t))
    /\ s' = mkStore (<[j := k]> (keys s)) (S t) (checker s)
    /\ forall (i : nat) (ki : GroqKey),
        keys s !! i = Some ki ->
        healthy (getGroqModelFamily rawModel) ki ->
        (forall n : nat, (ticks s <= n < ticks s')%nat ->
                         rateLimitedUntil ki <= clock n) ->
        before by_priority (j, kj) (i, ki)
        /\ (before by_priority (i, ki) (j, kj) -> (j <= i)%nat).
Proof.
  intros Hget. set (fam := getGroqModelFamily rawModel).
  destruct (GroqFacts.groq_filter_selectable clock getGroqModelFamily fam
              (refs (keys s)) s)
    as (r & t1 & Hf & Ht & Hin & Hout).
  assert (Hget' : get clock getGroqModelFamily rawModel streaming s
             = (if bool_decide (length r = 0%nat)
                then throw (PaymentRequiredError
                              "No active Groq keys available.")
                else
                  match sort by_priority r with
                  | [] => throw TypeError
                  | (i, selectedKey) :: _ =>
                      t <- Date_now clock ;;
                      put_keys (alter (fun k => set_field k (F_lastUsed t))
                                      i (keys s)) ;;;
                      ret (set_field selectedKey (F_lastUsed t))
                  end) (mkStore (keys s) t1 (checker s))).
  { unfold get. fold fam. unfold bind at 1. unfold get_keys at 1.
    unfold bind at 1. rewrite Hf. reflexivity. }
  rewrite Hget' in Hget. clear Hget'.
  destruct r as [|x r']; [discriminate|].
  rewrite bool_decide_eq_false_2 in Hget by discriminate.
  destruct (sort by_priority (x :: r')) as [|[j kj] tl] eqn:Hs.
  { apply JSFacts.sort_nil_inv in Hs. discriminate. }
  inversion Hget; subst k s'; clear Hget. cbn [ticks] in *.
  assert (Hj : (j, kj) ∈ x :: r').
  { apply (JSFacts.elem_of_sort by_priority). rewrite Hs. left. }
  destruct (Hin _ Hj) as (Hlj & _). apply JSFacts.elem_of_refs in Hlj.
  cbn [fst snd] in Hlj.
  exists j, kj, t1. split; [exact Hlj|]. split; [exact Ht|].
  split; [reflexivity|]. split.
  { f_equal. apply list_eq. intros n.
    destruct (decide (n = j)) as [->|Hn].
    - rewrite list_lookup_alter_eq, Hlj.
      rewrite list_lookup_insert_eq by (eapply lookup_lt_Some; exact Hlj).
      reflexivity.
    - rewrite list_lookup_alter_ne by congruence.
      rewrite list_lookup_insert_ne by congruence. reflexivity. }
  intros i ki Hi Hh Hfree.
  assert (Hmem : (i, ki) ∈ x :: r').
  { apply Hout; [apply JSFacts.elem_of_refs; exact Hi | exact Hh |].
    intros n Hn. apply Hfree. lia. }
  split.
  - exact (JSFacts.sort_head_min by_priority
             (GroqFacts.groq_by_priority_trans)
             (GroqFacts.groq_by_priority_total) _ _ _ Hs _ Hmem).
  - intros Hbefore.
    destruct (sort_head_first by_priority _ _ _ Hs)
      as (pre & post & Hsplit & Hpre).
    rewrite Hsplit in Hf, Hmem.
    destruct (filterM_refs_split _ _ _ _ _ _ _ _ Hf Hmem)
      as [Hlt | [Heq | Hgt]]; cbn [fst] in *.
    + exfalso. apply elem_of_app in Hmem as [Hmem | Hmem].
      * apply Hbefore. exact (Hpre _ Hmem).
      * apply elem_of_cons in Hmem as [Heq | Hmem];
          [inversion Heq; lia|].
        apply list_elem_of_split in Hmem as (post1 & post2 & ->).
        pose proof (proj2 (filterM_refs_order _ _ 0 _ _ _ Hf
                             (pre ++ (j, kj) :: post1) (i, ki) post2
                             ltac:(rewrite <- app_assoc; reflexivity))
                          (j, kj)
                          ltac:(apply elem_of_app; right; left)) as Hji.
        cbn [fst] in Hji. lia.
    + inversion Heq. lia.
    + lia.
Qed.

(** The record [get] returns may stand before every eligible record, and
    an eligible record that may stand before it is not at a lower
    index. *)
Lemma groq_get_first_among_ties (rawModel : string) (streaming : bool)
      (s s' : Store GroqKey) (k : GroqKey) :
  get clock getGroqModelFamily rawModel streaming s = Ok k s' ->
  exists (j : nat) (kj : GroqKey),
    keys s !! j = Some kj
    /\ k = set_field kj (F_lastUsed (lastUsed k))
    /\ keys s' = <[j := k]> (keys s)
    /\ forall (i : nat) (ki : GroqKey),
        keys s !! i = Some ki ->
        healthy (getGroqModelFamily rawModel) ki ->
        (forall n : nat, (ticks s <= n < ticks s')%nat ->
                         rateLimitedUntil ki <= clock n) ->
        before by_priority (j, kj) (i, ki)
        /\ (before by_priority (i, ki) (j, kj) -> (j <= i)%nat).
Proof.
  intros Hget.
  destruct (groq_get_pick rawModel streaming s s' k Hget)
    as (j & kj & t & Hj & _ & Hk & Hs' & Hties).
  exists j, kj. split; [exact Hj|].
  split; [rewrite Hk; destruct kj; reflexivity|].
  split; [rewrite Hs'; reflexivity | exact Hties].
Qed.

End Groq.

Section OpenRouter.
Import OpenRouter.
Variable clock : nat -> Z.
Variable getOpenRouterModuleFamily : string -> string.

(** The record [get] returns may stand before every eligible record, and
    an eligible record that may stand before it is not at a lower
    index. *)
Lemma or_get_first_among_ties (rawModel : string) (streaming : bool)
      (s s' : Store OpenRouterKey) (k : OpenRouterKey) :
  get clock getOpenRouterModuleFamily rawModel streaming s = Ok k s' ->
  exists (j : nat) (kj : OpenRouterKey),
    keys s !! j = Some kj
    /\ k = set_field kj (F_lastUsed (lastUsed k))
    /\ keys s' = <[j := k]> (keys s)
    /\ forall (i : nat) (ki : OpenRouterKey),
        keys s !! i = Some ki ->
        healthy (getOpenRouterModuleFamily rawModel) ki ->
        (forall n : nat, (ticks s <= n < ticks s')%nat ->
                         rateLimitedUntil ki <= clock n) ->
        before by_priority (j, kj) (i, ki)
        /\ (before by_priority (i, ki) (j, kj) -> (j <= i)%nat).
Proof.
  intros Hget. set (fam := getOpenRouterModuleFamily rawModel).
  destruct (OpenRouterFacts.or_filter_selectable clock getOpenRouterModuleFamily fam
              (refs (keys s)) s)
    as (r & t1 & Hf & Ht & Hin & Hout).
  assert (Hget' : get clock getOpenRouterModuleFamily rawModel streaming s
             = (if bool_decide (length r = 0%nat)
                then throw (PaymentRequiredError
                              (if bool_decide (fam = "openrouter-paid")
                               then paid_message else free_message))
                else
                  match sort by_priority r with
                  | [] => throw TypeError
                  | (i, selectedKey) :: _ =>
                      t <- Date_now clock ;;
                      put_keys (alter (fun k => set_field k (F_lastUsed t))
                                      i (keys s)) ;;;
                      ret (set_field selectedKey (F_lastUsed t))
                  end) (mkStore (keys s) t1 (checker s))).
  { unfold get. fold fam. unfold bind at 1. unfold get_keys at 1.
    unfold bind at 1. rewrite Hf. reflexivity. }
  rewrite Hget' in Hget. clear Hget'.
  destruct r as [|x r']; [discriminate|].
  rewrite bool_decide_eq_false_2 in Hget by discriminate.
  destruct (sort by_priority (x :: r')) as [|[j kj] tl] eqn:Hs.
  { apply JSFacts.sort_nil_inv in Hs. discriminate. }
  inversion Hget; subst k s'; clear Hget. cbn [ticks] in *.
  assert (Hj : (j, kj) ∈ x :: r').
  { apply (JSFacts.elem_of_sort by_priority). rewrite Hs. left. }
  destruct (Hin _ Hj) as (Hlj & _). apply JSFacts.elem_of_refs in Hlj.
  cbn [fst snd] in Hlj.
  exists j, kj. split; [exact Hlj|]. split; [reflexivity|]. split.
  { cbn [keys]. apply list_eq. intros n.
    destruct (decide (n = j)) as [->|Hn].
    - rewrite list_lookup_alter_eq, Hlj.
      rewrite list_lookup_insert_eq by (eapply lookup_lt_Some; exact Hlj).
      reflexivity.
    - rewrite list_lookup_alter_ne by congruence.
      rewrite list_lookup_insert_ne by congruence. reflexivity. }
  intros i ki Hi Hh Hfree.
  assert (Hmem : (i, ki) ∈ x :: r').
  { apply Hout; [apply JSFacts.elem_of_refs; exact Hi | exact Hh |].
    intros n Hn. apply Hfree. lia. }
  split.
  - exact (JSFacts.sort_head_min by_priority
             (OpenRouterFacts.or_by_priority_trans)
             (OpenRouterFacts.or_by_priority_total) _ _ _ Hs _ Hmem).
  - intros Hbefore.
    destruct (sort_head_first by_priority _ _ _ Hs)
      as (pre & post & Hsplit & Hpre).
    rewrite Hsplit in Hf, Hmem.
    destruct (filterM_refs_split _ _ _ _ _ _ _ _ Hf Hmem)
      as [Hlt | [Heq | Hgt]]; cbn [fst] in *.
    + exfalso. apply elem_of_app in Hmem as [Hmem | Hmem].
      * apply Hbefore. exact (Hpre _ Hmem).
      * apply elem_of_cons in Hmem as [Heq | Hmem];
          [inversion Heq; lia|].
        apply list_elem_of_split in Hmem as (post1 & post2 & ->).
        pose proof (proj2 (filterM_refs_order _ _ 0 _ _ _ Hf
                             (pre ++ (j, kj) :: post1) (i, ki) post2
                             ltac:(rewrite <- app_assoc; reflexivity))
                          (j, kj)
                          ltac:(apply elem_of_app; right; left)) as Hji.
        cbn [fst] in Hji. lia.
    + inversion Heq. lia.
    + lia.
Qed.

End OpenRouter.
End OrderFacts.

(* ===================================================================== *)
(** ** Facts about sequences of calls *)
(* ===================================================================== *)

Module ComposeFacts.

Section Groq.
Import Groq GroqChecker.
Variable clock : nat -> Z.
Variable getGroqModelFamily : string -> string.

(** After [recheck] a record whose lockout is over is a candidate again,
    whatever its status and flags were, so [get] returns a credential. *)
Lemma groq_recheck_then_get (s : Store GroqKey) (i : nat) (k0 : GroqKey)
      (rawModel : string) (streaming : bool) :
  NoDup (hash <$> keys s) ->
  keys s !! i = Some k0 ->
  getGroqModelFamily rawModel ∈ modelFamilies k0 ->
  (forall n : nat, (ticks s <= n)%nat -> rateLimitedUntil k0 <= clock n) ->
  exists (s1 : Store GroqKey) (k1 : GroqKey),
    recheck clock s = Ok tt s1
    /\ keys s1 !! i = Some k1
    /\ healthy (getGroqModelFamily rawModel) k1
    /\ exists (k : GroqKey) (s2 : Store GroqKey),
        get clock getGroqModelFamily rawModel streaming s1 = Ok k s2.
Proof.
  intros Hnd Hi Hfam Hfree.
  destruct (GroqFacts.groq_recheck_resets clock s Hnd) as [Hr Hall].
  destruct (Hall k0) as (Hst & Hd & _ & Hq & _).
  assert (Hl : (after_recheck <$> keys s) !! i = Some (after_recheck k0))
    by (rewrite list_lookup_fmap, Hi; reflexivity).
  assert (Hsame : modelFamilies (after_recheck k0) = modelFamilies k0
                  /\ rateLimitedUntil (after_recheck k0) = rateLimitedUntil k0).
  { destruct k0 as [? ? ? ? ? ? ? ? ? ? ? ? ? st ? ?].
    destruct st; split; reflexivity. }
  destruct Hsame as [Hmf Hrl].
  assert (Hh : healthy (getGroqModelFamily rawModel) (after_recheck k0)).
  { split; [exact Hd|]. split; [rewrite Hst; discriminate|].
    split; [exact Hq|]. rewrite Hmf. exact Hfam. }
  eexists _, (after_recheck k0). split; [exact Hr|]. cbn [keys].
  split; [exact Hl|]. split; [exact Hh|].
  destruct (GroqFacts.groq_get_accepts_unlocked clock getGroqModelFamily
              rawModel streaming
              (mkStore (after_recheck <$> keys s)
                       (ticks s + length (keys s)) (S <$> checker s))
              i (after_recheck k0) Hl Hh)
    as [_ (k & s2 & _ & _ & Hok & _)].
  - intros n Hn. rewrite Hrl. apply Hfree. cbn [ticks] in Hn. lia.
  - exists k, s2. exact Hok.
Qed.

(** A probe that gets no response leaves the record [UNKNOWN], which
    does not take it out of the rotation: a record that was eligible for a
    family stays eligible. *)
Lemma groq_probe_network (key0 : GroqKey) (msg : string)
      (s : Store GroqKey) (i : nat) (k0 : GroqKey) (requiredFamily : string) :
  find_by hash (hash key0) (keys s) = Some (i, k0) ->
  exists k1 : GroqKey,
    testKeyOrFail clock key0 (Rejected None msg) s
    = Ok tt (mkStore (<[i := k1]> (keys s)) (S (ticks s)) (checker s))
    /\ status k1 = UNKNOWN
    /\ info k1 = (if bool_decide (msg = EmptyString)
                  then "Unexpected response status: 500"
                  else "Error (network_error): " +:+ msg)
    /\ lastChecked k1 = clock (ticks s)
    /\ rateLimitedUntil k1 = rateLimitedUntil k0
    /\ isOverQuota k1 = false
    /\ isDisabled k1
       = (if bool_decide (status k0 = DEAD) || bool_decide (status k0 = INVALID)
          then false else isDisabled k0)
    /\ (isDisabled k0 = false ->
        requiredFamily ∈ modelFamilies k0 ->
        healthy requiredFamily k1).
Proof.
  intros Hf.
  destruct (ProbeFacts.groq_testKeyOrFail_found clock key0
              (Rejected None msg) s i k0 UNKNOWN _ Hf
              (ProbeFacts.groq_testKey_network msg))
    as (k1 & Hres & Hst & Hinf & _ & Hlc & Hq & Hb & Hmf & Hd).
  exists k1. split; [exact Hres|]. split; [exact Hst|].
  split; [exact Hinf|]. split; [exact Hlc|].
  split; [apply (f_equal (fun b => b.2)) in Hb; exact Hb|].
  split; [exact Hq|]. split; [exact Hd|].
  intros Hen Hfam. split; [|split; [|split]].
  - rewrite Hd. simpl.
    destruct (bool_decide (status k0 = DEAD)
              || bool_decide (status k0 = INVALID)); [reflexivity | exact Hen].
  - rewrite Hst. discriminate.
  - exact Hq.
  - rewrite Hmf. exact Hfam.
Qed.

End Groq.

Section OpenRouter.
Import OpenRouter.
Variable clock : nat -> Z.
Variable getOpenRouterModuleFamily : string -> string.

(** After [recheck] every [get] throws the exhaustion error. *)
Lemma or_recheck_then_get_throws (s : Store OpenRouterKey)
      (rawModel : string) (streaming : bool) :
  NoDup (hash <$> keys s) ->
  exists s1 s2 : Store OpenRouterKey,
    recheck clock s = Ok tt s1
    /\ get clock getOpenRouterModuleFamily rawModel streaming s1
       = Throw (PaymentRequiredError
                  (if bool_decide (getOpenRouterModuleFamily rawModel
                                   = "openrouter-paid")
                   then paid_message else free_message)) s2
    /\ keys s2 = keys s1.
Proof.
  intros Hnd.
  destruct (OpenRouterFacts.or_recheck_disables clock s Hnd) as [Hr Hall].
  destruct (UsageFacts.or_unchecked_pool_exhausted clock
              getOpenRouterModuleFamily rawModel streaming
              (mkStore (after_recheck <$> keys s)
                       (ticks s + length (keys s)) (S <$> checker s)))
    as (s2 & Hthrow & Hkeys).
  - intros k Hin. cbn [keys] in Hin.
    apply list_elem_of_fmap in Hin as (k0 & -> & _).
    destruct (Hall k0) as (-> & _). reflexivity.
  - eexists _, s2. split; [exact Hr|]. split; [exact Hthrow | exact Hkeys].
Qed.

(** A credential whose lockout is not over at any reading of the call is
    not the one [get] returns, and [get] does not stamp it. *)
Lemma or_get_excludes_locked (rawModel : string) (streaming : bool)
      (s s' : Store OpenRouterKey) (i : nat) (ki k : OpenRouterKey) :
  keys s !! i = Some ki ->
  get clock getOpenRouterModuleFamily rawModel streaming s = Ok k s' ->
  (forall n : nat, (ticks s <= n < ticks s')%nat ->
                   clock n < rateLimitedUntil ki) ->
  exists (j : nat) (kj : OpenRouterKey),
    j <> i /\ keys s !! j = Some kj
    /\ k = set_field kj (F_lastUsed (lastUsed k))
    /\ keys s' !! i = Some ki.
Proof.
  intros Hi Hget Hlocked.
  destruct (OpenRouterFacts.or_get_cases clock getOpenRouterModuleFamily
              rawModel streaming s)
    as (r & t1 & _ & Ht & Hin & _ & [[_ Hthrow] | (j & kj & Hj & _ & Hok)]).
  { rewrite Hthrow in Hget. discriminate. }
  rewrite Hok in Hget. inversion Hget; subst; clear Hget.
  destruct (Hin _ Hj) as (Hlj & _ & n & Hn & Hrl). cbn [fst snd ticks] in *.
  assert (Hne : j <> i).
  { intros ->. rewrite Hi in Hlj. inversion Hlj; subst kj.
    specialize (Hlocked n ltac:(lia)). lia. }
  exists j, kj. split; [exact Hne|]. split; [exact Hlj|].
  split; [reflexivity|]. cbn [keys].
  rewrite list_lookup_alter_ne by exact Hne. exact Hi.
Qed.

(** The lockout of [markRateLimited] is a matter of time only: the record
    keeps its status and flags, is passed over while the clock reads
    below the end of the lockout, and is a candidate again afterwards. *)
Lemma or_lockout_time_boxed (h : string) (s : Store OpenRouterKey)
      (i : nat) (k0 : OpenRouterKey) (rawModel : string) (streaming : bool) :
  find_by hash h (keys s) = Some (i, k0) ->
  healthy (getOpenRouterModuleFamily rawModel) k0 ->
  exists (s1 : Store OpenRouterKey) (k1 : OpenRouterKey),
    markRateLimited clock h s = Ok tt s1
    /\ keys s1 !! i = Some k1
    /\ rateLimitedUntil k1 = clock (ticks s) + RATE_LIMIT_LOCKOUT
    /\ status k1 = status k0
    /\ healthy (getOpenRouterModuleFamily rawModel) k1
    /\ (forall (k : OpenRouterKey) (s2 : Store OpenRouterKey),
          get clock getOpenRouterModuleFamily rawModel streaming s1
          = Ok k s2 ->
          (forall n : nat, (ticks s1 <= n < ticks s2)%nat ->
                           clock n < clock (ticks s) + RATE_LIMIT_LOCKOUT) ->
          exists (j : nat) (kj : OpenRouterKey),
            j <> i /\ keys s1 !! j = Some kj
            /\ k = set_field kj (F_lastUsed (lastUsed k))
            /\ keys s2 !! i = Some k1)
    /\ ((forall n : nat, (ticks s1 <= n)%nat ->
                         clock (ticks s) + RATE_LIMIT_LOCKOUT <= clock n) ->
        exists (k : OpenRouterKey) (s2 : Store OpenRouterKey),
          get clock getOpenRouterModuleFamily rawModel streaming s1
          = Ok k s2).
Proof.
  intros Hf Hh.
  pose proof (OpenRouterFacts.or_markRateLimited_found clock h s i k0 Hf)
    as Hres.
  assert (Hl : <[i := locked (clock (ticks s)) k0]> (keys s) !! i
               = Some (locked (clock (ticks s)) k0)).
  { apply list_lookup_insert_eq.
    apply JSFacts.find_by_lookup in Hf as [Hl _].
    eapply lookup_lt_Some. exact Hl. }
  assert (Hh1 : healthy (getOpenRouterModuleFamily rawModel)
                        (locked (clock (ticks s)) k0))
    by (destruct k0; exact Hh).
  assert (Hu : rateLimitedUntil (locked (clock (ticks s)) k0)
               = clock (ticks s) + RATE_LIMIT_LOCKOUT)
    by (destruct k0; reflexivity).
  eexists _, (locked (clock (ticks s)) k0). split; [exact Hres|].
  cbn [keys ticks]. split; [exact Hl|]. split; [exact Hu|].
  split; [destruct k0; reflexivity|]. split; [exact Hh1|]. split.
  - intros k s2 Hget Hlocked.
    refine (or_get_excludes_locked rawModel streaming
              (mkStore (<[i := locked (clock (ticks s)) k0]> (keys s))
                       (S (ticks s)) (checker s))
              s2 i _ k Hl Hget _).
    intros n Hn. rewrite Hu. apply Hlocked. exact Hn.
  - intros Hover.
    destruct (OpenRouterFacts.or_get_accepts_unlocked clock
                getOpenRouterModuleFamily rawModel streaming
                (mkStore (<[i := locked (clock (ticks s)) k0]> (keys s))
                         (S (ticks s)) (checker s))
                i (locked (clock (ticks s)) k0) Hl Hh1)
      as [_ (k & s2 & _ & _ & Hok & _)].
    + intros n Hn. rewrite Hu. apply Hover. exact Hn.
    + exists k, s2. exact Hok.
Qed.

End OpenRouter.
End ComposeFacts.

(* ===================================================================== *)
(** ** Facts about the OpenRouter probe *)
(* ===================================================================== *)

Module OrProbeFacts.
Import OpenRouter OpenRouterChecker.

(** The early returns of [testKey] report [UNKNOWN (Rate Limited)] for a
    429 and [DEAD] otherwise, with no balance. *)
Lemma or_testKey_early_cases (o : AxiosOutcome) (st : OpenRouterKeyStatus)
      (inf : string) (b : option Q) :
  testKey_early o = inr (Some (st, inf, b)) ->
  (st = DEAD \/ st = UNKNOWN_Rate_Limited)
  /\ (st = UNKNOWN_Rate_Limited <-> (makeRequest o).1 = 429)
  /\ b = None.
Proof.
  unfold testKey_early. destruct (makeRequest o) as [http d]. cbn [fst].
  destruct (decide (http = 429)) as [E|E].
  - rewrite bool_decide_eq_true_2 by exact E. intros H. inversion H; subst.
    split; [right; reflexivity|]. split; [tauto | reflexivity].
  - rewrite bool_decide_eq_false_2 by exact E.
    destruct d as [| |keyData msg]; [discriminate| |].
    + intros H. inversion H; subst. split; [left; reflexivity|].
      split; [|reflexivity]. split; [discriminate | contradiction].
    + destruct (negb (bool_decide (http = 200)) || negb keyData);
        [|discriminate].
      intros H. inversion H; subst. split; [left; reflexivity|].
      split; [|reflexivity]. split; [discriminate | contradiction].
Qed.

(** [testKey] throws exactly when the status is not 429 and the body is
    [null] or [undefined]. *)
Lemma or_testKey_early_throws (o : AxiosOutcome) (e : Error) :
  testKey_early o = inl e <->
  e = TypeError /\ (makeRequest o).1 <> 429 /\ (makeRequest o).2 = Nullish.
Proof.
  unfold testKey_early. destruct (makeRequest o) as [http d]. cbn [fst snd].
  destruct (decide (http = 429)) as [E|E].
  - rewrite bool_decide_eq_true_2 by exact E.
    split; [discriminate | intros (_ & H & _); contradiction].
  - rewrite bool_decide_eq_false_2 by exact E.
    destruct d as [| |keyData msg].
    + split; [intros H; inversion H; auto | intros (-> & _); reflexivity].
    + split; [discriminate | intros (_ & _ & H); discriminate H].
    + destruct (negb (bool_decide (http = 200)) || negb keyData);
        (split; [discriminate | intros (_ & _ & H); discriminate H]).
Qed.

(** [testKey] goes on to the tier and balance logic exactly when the
    status is 200 and the body has truthy [data]. *)
Lemma or_testKey_early_passes (o : AxiosOutcome) :
  testKey_early o = inr None <->
  (makeRequest o).1 = 200
  /\ exists msg : option string, (makeRequest o).2 = Value true msg.
Proof.
  unfold testKey_early. destruct (makeRequest o) as [http d]. cbn [fst snd].
  destruct (decide (http = 429)) as [E|E].
  - rewrite bool_decide_eq_true_2 by exact E.
    split; [discriminate | intros [H _]; lia].
  - rewrite bool_decide_eq_false_2 by exact E.
    destruct d as [| |keyData msg].
    + split; [discriminate | intros [_ [m H]]; discriminate H].
    + split; [discriminate | intros [_ [m H]]; discriminate H].
    + destruct (decide (http = 200)) as [E2|E2].
      * rewrite (bool_decide_eq_true_2 _ E2). destruct keyData; cbn.
        -- split; [intros _; split; [exact E2 | exists msg; reflexivity]
                  | reflexivity].
        -- split; [discriminate | intros [_ [m H]]; discriminate H].
      * rewrite (bool_decide_eq_false_2 _ E2). cbn.
        split; [discriminate | intros [H _]; contradiction].
Qed.

(** The body [makeRequest] hands over for a rejected request is never
    [null]: a falsy body is replaced by the error message. *)
Lemma or_makeRequest_rejected_body (resp : option (Z * KeyResult))
      (msg : string) :
  exists (data : bool) (m : option string),
    (makeRequest (Rejected resp msg)).2 = Value data m.
Proof.
  destruct resp as [[st [| |data m]]|]; cbn; eexists _, _; reflexivity.
Qed.

(** The status [makeRequest] reports for a request that was rejected. *)
Lemma or_makeRequest_rejected_status (http : option Z) (d : KeyResult)
      (msg : string) (c : Z) :
  c <> 500 -> http <> Some c ->
  (makeRequest (Rejected ((fun st => (st, d)) <$> http) msg)).1 <> c.
Proof.
  intros Hc Hh. destruct http as [st|]; cbn.
  - case_bool_decide; cbn; congruence.
  - congruence.
Qed.

(** A rejected request whose status is neither 200 nor 429 is reported
    [DEAD]. *)
Lemma or_testKey_early_rejected (resp : option (Z * KeyResult))
      (msg : string) :
  (makeRequest (Rejected resp msg)).1 <> 200 ->
  (makeRequest (Rejected resp msg)).1 <> 429 ->
  exists inf : string,
    testKey_early (Rejected resp msg) = inr (Some (DEAD, inf, None)).
Proof.
  intros H200 H429.
  destruct (or_makeRequest_rejected_body resp msg) as (data & m & Hb).
  unfold testKey_early.
  destruct (makeRequest (Rejected resp msg)) as [http d].
  cbn [fst snd] in *. subst d.
  rewrite (bool_decide_eq_false_2 _ H429), (bool_decide_eq_false_2 _ H200).
  cbn [negb orb]. eexists. reflexivity.
Qed.

(** A request that fails without a response is reported [DEAD]. *)
Lemma or_testKey_early_network (msg : string) :
  testKey_early (Rejected None msg)
  = inr (Some (DEAD,
               if bool_decide (msg = EmptyString) then "Invalid response"
               else msg,
               None)).
Proof.
  unfold testKey_early, makeRequest.
  rewrite bool_decide_eq_false_2 by discriminate.
  rewrite bool_decide_eq_false_2 by discriminate.
  unfold GroqChecker.truthy. cbn [negb orb default].
  destruct (bool_decide (msg = EmptyString)); reflexivity.
Qed.

Section Pool.
Variable clock : nat -> Z.
Variable getOpenRouterModuleFamily : string -> string.

(** [testKeyOrFail] on a credential of the pool: what the record looks
    like afterwards. *)
Lemma or_testKeyOrFail_found (key0 : OpenRouterKey)
      (st : OpenRouterKeyStatus) (inf : string) (b : option Q)
      (s : Store OpenRouterKey) (i : nat) (k0 : OpenRouterKey) :
  find_by hash (hash key0) (keys s) = Some (i, k0) ->
  exists k1 : OpenRouterKey,
    testKeyOrFail clock key0 (st, inf, b) s
    = Ok tt (mkStore (<[i := k1]> (keys s)) (S (ticks s)) (checker s))
    /\ <[i := k1]> (keys s) !! i = Some k1
    /\ status k1 = st
    /\ info k1 = inf
    /\ remainingBalance k1 = b
    /\ lastChecked k1 = clock (ticks s)
    /\ isPaid k1
       = (bool_decide (st = PAID_Balance) || bool_decide (st = PAID_No_Credits)
          || bool_decide (st = PAID_Limit_Reached))
    /\ isFreeTier k1
       = (bool_decide (st = FREE_Active) || bool_decide (st = FREE_Exhausted))
    /\ bookkeeping k1 = bookkeeping k0
    /\ modelFamilies k1 = modelFamilies k0
    /\ isDisabled k1
       = (if bool_decide (st = DEAD) || bool_decide (st = UNKNOWN_Rate_Limited)
          then true
          else if bool_decide (status k0 = DEAD)
                  || bool_decide (status k0 = UNKNOWN_Rate_Limited)
          then false else isDisabled k0)
    /\ isRevoked k1
       = (if bool_decide (st = DEAD) || bool_decide (st = UNKNOWN_Rate_Limited)
          then bool_decide (st = DEAD)
          else if bool_decide (status k0 = DEAD)
                  || bool_decide (status k0 = UNKNOWN_Rate_Limited)
          then false else isRevoked k0).
Proof.
  intros Hf. unfold testKeyOrFail.
  rewrite (OpenRouterFacts.or_update_found clock _ _ s i k0 Hf).
  eexists. split; [reflexivity|]. split.
  { apply list_lookup_insert_eq.
    apply JSFacts.find_by_lookup in Hf as [Hl _].
    eapply lookup_lt_Some. exact Hl. }
  destruct k0 as [? ? ? ? ? ? ? ? ? ? ? ? ? prev ? ? ? ?].
  destruct st, prev; repeat split; reflexivity.
Qed.

(** A check that finds a paid credential with credit, or a free-tier
    credential that is active, makes the record eligible, so [get]
    returns a credential. *)
Lemma or_check_then_get (key0 : OpenRouterKey)
      (st : OpenRouterKeyStatus) (inf : string) (b : option Q)
      (s : Store OpenRouterKey) (i : nat) (k0 : OpenRouterKey)
      (rawModel : string) (streaming : bool) :
  find_by hash (hash key0) (keys s) = Some (i, k0) ->
  (isDisabled k0 = false \/ status k0 = DEAD
   \/ status k0 = UNKNOWN_Rate_Limited) ->
  getOpenRouterModuleFamily rawModel ∈ modelFamilies k0 ->
  (forall n : nat, (ticks s <= n)%nat -> rateLimitedUntil k0 <= clock n) ->
  ((st = PAID_Balance
    /\ match b with Some q => (0 < q)%Q | None => True end)
   \/ (st = FREE_Active
       /\ getOpenRouterModuleFamily rawModel <> "openrouter-paid")) ->
  exists (s1 : Store OpenRouterKey) (k1 : OpenRouterKey),
    testKeyOrFail clock key0 (st, inf, b) s = Ok tt s1
    /\ keys s1 !! i = Some k1
    /\ status k1 = st
    /\ remainingBalance k1 = b
    /\ healthy (getOpenRouterModuleFamily rawModel) k1
    /\ exists (k : OpenRouterKey) (s2 : Store OpenRouterKey),
        get clock getOpenRouterModuleFamily rawModel streaming s1 = Ok k s2.
Proof.
  intros Hf Hen Hfam Hfree Hsuit.
  destruct (or_testKeyOrFail_found key0 st inf b s i k0 Hf)
    as (k1 & Hres & Hl & Hst & _ & Hb & _ & Hp & Hft & Hbk & Hmf & Hd & _).
  assert (Hrl : rateLimitedUntil k1 = rateLimitedUntil k0)
    by (apply (f_equal (fun x => x.2)) in Hbk; exact Hbk).
  assert (Hgood : bool_decide (st = DEAD)
                  || bool_decide (st = UNKNOWN_Rate_Limited) = false)
    by (destruct Hsuit as [[-> _] | [-> _]]; reflexivity).
  assert (Hh : healthy (getOpenRouterModuleFamily rawModel) k1).
  { split; [|split; [|split; [|split]]].
    - rewrite Hd, Hgood.
      destruct Hen as [Hen | [Hen | Hen]]; rewrite ?Hen; cbn;
        [|reflexivity|reflexivity].
      destruct (bool_decide (status k0 = DEAD)
                || bool_decide (status k0 = UNKNOWN_Rate_Limited));
        reflexivity.
    - rewrite Hst. destruct Hsuit as [[-> _] | [-> _]]; discriminate.
    - intros Hpaid. destruct Hsuit as [[-> Hq] | [_ Hne]]; [|contradiction].
      split; [rewrite Hp; reflexivity|]. rewrite Hb. exact Hq.
    - intros _ [_ Hex]. rewrite Hst in Hex.
      destruct Hsuit as [[-> _] | [-> _]]; discriminate.
    - rewrite Hmf. exact Hfam. }
  eexists _, k1. split; [exact Hres|]. cbn [keys].
  split; [exact Hl|]. split; [exact Hst|]. split; [exact Hb|].
  split; [exact Hh|].
  destruct (OpenRouterFacts.or_get_accepts_unlocked clock
              getOpenRouterModuleFamily rawModel streaming
              (mkStore (<[i := k1]> (keys s)) (S (ticks s)) (checker s))
              i k1 Hl Hh)
    as [_ (k & s2 & _ & _ & Hok & _)].
  - intros n Hn. rewrite Hrl. apply Hfree. cbn [ticks] in Hn. lia.
  - exists k, s2. exact Hok.
Qed.

(** Every early return of [testKey] takes the record out of service. *)
Lemma or_failed_probe_disables (key0 : OpenRouterKey) (o : AxiosOutcome)
      (r : TestResult) (s : Store OpenRouterKey) (i : nat)
      (k0 : OpenRouterKey) :
  find_by hash (hash key0) (keys s) = Some (i, k0) ->
  testKey_early o = inr (Some r) ->
  exists (s1 : Store OpenRouterKey) (k1 : OpenRouterKey),
    testKeyOrFail clock key0 r s = Ok tt s1
    /\ keys s1 !! i = Some k1
    /\ (status k1 = DEAD \/ status k1 = UNKNOWN_Rate_Limited)
    /\ (status k1 = UNKNOWN_Rate_Limited <-> (makeRequest o).1 = 429)
    /\ isDisabled k1 = true
    /\ isRevoked k1 = bool_decide (status k1 = DEAD)
    /\ remainingBalance k1 = None
    /\ forall (rawModel : string) (streaming : bool)
              (k2 : OpenRouterKey) (s2 : Store OpenRouterKey),
        get clock getOpenRouterModuleFamily rawModel streaming s1 = Ok k2 s2 ->
        exists (j : nat) (kj : OpenRouterKey),
          j <> i /\ keys s1 !! j = Some kj
          /\ k2 = set_field kj (F_lastUsed (lastUsed k2))
          /\ keys s2 !! i = Some k1.
Proof.
  intros Hf Ht. destruct r as [[st inf] b].
  destruct (or_testKey_early_cases o st inf b Ht) as (Hcase & H429 & ->).
  destruct (or_testKeyOrFail_found key0 st inf None s i k0 Hf)
    as (k1 & Hres & Hl & Hst & _ & Hb & _ & _ & _ & _ & _ & Hd & Hr).
  assert (Hbad : bool_decide (st = DEAD)
                 || bool_decide (st = UNKNOWN_Rate_Limited) = true)
    by (destruct Hcase as [-> | ->]; reflexivity).
  rewrite Hbad in Hd, Hr.
  eexists _, k1. split; [exact Hres|]. cbn [keys].
  split; [exact Hl|]. rewrite Hst.
  split; [exact Hcase|]. split; [exact H429|]. split; [exact Hd|].
  split; [exact Hr|]. split; [exact Hb|].
  intros rawModel streaming k2 s2 Hget.
  refine (UsageFacts.or_get_excludes_unhealthy clock
            getOpenRouterModuleFamily rawModel streaming
            (mkStore (<[i := k1]> (keys s)) (S (ticks s)) (checker s))
            s2 i k1 k2 Hl _ Hget).
  intros (Hdis & _). congruence.
Qed.

End Pool.
End OrProbeFacts.

(* ===================================================================== *)
(** ** Facts about the rotation of a Groq pool *)
(* ===================================================================== *)

Module RotationFacts.
Import Groq.

(** The position after [r] on a ring of [n] positions. *)
Lemma mod_succ (n m : nat) :
  n <> 0%nat ->
  (S m mod n)%nat
  = (if bool_decide (S (m mod n) = n) then 0 else S (m mod n))%nat.
Proof.
  intros Hn. pose proof (Nat.div_mod_eq m n) as Hm.
  pose proof (Nat.mod_upper_bound m n Hn) as Hr.
  destruct (decide (S (m mod n) = n)) as [E|E].
  - rewrite bool_decide_eq_true_2 by exact E. symmetry.
    apply (Nat.mod_unique (S m) n (S (m / n)) 0); [lia|]. nia.
  - rewrite bool_decide_eq_false_2 by exact E. symmetry.
    apply (Nat.mod_unique (S m) n (m / n) (S (m mod n))); [lia|]. lia.
Qed.

Section Rotation.
Variable clock : nat -> Z.
Variable getGroqModelFamily : string -> string.
Variable digest : string -> string.
Variable bareKeys : list string.
Variable rawModel : string.
Variable streaming : bool.

Hypothesis clock_increasing :
  forall a b : nat, (a < b)%nat -> clock a < clock b.
Hypothesis clock_positive : 0 < clock 0%nat.
Hypothesis family_served :
  getGroqModelFamily rawModel ∈ modelFamilies (newKey digest EmptyString).

Lemma clock_pos (n : nat) : 0 < clock n.
Proof.
  destruct n as [|n]; [exact clock_positive|].
  pose proof (clock_increasing 0 (S n) ltac:(lia)). lia.
Qed.

Lemma clock_mono (a b : nat) : (a <= b)%nat -> clock a <= clock b.
Proof.
  intros Hab. destruct (decide (a = b)) as [->|Hne]; [lia|].
  pose proof (clock_increasing a b ltac:(lia)). lia.
Qed.

(** On the ring that starts at [r], position [i] comes before [j]. *)
Definition cyc (r i j : nat) : Prop :=
  (r <= i /\ i < j)%nat \/ (r <= i /\ j < r)%nat \/ (i < j /\ j < r)%nat.

(** The pool between two calls, when it is the turn of position [r]:
    every record is a configured secret with a stamp of the past, the
    records before [r] have been served, and the stamps grow along the
    ring that starts at [r]. *)
Definition turn_of (r : nat) (s : Store GroqKey) : Prop :=
  (r < length bareKeys)%nat
  /\ length (keys s) = length bareKeys
  /\ (forall (i : nat) (k : GroqKey),
        keys s !! i = Some k ->
        exists b : string,
          bareKeys !! i = Some b
          /\ k = set_field (newKey digest b) (F_lastUsed (lastUsed k))
          /\ 0 <= lastUsed k < clock (ticks s)
          /\ ((i < r)%nat -> 0 < lastUsed k))
  /\ (forall (i j : nat) (ki kj : GroqKey),
        keys s !! i = Some ki -> keys s !! j = Some kj -> cyc r i j ->
        lastUsed ki <= lastUsed kj
        /\ (0 < lastUsed kj -> lastUsed ki < lastUsed kj)).

Lemma turn_of_load : bareKeys <> [] -> turn_of 0 (load digest bareKeys).
Proof.
  intros Hne. unfold turn_of, load. cbn [keys ticks].
  split; [destruct bareKeys; [contradiction | cbn; lia]|].
  split; [apply length_fmap|].
  assert (Hfresh : forall (i : nat) (k : GroqKey),
             (newKey digest <$> bareKeys) !! i = Some k ->
             exists b, bareKeys !! i = Some b /\ k = newKey digest b).
  { intros i k Hi. apply list_lookup_fmap_Some in Hi as (b & -> & Hb).
    exists b. split; [exact Hb | reflexivity]. }
  split.
  - intros i k Hi. destruct (Hfresh i k Hi) as (b & Hb & ->).
    exists b. split; [exact Hb|]. split; [reflexivity|].
    cbn. split; [pose proof clock_positive; lia | lia].
  - intros i j ki kj Hi Hj _.
    destruct (Hfresh i ki Hi) as (bi & _ & ->).
    destruct (Hfresh j kj Hj) as (bj & _ & ->). cbn. lia.
Qed.

Lemma turn_of_healthy (r : nat) (s : Store GroqKey) (i : nat) (k : GroqKey) :
  turn_of r s -> keys s !! i = Some k ->
  healthy (getGroqModelFamily rawModel) k
  /\ rateLimitedUntil k = 0
  /\ STATUS_PRIORITY (status k) = 1.
Proof.
  intros (_ & _ & Hrec & _) Hi.
  destruct (Hrec i k Hi) as (b & _ & -> & _).
  split; [|split; reflexivity].
  split; [reflexivity|]. split; [discriminate|].
  split; [reflexivity | exact family_served].
Qed.

(** One call in the rotation: it serves position [r] and leaves the pool
    at the turn of the next position. *)
Lemma turn_of_get (r : nat) (s : Store GroqKey) :
  turn_of r s ->
  exists (k : GroqKey) (s' : Store GroqKey),
    get clock getGroqModelFamily rawModel streaming s = Ok k s'
    /\ key k = bareKeys !! r
    /\ turn_of (if bool_decide (S r = length bareKeys) then 0 else S r) s'.
Proof.
  intros Hinv. pose proof Hinv as (Hr & Hlen & Hrec & Hord).
  destruct (lookup_lt_is_Some_2 (keys s) r ltac:(lia)) as [kr Hkr].
  destruct (turn_of_healthy r s r kr Hinv Hkr) as (Hhr & Hrlr & Hpr).
  destruct (GroqFacts.groq_get_accepts_unlocked clock getGroqModelFamily
              rawModel streaming s r kr Hkr Hhr)
    as [_ (k & s' & _ & _ & Hget & _)].
  { intros n _. rewrite Hrlr. pose proof (clock_pos n). lia. }
  exists k, s'. split; [exact Hget|].
  destruct (OrderFacts.groq_get_pick clock getGroqModelFamily rawModel
              streaming s s' k Hget)
    as (j & kj & t & Hj & Ht & Hk & Hs' & Hties).
  destruct (turn_of_healthy r s j kj Hinv Hj) as (Hhj & Hrlj & Hpj).
  assert (Hle : forall (i : nat) (ki : GroqKey),
             keys s !! i = Some ki ->
             lastUsed kj <= lastUsed ki
             /\ (lastUsed ki <= lastUsed kj -> (j <= i)%nat)).
  { intros i ki Hi.
    destruct (turn_of_healthy r s i ki Hinv Hi) as (Hhi & Hrli & Hpi).
    destruct (Hties i ki Hi Hhi) as [Hb1 Hb2].
    { intros n _. rewrite Hrli. pose proof (clock_pos n). lia. }
    apply GroqFacts.groq_before_by_priority in Hb1. cbn [fst snd] in Hb1.
    split; [lia|]. intros Hlu. apply Hb2.
    apply GroqFacts.groq_before_by_priority. cbn [fst snd]. lia. }
  assert (Hjr : j = r).
  { destruct (decide (j = r)) as [E|E]; [exact E | exfalso].
    destruct (Hle r kr Hkr) as [H1 H2].
    assert (Hjlen : (j < length bareKeys)%nat)
      by (rewrite <- Hlen; eapply lookup_lt_Some; exact Hj).
    assert (Hcyc : cyc r r j) by (unfold cyc; lia).
    destruct (Hord r j kr kj Hkr Hj Hcyc) as [H3 H4].
    destruct (Hrec j kj Hj) as (_ & _ & _ & [H0 _] & Hserved).
    destruct (decide (0 < lastUsed kj)) as [Hpos|Hzero].
    - specialize (H4 Hpos). lia.
    - assert (lastUsed kj = 0) by lia.
      assert (lastUsed kr <= lastUsed kj) by lia.
      specialize (H2 ltac:(lia)).
      assert (j < r)%nat by lia. specialize (Hserved ltac:(lia)). lia. }
  subst j. rewrite Hkr in Hj. inversion Hj; subst kj. clear Hj.
  destruct (Hrec r kr Hkr) as (b & Hb & Hkrb & Hkrl & _).
  split.
  { rewrite Hk, Hb, Hkrb. reflexivity. }
  assert (Hstamp : lastUsed k = clock t) by (rewrite Hk; destruct kr; reflexivity).
  assert (Hlook : forall (i : nat) (ki : GroqKey),
             keys s' !! i = Some ki ->
             (i = r /\ ki = k) \/ (i <> r /\ keys s !! i = Some ki)).
  { intros i ki Hi. rewrite Hs' in Hi. cbn [keys] in Hi.
    destruct (decide (i = r)) as [->|Hne].
    - rewrite list_lookup_insert_eq in Hi
        by (eapply lookup_lt_Some; exact Hkr).
      inversion Hi. left. split; reflexivity.
    - rewrite list_lookup_insert_ne in Hi by congruence.
      right. split; [exact Hne | exact Hi]. }
  assert (Hticks : ticks s' = S t) by (rewrite Hs'; reflexivity).
  assert (Hold : forall (i : nat) (ki : GroqKey),
             keys s !! i = Some ki -> lastUsed ki < clock t).
  { intros i ki Hi. destruct (Hrec i ki Hi) as (_ & _ & _ & [_ Hlt] & _).
    pose proof (clock_mono (ticks s) t Ht). lia. }
  pose proof (clock_increasing t (S t) ltac:(lia)) as Hnext.
  pose proof (clock_pos t) as Hpos.
  set (r' := if bool_decide (S r = length bareKeys) then 0%nat else S r).
  assert (Hr' : (r' < length bareKeys)%nat
                /\ ((r' = 0%nat /\ S r = length bareKeys) \/ r' = S r)).
  { unfold r'. destruct (decide (S r = length bareKeys)) as [E|E].
    - rewrite bool_decide_eq_true_2 by exact E. lia.
    - rewrite bool_decide_eq_false_2 by exact E. lia. }
  destruct Hr' as [Hr'lt Hr'case].
  split; [exact Hr'lt|]. split.
  { rewrite Hs'. cbn [keys]. rewrite length_insert. exact Hlen. }
  split.
  - intros i ki Hi. rewrite Hticks.
    destruct (Hlook i ki Hi) as [[-> ->] | [Hne Hi0]].
    + exists b. split; [exact Hb|]. split.
      * rewrite Hk, Hkrb. reflexivity.
      * rewrite Hstamp. split; [lia|]. intros _. lia.
    + destruct (Hrec i ki Hi0) as (bi & Hbi & Hki & [H0 _] & Hserved).
      exists bi. split; [exact Hbi|]. split; [exact Hki|].
      pose proof (Hold i ki Hi0). split; [lia|].
      intros Hir'. apply Hserved.
      destruct Hr'case as [[-> _] | ->]; lia.
  - intros i j ki kj Hi Hj Hcyc.
    assert (Hilen : (i < length bareKeys)%nat).
    { apply lookup_lt_Some in Hi. rewrite Hs' in Hi. cbn [keys] in Hi.
      rewrite length_insert in Hi. lia. }
    assert (Hjlen : (j < length bareKeys)%nat).
    { apply lookup_lt_Some in Hj. rewrite Hs' in Hj. cbn [keys] in Hj.
      rewrite length_insert in Hj. lia. }
    destruct (Hlook i ki Hi) as [[-> ->] | [Hine Hi0]];
      destruct (Hlook j kj Hj) as [[-> ->] | [Hjne Hj0]].
    + exfalso. unfold cyc in Hcyc. lia.
    + exfalso. unfold cyc in Hcyc.
      destruct Hr'case as [[-> Hlast] | ->]; lia.
    + rewrite Hstamp. pose proof (Hold i ki Hi0). lia.
    + apply (Hord i j ki kj Hi0 Hj0). unfold cyc in *.
      destruct Hr'case as [[-> Hlast] | ->]; lia.
Qed.

(** The pool after [m] calls. *)
Definition pool_after (m : nat) : Store GroqKey :=
  Nat.iter m
    (fun s => final_store
                (get clock getGroqModelFamily rawModel streaming s))
    (load digest bareKeys).

Lemma turn_of_pool_after (m : nat) :
  bareKeys <> [] -> turn_of (m mod length bareKeys) (pool_after m).
Proof.
  intros Hne.
  assert (Hn : length bareKeys <> 0%nat)
    by (destruct bareKeys; [contradiction | discriminate]).
  induction m as [|m IH].
  - rewrite Nat.Div0.mod_0_l. apply turn_of_load. exact Hne.
  - destruct (turn_of_get _ _ IH) as (k & s' & Hget & _ & Hnext).
    rewrite (mod_succ _ _ Hn).
    change (pool_after (S m))
      with (final_store (get clock getGroqModelFamily rawModel streaming
                             (pool_after m))).
    rewrite Hget. exact Hnext.
Qed.

(** The calls go round the configured secrets in their order. *)
Lemma groq_rotation :
  bareKeys <> [] ->
  forall m : nat,
  exists k : GroqKey,
    get clock getGroqModelFamily rawModel streaming (pool_after m)
    = Ok k (pool_after (S m))
    /\ key k = bareKeys !! (m mod length bareKeys)%nat.
Proof.
  intros Hne m.
  destruct (turn_of_get _ _ (turn_of_pool_after m Hne))
    as (k & s' & Hget & Hkey & _).
  exists k. split; [|exact Hkey].
  change (pool_after (S m))
    with (final_store (get clock getGroqModelFamily rawModel streaming
                           (pool_after m))).
  rewrite Hget. reflexivity.
Qed.

End Rotation.
End RotationFacts.

(* ===================================================================== *)
(** ** Facts about re-running a mutator chain *)
(* ===================================================================== *)

Module ReplayFacts.
Import Mutation.

Section Generic.
Context {K : Type}.
Variable secret : K -> option string.
Variable serialize : string -> string.

(** The view [addKey] and [finalizeBody] leave depends on the credential
    through its secret only. *)
Lemma sent_same_secret (v : Request) (k1 k2 : K) :
  secret k1 = secret k2 ->
  sent secret serialize v k1 = sent secret serialize v k2.
Proof. intros E. unfold sent. rewrite E. reflexivity. Qed.

Lemma sent_authorization (v : Request) (k : K) :
  headers (sent secret serialize v k) !! "authorization"
  = Some ("Bearer " +:+ default "undefined" (secret k)).
Proof.
  unfold sent. cbn [headers].
  rewrite lookup_insert_ne by discriminate.
  rewrite lookup_insert_eq. reflexivity.
Qed.

Lemma sent_other_headers (v : Request) (k1 k2 : K) (name : string) :
  name <> "authorization" ->
  headers (sent secret serialize v k1) !! name
  = headers (sent secret serialize v k2) !! name.
Proof.
  intros Hname. unfold sent. cbn [headers].
  destruct (decide (name = "content-length")) as [->|Hcl].
  - rewrite !lookup_insert_eq. reflexivity.
  - rewrite !(lookup_insert_ne _ "content-length") by congruence.
    rewrite !(lookup_insert_ne _ "authorization") by congruence.
    reflexivity.
Qed.

End Generic.

Section Pools.
Variable clock : nat -> Z.
Variable family : string -> string.

(** A pool of one credential hands out the same secret again. *)
Lemma groq_single_key_again (rawModel : string) (streaming : bool)
      (s s1 s2 : Store Groq.GroqKey) (k1 k2 : Groq.GroqKey) :
  length (keys s) = 1%nat ->
  Groq.get clock family rawModel streaming s = Ok k1 s1 ->
  Groq.get clock family rawModel streaming s1 = Ok k2 s2 ->
  Groq.key k1 = Groq.key k2.
Proof.
  intros Hlen G1 G2.
  destruct (OrderFacts.groq_get_first_among_ties clock family rawModel
              streaming s s1 k1 G1) as (j & kj & Hj & _ & Hs1 & _).
  destruct (OrderFacts.groq_get_first_among_ties clock family rawModel
              streaming s1 s2 k2 G2) as (j' & kj' & Hj' & Hk2 & _).
  assert (j = 0%nat) as -> by (apply lookup_lt_Some in Hj; lia).
  rewrite Hs1 in Hj'.
  assert (j' = 0%nat) as ->.
  { apply lookup_lt_Some in Hj'. rewrite length_insert in Hj'. lia. }
  rewrite list_lookup_insert_eq in Hj' by lia.
  injection Hj' as <-. rewrite Hk2. destruct k1; reflexivity.
Qed.

Lemma or_single_key_again (rawModel : string) (streaming : bool)
      (s s1 s2 : Store OpenRouter.OpenRouterKey)
      (k1 k2 : OpenRouter.OpenRouterKey) :
  length (keys s) = 1%nat ->
  OpenRouter.get clock family rawModel streaming s = Ok k1 s1 ->
  OpenRouter.get clock family rawModel streaming s1 = Ok k2 s2 ->
  OpenRouter.key k1 = OpenRouter.key k2.
Proof.
  intros Hlen G1 G2.
  destruct (OrderFacts.or_get_first_among_ties clock family rawModel
              streaming s s1 k1 G1) as (j & kj & Hj & _ & Hs1 & _).
  destruct (OrderFacts.or_get_first_among_ties clock family rawModel
              streaming s1 s2 k2 G2) as (j' & kj' & Hj' & Hk2 & _).
  assert (j = 0%nat) as -> by (apply lookup_lt_Some in Hj; lia).
  rewrite Hs1 in Hj'.
  assert (j' = 0%nat) as ->.
  { apply lookup_lt_Some in Hj'. rewrite length_insert in Hj'. lia. }
  rewrite list_lookup_insert_eq in Hj' by lia.
  injection Hj' as <-. rewrite Hk2. destruct k1; reflexivity.
Qed.

End Pools.

End ReplayFacts.

(* ===================================================================== *)
(** ** The claims on the probe path and on the mutator chains *)
(* ===================================================================== *)

(** C8, on the path a probe takes.  The claim describes the last branch
    of [handleAxiosError]; run on its own, that branch does roll
    [lastChecked] back to now - (keyCheckPeriod - one hour) and leaves the
    status (last two equations below, the OpenRouter one also writing
    [remainingBalance: null]).  A probe never gets there: [makeRequest]
    catches every rejection of the request and turns it into a status and
    a body, so [testKey] returns and [testKeyOrFail] updates the record.
    For a request that is rejected without a response, or with a response
    whose status is none of 200, 401 and 429, the Groq probe sets the
    status to [UNKNOWN], clears the quota flag, re-enables a record that
    was [DEAD] or [INVALID], and stamps [lastChecked] with the time of the
    check, not one hour short of a period earlier; the OpenRouter probe
    reports [DEAD], which leaves the record disabled and revoked, without
    a balance, and stamped with the time of the check. *)
Theorem probe_transport_error_skips_rollback
        (clock : nat -> Z) (http : option Z) (msg : string)
        (dg : GroqChecker.Data) (dk : OpenRouterChecker.KeyResult)
        (sg : Store Groq.GroqKey) (keyg : Groq.GroqKey)
        (ig : nat) (kg : Groq.GroqKey)
        (so : Store OpenRouter.OpenRouterKey) (keyo : OpenRouter.OpenRouterKey)
        (io : nat) (ko : OpenRouter.OpenRouterKey) :
  http <> Some 200 -> http <> Some 401 -> http <> Some 429 ->
  find_by Groq.hash (Groq.hash keyg) (keys sg) = Some (ig, kg) ->
  find_by OpenRouter.hash (OpenRouter.hash keyo) (keys so) = Some (io, ko) ->
  let og := GroqChecker.Rejected ((fun st => (st, dg)) <$> http) msg in
  let oo := OpenRouterChecker.Rejected ((fun st => (st, dk)) <$> http) msg in
  let oneHour := 60 * 60 * 1000 in
  let nextg := clock (ticks sg) - (Groq.KEY_CHECK_PERIOD - oneHour) in
  let nexto := clock (ticks so) - (OpenRouter.KEY_CHECK_PERIOD - oneHour) in
  (exists (inf : string) (k1 : Groq.GroqKey),
      GroqChecker.testKey og = inr (Groq.UNKNOWN, inf)
      /\ GroqChecker.testKeyOrFail clock keyg og sg
         = Ok tt (mkStore (<[ig := k1]> (keys sg)) (S (ticks sg))
                          (checker sg))
      /\ Groq.status k1 = Groq.UNKNOWN
      /\ Groq.info k1 = inf
      /\ Groq.isOverQuota k1 = false
      /\ Groq.isDisabled k1
         = (if bool_decide (Groq.status kg = Groq.DEAD)
               || bool_decide (Groq.status kg = Groq.INVALID)
            then false else Groq.isDisabled kg)
      /\ Groq.lastChecked k1 = clock (ticks sg)
      /\ Groq.lastChecked k1 <> nextg)
  /\ (exists (inf : string) (k1 : OpenRouter.OpenRouterKey),
      OpenRouterChecker.testKey_early oo
      = inr (Some (OpenRouter.DEAD, inf, None))
      /\ OpenRouterChecker.testKeyOrFail clock keyo
           (OpenRouter.DEAD, inf, None) so
         = Ok tt (mkStore (<[io := k1]> (keys so)) (S (ticks so))
                          (checker so))
      /\ OpenRouter.status k1 = OpenRouter.DEAD
      /\ OpenRouter.info k1 = inf
      /\ OpenRouter.isDisabled k1 = true
      /\ OpenRouter.isRevoked k1 = true
      /\ OpenRouter.remainingBalance k1 = None
      /\ OpenRouter.lastChecked k1 = clock (ticks so)
      /\ OpenRouter.lastChecked k1 <> nexto)
  /\ Groq.handleAxiosError clock keyg http sg
     = Ok tt (mkStore
                (<[ig := Groq.set_field kg (Groq.F_lastChecked nextg)]>
                   (keys sg))
                (S (S (ticks sg))) (checker sg))
  /\ OpenRouter.handleAxiosError clock keyo http so
     = Ok tt (mkStore
                (<[io := OpenRouter.set_field
                           (OpenRouter.set_field ko
                              (OpenRouter.F_lastChecked nexto))
                           (OpenRouter.F_remainingBalance None)]> (keys so))
                (S (S (ticks so))) (checker so)).
Proof.
  intros H200 H401 H429 Hg Ho og oo oneHour nextg nexto.
  split; [|split; [|split]].
  - destruct (ProbeFacts.groq_testKey_unknown og) as [inf Ht].
    + apply ProbeFacts.groq_makeRequest_rejected_status; [lia | exact H200].
    + apply ProbeFacts.groq_makeRequest_rejected_status; [lia | exact H401].
    + apply ProbeFacts.groq_makeRequest_rejected_status; [lia | exact H429].
    + destruct (ProbeFacts.groq_testKeyOrFail_found clock keyg og sg ig kg
                  Groq.UNKNOWN inf Hg Ht)
        as (k1 & Hres & Hst & Hinf & _ & Hlc & Hoq & _ & _ & Hd).
      exists inf, k1. split; [exact Ht|]. split; [exact Hres|].
      split; [exact Hst|]. split; [exact Hinf|]. split; [exact Hoq|].
      split; [exact Hd|]. split; [exact Hlc|].
      rewrite Hlc. unfold nextg, oneHour, Groq.KEY_CHECK_PERIOD. lia.
  - destruct (OrProbeFacts.or_testKey_early_rejected
                ((fun st => (st, dk)) <$> http) msg) as [inf Ht].
    + apply OrProbeFacts.or_makeRequest_rejected_status; [lia | exact H200].
    + apply OrProbeFacts.or_makeRequest_rejected_status; [lia | exact H429].
    + destruct (OrProbeFacts.or_testKeyOrFail_found clock keyo
                  OpenRouter.DEAD inf None so io ko Ho)
        as (k1 & Hres & _ & Hst & Hinf & Hb & Hlc & _ & _ & _ & _ & Hd & Hr).
      exists inf, k1. split; [exact Ht|]. split; [exact Hres|].
      split; [exact Hst|]. split; [exact Hinf|]. split; [exact Hd|].
      split; [exact Hr|]. split; [exact Hb|]. split; [exact Hlc|].
      rewrite Hlc. unfold nexto, oneHour, OpenRouter.KEY_CHECK_PERIOD. lia.
  - exact (GroqFacts.groq_handleAxiosError_network
             clock keyg http sg ig kg H429 H401 Hg).
  - exact (OpenRouterFacts.or_handleAxiosError_network
             clock keyo http so io ko H429 Ho).
Qed.

Lemma probe_transport_error_skips_rollback_witness :
  (exists k1 : Groq.GroqKey,
      GroqChecker.testKeyOrFail Examples.clk
        (Groq.newKey Examples.digest "a")
        (GroqChecker.Rejected None "connect ETIMEDOUT") Examples.groq_active
      = Ok tt (mkStore [k1] 1 None)
      /\ Groq.status
           (Groq.set_field (Groq.newKey Examples.digest "a")
                           (Groq.F_status Groq.ACTIVE)) = Groq.ACTIVE
      /\ Groq.status k1 = Groq.UNKNOWN
      /\ Groq.lastChecked k1 = 1000)
  /\ (exists (inf : string) (k1 k2 : OpenRouter.OpenRouterKey),
      OpenRouterChecker.testKey_early
        (OpenRouterChecker.Rejected None "connect ETIMEDOUT")
      = inr (Some (OpenRouter.DEAD, inf, None))
      /\ OpenRouterChecker.testKeyOrFail Examples.clk
           (Examples.or_key "a" OpenRouter.PAID_Balance true false
                            (Some 10%Q) 100)
           (OpenRouter.DEAD, inf, None) Examples.or_two_paid
         = Ok tt (mkStore [k1; k2] 1 None)
      /\ OpenRouter.status k1 = OpenRouter.DEAD
      /\ OpenRouter.isRevoked k1 = true
      /\ OpenRouter.lastChecked k1 = 1000).
Proof.
  destruct (probe_transport_error_skips_rollback Examples.clk None
              "connect ETIMEDOUT" GroqChecker.Falsy OpenRouterChecker.Nullish
              Examples.groq_active (Groq.newKey Examples.digest "a") 0
              (Groq.set_field (Groq.newKey Examples.digest "a")
                              (Groq.F_status Groq.ACTIVE))
              Examples.or_two_paid
              (Examples.or_key "a" OpenRouter.PAID_Balance true false
                               (Some 10%Q) 100) 0
              (Examples.or_key "a" OpenRouter.PAID_Balance true false
                               (Some 10%Q) 100)
              ltac:(discriminate) ltac:(discriminate) ltac:(discriminate)
              eq_refl eq_refl)
    as [(infg & g1 & _ & Hres & Hst & _ & _ & _ & Hlc & _)
        [(info & o1 & Ht & Hreso & Hsto & _ & _ & Hr & _ & Hlco & _) _]].
  split.
  - exists g1. split; [exact Hres|]. split; [reflexivity|].
    split; [exact Hst | exact Hlc].
  - exists info, o1, (Examples.or_key "b" OpenRouter.PAID_Balance true false
                                      (Some 5%Q) 0).
    split; [exact Ht|]. split; [exact Hreso|]. split; [exact Hsto|].
    split; [exact Hr | exact Hlco].
Defined.

(** C9, as stated, fails for both chains of the sources over a pool of
    two equally ranked credentials: the first run of the chain sends the
    first credential and stamps it in the pool; after the manager has
    restored the pristine request, the second run sends the other
    credential, so the two outbound requests differ in their
    authorization header. *)
Lemma chain_replay_changes_credential :
  (exists (m1 m2 : Mutation.ProxyReqManager OpenRouter.OpenRouterKey)
          (s1 s2 : Store OpenRouter.OpenRouterKey),
      Mutation.run
        (Mutation.openrouter_mutations Examples.clk Examples.fam
                                       (fun p => p))
        (Mutation.create Examples.chat_request) Examples.or_two_free
      = Ok m1 s1
      /\ Mutation.revert m1 = Mutation.create Examples.chat_request
      /\ Mutation.run
           (Mutation.openrouter_mutations Examples.clk Examples.fam
                                          (fun p => p))
           (Mutation.revert m1) s1
         = Ok m2 s2
      /\ Mutation.headers (Mutation.request m1) !! "authorization"
         = Some "Bearer a"
      /\ Mutation.headers (Mutation.request m2) !! "authorization"
         = Some "Bearer b"
      /\ Mutation.outbound m1 <> Mutation.outbound m2)
  /\ (exists (m1 m2 : Mutation.ProxyReqManager Groq.GroqKey)
             (s1 s2 : Store Groq.GroqKey),
      Mutation.run
        (Mutation.groq_mutations Examples.clk Examples.fam (fun p => p))
        (Mutation.create Examples.groq_chat_request) Examples.groq3
      = Ok m1 s1
      /\ Mutation.revert m1 = Mutation.create Examples.groq_chat_request
      /\ Mutation.run
           (Mutation.groq_mutations Examples.clk Examples.fam (fun p => p))
           (Mutation.revert m1) s1
         = Ok m2 s2
      /\ Mutation.headers (Mutation.request m1) !! "authorization"
         = Some "Bearer a"
      /\ Mutation.headers (Mutation.request m2) !! "authorization"
         = Some "Bearer b"
      /\ Mutation.outbound m1 <> Mutation.outbound m2).
Proof.
  assert (H : forall a b : string * gmap string string * option string,
             a = b -> a.1.2 !! "authorization" = b.1.2 !! "authorization")
    by (intros a b ->; reflexivity).
  split.
  - eexists _, _, _, _.
    split; [vm_compute; reflexivity|]. split; [reflexivity|].
    split; [vm_compute; reflexivity|].
    split; [vm_compute; reflexivity|]. split; [vm_compute; reflexivity|].
    intros E. apply H in E. vm_compute in E. discriminate E.
  - eexists _, _, _, _.
    split; [vm_compute; reflexivity|]. split; [reflexivity|].
    split; [vm_compute; reflexivity|].
    split; [vm_compute; reflexivity|]. split; [vm_compute; reflexivity|].
    intros E. apply H in E. vm_compute in E. discriminate E.
Qed.

(** C9, amended.  Take either chain of the sources, [addKey, finalizeBody]
    of the Groq route or [selectUpstreamPath, addKey, finalizeBody] of the
    OpenRouter route, over any pool.  Run it from the request the manager
    recorded, let the manager restore that request, and run it again.
    The restored manager is the one the first run started from: the
    recorded original, no recorded change, no credential.  Each run asks
    the pool once, the second run in the state the first one left, and
    records the same changes up to the credential: the rewritten path (in
    the OpenRouter chain), the credential [get()] handed out in that run,
    its authorization header, the serialized body and its length.  So the
    two outbound requests have the same path, the same body and the same
    headers except for the authorization header, and they are identical
    when [get()] hands out the same secret both times, which it does in
    both providers when the pool holds one credential. *)
Theorem chain_replay_identical_up_to_credential :
  (forall (K : Type) (get : string -> bool -> M (Store K) K)
          (secret : K -> option string) (serialize : string -> string)
          (chain : list (Mutation.ProxyReqMutator (K := K)))
          (r : Mutation.Request) (s s1 s2 : Store K)
          (m1 m2 : Mutation.ProxyReqManager K),
      chain = [Mutation.addKey get secret; Mutation.finalizeBody serialize]
      \/ chain = [(fun m => ret (Mutation.selectUpstreamPath m));
                  Mutation.addKey get secret;
                  Mutation.finalizeBody serialize] ->
      Mutation.run chain (Mutation.create r) s = Ok m1 s1 ->
      Mutation.run chain (Mutation.revert m1) s1 = Ok m2 s2 ->
      Mutation.revert m1 = Mutation.create r
      /\ Mutation.original m2 = r
      /\ exists (k1 k2 : K) (pre : list (Mutation.Change K))
                (v : Mutation.Request),
          get (Mutation.model r) false s = Ok k1 s1
          /\ get (Mutation.model r) false s1 = Ok k2 s2
          /\ ((pre = [] /\ v = r)
              \/ (pre = [Mutation.SetPath
                           (Mutation.upstream_path (Mutation.url r))]
                  /\ v = Mutation.mkRequest
                           (Mutation.upstream_path (Mutation.url r))
                           (Mutation.headers r) (Mutation.model r)
                           (Mutation.payload r) (Mutation.body r)))
          /\ Mutation.key m1 = Some k1
          /\ Mutation.key m2 = Some k2
          /\ Mutation.changes m1
             = pre ++ Mutation.key_and_body secret serialize v k1
          /\ Mutation.changes m2
             = pre ++ Mutation.key_and_body secret serialize v k2
          /\ Mutation.request m1 = Mutation.sent secret serialize v k1
          /\ Mutation.request m2 = Mutation.sent secret serialize v k2
          /\ Mutation.url (Mutation.request m1)
             = Mutation.url (Mutation.request m2)
          /\ Mutation.body (Mutation.request m1)
             = Mutation.body (Mutation.request m2)
          /\ (forall name : string,
                 name <> "authorization" ->
                 Mutation.headers (Mutation.request m1) !! name
                 = Mutation.headers (Mutation.request m2) !! name)
          /\ Mutation.headers (Mutation.request m1) !! "authorization"
             = Some ("Bearer " +:+ default "undefined" (secret k1))
          /\ Mutation.headers (Mutation.request m2) !! "authorization"
             = Some ("Bearer " +:+ default "undefined" (secret k2))
          /\ (secret k1 = secret k2 ->
              Mutation.outbound m1 = Mutation.outbound m2))
  /\ (forall (clock : nat -> Z) (family : string -> string)
             (serialize : string -> string) (r : Mutation.Request)
             (s s1 s2 : Store Groq.GroqKey)
             (m1 m2 : Mutation.ProxyReqManager Groq.GroqKey),
         length (keys s) = 1%nat ->
         Mutation.run (Mutation.groq_mutations clock family serialize)
                      (Mutation.create r) s = Ok m1 s1 ->
         Mutation.run (Mutation.groq_mutations clock family serialize)
                      (Mutation.revert m1) s1 = Ok m2 s2 ->
         Mutation.outbound m1 = Mutation.outbound m2)
  /\ (forall (clock : nat -> Z) (family : string -> string)
             (serialize : string -> string) (r : Mutation.Request)
             (s s1 s2 : Store OpenRouter.OpenRouterKey)
             (m1 m2 : Mutation.ProxyReqManager OpenRouter.OpenRouterKey),
         length (keys s) = 1%nat ->
         Mutation.run (Mutation.openrouter_mutations clock family serialize)
                      (Mutation.create r) s = Ok m1 s1 ->
         Mutation.run (Mutation.openrouter_mutations clock family serialize)
                      (Mutation.revert m1) s1 = Ok m2 s2 ->
         Mutation.outbound m1 = Mutation.outbound m2).
Proof.
  split; [|split].
  - intros K get secret serialize chain r s s1 s2 m1 m2 Hc H1 H2.
    destruct (MutationFacts.replay get secret serialize chain r s s1 s2
                m1 m2 Hc H1 H2)
      as (Hrev & k1 & k2 & pre & v & G1 & G2 & -> & -> & Hpre).
    split; [exact Hrev|]. split; [reflexivity|].
    exists k1, k2, pre, v.
    split; [exact G1|]. split; [exact G2|]. split; [exact Hpre|].
    cbn [Mutation.key Mutation.changes Mutation.request].
    split; [reflexivity|]. split; [reflexivity|].
    split; [reflexivity|]. split; [reflexivity|].
    split; [reflexivity|]. split; [reflexivity|].
    split; [reflexivity|]. split; [reflexivity|].
    split; [apply ReplayFacts.sent_other_headers|].
    split; [apply ReplayFacts.sent_authorization|].
    split; [apply ReplayFacts.sent_authorization|].
    intros E. unfold Mutation.outbound. cbn [Mutation.request].
    rewrite (ReplayFacts.sent_same_secret secret serialize v k1 k2 E).
    reflexivity.
  - intros clock family serialize r s s1 s2 m1 m2 Hlen H1 H2.
    destruct (MutationFacts.replay (Groq.get clock family) Groq.key
                serialize _ r s s1 s2 m1 m2 (or_introl eq_refl) H1 H2)
      as (_ & k1 & k2 & pre & v & G1 & G2 & -> & -> & _).
    unfold Mutation.outbound. cbn [Mutation.request].
    rewrite (ReplayFacts.sent_same_secret Groq.key serialize v k1 k2
               (ReplayFacts.groq_single_key_again clock family _ _ s s1 s2
                  k1 k2 Hlen G1 G2)).
    reflexivity.
  - intros clock family serialize r s s1 s2 m1 m2 Hlen H1 H2.
    destruct (MutationFacts.replay (OpenRouter.get clock family)
                OpenRouter.key serialize _ r s s1 s2 m1 m2
                (or_intror eq_refl) H1 H2)
      as (_ & k1 & k2 & pre & v & G1 & G2 & -> & -> & _).
    unfold Mutation.outbound. cbn [Mutation.request].
    rewrite (ReplayFacts.sent_same_secret OpenRouter.key serialize v k1 k2
               (ReplayFacts.or_single_key_again clock family _ _ s s1 s2
                  k1 k2 Hlen G1 G2)).
    reflexivity.
Qed.

Lemma chain_replay_identical_up_to_credential_witness :
  exists (m1 m2 : Mutation.ProxyReqManager OpenRouter.OpenRouterKey)
         (s1 s2 : Store OpenRouter.OpenRouterKey),
    Mutation.run
      (Mutation.openrouter_mutations Examples.clk Examples.fam (fun p => p))
      (Mutation.create Examples.chat_request) Examples.or_free1
    = Ok m1 s1
    /\ Mutation.run
         (Mutation.openrouter_mutations Examples.clk Examples.fam
                                        (fun p => p))
         (Mutation.revert m1) s1
       = Ok m2 s2
    /\ Mutation.url (Mutation.request m1) = "/chat/completions?x=1"
    /\ Mutation.outbound m1 = Mutation.outbound m2.
Proof.
  eexists _, _, _, _.
  split; [vm_compute; reflexivity|].
  split; [vm_compute; reflexivity|].
  split; [vm_compute; reflexivity|].
  refine (proj2 (proj2 chain_replay_identical_up_to_credential)
            Examples.clk Examples.fam (fun p => p) Examples.chat_request
            Examples.or_free1 _ _ _ _ _ _ _).
  - reflexivity.
  - vm_compute. reflexivity.
  - vm_compute. reflexivity.
Defined.

(* ===================================================================== *)
(** ** Further properties of the pools, the probe and the path rewrite *)
(* ===================================================================== *)

(** X1.  [GroqKeyProvider.update] with an update object that carries a
    status, on a hash that is in the pool: the record takes that status,
    [isOverQuota] is true exactly for [RATE_LIMITED] and [INVALID], a
    [DEAD] or [INVALID] status disables the record and revokes it only
    when [DEAD], and any other status re-enables a record that was [DEAD]
    or [INVALID]; the flags the update object itself carried for these
    properties are overridden. *)
Theorem groq_update_flags_follow_status
        (clock : nat -> Z) (h : string) (u : Groq.Partial)
        (s : Store Groq.GroqKey) (i : nat) (k : Groq.GroqKey)
        (st : Groq.GroqKeyStatus) :
  find_by Groq.hash h (keys s) = Some (i, k) ->
  Groq.get_status u = Some st ->
  exists k' : Groq.GroqKey,
    Groq.update clock h u s
    = Ok tt (mkStore (<[i := k']> (keys s)) (S (ticks s)) (checker s))
    /\ Groq.status k' = st
    /\ Groq.isOverQuota k'
       = (bool_decide (st = Groq.RATE_LIMITED)
          || bool_decide (st = Groq.INVALID))
    /\ (st = Groq.DEAD \/ st = Groq.INVALID ->
        Groq.isDisabled k' = true
        /\ Groq.isRevoked k' = bool_decide (st = Groq.DEAD))
    /\ (st <> Groq.DEAD -> st <> Groq.INVALID ->
        Groq.status k = Groq.DEAD \/ Groq.status k = Groq.INVALID ->
        Groq.isDisabled k' = false /\ Groq.isRevoked k' = false).
Proof. apply UpdateFacts.groq_update_derives_flags. Qed.

Lemma groq_update_flags_follow_status_witness :
  exists k' : Groq.GroqKey,
    Groq.update Examples.clk "groq-b"
      [Groq.F_status Groq.ACTIVE; Groq.F_isOverQuota true] Examples.groq3
    = Ok tt (mkStore (<[1%nat := k']> (keys Examples.groq3)) 1 None)
    /\ Groq.status k' = Groq.ACTIVE
    /\ Groq.isOverQuota k' = false.
Proof.
  destruct (groq_update_flags_follow_status Examples.clk "groq-b"
              [Groq.F_status Groq.ACTIVE; Groq.F_isOverQuota true]
              Examples.groq3 1 (Groq.newKey Examples.digest "b") Groq.ACTIVE
              eq_refl eq_refl) as (k' & Hu & Hs & Hq & _).
  exists k'. split; [exact Hu|]. split; [exact Hs | exact Hq].
Defined.

(** X2.  [OpenRouterKeyProvider.update] with an update object that
    carries a status, on a hash that is in the pool: the record takes that
    status; [isPaid] is true exactly for the three PAID statuses,
    [isFreeTier] for the two FREE statuses, [isOverQuota] for 'PAID (No
    Credits)', 'PAID (Limit Reached)' and 'FREE (Exhausted)'; 'DEAD' and
    'UNKNOWN (Rate Limited)' disable the record and only 'DEAD' revokes
    it; any other status re-enables a record that had one of these two. *)
Theorem openrouter_update_flags_follow_status
        (clock : nat -> Z) (h : string) (u : OpenRouter.Partial)
        (s : Store OpenRouter.OpenRouterKey) (i : nat)
        (k : OpenRouter.OpenRouterKey) (st : OpenRouter.OpenRouterKeyStatus) :
  find_by OpenRouter.hash h (keys s) = Some (i, k) ->
  OpenRouter.get_status u = Some st ->
  exists k' : OpenRouter.OpenRouterKey,
    OpenRouter.update clock h u s
    = Ok tt (mkStore (<[i := k']> (keys s)) (S (ticks s)) (checker s))
    /\ OpenRouter.status k' = st
    /\ OpenRouter.isPaid k'
       = (bool_decide (st = OpenRouter.PAID_Balance)
          || bool_decide (st = OpenRouter.PAID_No_Credits)
          || bool_decide (st = OpenRouter.PAID_Limit_Reached))
    /\ OpenRouter.isFreeTier k'
       = (bool_decide (st = OpenRouter.FREE_Active)
          || bool_decide (st = OpenRouter.FREE_Exhausted))
    /\ OpenRouter.isOverQuota k'
       = (bool_decide (st = OpenRouter.PAID_No_Credits)
          || bool_decide (st = OpenRouter.PAID_Limit_Reached)
          || bool_decide (st = OpenRouter.FREE_Exhausted))
    /\ (st = OpenRouter.DEAD \/ st = OpenRouter.UNKNOWN_Rate_Limited ->
        OpenRouter.isDisabled k' = true
        /\ OpenRouter.isRevoked k' = bool_decide (st = OpenRouter.DEAD))
    /\ (st <> OpenRouter.DEAD -> st <> OpenRouter.UNKNOWN_Rate_Limited ->
        OpenRouter.status k = OpenRouter.DEAD
        \/ OpenRouter.status k = OpenRouter.UNKNOWN_Rate_Limited ->
        OpenRouter.isDisabled k' = false /\ OpenRouter.isRevoked k' = false).
Proof. apply UpdateFacts.or_update_derives_flags. Qed.

Lemma openrouter_update_flags_follow_status_witness :
  exists k' : OpenRouter.OpenRouterKey,
    OpenRouter.update Examples.clk "or-a"
      [OpenRouter.F_status OpenRouter.PAID_No_Credits;
       OpenRouter.F_isPaid false] Examples.or_free1
    = Ok tt (mkStore (<[0%nat := k']> (keys Examples.or_free1)) 1 None)
    /\ OpenRouter.isPaid k' = true
    /\ OpenRouter.isFreeTier k' = false
    /\ OpenRouter.isOverQuota k' = true.
Proof.
  destruct (openrouter_update_flags_follow_status Examples.clk "or-a"
              [OpenRouter.F_status OpenRouter.PAID_No_Credits;
               OpenRouter.F_isPaid false]
              Examples.or_free1 0
              (Examples.or_key "a" OpenRouter.FREE_Active false true
                               (Some 0.01%Q) 0)
              OpenRouter.PAID_No_Credits eq_refl eq_refl)
    as (k' & Hu & _ & Hp & Hf & Hq & _).
  exists k'. split; [exact Hu|]. split; [exact Hp|].
  split; [exact Hf | exact Hq].
Defined.

(** X3.  [update] with an update object of the type [GroqKeyUpdate]
    (respectively [OpenRouterKeyUpdate]), on a hash that is in the pool:
    only the first record with that hash is written; it keeps its secret,
    hash, [lastUsed], [promptCount], [rateLimitedAt] and
    [rateLimitedUntil]; its [lastChecked] is the time of the call unless
    the update object names [lastChecked]; the pool keeps its length, and
    the hash still finds the record. *)
Theorem update_writes_one_record
        (clock : nat -> Z) (hg ho : string)
        (ug : Groq.Partial) (uo : OpenRouter.Partial)
        (sg : Store Groq.GroqKey) (ig : nat) (kg : Groq.GroqKey)
        (so : Store OpenRouter.OpenRouterKey) (io : nat)
        (ko : OpenRouter.OpenRouterKey) :
  find_by Groq.hash hg (keys sg) = Some (ig, kg) ->
  Groq.GroqKeyUpdate ug ->
  find_by OpenRouter.hash ho (keys so) = Some (io, ko) ->
  OpenRouter.OpenRouterKeyUpdate uo ->
  (exists k' : Groq.GroqKey,
      Groq.update clock hg ug sg
      = Ok tt (mkStore (<[ig := k']> (keys sg)) (S (ticks sg)) (checker sg))
      /\ Groq.bookkeeping k' = Groq.bookkeeping kg
      /\ ((forall v, Groq.F_lastChecked v ∉ ug) ->
          Groq.lastChecked k' = clock (ticks sg))
      /\ length (<[ig := k']> (keys sg)) = length (keys sg)
      /\ (forall j : nat,
             j <> ig -> <[ig := k']> (keys sg) !! j = keys sg !! j)
      /\ find_by Groq.hash hg (<[ig := k']> (keys sg)) = Some (ig, k'))
  /\ (exists k' : OpenRouter.OpenRouterKey,
      OpenRouter.update clock ho uo so
      = Ok tt (mkStore (<[io := k']> (keys so)) (S (ticks so)) (checker so))
      /\ OpenRouter.bookkeeping k' = OpenRouter.bookkeeping ko
      /\ ((forall v, OpenRouter.F_lastChecked v ∉ uo) ->
          OpenRouter.lastChecked k' = clock (ticks so))
      /\ length (<[io := k']> (keys so)) = length (keys so)
      /\ (forall j : nat,
             j <> io -> <[io := k']> (keys so) !! j = keys so !! j)
      /\ find_by OpenRouter.hash ho (<[io := k']> (keys so))
         = Some (io, k')).
Proof.
  intros Hg Hug Ho Huo. split.
  - apply UpdateFacts.groq_update_frame; assumption.
  - apply UpdateFacts.or_update_frame; assumption.
Qed.

Lemma update_writes_one_record_witness :
  exists k' : Groq.GroqKey,
    Groq.update Examples.clk "groq-b" [Groq.F_info "checked by hand"]
                Examples.groq3
    = Ok tt (mkStore (<[1%nat := k']> (keys Examples.groq3)) 1 None)
    /\ Groq.bookkeeping k'
       = Groq.bookkeeping (Groq.newKey Examples.digest "b")
    /\ Groq.lastChecked k' = 1000.
Proof.
  destruct (update_writes_one_record Examples.clk "groq-b" "or-a"
              [Groq.F_info "checked by hand"]
              [OpenRouter.F_info "checked by hand"]
              Examples.groq3 1 (Groq.newKey Examples.digest "b")
              Examples.or_free1 0
              (Examples.or_key "a" OpenRouter.FREE_Active false true
                               (Some 0.01%Q) 0)
              eq_refl ltac:(repeat constructor)
              eq_refl ltac:(repeat constructor))
    as [(k' & Hu & Hb & Hl & _) _].
  exists k'. split; [exact Hu|]. split; [exact Hb|].
  apply Hl. intros v Hv.
  apply list_elem_of_singleton in Hv. discriminate Hv.
Defined.

(** X4.  [disable(key)] in both providers.  When the hash of [key] finds
    an enabled record, that record and no other is marked disabled;
    [available()] goes down by one; a second [disable] changes nothing;
    and no later [get] returns the record.  When the hash finds nothing,
    or finds a record that is disabled already, [disable] changes
    nothing. *)
Theorem disable_removes_from_selection
        (clock : nat -> Z) (family : string -> string) :
  (forall (k : Groq.GroqKey) (s : Store Groq.GroqKey)
          (i : nat) (k0 : Groq.GroqKey),
      find_by Groq.hash (Groq.hash k) (keys s) = Some (i, k0) ->
      Groq.isDisabled k0 = false ->
      exists s' : Store Groq.GroqKey,
        Groq.disable k s = Ok tt s'
        /\ keys s' = <[i := Groq.set_field k0 (Groq.F_isDisabled true)]> (keys s)
        /\ Groq.disable k s' = Ok tt s'
        /\ (exists a : Z, Groq.available s = Ok a s
                          /\ Groq.available s' = Ok (a - 1) s')
        /\ forall (rawModel : string) (streaming : bool)
                  (k2 : Groq.GroqKey) (s2 : Store Groq.GroqKey),
            Groq.get clock family rawModel streaming s' = Ok k2 s2 ->
            exists (j : nat) (kj : Groq.GroqKey),
              j <> i /\ keys s !! j = Some kj
              /\ k2 = Groq.set_field kj (Groq.F_lastUsed (Groq.lastUsed k2)))
  /\ (forall (k : OpenRouter.OpenRouterKey)
             (s : Store OpenRouter.OpenRouterKey)
             (i : nat) (k0 : OpenRouter.OpenRouterKey),
      find_by OpenRouter.hash (OpenRouter.hash k) (keys s) = Some (i, k0) ->
      OpenRouter.isDisabled k0 = false ->
      exists s' : Store OpenRouter.OpenRouterKey,
        OpenRouter.disable k s = Ok tt s'
        /\ keys s'
           = <[i := OpenRouter.set_field k0 (OpenRouter.F_isDisabled true)]>
               (keys s)
        /\ OpenRouter.disable k s' = Ok tt s'
        /\ (exists a : Z, OpenRouter.available s = Ok a s
                          /\ OpenRouter.available s' = Ok (a - 1) s')
        /\ forall (rawModel : string) (streaming : bool)
                  (k2 : OpenRouter.OpenRouterKey)
                  (s2 : Store OpenRouter.OpenRouterKey),
            OpenRouter.get clock family rawModel streaming s' = Ok k2 s2 ->
            exists (j : nat) (kj : OpenRouter.OpenRouterKey),
              j <> i /\ keys s !! j = Some kj
              /\ k2 = OpenRouter.set_field kj
                        (OpenRouter.F_lastUsed (OpenRouter.lastUsed k2)))
  /\ (forall (k : Groq.GroqKey) (s : Store Groq.GroqKey),
      (find_by Groq.hash (Groq.hash k) (keys s) = None
       \/ exists (i : nat) (k0 : Groq.GroqKey),
           find_by Groq.hash (Groq.hash k) (keys s) = Some (i, k0)
           /\ Groq.isDisabled k0 = true) ->
      Groq.disable k s = Ok tt s)
  /\ (forall (k : OpenRouter.OpenRouterKey)
             (s : Store OpenRouter.OpenRouterKey),
      (find_by OpenRouter.hash (OpenRouter.hash k) (keys s) = None
       \/ exists (i : nat) (k0 : OpenRouter.OpenRouterKey),
           find_by OpenRouter.hash (OpenRouter.hash k) (keys s) = Some (i, k0)
           /\ OpenRouter.isDisabled k0 = true) ->
      OpenRouter.disable k s = Ok tt s).
Proof.
  split; [|split; [|split]].
  - intros k s i k0. apply PoolFacts.groq_disable_effect.
  - intros k s i k0. apply PoolFacts.or_disable_effect.
  - intros k s. apply PoolFacts.groq_disable_noop.
  - intros k s. apply PoolFacts.or_disable_noop.
Qed.

Lemma disable_removes_from_selection_witness :
  exists s' : Store Groq.GroqKey,
    Groq.disable (Groq.newKey Examples.digest "a") Examples.groq3 = Ok tt s'
    /\ Groq.available Examples.groq3 = Ok 3 Examples.groq3
    /\ Groq.available s' = Ok 2 s'.
Proof.
  destruct (proj1 (disable_removes_from_selection Examples.clk Examples.fam)
              (Groq.newKey Examples.digest "a") Examples.groq3 0%nat
              (Groq.newKey Examples.digest "a") eq_refl eq_refl)
    as (s' & Hd & _ & _ & (a & Ha & Ha') & _).
  exists s'. split; [exact Hd|].
  assert (E : a = 3) by (vm_compute in Ha; inversion Ha; reflexivity).
  subst a. split; [reflexivity | exact Ha'].
Defined.

(** X5.  What [get] does to the provider, in both providers: either it
    throws the exhaustion error and every record is as it was, or it
    returns the copy of one record that passes the checks of the filter,
    stamped with a reading of the clock, and the pool differs from the one
    before the call in that stamp only. *)
Theorem get_writes_one_stamp
        (clock : nat -> Z) (family : string -> string)
        (rawModel : string) (streaming : bool) :
  (forall s : Store Groq.GroqKey,
      (exists s' : Store Groq.GroqKey,
          Groq.get clock family rawModel streaming s
          = Throw (PaymentRequiredError "No active Groq keys available.") s'
          /\ keys s' = keys s /\ checker s' = checker s)
      \/ (exists (j : nat) (kj : Groq.GroqKey) (t : nat),
             keys s !! j = Some kj
             /\ Groq.healthy (family rawModel) kj
             /\ (ticks s <= t)%nat
             /\ Groq.get clock family rawModel streaming s
                = Ok (Groq.set_field kj (Groq.F_lastUsed (clock t)))
                     (mkStore
                        (<[j := Groq.set_field kj
                                  (Groq.F_lastUsed (clock t))]> (keys s))
                        (S t) (checker s))))
  /\ (forall s : Store OpenRouter.OpenRouterKey,
      (exists s' : Store OpenRouter.OpenRouterKey,
          OpenRouter.get clock family rawModel streaming s
          = Throw (PaymentRequiredError
                     (if bool_decide (family rawModel = "openrouter-paid")
                      then OpenRouter.paid_message
                      else OpenRouter.free_message)) s'
          /\ keys s' = keys s /\ checker s' = checker s)
      \/ (exists (j : nat) (kj : OpenRouter.OpenRouterKey) (t : nat),
             keys s !! j = Some kj
             /\ OpenRouter.healthy (family rawModel) kj
             /\ (ticks s <= t)%nat
             /\ OpenRouter.get clock family rawModel streaming s
                = Ok (OpenRouter.set_field kj (OpenRouter.F_lastUsed (clock t)))
                     (mkStore
                        (<[j := OpenRouter.set_field kj
                                  (OpenRouter.F_lastUsed (clock t))]> (keys s))
                        (S t) (checker s)))).
Proof.
  split; intros s.
  - apply PoolFacts.groq_get_frame.
  - apply PoolFacts.or_get_frame.
Qed.

(** X6.  Two calls of [get] in a row rotate: the second call does not
    return the record the first call returned, and leaves it as the first
    call left it, when another record is eligible for the second call,
    has at least the status priority (and, in the OpenRouter provider, at
    least the balance) of the first one, and was last used before the
    stamp of the first call. *)
Theorem get_twice_rotates
        (clock : nat -> Z) (family : string -> string)
        (rawModel : string) (streaming : bool) :
  (forall (s s1 s2 : Store Groq.GroqKey) (k1 k2 : Groq.GroqKey)
          (j : nat) (kj : Groq.GroqKey),
      Groq.get clock family rawModel streaming s = Ok k1 s1 ->
      Groq.get clock family rawModel streaming s1 = Ok k2 s2 ->
      keys s1 !! j = Some kj ->
      Groq.healthy (family rawModel) kj ->
      (forall n : nat, (ticks s1 <= n < ticks s2)%nat ->
                       Groq.rateLimitedUntil kj <= clock n) ->
      Groq.STATUS_PRIORITY (Groq.status k1)
      <= Groq.STATUS_PRIORITY (Groq.status kj) ->
      Groq.lastUsed kj < Groq.lastUsed k1 ->
      exists (i i2 : nat) (k' : Groq.GroqKey),
        keys s1 !! i = Some k1
        /\ i2 <> i
        /\ keys s1 !! i2 = Some k'
        /\ k2 = Groq.set_field k' (Groq.F_lastUsed (Groq.lastUsed k2))
        /\ keys s2 !! i = Some k1)
  /\ (forall (s s1 s2 : Store OpenRouter.OpenRouterKey)
             (k1 k2 : OpenRouter.OpenRouterKey)
             (j : nat) (kj : OpenRouter.OpenRouterKey),
      OpenRouter.get clock family rawModel streaming s = Ok k1 s1 ->
      OpenRouter.get clock family rawModel streaming s1 = Ok k2 s2 ->
      keys s1 !! j = Some kj ->
      OpenRouter.healthy (family rawModel) kj ->
      (forall n : nat, (ticks s1 <= n < ticks s2)%nat ->
                       OpenRouter.rateLimitedUntil kj <= clock n) ->
      OpenRouter.STATUS_PRIORITY (OpenRouter.status k1)
      <= OpenRouter.STATUS_PRIORITY (OpenRouter.status kj) ->
      (OpenRouter.balance_or_0 k1 <= OpenRouter.balance_or_0 kj)%Q ->
      OpenRouter.lastUsed kj < OpenRouter.lastUsed k1 ->
      exists (i i2 : nat) (k' : OpenRouter.OpenRouterKey),
        keys s1 !! i = Some k1
        /\ i2 <> i
        /\ keys s1 !! i2 = Some k'
        /\ k2 = OpenRouter.set_field k'
                  (OpenRouter.F_lastUsed (OpenRouter.lastUsed k2))
        /\ keys s2 !! i = Some k1).
Proof.
  split.
  - intros s s1 s2 k1 k2 j kj. apply PoolFacts.groq_get_rotates.
  - intros s s1 s2 k1 k2 j kj. apply PoolFacts.or_get_rotates.
Qed.

Lemma get_twice_rotates_witness :
  let first := Groq.get Examples.clk Examples.fam "groq-kimi" false
                        Examples.groq3 in
  let second := Groq.get Examples.clk Examples.fam "groq-kimi" false
                         (final_store first) in
  let k1 := Groq.set_field (Groq.newKey Examples.digest "a")
                           (Groq.F_lastUsed 1003) in
  let k2 := Groq.set_field (Groq.newKey Examples.digest "b")
                           (Groq.F_lastUsed 1007) in
  first = Ok k1 (final_store first)
  /\ second = Ok k2 (final_store second)
  /\ exists (i i2 : nat) (k' : Groq.GroqKey),
      keys (final_store first) !! i = Some k1 /\ i2 <> i
      /\ keys (final_store first) !! i2 = Some k'
      /\ k2 = Groq.set_field k' (Groq.F_lastUsed (Groq.lastUsed k2)).
Proof.
  intros first second k1 k2.
  assert (H1 : first = Ok k1 (final_store first))
    by (vm_compute; reflexivity).
  assert (H2 : second = Ok k2 (final_store second))
    by (vm_compute; reflexivity).
  split; [exact H1|]. split; [exact H2|].
  destruct (proj1 (get_twice_rotates Examples.clk Examples.fam
                     "groq-kimi" false)
              Examples.groq3 (final_store first) (final_store second)
              k1 k2 1%nat (Groq.newKey Examples.digest "b") H1 H2)
    as (i & i2 & k' & G1 & G2 & G3 & G4 & _).
  - vm_compute. reflexivity.
  - split; [reflexivity|]. split; [discriminate|].
    split; [reflexivity|]. compute_done.
  - intros n _. unfold Examples.clk. simpl. lia.
  - vm_compute. discriminate.
  - reflexivity.
  - exists i, i2, k'. split; [exact G1|]. split; [exact G2|].
    split; [exact G3 | exact G4].
Defined.

(** X7.  [incrementUsage] on a hash that is in the pool, in both
    providers, with the counters as the JavaScript numbers they are.  The
    prompt counter of the first record with that hash takes [n++]: one
    more below 2^53, no change at 2^53.  The tokens are added, as
    doubles, to the own entry of the family; a family without an entry
    gets one that starts at zero, unless its name is a property every
    object inherits (such as 'constructor'): then the record gets no
    entry and keeps the ones it has.  The entries of the other families,
    the rest of the record, the other records and the clock are
    untouched. *)
Theorem incrementUsage_adds_to_family
        (hg ho family : string)
        (ug : Groq.Usage) (uo : OpenRouter.Usage)
        (sg : Store Groq.GroqKey) (ig : nat) (kg : Groq.GroqKey)
        (so : Store OpenRouter.OpenRouterKey) (io : nat)
        (ko : OpenRouter.OpenRouterKey) :
  find_by Groq.hash hg (keys sg) = Some (ig, kg) ->
  find_by OpenRouter.hash ho (keys so) = Some (io, ko) ->
  (exists tu' : gmap string Groq.Usage,
      Groq.incrementUsage hg family ug sg
      = Ok tt (mkStore
                 (<[ig := Groq.set_field
                            (Groq.set_field kg
                               (Groq.F_promptCount
                                  (increment (Groq.promptCount kg))))
                            (Groq.F_tokenUsage (Some tu'))]> (keys sg))
                 (ticks sg) (checker sg))
      /\ (forall c : Groq.Usage,
             default ∅ (Groq.tokenUsage kg) !! family = Some c ->
             tu' !! family
             = Some (Groq.mkUsage
                       (PrimFloat.add (Groq.input c) (Groq.input ug))
                       (PrimFloat.add (Groq.output c) (Groq.output ug))))
      /\ (default ∅ (Groq.tokenUsage kg) !! family = None ->
          family ∉ Object_prototype ->
          tu' !! family
          = Some (Groq.mkUsage
                    (PrimFloat.add PrimFloat.zero (Groq.input ug))
                    (PrimFloat.add PrimFloat.zero (Groq.output ug))))
      /\ (default ∅ (Groq.tokenUsage kg) !! family = None ->
          family ∈ Object_prototype ->
          tu' = default ∅ (Groq.tokenUsage kg))
      /\ forall g : string,
          g <> family -> tu' !! g = default ∅ (Groq.tokenUsage kg) !! g)
  /\ (exists tu' : gmap string OpenRouter.Usage,
      OpenRouter.incrementUsage ho family uo so
      = Ok tt (mkStore
                 (<[io := OpenRouter.set_field
                            (OpenRouter.set_field ko
                               (OpenRouter.F_promptCount
                                  (increment (OpenRouter.promptCount ko))))
                            (OpenRouter.F_tokenUsage (Some tu'))]> (keys so))
                 (ticks so) (checker so))
      /\ (forall c : OpenRouter.Usage,
             default ∅ (OpenRouter.tokenUsage ko) !! family = Some c ->
             tu' !! family
             = Some (OpenRouter.mkUsage
                       (PrimFloat.add (OpenRouter.input c)
                                      (OpenRouter.input uo))
                       (PrimFloat.add (OpenRouter.output c)
                                      (OpenRouter.output uo))))
      /\ (default ∅ (OpenRouter.tokenUsage ko) !! family = None ->
          family ∉ Object_prototype ->
          tu' !! family
          = Some (OpenRouter.mkUsage
                    (PrimFloat.add PrimFloat.zero (OpenRouter.input uo))
                    (PrimFloat.add PrimFloat.zero (OpenRouter.output uo))))
      /\ (default ∅ (OpenRouter.tokenUsage ko) !! family = None ->
          family ∈ Object_prototype ->
          tu' = default ∅ (OpenRouter.tokenUsage ko))
      /\ forall g : string,
          g <> family ->
          tu' !! g = default ∅ (OpenRouter.tokenUsage ko) !! g)
  /\ (forall n : Z, - 2 ^ 53 <= n < 2 ^ 53 -> increment n = n + 1)
  /\ increment (2 ^ 53) = 2 ^ 53.
Proof.
  intros Hg Ho. split; [|split; [|split]].
  - apply UsageFacts.groq_incrementUsage_found. exact Hg.
  - apply UsageFacts.or_incrementUsage_found. exact Ho.
  - exact UsageFacts.increment_exact.
  - exact UsageFacts.increment_stuck.
Qed.

Lemma incrementUsage_adds_to_family_witness :
  (exists tu' : gmap string Groq.Usage,
      Groq.incrementUsage "groq-c" "groq-kimi"
        (Groq.mkUsage 120%float 30%float) Examples.groq3
      = Ok tt (mkStore
                 (<[2%nat := Groq.set_field
                               (Groq.set_field
                                  (Groq.newKey Examples.digest "c")
                                  (Groq.F_promptCount 1))
                               (Groq.F_tokenUsage (Some tu'))]>
                    (keys Examples.groq3)) 0 None)
      /\ tu' !! "groq-kimi" = Some (Groq.mkUsage 120%float 30%float))
  /\ (exists tu' : gmap string Groq.Usage,
      Groq.incrementUsage "groq-c" "constructor"
        (Groq.mkUsage 120%float 30%float) Examples.groq3
      = Ok tt (mkStore
                 (<[2%nat := Groq.set_field
                               (Groq.set_field
                                  (Groq.newKey Examples.digest "c")
                                  (Groq.F_promptCount 1))
                               (Groq.F_tokenUsage (Some tu'))]>
                    (keys Examples.groq3)) 0 None)
      /\ tu' = ∅).
Proof.
  assert (Hout : "groq-kimi" ∉ Object_prototype) by compute_done.
  assert (Hin : "constructor" ∈ Object_prototype) by compute_done.
  split.
  - destruct (incrementUsage_adds_to_family "groq-c" "or-a" "groq-kimi"
                (Groq.mkUsage 120%float 30%float)
                (OpenRouter.mkUsage 1%float 1%float)
                Examples.groq3 2 (Groq.newKey Examples.digest "c")
                Examples.or_free1 0
                (Examples.or_key "a" OpenRouter.FREE_Active false true
                                 (Some 0.01%Q) 0)
                eq_refl eq_refl) as [(tu' & Hi & _ & Hf & _) _].
    exists tu'. split; [exact Hi|]. exact (Hf eq_refl Hout).
  - destruct (incrementUsage_adds_to_family "groq-c" "or-a" "constructor"
                (Groq.mkUsage 120%float 30%float)
                (OpenRouter.mkUsage 1%float 1%float)
                Examples.groq3 2 (Groq.newKey Examples.digest "c")
                Examples.or_free1 0
                (Examples.or_key "a" OpenRouter.FREE_Active false true
                                 (Some 0.01%Q) 0)
                eq_refl eq_refl) as [(tu' & Hi & _ & _ & Hf & _) _].
    exists tu'. split; [exact Hi|]. exact (Hf eq_refl Hin).
Defined.

(** X8.  An OpenRouter pool as the constructor leaves it hands out
    nothing: every record starts as 'UNKNOWN (Rate Limited)', a status of
    priority zero, so [get] throws the exhaustion error of the family that
    was asked for, whatever the secrets, the model, the time and
    [config.checkKeys], until a check has given some record another
    status. *)
Theorem openrouter_fresh_pool_serves_nothing
        (clock : nat -> Z) (family : string -> string)
        (digest : string -> string) (bareKeys : list string)
        (checkKeys : bool) (rawModel : string) (streaming : bool) :
  exists s0 s' : Store OpenRouter.OpenRouterKey,
    OpenRouter.init checkKeys (OpenRouter.load digest bareKeys) = Ok tt s0
    /\ OpenRouter.get clock family rawModel streaming s0
       = Throw (PaymentRequiredError
                  (if bool_decide (family rawModel = "openrouter-paid")
                   then OpenRouter.paid_message
                   else OpenRouter.free_message)) s'
    /\ keys s' = keys (OpenRouter.load digest bareKeys).
Proof.
  eexists. 
  assert (Hk : keys (if checkKeys
                     then mkStore (keys (OpenRouter.load digest bareKeys))
                            (ticks (OpenRouter.load digest bareKeys))
                            (Some 0%nat)
                     else OpenRouter.load digest bareKeys)
               = keys (OpenRouter.load digest bareKeys))
    by (destruct checkKeys; reflexivity).
  destruct (UsageFacts.or_unchecked_pool_exhausted clock family rawModel
              streaming
              (if checkKeys
               then mkStore (keys (OpenRouter.load digest bareKeys))
                      (ticks (OpenRouter.load digest bareKeys)) (Some 0%nat)
               else OpenRouter.load digest bareKeys))
    as (s' & Hthrow & Hkeys).
  - intros k Hin. rewrite Hk in Hin. unfold OpenRouter.load in Hin.
    cbn [keys] in Hin. apply list_elem_of_fmap in Hin as (secret & -> & _).
    reflexivity.
  - exists s'. split; [reflexivity|]. split; [exact Hthrow|].
    rewrite Hkeys. exact Hk.
Qed.

(** X9.  A Groq pool as the constructor leaves it serves at once: with at
    least one secret configured, a model of one of the seven Groq families
    and a clock that does not read below zero, [get] returns a credential
    whose secret is one of the configured ones, with the hash derived from
    it and the status [UNKNOWN]: no check is needed first. *)
Theorem groq_fresh_pool_serves_configured_key
        (clock : nat -> Z) (family : string -> string)
        (digest : string -> string) (bareKeys : list string)
        (rawModel : string) (streaming : bool) :
  bareKeys <> [] ->
  family rawModel ∈ ["groq-llama-8b"; "groq-llama-70b"; "groq-llama-4-17b";
                     "groq-gpt-oss-120b"; "groq-gpt-oss-20b"; "groq-kimi";
                     "groq-qwen-32b"] ->
  (forall n : nat, 0 <= clock n) ->
  exists (k : Groq.GroqKey) (s' : Store Groq.GroqKey) (secret : string),
    Groq.get clock family rawModel streaming (Groq.load digest bareKeys)
    = Ok k s'
    /\ secret ∈ bareKeys
    /\ Groq.key k = Some secret
    /\ Groq.hash k = "groq-" +:+ digest secret
    /\ Groq.status k = Groq.UNKNOWN.
Proof.
  intros Hne Hfam Hclock.
  apply UsageFacts.groq_fresh_pool_serves;
    [exact Hne | exact Hfam | exact Hclock].
Qed.

Lemma groq_fresh_pool_serves_configured_key_witness :
  exists (k : Groq.GroqKey) (s' : Store Groq.GroqKey) (secret : string),
    Groq.get Examples.clk Examples.fam "groq-kimi" false
      (Groq.load Examples.digest ["a"; "b"; "c"])
    = Ok k s'
    /\ secret ∈ ["a"; "b"; "c"]
    /\ Groq.key k = Some secret
    /\ Groq.hash k = "groq-" +:+ Examples.digest secret
    /\ Groq.status k = Groq.UNKNOWN.
Proof.
  apply (groq_fresh_pool_serves_configured_key Examples.clk Examples.fam
           Examples.digest ["a"; "b"; "c"] "groq-kimi" false).
  - discriminate.
  - unfold Examples.fam. repeat constructor.
  - intros n. unfold Examples.clk. lia.
Defined.

(** X10.  [GroqKeyProvider.markRateLimited] on a hash that is in the
    pool leaves the record over quota, and [get] skips a record that is
    over quota without looking at the clock: whenever a later [get]
    succeeds, also long after the lockout of one minute has ended, it
    returns another record and leaves this one as it was. *)
Theorem groq_rate_limited_never_returned
        (clock : nat -> Z) (family : string -> string) (h : string)
        (s : Store Groq.GroqKey) (i : nat) (k0 : Groq.GroqKey) :
  find_by Groq.hash h (keys s) = Some (i, k0) ->
  exists (s1 : Store Groq.GroqKey) (k1 : Groq.GroqKey),
    Groq.markRateLimited clock h s = Ok tt s1
    /\ keys s1 !! i = Some k1
    /\ Groq.isOverQuota k1 = true
    /\ forall (rawModel : string) (streaming : bool)
              (k : Groq.GroqKey) (s2 : Store Groq.GroqKey),
        Groq.get clock family rawModel streaming s1 = Ok k s2 ->
        exists (j : nat) (kj : Groq.GroqKey),
          j <> i /\ keys s1 !! j = Some kj
          /\ k = Groq.set_field kj (Groq.F_lastUsed (Groq.lastUsed k))
          /\ keys s2 !! i = Some k1.
Proof.
  intros Hf.
  destruct (LockoutFacts.groq_markRateLimited_excludes clock family h s i k0 Hf)
    as (s1 & k1 & Hm & Hl & Hq & Hget).
  exists s1, k1. split; [exact Hm|]. split; [exact Hl|].
  split; [exact Hq | exact Hget].
Qed.

Lemma groq_rate_limited_never_returned_witness :
  exists (s1 : Store Groq.GroqKey) (k1 : Groq.GroqKey),
    Groq.markRateLimited Examples.leap "groq-a" Examples.groq3 = Ok tt s1
    /\ keys s1 !! 0%nat = Some k1
    /\ Groq.isOverQuota k1 = true
    /\ Groq.rateLimitedUntil k1 = 61000
    /\ exists s2 : Store Groq.GroqKey,
        Groq.get Examples.leap Examples.fam "groq-kimi" false s1
        = Ok (Groq.set_field (Groq.newKey Examples.digest "b")
                             (Groq.F_lastUsed 401000)) s2.
Proof.
  destruct (groq_rate_limited_never_returned Examples.leap Examples.fam
              "groq-a" Examples.groq3 0 (Groq.newKey Examples.digest "a")
              eq_refl) as (s1 & k1 & Hm & Hl & Hq & _).
  exists s1, k1. split; [exact Hm|]. split; [exact Hl|].
  split; [exact Hq|].
  assert (Hs1 : Ok tt s1
                = Groq.markRateLimited Examples.leap "groq-a" Examples.groq3)
    by (symmetry; exact Hm).
  assert (Hv : exists k1c s1c,
             Groq.markRateLimited Examples.leap "groq-a" Examples.groq3
             = Ok tt s1c
             /\ keys s1c !! 0%nat = Some k1c
             /\ Groq.rateLimitedUntil k1c = 61000
             /\ exists s2 : Store Groq.GroqKey,
                 Groq.get Examples.leap Examples.fam "groq-kimi" false s1c
                 = Ok (Groq.set_field (Groq.newKey Examples.digest "b")
                                      (Groq.F_lastUsed 401000)) s2).
  { eexists _, _. split; [vm_compute; reflexivity|].
    split; [vm_compute; reflexivity|].
    split; [vm_compute; reflexivity|].
    eexists. vm_compute. reflexivity. }
  destruct Hv as (k1c & s1c & Hmc & Hlc & Hu & Hg).
  rewrite Hmc in Hm. inversion Hm; subst s1c.
  rewrite Hlc in Hl. inversion Hl; subst k1c.
  split; [exact Hu | exact Hg].
Defined.

(** X11.  How [GroqKeyChecker.testKey] classifies a probe that does not
    throw, from the status and the body [makeRequest] hands over: [ACTIVE]
    exactly for a 200 whose body passes [isModelsResponse]; [INVALID]
    exactly for a 401 with an error message; [RATE_LIMITED] exactly for a
    429 with an error message; [UNKNOWN] for everything else; never
    [DEAD]. *)
Theorem groq_probe_classification
        (o : GroqChecker.AxiosOutcome) (st : Groq.GroqKeyStatus)
        (inf : string) :
  GroqChecker.testKey o = inr (st, inf) ->
  (st = Groq.ACTIVE <->
   (GroqChecker.makeRequest o).1 = 200
   /\ GroqChecker.isModelsResponse (GroqChecker.makeRequest o).2 = inr true)
  /\ (st = Groq.INVALID <->
      (GroqChecker.makeRequest o).1 = 401
      /\ GroqChecker.isErrorResponse (GroqChecker.makeRequest o).2 = true)
  /\ (st = Groq.RATE_LIMITED <->
      (GroqChecker.makeRequest o).1 = 429
      /\ GroqChecker.isErrorResponse (GroqChecker.makeRequest o).2 = true)
  /\ st <> Groq.DEAD.
Proof.
  intros Ht.
  destruct (ProbeFacts.groq_testKey_table o st inf Ht) as (Ha & Hi & Hr & Hd).
  split; [exact Ha|]. split; [exact Hi|]. split; [exact Hr | exact Hd].
Qed.

Lemma groq_probe_classification_witness :
  GroqChecker.testKey
    (GroqChecker.Rejected
       (Some (401, GroqChecker.Body None
                     (Some (GroqChecker.mkErrorBody (Some "bad key")
                                                    (Some "auth")))))
       "Request failed with status code 401")
  = inr (Groq.INVALID, "Invalid key: bad key")
  /\ Groq.INVALID <> Groq.DEAD.
Proof.
  split; [reflexivity|].
  apply (groq_probe_classification
           (GroqChecker.Rejected
              (Some (401, GroqChecker.Body None
                            (Some (GroqChecker.mkErrorBody (Some "bad key")
                                                           (Some "auth")))))
              "Request failed with status code 401")
           Groq.INVALID "Invalid key: bad key" eq_refl).
Defined.

(** X12.  [GroqKeyChecker.testKey] throws only in one case: a 200 whose
    [data] array holds a [null] element with every element before it
    passing the check of [isModelsResponse]; the exception is the
    TypeError of reading a property of [null].  [testKeyOrFail] then
    throws the same exception and the pool is not touched. *)
Theorem groq_probe_throws_on_null_item
        (clock : nat -> Z) (k : Groq.GroqKey) (o : GroqChecker.AxiosOutcome)
        (e : Error) (s : Store Groq.GroqKey) :
  (GroqChecker.testKey o = inl e <->
   e = TypeError
   /\ (GroqChecker.makeRequest o).1 = 200
   /\ exists (pre post : list (option GroqChecker.ModelItem))
             (err : option GroqChecker.ErrorBody),
       (GroqChecker.makeRequest o).2
       = GroqChecker.Body (Some (pre ++ None :: post)) err
       /\ Forall (fun x => GroqChecker.item_ok x = inr true) pre)
  /\ (GroqChecker.testKey o = inl e ->
      GroqChecker.testKeyOrFail clock k o s = Throw e s).
Proof.
  split; [|apply ProbeFacts.groq_testKeyOrFail_throws].
  rewrite ProbeFacts.groq_testKey_throws.
  destruct (GroqChecker.makeRequest o) as [http d]. cbn [fst snd].
  split.
  - intros [H200 Hm]. destruct d as [|[items|] err]; try discriminate.
    cbn [GroqChecker.isModelsResponse] in Hm.
    apply ProbeFacts.every_item_ok_throws in Hm
      as (-> & pre & post & -> & Hpre).
    split; [reflexivity|]. split; [exact H200|].
    exists pre, post, err. split; [reflexivity | exact Hpre].
  - intros (-> & H200 & pre & post & err & -> & Hpre).
    split; [exact H200|]. cbn [GroqChecker.isModelsResponse].
    apply ProbeFacts.every_item_ok_throws. split; [reflexivity|].
    exists pre, post. split; [reflexivity | exact Hpre].
Qed.

(** X13.  [GroqKeyChecker.testKeyOrFail] on a credential of the pool,
    when the probe is classified: the record takes the status and the
    info of the classification, its [rateLimitInfo] becomes undefined, it
    is stamped with the time of the check, [isOverQuota] is true exactly
    for [RATE_LIMITED] and [INVALID], and the secret, the hash, the usage
    stamps, the lockout stamps and the families stay; an [INVALID] result
    disables the record, any other result enables a record that was
    [DEAD] or [INVALID] and leaves the flag of any other record. *)
Theorem groq_probe_updates_record
        (clock : nat -> Z) (key0 : Groq.GroqKey)
        (o : GroqChecker.AxiosOutcome) (s : Store Groq.GroqKey)
        (i : nat) (k : Groq.GroqKey)
        (st : Groq.GroqKeyStatus) (inf : string) :
  find_by Groq.hash (Groq.hash key0) (keys s) = Some (i, k) ->
  GroqChecker.testKey o = inr (st, inf) ->
  exists k' : Groq.GroqKey,
    GroqChecker.testKeyOrFail clock key0 o s
    = Ok tt (mkStore (<[i := k']> (keys s)) (S (ticks s)) (checker s))
    /\ Groq.status k' = st
    /\ Groq.info k' = inf
    /\ Groq.rateLimitInfo k' = None
    /\ Groq.lastChecked k' = clock (ticks s)
    /\ Groq.isOverQuota k'
       = (bool_decide (st = Groq.RATE_LIMITED)
          || bool_decide (st = Groq.INVALID))
    /\ Groq.bookkeeping k' = Groq.bookkeeping k
    /\ Groq.modelFamilies k' = Groq.modelFamilies k
    /\ Groq.isDisabled k'
       = (if bool_decide (st = Groq.DEAD) || bool_decide (st = Groq.INVALID)
          then true
          else if bool_decide (Groq.status k = Groq.DEAD)
                  || bool_decide (Groq.status k = Groq.INVALID)
          then false else Groq.isDisabled k).
Proof.
  intros Hf Ht.
  destruct (ProbeFacts.groq_testKeyOrFail_found clock key0 o s i k st inf
              Hf Ht) as (k' & H).
  exists k'. exact H.
Qed.

Lemma groq_probe_updates_record_witness :
  exists k' : Groq.GroqKey,
    GroqChecker.testKeyOrFail Examples.clk (Groq.newKey Examples.digest "b")
      (GroqChecker.Resolved 200
         (GroqChecker.Body
            (Some [Some (GroqChecker.mkItem (Some "kimi-k2") (Some "model")
                                            (Some 1) None)])
            None))
      Examples.groq3
    = Ok tt (mkStore (<[1%nat := k']> (keys Examples.groq3)) 1 None)
    /\ Groq.status k' = Groq.ACTIVE
    /\ Groq.info k' = "Valid key with access to 1 models"
    /\ Groq.lastChecked k' = 1000.
Proof.
  destruct (groq_probe_updates_record Examples.clk
              (Groq.newKey Examples.digest "b")
              (GroqChecker.Resolved 200
                 (GroqChecker.Body
                    (Some [Some (GroqChecker.mkItem (Some "kimi-k2")
                                   (Some "model") (Some 1) None)])
                    None))
              Examples.groq3 1 (Groq.newKey Examples.digest "b")
              Groq.ACTIVE "Valid key with access to 1 models"
              eq_refl ltac:(vm_compute; reflexivity))
    as (k' & Hres & Hst & Hinf & _ & Hlc & _).
  exists k'. split; [exact Hres|]. split; [exact Hst|].
  split; [exact Hinf | exact Hlc].
Defined.

(** X14.  Recovery of a Groq credential.  An enabled record that the
    proxy marks rate limited and that a later probe finds [ACTIVE] has
    lost its over-quota flag, still carries the lockout stamp of
    [markRateLimited], and is a candidate of [get] again: once the
    lockout of one minute is over, [get] returns a credential. *)
Theorem groq_recovers_after_probe
        (clock : nat -> Z) (family : string -> string)
        (key0 : Groq.GroqKey) (o : GroqChecker.AxiosOutcome) (inf : string)
        (s : Store Groq.GroqKey) (i : nat) (k0 : Groq.GroqKey)
        (rawModel : string) (streaming : bool) :
  find_by Groq.hash (Groq.hash key0) (keys s) = Some (i, k0) ->
  Groq.isDisabled k0 = false ->
  GroqChecker.testKey o = inr (Groq.ACTIVE, inf) ->
  family rawModel ∈ Groq.modelFamilies k0 ->
  (forall n : nat, (ticks s + 3 <= n)%nat ->
                   clock (ticks s) + Groq.RATE_LIMIT_LOCKOUT <= clock n) ->
  exists (s1 s2 : Store Groq.GroqKey) (k2 : Groq.GroqKey),
    Groq.markRateLimited clock (Groq.hash key0) s = Ok tt s1
    /\ GroqChecker.testKeyOrFail clock key0 o s1 = Ok tt s2
    /\ keys s2 !! i = Some k2
    /\ Groq.status k2 = Groq.ACTIVE
    /\ Groq.rateLimitedUntil k2 = clock (ticks s) + Groq.RATE_LIMIT_LOCKOUT
    /\ Groq.healthy (family rawModel) k2
    /\ exists (k : Groq.GroqKey) (s3 : Store Groq.GroqKey),
        Groq.get clock family rawModel streaming s2 = Ok k s3.
Proof.
  intros Hf Hd Ht Hfam Hclock.
  destruct (LockoutFacts.groq_marked_then_probed clock family key0 o inf s
              i k0 rawModel streaming Hf Hd Ht Hfam Hclock)
    as (s1 & s2 & k2 & H).
  exists s1, s2, k2. exact H.
Qed.

Lemma groq_recovers_after_probe_witness :
  exists (s1 s2 : Store Groq.GroqKey) (k2 : Groq.GroqKey),
    Groq.markRateLimited Examples.leap "groq-a" Examples.groq3 = Ok tt s1
    /\ GroqChecker.testKeyOrFail Examples.leap
         (Groq.newKey Examples.digest "a")
         (GroqChecker.Resolved 200
            (GroqChecker.Body
               (Some [Some (GroqChecker.mkItem (Some "kimi-k2")
                              (Some "model") (Some 1) None)])
               None)) s1
       = Ok tt s2
    /\ keys s2 !! 0%nat = Some k2
    /\ Groq.status k2 = Groq.ACTIVE
    /\ Groq.rateLimitedUntil k2 = 61000
    /\ exists (k : Groq.GroqKey) (s3 : Store Groq.GroqKey),
        Groq.get Examples.leap Examples.fam "groq-kimi" false s2 = Ok k s3.
Proof.
  destruct (groq_recovers_after_probe Examples.leap Examples.fam
              (Groq.newKey Examples.digest "a")
              (GroqChecker.Resolved 200
                 (GroqChecker.Body
                    (Some [Some (GroqChecker.mkItem (Some "kimi-k2")
                                   (Some "model") (Some 1) None)])
                    None))
              "Valid key with access to 1 models"
              Examples.groq3 0 (Groq.newKey Examples.digest "a")
              "groq-kimi" false)
    as (s1 & s2 & k2 & Hm & Hp & Hl & Hst & Hu & _ & Hget).
  - reflexivity.
  - reflexivity.
  - vm_compute. reflexivity.
  - unfold Examples.fam. repeat constructor.
  - intros n Hn. change (ticks Examples.groq3) with 0%nat in *.
    unfold Examples.leap, Groq.RATE_LIMIT_LOCKOUT. lia.
  - exists s1, s2, k2. split; [exact Hm|]. split; [exact Hp|].
    split; [exact Hl|]. split; [exact Hst|]. split; [exact Hu | exact Hget].
Defined.

(** X15.  [GroqKeyChecker.handleAxiosError] for a 429, on a credential of
    the pool: the record becomes [RATE_LIMITED] and over quota and is
    stamped as checked now, while its lockout stamps stay as they were;
    whenever a later [get] succeeds, at any time, it returns another
    record. *)
Theorem groq_probe_429_marks_over_quota
        (clock : nat -> Z) (family : string -> string)
        (k : Groq.GroqKey) (s : Store Groq.GroqKey)
        (i : nat) (k0 : Groq.GroqKey) :
  find_by Groq.hash (Groq.hash k) (keys s) = Some (i, k0) ->
  exists (s1 : Store Groq.GroqKey) (k1 : Groq.GroqKey),
    Groq.handleAxiosError clock k (Some 429) s = Ok tt s1
    /\ keys s1 !! i = Some k1
    /\ Groq.status k1 = Groq.RATE_LIMITED
    /\ Groq.isOverQuota k1 = true
    /\ Groq.lastChecked k1 = clock (ticks s)
    /\ Groq.rateLimitedAt k1 = Groq.rateLimitedAt k0
    /\ Groq.rateLimitedUntil k1 = Groq.rateLimitedUntil k0
    /\ forall (rawModel : string) (streaming : bool)
              (k2 : Groq.GroqKey) (s2 : Store Groq.GroqKey),
        Groq.get clock family rawModel streaming s1 = Ok k2 s2 ->
        exists (j : nat) (kj : Groq.GroqKey),
          j <> i /\ keys s1 !! j = Some kj
          /\ k2 = Groq.set_field kj (Groq.F_lastUsed (Groq.lastUsed k2))
          /\ keys s2 !! i = Some k1.
Proof.
  intros Hf.
  destruct (CheckerFacts.groq_handleAxiosError_429_excludes clock family k s
              i k0 Hf) as (s1 & k1 & H).
  exists s1, k1. exact H.
Qed.

Lemma groq_probe_429_marks_over_quota_witness :
  exists (s1 : Store Groq.GroqKey) (k1 : Groq.GroqKey),
    Groq.handleAxiosError Examples.clk (Groq.newKey Examples.digest "a")
      (Some 429) Examples.groq3 = Ok tt s1
    /\ keys s1 !! 0%nat = Some k1
    /\ Groq.status k1 = Groq.RATE_LIMITED
    /\ Groq.isOverQuota k1 = true
    /\ Groq.rateLimitedUntil k1 = 0.
Proof.
  destruct (groq_probe_429_marks_over_quota Examples.clk Examples.fam
              (Groq.newKey Examples.digest "a") Examples.groq3 0
              (Groq.newKey Examples.digest "a") eq_refl)
    as (s1 & k1 & Hres & Hl & Hst & Hq & _ & _ & Hu & _).
  exists s1, k1. split; [exact Hres|]. split; [exact Hl|].
  split; [exact Hst|]. split; [exact Hq | exact Hu].
Defined.

(** X16.  [OpenRouterKeyChecker.handleAxiosError] for a 429, on a
    credential of the pool: the record becomes 'UNKNOWN (Rate Limited)',
    is disabled but not revoked, loses its paid and free-tier flags and
    its balance, and is stamped as checked now, while its lockout stamps
    stay as they were; whenever a later [get] succeeds it returns another
    record. *)
Theorem openrouter_probe_429_disables
        (clock : nat -> Z) (family : string -> string)
        (k : OpenRouter.OpenRouterKey) (s : Store OpenRouter.OpenRouterKey)
        (i : nat) (k0 : OpenRouter.OpenRouterKey) :
  find_by OpenRouter.hash (OpenRouter.hash k) (keys s) = Some (i, k0) ->
  exists (s1 : Store OpenRouter.OpenRouterKey)
         (k1 : OpenRouter.OpenRouterKey),
    OpenRouter.handleAxiosError clock k (Some 429) s = Ok tt s1
    /\ keys s1 !! i = Some k1
    /\ OpenRouter.status k1 = OpenRouter.UNKNOWN_Rate_Limited
    /\ OpenRouter.isDisabled k1 = true
    /\ OpenRouter.isRevoked k1 = false
    /\ OpenRouter.isPaid k1 = false
    /\ OpenRouter.isFreeTier k1 = false
    /\ OpenRouter.remainingBalance k1 = None
    /\ OpenRouter.lastChecked k1 = clock (ticks s)
    /\ OpenRouter.rateLimitedAt k1 = OpenRouter.rateLimitedAt k0
    /\ OpenRouter.rateLimitedUntil k1 = OpenRouter.rateLimitedUntil k0
    /\ forall (rawModel : string) (streaming : bool)
              (k2 : OpenRouter.OpenRouterKey)
              (s2 : Store OpenRouter.OpenRouterKey),
        OpenRouter.get clock family rawModel streaming s1 = Ok k2 s2 ->
        exists (j : nat) (kj : OpenRouter.OpenRouterKey),
          j <> i /\ keys s1 !! j = Some kj
          /\ k2 = OpenRouter.set_field kj
                    (OpenRouter.F_lastUsed (OpenRouter.lastUsed k2))
          /\ keys s2 !! i = Some k1.
Proof.
  intros Hf.
  destruct (CheckerFacts.or_handleAxiosError_429_excludes clock family k s
              i k0 Hf) as (s1 & k1 & H).
  exists s1, k1. exact H.
Qed.

Lemma openrouter_probe_429_disables_witness :
  exists (s1 : Store OpenRouter.OpenRouterKey)
         (k1 : OpenRouter.OpenRouterKey),
    OpenRouter.handleAxiosError Examples.clk
      (Examples.or_key "a" OpenRouter.PAID_Balance true false (Some 10%Q) 100)
      (Some 429) Examples.or_two_paid = Ok tt s1
    /\ keys s1 !! 0%nat = Some k1
    /\ OpenRouter.status k1 = OpenRouter.UNKNOWN_Rate_Limited
    /\ OpenRouter.isDisabled k1 = true
    /\ OpenRouter.isPaid k1 = false
    /\ OpenRouter.remainingBalance k1 = None.
Proof.
  destruct (openrouter_probe_429_disables Examples.clk Examples.fam
              (Examples.or_key "a" OpenRouter.PAID_Balance true false
                               (Some 10%Q) 100)
              Examples.or_two_paid 0
              (Examples.or_key "a" OpenRouter.PAID_Balance true false
                               (Some 10%Q) 100) eq_refl)
    as (s1 & k1 & Hres & Hl & Hst & Hd & _ & Hp & _ & Hb & _).
  exists s1, k1. split; [exact Hres|]. split; [exact Hl|].
  split; [exact Hst|]. split; [exact Hd|]. split; [exact Hp | exact Hb].
Defined.

(** X17.  The path [selectUpstreamPath] sets for a URL that starts with
    [/v1/]: the three characters [/v1] are dropped and everything after
    them, the query string included, is kept as it is. *)
Theorem upstream_path_drops_v1 (r : string) :
  Mutation.upstream_path ("/v1/" +:+ r) = "/" +:+ r.
Proof.
  rewrite PathFacts.upstream_path_v1_slash. reflexivity.
Qed.

(** X18.  The path [selectUpstreamPath] sets for a URL that starts with
    [/v1] and goes on without a slash: two characters are dropped, so the
    path that is set starts with the digit [1] and not with a slash
    ([/v1models] becomes [1models], [/v1] becomes [1]). *)
Theorem upstream_path_v1_without_slash (r : string) :
  OpenRouter.startsWith r "/" = false ->
  Mutation.upstream_path ("/v1" +:+ r) = "1" +:+ r.
Proof.
  intros Hr. rewrite (PathFacts.upstream_path_v1_bare r Hr). reflexivity.
Qed.

Lemma upstream_path_v1_without_slash_witness :
  Mutation.upstream_path "/v1models" = "1models"
  /\ Mutation.upstream_path "/v1" = "1"
  /\ Mutation.upstream_path "/v1?limit=5" = "1?limit=5".
Proof.
  split; [|split].
  - exact (upstream_path_v1_without_slash "models" eq_refl).
  - exact (upstream_path_v1_without_slash EmptyString eq_refl).
  - exact (upstream_path_v1_without_slash "?limit=5" eq_refl).
Defined.

(** X19.  [selectUpstreamPath] changes the URL exactly when it starts
    with [/v1]: any other URL is set again as it is, query string
    included. *)
Theorem upstream_path_fixed_iff (u : string) :
  Mutation.upstream_path u = u <-> OpenRouter.startsWith u "/v1" = false.
Proof.
  split; [|apply PathFacts.upstream_path_other].
  intros Hfix. destruct (OpenRouter.startsWith u "/v1") eqn:E; [|reflexivity].
  exfalso. unfold OpenRouter.startsWith in E.
  apply PathFacts.prefix_split in E as [r ->].
  destruct (OpenRouter.startsWith r "/") eqn:Er.
  - unfold OpenRouter.startsWith in Er.
    apply PathFacts.prefix_split in Er as [r' ->].
    change ("/v1" +:+ "/" +:+ r') with ("/v1/" +:+ r') in Hfix.
    rewrite PathFacts.upstream_path_v1_slash in Hfix.
    apply (f_equal String.length) in Hfix.
    change (S (String.length r') = S (S (S (S (String.length r'))))) in Hfix.
    lia.
  - rewrite (PathFacts.upstream_path_v1_bare r Er) in Hfix. discriminate.
Qed.

(** X20.  [recheck()] followed by [get], with distinct hashes in the
    pool.  In the Groq provider a record whose lockout is over is eligible
    after [recheck], whatever its status and flags were before (a disabled
    or revoked record too), so [get] returns a credential.  In the
    OpenRouter provider every [get] after [recheck] throws the exhaustion
    error, whatever the model, since [recheck] leaves every record with a
    status of priority zero. *)
Theorem recheck_then_get
        (clock : nat -> Z) (family : string -> string)
        (rawModel : string) (streaming : bool) :
  (forall (s : Store Groq.GroqKey) (i : nat) (k0 : Groq.GroqKey),
      NoDup (Groq.hash <$> keys s) ->
      keys s !! i = Some k0 ->
      family rawModel ∈ Groq.modelFamilies k0 ->
      (forall n : nat, (ticks s <= n)%nat ->
                       Groq.rateLimitedUntil k0 <= clock n) ->
      exists (s1 : Store Groq.GroqKey) (k1 : Groq.GroqKey),
        Groq.recheck clock s = Ok tt s1
        /\ keys s1 !! i = Some k1
        /\ Groq.healthy (family rawModel) k1
        /\ exists (k : Groq.GroqKey) (s2 : Store Groq.GroqKey),
            Groq.get clock family rawModel streaming s1 = Ok k s2)
  /\ (forall s : Store OpenRouter.OpenRouterKey,
      NoDup (OpenRouter.hash <$> keys s) ->
      exists s1 s2 : Store OpenRouter.OpenRouterKey,
        OpenRouter.recheck clock s = Ok tt s1
        /\ OpenRouter.get clock family rawModel streaming s1
           = Throw (PaymentRequiredError
                      (if bool_decide (family rawModel = "openrouter-paid")
                       then OpenRouter.paid_message
                       else OpenRouter.free_message)) s2
        /\ keys s2 = keys s1).
Proof.
  split.
  - intros s i k0 Hnd Hi Hfam Hfree.
    exact (ComposeFacts.groq_recheck_then_get clock family s i k0 rawModel
             streaming Hnd Hi Hfam Hfree).
  - intros s Hnd.
    exact (ComposeFacts.or_recheck_then_get_throws clock family s rawModel
             streaming Hnd).
Qed.

Lemma recheck_then_get_witness :
  (exists s0 : Store Groq.GroqKey,
      Groq.get Examples.clk Examples.fam "groq-kimi" false Examples.groq_off
      = Throw (PaymentRequiredError "No active Groq keys available.") s0)
  /\ exists (s1 : Store Groq.GroqKey) (k : Groq.GroqKey)
            (s2 : Store Groq.GroqKey),
      Groq.recheck Examples.clk Examples.groq_off = Ok tt s1
      /\ Groq.get Examples.clk Examples.fam "groq-kimi" false s1 = Ok k s2.
Proof.
  split; [eexists; vm_compute; reflexivity|].
  destruct (proj1 (recheck_then_get Examples.clk Examples.fam "groq-kimi"
                     false)
              Examples.groq_off 0%nat
              (Groq.set_field (Groq.newKey Examples.digest "a")
                              (Groq.F_isDisabled true)))
    as (s1 & k1 & Hr & _ & _ & k & s2 & Hget).
  - compute_done.
  - reflexivity.
  - unfold Examples.fam. cbn. repeat constructor.
  - intros n _. cbn. unfold Examples.clk. lia.
  - exists s1, k, s2. split; [exact Hr | exact Hget].
Defined.

(** X21.  The lockout of [OpenRouterKeyProvider.markRateLimited] is a
    matter of time only.  On an eligible record the call writes the end of
    the lockout, now + 15 s, and leaves the status and the eligibility;
    a [get] all of whose clock readings lie before that end returns
    another record; once the clock has passed it, [get] returns a
    credential again, with no check in between. *)
Theorem openrouter_lockout_ends_by_itself
        (clock : nat -> Z) (family : string -> string) (h : string)
        (s : Store OpenRouter.OpenRouterKey) (i : nat)
        (k0 : OpenRouter.OpenRouterKey)
        (rawModel : string) (streaming : bool) :
  find_by OpenRouter.hash h (keys s) = Some (i, k0) ->
  OpenRouter.healthy (family rawModel) k0 ->
  exists (s1 : Store OpenRouter.OpenRouterKey)
         (k1 : OpenRouter.OpenRouterKey),
    OpenRouter.markRateLimited clock h s = Ok tt s1
    /\ keys s1 !! i = Some k1
    /\ OpenRouter.rateLimitedUntil k1
       = clock (ticks s) + OpenRouter.RATE_LIMIT_LOCKOUT
    /\ OpenRouter.status k1 = OpenRouter.status k0
    /\ OpenRouter.healthy (family rawModel) k1
    /\ (forall (k : OpenRouter.OpenRouterKey)
               (s2 : Store OpenRouter.OpenRouterKey),
          OpenRouter.get clock family rawModel streaming s1 = Ok k s2 ->
          (forall n : nat,
              (ticks s1 <= n < ticks s2)%nat ->
              clock n < clock (ticks s) + OpenRouter.RATE_LIMIT_LOCKOUT) ->
          exists (j : nat) (kj : OpenRouter.OpenRouterKey),
            j <> i /\ keys s1 !! j = Some kj
            /\ k = OpenRouter.set_field kj
                     (OpenRouter.F_lastUsed (OpenRouter.lastUsed k))
            /\ keys s2 !! i = Some k1)
    /\ ((forall n : nat,
            (ticks s1 <= n)%nat ->
            clock (ticks s) + OpenRouter.RATE_LIMIT_LOCKOUT <= clock n) ->
        exists (k : OpenRouter.OpenRouterKey)
               (s2 : Store OpenRouter.OpenRouterKey),
          OpenRouter.get clock family rawModel streaming s1 = Ok k s2).
Proof.
  intros Hf Hh.
  destruct (ComposeFacts.or_lockout_time_boxed clock family h s i k0
              rawModel streaming Hf Hh) as (s1 & k1 & H).
  exists s1, k1. exact H.
Qed.

Lemma openrouter_lockout_ends_by_itself_witness :
  exists (s1 : Store OpenRouter.OpenRouterKey)
         (k1 : OpenRouter.OpenRouterKey)
         (k : OpenRouter.OpenRouterKey)
         (s2 : Store OpenRouter.OpenRouterKey),
    OpenRouter.markRateLimited Examples.leap "or-a" Examples.or_free1
    = Ok tt s1
    /\ keys s1 !! 0%nat = Some k1
    /\ OpenRouter.rateLimitedUntil k1 = 16000
    /\ OpenRouter.status k1 = OpenRouter.FREE_Active
    /\ OpenRouter.get Examples.leap Examples.fam "openrouter-free" false s1
       = Ok k s2.
Proof.
  destruct (openrouter_lockout_ends_by_itself Examples.leap Examples.fam
              "or-a" Examples.or_free1 0
              (Examples.or_key "a" OpenRouter.FREE_Active false true
                               (Some 0.01%Q) 0)
              "openrouter-free" false eq_refl)
    as (s1 & k1 & Hm & Hl & Hu & Hst & _ & _ & Hafter).
  - split; [reflexivity|]. split; [discriminate|].
    split; [intros H; discriminate H|].
    split; [intros _ [_ H]; discriminate H|].
    unfold Examples.fam. cbn. repeat constructor.
  - assert (Hs1 : s1 = mkStore
                         [OpenRouter.locked 1000
                            (Examples.or_key "a" OpenRouter.FREE_Active false
                                             true (Some 0.01%Q) 0)]
                         1 None).
    { assert (E : OpenRouter.markRateLimited Examples.leap "or-a"
                    Examples.or_free1
                  = Ok tt (mkStore
                             [OpenRouter.locked 1000
                                (Examples.or_key "a" OpenRouter.FREE_Active
                                   false true (Some 0.01%Q) 0)]
                             1 None)) by reflexivity.
      rewrite E in Hm. inversion Hm. reflexivity. }
    destruct Hafter as (k & s2 & Hget).
    + intros n Hn. rewrite Hs1 in Hn. cbn [ticks] in Hn.
      unfold Examples.leap, OpenRouter.RATE_LIMIT_LOCKOUT. cbn [ticks Examples.or_free1]. lia.
    + exists s1, k1, k, s2. split; [exact Hm|]. split; [exact Hl|].
      split; [exact Hu|]. split; [exact Hst | exact Hget].
Defined.

(** X22.  A Groq probe that gets no response at all ends in the status
    [UNKNOWN] with the message of the failure in the info: the record is
    stamped as checked now, is not over quota, keeps its lockout stamp,
    is enabled if it was [DEAD] or [INVALID] and keeps its flag otherwise;
    a record that was enabled and entitled to a family passes every check
    of [get] that does not read the clock. *)
Theorem groq_probe_without_response
        (clock : nat -> Z) (key0 : Groq.GroqKey) (msg : string)
        (s : Store Groq.GroqKey) (i : nat) (k0 : Groq.GroqKey)
        (requiredFamily : string) :
  find_by Groq.hash (Groq.hash key0) (keys s) = Some (i, k0) ->
  exists k1 : Groq.GroqKey,
    GroqChecker.testKeyOrFail clock key0 (GroqChecker.Rejected None msg) s
    = Ok tt (mkStore (<[i := k1]> (keys s)) (S (ticks s)) (checker s))
    /\ Groq.status k1 = Groq.UNKNOWN
    /\ Groq.info k1 = (if bool_decide (msg = EmptyString)
                       then "Unexpected response status: 500"
                       else "Error (network_error): " +:+ msg)
    /\ Groq.lastChecked k1 = clock (ticks s)
    /\ Groq.rateLimitedUntil k1 = Groq.rateLimitedUntil k0
    /\ Groq.isOverQuota k1 = false
    /\ Groq.isDisabled k1
       = (if bool_decide (Groq.status k0 = Groq.DEAD)
             || bool_decide (Groq.status k0 = Groq.INVALID)
          then false else Groq.isDisabled k0)
    /\ (Groq.isDisabled k0 = false ->
        requiredFamily ∈ Groq.modelFamilies k0 ->
        Groq.healthy requiredFamily k1).
Proof.
  intros Hf.
  destruct (ComposeFacts.groq_probe_network clock key0 msg s i k0
              requiredFamily Hf) as (k1 & H).
  exists k1. exact H.
Qed.

Lemma groq_probe_without_response_witness :
  exists k1 : Groq.GroqKey,
    GroqChecker.testKeyOrFail Examples.clk (Groq.newKey Examples.digest "a")
      (GroqChecker.Rejected None "connect ETIMEDOUT") Examples.groq_off
    = Ok tt (mkStore (<[0%nat := k1]> (keys Examples.groq_off)) 1 None)
    /\ Groq.status k1 = Groq.UNKNOWN
    /\ Groq.info k1 = "Error (network_error): connect ETIMEDOUT"
    /\ Groq.isDisabled k1 = true.
Proof.
  destruct (groq_probe_without_response Examples.clk
              (Groq.newKey Examples.digest "a") "connect ETIMEDOUT"
              Examples.groq_off 0
              (Groq.set_field (Groq.newKey Examples.digest "a")
                              (Groq.F_isDisabled true))
              "groq-kimi" eq_refl)
    as (k1 & Hres & Hst & Hinf & _ & _ & _ & Hd & _).
  exists k1. split; [exact Hres|]. split; [exact Hst|].
  split; [exact Hinf | exact Hd].
Defined.

(** X23.  How [get] breaks ties, in both providers.  The record it
    returns may stand before every eligible record in the order of the
    sort, and among the eligible records that may in turn stand before it
    (the ones the comparator ranks the same) it is the one at the lowest
    position of the pool: the sort is stable and the filter keeps the
    order of the pool. *)
Theorem get_breaks_ties_by_position
        (clock : nat -> Z) (family : string -> string)
        (rawModel : string) (streaming : bool) :
  (forall (s s' : Store Groq.GroqKey) (k : Groq.GroqKey),
      Groq.get clock family rawModel streaming s = Ok k s' ->
      exists (j : nat) (kj : Groq.GroqKey),
        keys s !! j = Some kj
        /\ k = Groq.set_field kj (Groq.F_lastUsed (Groq.lastUsed k))
        /\ keys s' = <[j := k]> (keys s)
        /\ forall (i : nat) (ki : Groq.GroqKey),
            keys s !! i = Some ki ->
            Groq.healthy (family rawModel) ki ->
            (forall n : nat, (ticks s <= n < ticks s')%nat ->
                             Groq.rateLimitedUntil ki <= clock n) ->
            before Groq.by_priority (j, kj) (i, ki)
            /\ (before Groq.by_priority (i, ki) (j, kj) -> (j <= i)%nat))
  /\ (forall (s s' : Store OpenRouter.OpenRouterKey)
             (k : OpenRouter.OpenRouterKey),
      OpenRouter.get clock family rawModel streaming s = Ok k s' ->
      exists (j : nat) (kj : OpenRouter.OpenRouterKey),
        keys s !! j = Some kj
        /\ k = OpenRouter.set_field kj
                 (OpenRouter.F_lastUsed (OpenRouter.lastUsed k))
        /\ keys s' = <[j := k]> (keys s)
        /\ forall (i : nat) (ki : OpenRouter.OpenRouterKey),
            keys s !! i = Some ki ->
            OpenRouter.healthy (family rawModel) ki ->
            (forall n : nat, (ticks s <= n < ticks s')%nat ->
                             OpenRouter.rateLimitedUntil ki <= clock n) ->
            before OpenRouter.by_priority (j, kj) (i, ki)
            /\ (before OpenRouter.by_priority (i, ki) (j, kj) ->
                (j <= i)%nat)).
Proof.
  split.
  - intros s s' k Hget.
    exact (OrderFacts.groq_get_first_among_ties clock family rawModel
             streaming s s' k Hget).
  - intros s s' k Hget.
    exact (OrderFacts.or_get_first_among_ties clock family rawModel
             streaming s s' k Hget).
Qed.

Lemma get_breaks_ties_by_position_witness :
  exists s' : Store OpenRouter.OpenRouterKey,
    OpenRouter.get Examples.clk Examples.fam "openrouter-free" false
      Examples.or_two_free
    = Ok (OpenRouter.set_field
            (Examples.or_key "a" OpenRouter.FREE_Active false true
                             (Some 0.01%Q) 0)
            (OpenRouter.F_lastUsed 1002)) s'
    /\ exists (j : nat) (kj : OpenRouter.OpenRouterKey),
        keys Examples.or_two_free !! j = Some kj
        /\ keys s'
           = <[j := OpenRouter.set_field
                      (Examples.or_key "a" OpenRouter.FREE_Active false true
                                       (Some 0.01%Q) 0)
                      (OpenRouter.F_lastUsed 1002)]>
               (keys Examples.or_two_free)
        /\ (j <= 0)%nat.
Proof.
  assert (Hget : OpenRouter.get Examples.clk Examples.fam "openrouter-free"
                   false Examples.or_two_free
                 = Ok (OpenRouter.set_field
                         (Examples.or_key "a" OpenRouter.FREE_Active false
                                          true (Some 0.01%Q) 0)
                         (OpenRouter.F_lastUsed 1002))
                      (final_store
                         (OpenRouter.get Examples.clk Examples.fam
                            "openrouter-free" false Examples.or_two_free)))
    by (vm_compute; reflexivity).
  eexists. split; [exact Hget|].
  destruct (proj2 (get_breaks_ties_by_position Examples.clk Examples.fam
                     "openrouter-free" false) _ _ _ Hget)
    as (j & kj & Hj & _ & Hkeys & Hties).
  exists j, kj. split; [exact Hj|]. split; [exact Hkeys|].
  refine (proj2 (Hties 0%nat
                   (Examples.or_key "a" OpenRouter.FREE_Active false true
                                    (Some 0.01%Q) 0) eq_refl _ _) _).
  - split; [reflexivity|]. split; [discriminate|].
    split; [intros H; discriminate H|].
    split; [intros _ [_ H]; discriminate H|].
    unfold Examples.fam. cbn. repeat constructor.
  - intros n _. cbn. unfold Examples.clk. lia.
  - destruct j as [|[|j]]; [| |discriminate Hj];
      injection Hj as <-;
      apply OpenRouterFacts.or_before_by_priority; right;
      (split; [reflexivity|]); right; (split; [reflexivity|]); cbn; lia.
Defined.

(** X24.  The first good check opens the OpenRouter pool.  When
    [testKey] resolves with 'PAID (Balance)' and a balance that is
    unknown or above zero, or with 'FREE (Active)' for a request that is
    not of the paid family, [testKeyOrFail] leaves the record with that
    status and balance and eligible, also when it was disabled as [DEAD]
    or unchecked before, so the next [get] returns a credential once the
    lockout of the record is over. *)
Theorem openrouter_check_opens_pool
        (clock : nat -> Z) (family : string -> string)
        (key0 : OpenRouter.OpenRouterKey)
        (st : OpenRouter.OpenRouterKeyStatus) (inf : string) (b : option Q)
        (s : Store OpenRouter.OpenRouterKey) (i : nat)
        (k0 : OpenRouter.OpenRouterKey)
        (rawModel : string) (streaming : bool) :
  find_by OpenRouter.hash (OpenRouter.hash key0) (keys s) = Some (i, k0) ->
  (OpenRouter.isDisabled k0 = false
   \/ OpenRouter.status k0 = OpenRouter.DEAD
   \/ OpenRouter.status k0 = OpenRouter.UNKNOWN_Rate_Limited) ->
  family rawModel ∈ OpenRouter.modelFamilies k0 ->
  (forall n : nat, (ticks s <= n)%nat ->
                   OpenRouter.rateLimitedUntil k0 <= clock n) ->
  ((st = OpenRouter.PAID_Balance
    /\ match b with Some q => (0 < q)%Q | None => True end)
   \/ (st = OpenRouter.FREE_Active
       /\ family rawModel <> "openrouter-paid")) ->
  exists (s1 : Store OpenRouter.OpenRouterKey)
         (k1 : OpenRouter.OpenRouterKey),
    OpenRouterChecker.testKeyOrFail clock key0 (st, inf, b) s = Ok tt s1
    /\ keys s1 !! i = Some k1
    /\ OpenRouter.status k1 = st
    /\ OpenRouter.remainingBalance k1 = b
    /\ OpenRouter.healthy (family rawModel) k1
    /\ exists (k : OpenRouter.OpenRouterKey)
              (s2 : Store OpenRouter.OpenRouterKey),
        OpenRouter.get clock family rawModel streaming s1 = Ok k s2.
Proof.
  intros Hf Hen Hfam Hfree Hsuit.
  destruct (OrProbeFacts.or_check_then_get clock family key0 st inf b s i k0
              rawModel streaming Hf Hen Hfam Hfree Hsuit)
    as (s1 & k1 & H).
  exists s1, k1. exact H.
Qed.

Lemma openrouter_check_opens_pool_witness :
  (exists s0 : Store OpenRouter.OpenRouterKey,
      OpenRouter.get Examples.clk Examples.fam "openrouter-paid" false
        (OpenRouter.load Examples.digest ["a"; "b"])
      = Throw (PaymentRequiredError OpenRouter.paid_message) s0)
  /\ exists (s1 : Store OpenRouter.OpenRouterKey)
            (k1 k : OpenRouter.OpenRouterKey)
            (s2 : Store OpenRouter.OpenRouterKey),
      OpenRouterChecker.testKeyOrFail Examples.clk
        (OpenRouter.newKey Examples.digest "b")
        (OpenRouter.PAID_Balance, "Account Balance: $4.5000", Some 4.5%Q)
        (OpenRouter.load Examples.digest ["a"; "b"]) = Ok tt s1
      /\ keys s1 !! 1%nat = Some k1
      /\ OpenRouter.status k1 = OpenRouter.PAID_Balance
      /\ OpenRouter.get Examples.clk Examples.fam "openrouter-paid" false s1
         = Ok k s2.
Proof.
  split; [eexists; vm_compute; reflexivity|].
  destruct (openrouter_check_opens_pool Examples.clk Examples.fam
              (OpenRouter.newKey Examples.digest "b")
              OpenRouter.PAID_Balance "Account Balance: $4.5000"
              (Some 4.5%Q)
              (OpenRouter.load Examples.digest ["a"; "b"]) 1
              (OpenRouter.newKey Examples.digest "b")
              "openrouter-paid" false)
    as (s1 & k1 & Hres & Hl & Hst & _ & _ & k & s2 & Hget).
  - reflexivity.
  - left. reflexivity.
  - unfold Examples.fam. cbn. repeat constructor.
  - intros n _. cbn. unfold Examples.clk. lia.
  - left. split; [reflexivity|]. reflexivity.
  - exists s1, k1, k, s2. split; [exact Hres|]. split; [exact Hl|].
    split; [exact Hst | exact Hget].
Defined.

(** X25.  [OpenRouterKeyChecker.testKey] up to its second [return], by
    what the request to the key endpoint did.  It throws a [TypeError]
    exactly when the status is not 429 and the body is [null] or
    [undefined], which a rejected request never hands over, as
    [makeRequest] puts the error message in place of a falsy body.  It
    goes on to the tier and balance logic exactly when the status is 200
    and the body has truthy [data].  In every other case it returns:
    'UNKNOWN (Rate Limited)' for a 429 and 'DEAD' for anything else, a
    request that got no response included, with no balance;
    [testKeyOrFail] then leaves the record disabled, revoked when [DEAD],
    without a balance, and whenever a later [get] succeeds it returns
    another record. *)
Theorem openrouter_failed_probe_disables :
  (forall (o : OpenRouterChecker.AxiosOutcome) (e : Error),
      OpenRouterChecker.testKey_early o = inl e
      <-> e = TypeError
          /\ (OpenRouterChecker.makeRequest o).1 <> 429
          /\ (OpenRouterChecker.makeRequest o).2 = OpenRouterChecker.Nullish)
  /\ (forall o : OpenRouterChecker.AxiosOutcome,
         OpenRouterChecker.testKey_early o = inr None
         <-> (OpenRouterChecker.makeRequest o).1 = 200
             /\ exists msg : option string,
                 (OpenRouterChecker.makeRequest o).2
                 = OpenRouterChecker.Value true msg)
  /\ (forall o : OpenRouterChecker.AxiosOutcome,
         (exists r : OpenRouterChecker.TestResult,
             OpenRouterChecker.testKey_early o = inr (Some r))
         <-> (OpenRouterChecker.makeRequest o).1 = 429
             \/ ((OpenRouterChecker.makeRequest o).2
                 <> OpenRouterChecker.Nullish
                 /\ ~ ((OpenRouterChecker.makeRequest o).1 = 200
                       /\ exists msg : option string,
                           (OpenRouterChecker.makeRequest o).2
                           = OpenRouterChecker.Value true msg)))
  /\ (forall (resp : option (Z * OpenRouterChecker.KeyResult))
             (msg : string),
         exists (data : bool) (m : option string),
           (OpenRouterChecker.makeRequest
              (OpenRouterChecker.Rejected resp msg)).2
           = OpenRouterChecker.Value data m)
  /\ (forall msg : string,
         OpenRouterChecker.testKey_early
           (OpenRouterChecker.Rejected None msg)
         = inr (Some (OpenRouter.DEAD,
                      if bool_decide (msg = EmptyString)
                      then "Invalid response" else msg,
                      None)))
  /\ (forall (clock : nat -> Z) (family : string -> string)
             (key0 : OpenRouter.OpenRouterKey)
             (o : OpenRouterChecker.AxiosOutcome)
             (r : OpenRouterChecker.TestResult)
             (s : Store OpenRouter.OpenRouterKey) (i : nat)
             (k0 : OpenRouter.OpenRouterKey),
         find_by OpenRouter.hash (OpenRouter.hash key0) (keys s)
         = Some (i, k0) ->
         OpenRouterChecker.testKey_early o = inr (Some r) ->
         exists (s1 : Store OpenRouter.OpenRouterKey)
                (k1 : OpenRouter.OpenRouterKey),
           OpenRouterChecker.testKeyOrFail clock key0 r s = Ok tt s1
           /\ keys s1 !! i = Some k1
           /\ (OpenRouter.status k1 = OpenRouter.DEAD
               \/ OpenRouter.status k1 = OpenRouter.UNKNOWN_Rate_Limited)
           /\ (OpenRouter.status k1 = OpenRouter.UNKNOWN_Rate_Limited
               <-> (OpenRouterChecker.makeRequest o).1 = 429)
           /\ OpenRouter.isDisabled k1 = true
           /\ OpenRouter.isRevoked k1
              = bool_decide (OpenRouter.status k1 = OpenRouter.DEAD)
           /\ OpenRouter.remainingBalance k1 = None
           /\ forall (rawModel : string) (streaming : bool)
                     (k2 : OpenRouter.OpenRouterKey)
                     (s2 : Store OpenRouter.OpenRouterKey),
               OpenRouter.get clock family rawModel streaming s1
               = Ok k2 s2 ->
               exists (j : nat) (kj : OpenRouter.OpenRouterKey),
                 j <> i /\ keys s1 !! j = Some kj
                 /\ k2 = OpenRouter.set_field kj
                           (OpenRouter.F_lastUsed (OpenRouter.lastUsed k2))
                 /\ keys s2 !! i = Some k1).
Proof.
  split; [exact OrProbeFacts.or_testKey_early_throws|].
  split; [exact OrProbeFacts.or_testKey_early_passes|].
  split; [|split; [exact OrProbeFacts.or_makeRequest_rejected_body|split]].
  - intros o.
    pose proof (OrProbeFacts.or_testKey_early_throws o TypeError) as Hthrow.
    pose proof (OrProbeFacts.or_testKey_early_passes o) as Hpass.
    destruct (OpenRouterChecker.testKey_early o) as [e|[r|]] eqn:Ht.
    + assert (He : e = TypeError) by (destruct e; [|reflexivity];
        apply OrProbeFacts.or_testKey_early_throws in Ht as [E _];
        discriminate E).
      subst e. destruct (proj1 Hthrow eq_refl) as (_ & Hn & Hb).
      split; [intros [r Hr]; discriminate Hr|].
      intros [E | [Hnn _]]; contradiction.
    + split; [|intros _; exists r; reflexivity]. intros _.
      destruct (decide ((OpenRouterChecker.makeRequest o).1 = 429))
        as [E|E]; [left; exact E|right]. split.
      * intros Hb.
        assert (Hx : @inr Error (option OpenRouterChecker.TestResult)
                       (Some r) = inl TypeError)
          by (apply Hthrow; split; [reflexivity|split; assumption]).
        discriminate Hx.
      * intros Hp. apply Hpass in Hp. discriminate Hp.
    + split; [intros [r Hr]; discriminate Hr|].
      destruct (proj1 Hpass eq_refl) as (E200 & m & Hb).
      intros [E | [_ Hn]]; exfalso.
      * rewrite E200 in E. discriminate E.
      * apply Hn. split; [exact E200 | exists m; exact Hb].
  - exact OrProbeFacts.or_testKey_early_network.
  - intros clock family key0 o r s i k0 Hf Ht.
    destruct (OrProbeFacts.or_failed_probe_disables clock family key0 o r s
                i k0 Hf Ht) as (s1 & k1 & H).
    exists s1, k1. exact H.
Qed.

Lemma openrouter_failed_probe_disables_witness :
  OpenRouterChecker.testKey_early
    (OpenRouterChecker.Rejected None "connect ETIMEDOUT")
  = inr (Some (OpenRouter.DEAD, "connect ETIMEDOUT", None))
  /\ OpenRouterChecker.testKey_early
       (OpenRouterChecker.Resolved 200 OpenRouterChecker.Nullish)
     = inl TypeError
  /\ exists (s1 : Store OpenRouter.OpenRouterKey)
            (k1 : OpenRouter.OpenRouterKey),
      OpenRouterChecker.testKeyOrFail Examples.clk
        (Examples.or_key "a" OpenRouter.PAID_Balance true false
                         (Some 10%Q) 100)
        (OpenRouter.DEAD, "connect ETIMEDOUT", None) Examples.or_two_paid
      = Ok tt s1
      /\ keys s1 !! 0%nat = Some k1
      /\ OpenRouter.isDisabled k1 = true
      /\ OpenRouter.isRevoked k1
         = bool_decide (OpenRouter.status k1 = OpenRouter.DEAD)
      /\ OpenRouter.remainingBalance k1 = None.
Proof.
  split; [reflexivity|]. split.
  { apply (proj2 (proj1 openrouter_failed_probe_disables
                    (OpenRouterChecker.Resolved 200
                       OpenRouterChecker.Nullish) TypeError)).
    split; [reflexivity|]. split; [discriminate | reflexivity]. }
  destruct (proj2 (proj2 (proj2 (proj2 (proj2
              openrouter_failed_probe_disables))))
              Examples.clk Examples.fam
              (Examples.or_key "a" OpenRouter.PAID_Balance true false
                               (Some 10%Q) 100)
              (OpenRouterChecker.Rejected None "connect ETIMEDOUT")
              (OpenRouter.DEAD, "connect ETIMEDOUT", None)
              Examples.or_two_paid 0%nat
              (Examples.or_key "a" OpenRouter.PAID_Balance true false
                               (Some 10%Q) 100)
              eq_refl eq_refl)
    as (s1 & k1 & Hres & Hl & _ & _ & Hd & Hr & Hb & _).
  exists s1, k1. split; [exact Hres|]. split; [exact Hl|].
  split; [exact Hd|]. split; [exact Hr | exact Hb].
Defined.

(** X26.  A Groq pool as the constructor leaves it is served round
    robin.  With at least one secret configured, a model of one of the
    seven Groq families, and a clock that is above zero and grows from
    one reading to the next, the successive calls of [get] all succeed,
    and call number [m] (counting from zero) returns the credential whose
    secret is the configured secret number [m mod n], [n] being the
    number of secrets: fresh records tie and the lowest position wins,
    and a record that has been served is the most recently used one. *)
Theorem groq_serves_round_robin
        (clock : nat -> Z) (family : string -> string)
        (digest : string -> string) (bareKeys : list string)
        (rawModel : string) (streaming : bool) :
  (forall a b : nat, (a < b)%nat -> clock a < clock b) ->
  0 < clock 0%nat ->
  family rawModel ∈ ["groq-llama-8b"; "groq-llama-70b"; "groq-llama-4-17b";
                     "groq-gpt-oss-120b"; "groq-gpt-oss-20b"; "groq-kimi";
                     "groq-qwen-32b"] ->
  bareKeys <> [] ->
  exists pool : nat -> Store Groq.GroqKey,
    pool 0%nat = Groq.load digest bareKeys
    /\ forall m : nat,
        exists k : Groq.GroqKey,
          Groq.get clock family rawModel streaming (pool m)
          = Ok k (pool (S m))
          /\ Groq.key k = bareKeys !! (m mod length bareKeys)%nat.
Proof.
  intros Hinc Hpos Hfam Hne.
  exists (RotationFacts.pool_after clock family digest bareKeys rawModel
            streaming).
  split; [reflexivity|]. intros m.
  exact (RotationFacts.groq_rotation clock family digest bareKeys rawModel
           streaming Hinc Hpos Hfam Hne m).
Qed.

Lemma groq_serves_round_robin_witness :
  exists pool : nat -> Store Groq.GroqKey,
    pool 0%nat = Examples.groq3
    /\ forall m : nat,
        exists k : Groq.GroqKey,
          Groq.get Examples.clk Examples.fam "groq-kimi" false (pool m)
          = Ok k (pool (S m))
          /\ Groq.key k = ["a"; "b"; "c"] !! (m mod 3)%nat.
Proof.
  apply (groq_serves_round_robin Examples.clk Examples.fam Examples.digest
           ["a"; "b"; "c"] "groq-kimi" false).
  - intros a b Hab. unfold Examples.clk. lia.
  - unfold Examples.clk. lia.
  - unfold Examples.fam. repeat constructor.
  - discriminate.
Defined.
